(** * Level data model of the GrimpossibleMission level editor

    A shallow embedding of [Utils/LevelEditor/data_models.py]: rooms with a
    walled tile interior, the legacy linear layout, floor layouts with
    undirected door connections, level validation and the JSON codec.

    Python integers are [Z]; Python lists are [list]; the dictionary
    [FloorLayout.grid] is a [gmap] keyed by (row, col); exceptions are the
    [Raise] branch of [result].

    The editor widgets of [level_editor.py], [layout_editor.py] and
    [tile_canvas.py] are embedded on the data they read and write: the
    undo stack, the canvas operations on the current room, and the handlers
    of the room and layout tabs. *)

From Stdlib Require Import ZArith Lia List Ascii String DecimalString DecimalZ.
From stdpp Require Import base option list list_numbers sorting gmap strings pretty.

Local Open Scope Z_scope.
Set Warnings "-register-all".

(** ** Exceptions *)

Inductive exn : Type :=
  | IndexError
  | KeyError
  | TypeError
  | AttributeError
  | JSONDecodeError
  | NotModelled.

Inductive result (A : Type) : Type :=
  | Ok (a : A)
  | Raise (e : exn).
Arguments Ok {A} a.
Arguments Raise {A} e.

#[global] Instance result_ret : MRet result := fun A a => Ok a.
#[global] Instance result_bind : MBind result := fun A B f m =>
  match m with
  | Ok a => f a
  | Raise e => Raise e
  end.
#[global] Instance result_fmap : FMap result := fun A B f m =>
  match m with
  | Ok a => Ok (f a)
  | Raise e => Raise e
  end.

Definition is_Ok {A} (m : result A) : Prop := exists a, m = Ok a.

(** ** Python built-ins used by the model *)

(** [range(n)]: empty when [n <= 0]. *)
Definition py_range (n : Z) : list Z := seqZ 0 n.

(** [len(l)] *)
Definition len {A} (l : list A) : Z := Z.of_nat (length l).

(** [l[i]]: negative indices count from the end, anything else out of
    range raises [IndexError]. *)
Definition py_getitem {A} (l : list A) (i : Z) : result A :=
  let j := if i <? 0 then i + len l else i in
  if (0 <=? j) && (j <? len l) then
    match l !! Z.to_nat j with
    | Some a => Ok a
    | None => Raise IndexError
    end
  else Raise IndexError.

(** [l[i] = v] *)
Definition py_setitem {A} (l : list A) (i : Z) (v : A) : result (list A) :=
  let j := if i <? 0 then i + len l else i in
  if (0 <=? j) && (j <? len l) then Ok (<[Z.to_nat j := v]> l)
  else Raise IndexError.

(** [for x in xs: s = body(x, s)], stopping at the first exception. *)
Fixpoint for_each {S} (xs : list Z) (body : Z -> S -> result S) (s : S)
  : result S :=
  match xs with
  | [] => Ok s
  | x :: xs' => s' ← body x s; for_each xs' body s'
  end.

(** [del d[k]] *)
Definition py_del `{Countable K} {V} (d : gmap K V) (k : K)
  : result (gmap K V) :=
  if decide (is_Some (d !! k)) then Ok (delete k d) else Raise KeyError.

(** [l.insert(i, a)]: the index is clamped to the list. *)
Definition py_insert {A} (l : list A) (i : Z) (a : A) : list A :=
  let j := if i <? 0 then Z.max 0 (i + len l) else Z.min i (len l) in
  take (Z.to_nat j) l ++ a :: drop (Z.to_nat j) l.

(** [l.pop(i)] without its return value. *)
Definition py_pop {A} (l : list A) (i : Z) : result (list A) :=
  let j := if i <? 0 then i + len l else i in
  if (0 <=? j) && (j <? len l) then Ok (delete (Z.to_nat j) l)
  else Raise IndexError.

(** [l.sort(key=key)] and [sorted(l, key=key)]: the stable sort, written
    as insertion from the right; an element goes before the first later
    element whose key is not smaller. *)
Fixpoint insert_by {A} (key : A -> Z) (a : A) (l : list A) : list A :=
  match l with
  | [] => [a]
  | b :: l' => if key a <=? key b then a :: l else b :: insert_by key a l'
  end.

Fixpoint sort_by {A} (key : A -> Z) (l : list A) : list A :=
  match l with
  | [] => []
  | a :: l' => insert_by key a (sort_by key l')
  end.

(** [str(n)] for an integer. *)
Definition py_str (n : Z) : string := NilZero.string_of_int (Z.to_int n).

(** [sep.join(l)] *)
Definition py_join (sep : string) (l : list string) : string :=
  String.concat sep l.

(** [enumerate(l)] *)
Definition enumerate {A} (l : list A) : list (Z * A) :=
  imap (fun i a => (Z.of_nat i, a)) l.

(** ** JSON-representable Python values: the contents of the
    dictionaries [exits], [theme] and [tile_types], and what [json.load]
    returns.  A [dict] keeps its insertion order. *)

Inductive json : Type :=
  | JNull
  | JBool (b : bool)
  | JInt (z : Z)
  | JStr (s : string)
  | JList (l : list json)
  | JDict (kvs : list (string * json)).

Definition dict : Type := list (string * json).

(** ** The [json] module of the Python standard library, as far as the
    level files need it: integers, strings over the code points below
    256, [null], booleans, lists and string-keyed dictionaries.  Floats
    and larger code points are reported as [NotModelled]. *)


Module Json.
Local Open Scope string_scope.

Definition ch_quote : ascii := "034"%char.
Definition ch_backslash : ascii := "092"%char.
Definition ch_lf : ascii := "010"%char.
Definition ch_cr : ascii := "013"%char.
Definition ch_tab : ascii := "009"%char.
Definition ch_bs : ascii := "008"%char.
Definition ch_ff : ascii := "012"%char.

Definition str1 (c : ascii) : string := String c "".

(** *** Encoder *)

Definition hex_digit (n : N) : ascii :=
  match n with
  | 0 => "0" | 1 => "1" | 2 => "2" | 3 => "3" | 4 => "4" | 5 => "5"
  | 6 => "6" | 7 => "7" | 8 => "8" | 9 => "9" | 10 => "a" | 11 => "b"
  | 12 => "c" | 13 => "d" | 14 => "e" | _ => "f"
  end%N%char.

(** One character under [ensure_ascii]: the short escapes, the
    printable ASCII range as it is, [\u00XX] for the rest. *)
Definition escape_char (c : ascii) : string :=
  if Ascii.eqb c ch_quote then String ch_backslash (str1 ch_quote)
  else if Ascii.eqb c ch_backslash then String ch_backslash (str1 ch_backslash)
  else if Ascii.eqb c ch_lf then String ch_backslash "n"
  else if Ascii.eqb c ch_cr then String ch_backslash "r"
  else if Ascii.eqb c ch_tab then String ch_backslash "t"
  else if Ascii.eqb c ch_bs then String ch_backslash "b"
  else if Ascii.eqb c ch_ff then String ch_backslash "f"
  else
    let n := N_of_ascii c in
    if ((32 <=? n) && (n <=? 126))%N then str1 c
    else String ch_backslash
           (String "u" (String "0" (String "0"
              (String (hex_digit (n / 16)) (str1 (hex_digit (n mod 16))))))).

Fixpoint escape (s : string) : string :=
  match s with
  | "" => ""
  | String c s' => escape_char c ++ escape s'
  end.

Definition encode_string (s : string) : string :=
  String ch_quote (escape s ++ str1 ch_quote).

Fixpoint spaces (n : nat) : string :=
  match n with
  | O => ""
  | S n' => String " " (spaces n')
  end.

(** [newline_indent] of the encoder: nothing without [indent]. *)
Definition newline_indent (indent : option nat) (level : nat) : string :=
  match indent with
  | None => ""
  | Some n => String ch_lf (spaces (n * level))
  end.

Definition item_separator (indent : option nat) : string :=
  match indent with
  | None => ", "
  | Some _ => ","
  end.

Definition key_separator : string := ": ".

Fixpoint dumps_at (indent : option nat) (level : nat) (v : json) : string :=
  match v with
  | JNull => "null"
  | JBool true => "true"
  | JBool false => "false"
  | JInt z => py_str z
  | JStr s => encode_string s
  | JList [] => "[]"
  | JList vs =>
      "[" ++ newline_indent indent (S level) ++
      py_join (item_separator indent ++ newline_indent indent (S level))
              (List.map (dumps_at indent (S level)) vs) ++
      newline_indent indent level ++ "]"
  | JDict [] => "{}"
  | JDict kvs =>
      "{" ++ newline_indent indent (S level) ++
      py_join (item_separator indent ++ newline_indent indent (S level))
              (List.map
                 (fun kv : string * json =>
                    encode_string kv.1 ++ key_separator ++
                    dumps_at indent (S level) kv.2)
                 kvs) ++
      newline_indent indent level ++ "}"
  end.

(** [json.dumps(v)] and [json.dumps(v, indent=n)] *)
Definition dumps (indent : option nat) (v : json) : string :=
  dumps_at indent 0 v.

(** *** Decoder: a scanner, one character at a time, then a parser on
    the tokens. *)

Inductive token : Type :=
  | TLBrace | TRBrace | TLBracket | TRBracket | TComma | TColon
  | TNull | TTrue | TFalse
  | TInt (z : Z)
  | TStr (s : string).

(** What the scanner is in the middle of. *)
Inductive mode : Type :=
  | MStart
  | MStr (acc : string)
  | MEsc (acc : string)
  | MUni (acc : string) (digits : list N)
  | MNum (text : string)
  | MLit (tok : token) (expected : string).

(** Tokens are collected most recent first. *)
Definition scanner : Type := (list token * mode)%type.

Definition is_digit (c : ascii) : bool :=
  let n := N_of_ascii c in ((48 <=? n) && (n <=? 57))%N.

Definition is_space (c : ascii) : bool :=
  Ascii.eqb c " " || Ascii.eqb c ch_lf || Ascii.eqb c ch_cr || Ascii.eqb c ch_tab.

Definition hex_value (c : ascii) : option N :=
  let n := N_of_ascii c in
  if ((48 <=? n) && (n <=? 57))%N then Some (n - 48)%N
  else if ((97 <=? n) && (n <=? 102))%N then Some (n - 87)%N
  else if ((65 <=? n) && (n <=? 70))%N then Some (n - 55)%N
  else None.

(** The integer written by [text]: an optional minus sign, then either
    a single 0 or digits that do not start with 0. *)
Definition int_of_text (text : string) : result Z :=
  let digits :=
    match text with
    | String "-" ds => ds
    | _ => text
    end in
  match digits with
  | "" => Raise JSONDecodeError
  | String "0" (String _ _) => Raise JSONDecodeError
  | _ =>
      match NilEmpty.int_of_string text with
      | Some d => Ok (Z.of_int d)
      | None => Raise JSONDecodeError
      end
  end.

(** A character met at the start of a token. *)
Definition step_start (out : list token) (c : ascii) : result scanner :=
  if is_space c then Ok (out, MStart)
  else if Ascii.eqb c "{" then Ok (TLBrace :: out, MStart)
  else if Ascii.eqb c "}" then Ok (TRBrace :: out, MStart)
  else if Ascii.eqb c "[" then Ok (TLBracket :: out, MStart)
  else if Ascii.eqb c "]" then Ok (TRBracket :: out, MStart)
  else if Ascii.eqb c "," then Ok (TComma :: out, MStart)
  else if Ascii.eqb c ":" then Ok (TColon :: out, MStart)
  else if Ascii.eqb c ch_quote then Ok (out, MStr "")
  else if Ascii.eqb c "n" then Ok (out, MLit TNull "ull")
  else if Ascii.eqb c "t" then Ok (out, MLit TTrue "rue")
  else if Ascii.eqb c "f" then Ok (out, MLit TFalse "alse")
  else if Ascii.eqb c "-" || is_digit c then Ok (out, MNum (str1 c))
  else if Ascii.eqb c "N" || Ascii.eqb c "I" then Raise NotModelled
  else Raise JSONDecodeError.

Definition step (sc : scanner) (c : ascii) : result scanner :=
  let '(out, m) := sc in
  match m with
  | MStart => step_start out c
  | MStr acc =>
      if Ascii.eqb c ch_quote then Ok (TStr acc :: out, MStart)
      else if Ascii.eqb c ch_backslash then Ok (out, MEsc acc)
      else if (N_of_ascii c <? 32)%N then Raise JSONDecodeError
      else Ok (out, MStr (acc ++ str1 c))
  | MEsc acc =>
      if Ascii.eqb c ch_quote then Ok (out, MStr (acc ++ str1 ch_quote))
      else if Ascii.eqb c ch_backslash then Ok (out, MStr (acc ++ str1 ch_backslash))
      else if Ascii.eqb c "/" then Ok (out, MStr (acc ++ "/"))
      else if Ascii.eqb c "b" then Ok (out, MStr (acc ++ str1 ch_bs))
      else if Ascii.eqb c "f" then Ok (out, MStr (acc ++ str1 ch_ff))
      else if Ascii.eqb c "n" then Ok (out, MStr (acc ++ str1 ch_lf))
      else if Ascii.eqb c "r" then Ok (out, MStr (acc ++ str1 ch_cr))
      else if Ascii.eqb c "t" then Ok (out, MStr (acc ++ str1 ch_tab))
      else if Ascii.eqb c "u" then Ok (out, MUni acc [])
      else Raise JSONDecodeError
  | MUni acc digits =>
      match hex_value c with
      | None => Raise JSONDecodeError
      | Some h =>
          match digits with
          | [d1; d2; d3] =>
              let code := (((d1 * 16 + d2) * 16 + d3) * 16 + h)%N in
              if (code <? 256)%N
              then Ok (out, MStr (acc ++ str1 (ascii_of_N code)))
              else Raise NotModelled
          | _ => Ok (out, MUni acc (digits ++ [h]))
          end
      end
  | MNum text =>
      if is_digit c then Ok (out, MNum (text ++ str1 c))
      else if Ascii.eqb c "." || Ascii.eqb c "e" || Ascii.eqb c "E" ||
              Ascii.eqb c "I"
      then Raise NotModelled
      else z ← int_of_text text; step_start (TInt z :: out) c
  | MLit tok expected =>
      match expected with
      | String e rest =>
          if Ascii.eqb c e then
            match rest with
            | "" => Ok (tok :: out, MStart)
            | _ => Ok (out, MLit tok rest)
            end
          else Raise JSONDecodeError
      | "" => Raise JSONDecodeError
      end
  end.

Fixpoint scan (sc : scanner) (s : string) : result scanner :=
  match s with
  | "" => Ok sc
  | String c s' =>
      match step sc c with
      | Ok sc' => scan sc' s'
      | Raise e => Raise e
      end
  end.

(** End of input. *)
Definition finish (sc : scanner) : result (list token) :=
  let '(out, m) := sc in
  match m with
  | MStart => Ok (rev out)
  | MNum text => z ← int_of_text text; Ok (rev (TInt z :: out))
  | _ => Raise JSONDecodeError
  end.

Definition tokenize (s : string) : result (list token) :=
  sc ← scan ([], MStart) s; finish sc.

(** [dict(pairs)]: a repeated key keeps its first place and takes the
    last value. *)
Fixpoint dict_set (d : dict) (k : string) (v : json) : dict :=
  match d with
  | [] => [(k, v)]
  | (k', v') :: d' =>
      if String.eqb k' k then (k', v) :: d' else (k', v') :: dict_set d' k v
  end.

Definition dict_of_pairs (pairs : list (string * json)) : dict :=
  foldl (fun d kv => dict_set d kv.1 kv.2) [] pairs.

Fixpoint parse_value (fuel : nat) (ts : list token)
  : result (json * list token) :=
  match fuel with
  | O => Raise NotModelled
  | S fuel' =>
      match ts with
      | TNull :: r => Ok (JNull, r)
      | TTrue :: r => Ok (JBool true, r)
      | TFalse :: r => Ok (JBool false, r)
      | TInt z :: r => Ok (JInt z, r)
      | TStr s :: r => Ok (JStr s, r)
      | TLBracket :: TRBracket :: r => Ok (JList [], r)
      | TLBracket :: r =>
          match parse_elements fuel' r with
          | Ok (vs, r') => Ok (JList vs, r')
          | Raise e => Raise e
          end
      | TLBrace :: TRBrace :: r => Ok (JDict [], r)
      | TLBrace :: r =>
          match parse_members fuel' r with
          | Ok (kvs, r') => Ok (JDict (dict_of_pairs kvs), r')
          | Raise e => Raise e
          end
      | _ => Raise JSONDecodeError
      end
  end
with parse_elements (fuel : nat) (ts : list token)
  : result (list json * list token) :=
  match fuel with
  | O => Raise NotModelled
  | S fuel' =>
      match parse_value fuel' ts with
      | Ok (v, TComma :: r) =>
          match parse_elements fuel' r with
          | Ok (vs, r') => Ok (v :: vs, r')
          | Raise e => Raise e
          end
      | Ok (v, TRBracket :: r) => Ok ([v], r)
      | Ok _ => Raise JSONDecodeError
      | Raise e => Raise e
      end
  end
with parse_members (fuel : nat) (ts : list token)
  : result (list (string * json) * list token) :=
  match fuel with
  | O => Raise NotModelled
  | S fuel' =>
      match ts with
      | TStr k :: TColon :: r =>
          match parse_value fuel' r with
          | Ok (v, TComma :: r1) =>
              match parse_members fuel' r1 with
              | Ok (kvs, r2) => Ok ((k, v) :: kvs, r2)
              | Raise e => Raise e
              end
          | Ok (v, TRBrace :: r1) => Ok ([(k, v)], r1)
          | Ok _ => Raise JSONDecodeError
          | Raise e => Raise e
          end
      | _ => Raise JSONDecodeError
      end
  end.

(** [json.loads(s)]; anything after the value is "Extra data". *)
Definition loads (s : string) : result json :=
  ts ← tokenize s;
  match parse_value (2 * length ts + 2) ts with
  | Ok (v, []) => Ok v
  | Ok (_, _ :: _) => Raise JSONDecodeError
  | Raise e => Raise e
  end.
End Json.

(** *** Reading a decoded document.  The model is typed, Python is
    not: where Python would go on with a value of another type the model
    answers [NotModelled]. *)

Fixpoint dict_get (d : dict) (k : string) : option json :=
  match d with
  | [] => None
  | (k', v) :: d' => if String.eqb k' k then Some v else dict_get d' k
  end.

(** [data[key]] for a string key. *)
Definition py_subscript (data : json) (key : string) : result json :=
  match data with
  | JDict d =>
      match dict_get d key with
      | Some v => Ok v
      | None => Raise KeyError
      end
  | _ => Raise TypeError
  end.

(** [data.get(key, default)] *)
Definition py_get (data : json) (key : string) (default : json)
  : result json :=
  match data with
  | JDict d =>
      match dict_get d key with
      | Some v => Ok v
      | None => Ok default
      end
  | _ => Raise AttributeError
  end.

(** [data[i]] for an integer index. *)
Definition py_index (data : json) (i : Z) : result json :=
  match data with
  | JList l => py_getitem l i
  | JDict _ => Raise KeyError
  | JStr _ => Raise NotModelled
  | _ => Raise TypeError
  end.

(** [for x in data] *)
Definition py_iter (data : json) : result (list json) :=
  match data with
  | JList l => Ok l
  | JDict _ | JStr _ => Raise NotModelled
  | _ => Raise TypeError
  end.

Definition as_int (v : json) : result Z :=
  match v with
  | JInt z => Ok z
  | _ => Raise NotModelled
  end.

Definition as_str (v : json) : result string :=
  match v with
  | JStr s => Ok s
  | _ => Raise NotModelled
  end.

Definition as_dict (v : json) : result dict :=
  match v with
  | JDict d => Ok d
  | _ => Raise NotModelled
  end.

Definition as_optional_int (v : json) : result (option Z) :=
  match v with
  | JNull => Ok None
  | JInt z => Ok (Some z)
  | _ => Raise NotModelled
  end.

(** [[f(x) for x in l]], stopping at the first exception. *)
Fixpoint map_result {A B} (f : A -> result B) (l : list A) : result (list B) :=
  match l with
  | [] => Ok []
  | a :: l' => b ← f a; bs ← map_result f l'; Ok (b :: bs)
  end.

Definition as_int_list (v : json) : result (list Z) :=
  match v with
  | JList l => map_result as_int l
  | _ => Raise NotModelled
  end.

Definition as_int_rows (v : json) : result (list (list Z)) :=
  match v with
  | JList l => map_result as_int_list l
  | _ => Raise NotModelled
  end.

Definition json_of_optional_int (o : option Z) : json :=
  match o with
  | None => JNull
  | Some z => JInt z
  end.

(** ** TileType *)

Module TileType.
Definition EMPTY : Z := 0.
Definition BLOCK : Z := 1.
Definition PLATFORM : Z := 2.
Definition SPAWN : Z := 8.
Definition SEARCHABLE : Z := 9.

Definition get_name (tile_id : Z) : string :=
  if decide (tile_id = EMPTY) then "Empty"
  else if decide (tile_id = BLOCK) then "Block"
  else if decide (tile_id = PLATFORM) then "Platform"
  else if decide (tile_id = SPAWN) then "Spawn"
  else if decide (tile_id = SEARCHABLE) then "Searchable"
  else "Unknown".

Definition get_all_types : list Z :=
  [EMPTY; BLOCK; PLATFORM; SPAWN; SEARCHABLE].
End TileType.

(** ** Room *)

Module Room.
Record t : Type := mk {
  id : Z;
  width : Z;
  height : Z;
  interior : list (list Z);
  exits : dict;
  theme : dict
}.

Definition set_interior (r : t) (i : list (list Z)) : t :=
  mk (id r) (width r) (height r) i (exits r) (theme r).

(** [[[EMPTY for _ in range(w)] for _ in range(h)]] *)
Definition empty_interior (w h : Z) : list (list Z) :=
  (fun _ => (fun _ => TileType.EMPTY) <$> py_range w) <$> py_range h.

Definition default_exits : dict := [("left", JNull); ("right", JNull)]%string.
Definition default_theme : dict :=
  [("wall_color", JStr "darkgray"); ("floor_color", JStr "gray");
   ("ceiling_color", JStr "gray")]%string.

(** [Room(room_id, width, height)] *)
Definition init (room_id w h : Z) : t :=
  mk room_id w h (empty_interior (w - 2) (h - 2)) default_exits default_theme.

Definition get_interior_width (r : t) : Z := width r - 2.
Definition get_interior_height (r : t) : Z := height r - 2.

(** The inner loop of [resize] at row [y]:
    [self.interior[y][x] = old_interior[y][x]]. *)
Definition copy_cell (old : list (list Z)) (y x : Z) (cur : list (list Z))
  : result (list (list Z)) :=
  old_row ← py_getitem old y;
  v ← py_getitem old_row x;
  row ← py_getitem cur y;
  row' ← py_setitem row x v;
  py_setitem cur y row'.

Definition copy_row (old : list (list Z)) (new_w : Z) (y : Z)
    (cur : list (list Z)) : result (list (list Z)) :=
  old0 ← py_getitem old 0;
  for_each (py_range (Z.min (len old0) new_w)) (copy_cell old y) cur.

Definition resize (r : t) (new_width new_height : Z) : result t :=
  let old_interior := interior r in
  let new_interior_width := new_width - 2 in
  let new_interior_height := new_height - 2 in
  let fresh := empty_interior new_interior_width new_interior_height in
  i ← for_each (py_range (Z.min (len old_interior) new_interior_height))
        (copy_row old_interior new_interior_width) fresh;
  Ok (mk (id r) new_width new_height i (exits r) (theme r)).

(** [0 <= y < len(self.interior) and 0 <= x < len(self.interior[0])]:
    the second conjunct is evaluated only when the first holds. *)
Definition in_bounds (r : t) (x y : Z) : result bool :=
  if (0 <=? y) && (y <? len (interior r)) then
    row0 ← py_getitem (interior r) 0;
    Ok ((0 <=? x) && (x <? len row0))
  else Ok false.

Definition get_tile (r : t) (x y : Z) : result Z :=
  b ← in_bounds r x y;
  if b : bool then
    row ← py_getitem (interior r) y;
    py_getitem row x
  else Ok TileType.EMPTY.

Definition set_tile (r : t) (x y : Z) (tile_type : Z) : result t :=
  b ← in_bounds r x y;
  if b : bool then
    row ← py_getitem (interior r) y;
    row' ← py_setitem row x tile_type;
    i ← py_setitem (interior r) y row';
    Ok (set_interior r i)
  else Ok r.

(** [deepcopy] of immutable values is the identity. *)
Definition clone (r : t) : t :=
  mk (id r) (width r) (height r) (interior r) (exits r) (theme r).

Definition to_dict (r : t) : json :=
  JDict [("id", JInt (id r)); ("width", JInt (width r));
         ("height", JInt (height r));
         ("interior", JList ((fun row => JList (JInt <$> row)) <$> interior r));
         ("exits", JDict (exits r)); ("theme", JDict (theme r))]%string.

Definition from_dict (data : json) : result t :=
  id_value ← py_subscript data "id";
  room_id ← as_int id_value;
  width_value ← py_subscript data "width";
  w ← as_int width_value;
  height_value ← py_subscript data "height";
  h ← as_int height_value;
  let room := init room_id w h in
  interior_value ← py_subscript data "interior";
  i ← as_int_rows interior_value;
  exits_value ← py_subscript data "exits";
  e ← as_dict exits_value;
  theme_value ← py_subscript data "theme";
  th ← as_dict theme_value;
  Ok (mk (id room) (width room) (height room) i e th).
End Room.

(** ** LayoutEntry *)

Module LayoutEntry.
Record t : Type := mk {
  room_id : Z;
  position : Z
}.

Definition set_position (le : t) (p : Z) : t := mk (room_id le) p.

Definition to_dict (le : t) : json :=
  JDict [("room_id", JInt (room_id le)); ("position", JInt (position le))]%string.

Definition from_dict (data : json) : result t :=
  room_id_value ← py_subscript data "room_id";
  r ← as_int room_id_value;
  position_value ← py_subscript data "position";
  p ← as_int position_value;
  Ok (mk r p).
End LayoutEntry.

(** ** GridPosition: compared and hashed by (row, col). *)

Module GridPosition.
Abbreviation t := (Z * Z)%type.
Definition mk (row col : Z) : t := (row, col).
Definition row (p : t) : Z := fst p.
Definition col (p : t) : Z := snd p.

Definition to_dict (p : t) : json :=
  JDict [("row", JInt (row p)); ("col", JInt (col p))]%string.

Definition from_dict (data : json) : result t :=
  row_value ← py_subscript data "row";
  r ← as_int row_value;
  col_value ← py_subscript data "col";
  c ← as_int col_value;
  Ok (mk r c).
End GridPosition.

(** ** DoorPosition *)

Module DoorPosition.
Definition NONE : string := "none".
Definition TOP : string := "top".
Definition MID : string := "mid".
Definition BOT : string := "bot".

Definition get_all_positions : list string := [NONE; TOP; MID; BOT].

Definition get_name (position : string) : string :=
  if decide (position = NONE) then "None"
  else if decide (position = TOP) then "Top"
  else if decide (position = MID) then "Middle"
  else if decide (position = BOT) then "Bottom"
  else "Unknown".
End DoorPosition.

(** ** RoomConnection *)

Module RoomConnection.
Record t : Type := mk {
  from_pos : GridPosition.t;
  to_pos : GridPosition.t;
  door_position : string
}.

Definition to_dict (c : t) : json :=
  JDict [("from", GridPosition.to_dict (from_pos c));
         ("to", GridPosition.to_dict (to_pos c));
         ("door_position", JStr (door_position c))]%string.

Definition from_dict (data : json) : result t :=
  from_value ← py_subscript data "from";
  f ← GridPosition.from_dict from_value;
  to_value ← py_subscript data "to";
  t ← GridPosition.from_dict to_value;
  door_value ← py_subscript data "door_position";
  d ← as_str door_value;
  Ok (mk f t d).
End RoomConnection.

(** ** FloorLayout *)

Module FloorLayout.
Record t : Type := mk {
  rows : Z;
  cols : Z;
  grid : gmap (Z * Z) (option Z);
  connections : list RoomConnection.t
}.

Definition set_grid (fl : t) (g : gmap (Z * Z) (option Z)) : t :=
  mk (rows fl) (cols fl) g (connections fl).
Definition set_connections (fl : t) (cs : list RoomConnection.t) : t :=
  mk (rows fl) (cols fl) (grid fl) cs.

(** [for col in range(cols): grid[GridPosition(row, col)] = None] *)
Definition clear_row (row cols : Z) (g : gmap (Z * Z) (option Z))
  : gmap (Z * Z) (option Z) :=
  foldl (fun g col => <[GridPosition.mk row col := None]> g) g (py_range cols).

(** [for row in range(rows): grid[GridPosition(row, col)] = None] *)
Definition clear_column (col rows : Z) (g : gmap (Z * Z) (option Z))
  : gmap (Z * Z) (option Z) :=
  foldl (fun g row => <[GridPosition.mk row col := None]> g) g (py_range rows).

(** [FloorLayout(rows, cols)] *)
Definition init (rows cols : Z) : t :=
  mk rows cols
     (foldl (fun g row => clear_row row cols g) ∅ (py_range rows)) [].

Definition place_room (fl : t) (pos : GridPosition.t) (room_id : option Z)
  : t :=
  if decide (is_Some (grid fl !! pos)) then
    set_grid fl (<[pos := room_id]> (grid fl))
  else fl.

(** [self.grid.get(pos)]: [None] for a missing key and for an empty
    cell alike. *)
Definition get_room_at (fl : t) (pos : GridPosition.t) : option Z :=
  match grid fl !! pos with
  | Some v => v
  | None => None
  end.

Definition add_row (fl : t) : t :=
  let rows' := rows fl + 1 in
  mk rows' (cols fl) (clear_row (rows' - 1) (cols fl) (grid fl))
     (connections fl).

Definition add_column (fl : t) : t :=
  let cols' := cols fl + 1 in
  mk (rows fl) cols' (clear_column (cols' - 1) (rows fl) (grid fl))
     (connections fl).

Definition remove_row (fl : t) : result (bool * t) :=
  if rows fl <=? 1 then Ok (false, fl)
  else if existsb
            (fun col =>
               bool_decide
                 (get_room_at fl (GridPosition.mk (rows fl - 1) col) <> None))
            (py_range (cols fl))
  then Ok (false, fl)
  else
    g ← for_each (py_range (cols fl))
          (fun col g => py_del g (GridPosition.mk (rows fl - 1) col))
          (grid fl);
    let rows' := rows fl - 1 in
    Ok (true,
        mk rows' (cols fl) g
           (filter (fun c =>
                      GridPosition.row (RoomConnection.from_pos c) < rows' /\
                      GridPosition.row (RoomConnection.to_pos c) < rows')
                   (connections fl))).

Definition remove_column (fl : t) : result (bool * t) :=
  if cols fl <=? 1 then Ok (false, fl)
  else if existsb
            (fun row =>
               bool_decide
                 (get_room_at fl (GridPosition.mk row (cols fl - 1)) <> None))
            (py_range (rows fl))
  then Ok (false, fl)
  else
    g ← for_each (py_range (rows fl))
          (fun row g => py_del g (GridPosition.mk row (cols fl - 1)))
          (grid fl);
    let cols' := cols fl - 1 in
    Ok (true,
        mk (rows fl) cols' g
           (filter (fun c =>
                      GridPosition.col (RoomConnection.from_pos c) < cols' /\
                      GridPosition.col (RoomConnection.to_pos c) < cols')
                   (connections fl))).

(** The test shared by [set_connection] and [get_connection]: the
    record joins the two positions, in either orientation. *)
Definition joins (from_pos to_pos : GridPosition.t) (c : RoomConnection.t)
  : Prop :=
  (RoomConnection.from_pos c = from_pos /\ RoomConnection.to_pos c = to_pos) \/
  (RoomConnection.from_pos c = to_pos /\ RoomConnection.to_pos c = from_pos).

#[global] Instance joins_dec from_pos to_pos c :
  Decision (joins from_pos to_pos c).
Proof. unfold joins. apply _. Defined.

Definition set_connection (fl : t) (from_pos to_pos : GridPosition.t)
    (door_position : string) : t :=
  let kept := filter (fun c => ~ joins from_pos to_pos c) (connections fl) in
  if decide (door_position <> DoorPosition.NONE) then
    set_connections fl
      (kept ++ [RoomConnection.mk from_pos to_pos door_position])
  else set_connections fl kept.

(** [for conn in conns: if <joins>: return conn] then [return None] *)
Fixpoint first_joining (from_pos to_pos : GridPosition.t)
    (conns : list RoomConnection.t) : option RoomConnection.t :=
  match conns with
  | [] => None
  | conn :: conns' =>
      if decide (joins from_pos to_pos conn) then Some conn
      else first_joining from_pos to_pos conns'
  end.

Definition get_connection (fl : t) (from_pos to_pos : GridPosition.t)
  : option RoomConnection.t :=
  first_joining from_pos to_pos (connections fl).

(** The [grid_list] built by the two loops of [to_dict]. *)
Definition grid_to_list (fl : t) : list json :=
  (fun row =>
     JList ((fun col =>
               json_of_optional_int
                 (get_room_at fl (GridPosition.mk row col)))
            <$> py_range (cols fl)))
  <$> py_range (rows fl).

Definition to_dict (fl : t) : json :=
  let grid_list := grid_to_list fl in
  JDict [("rows", JInt (rows fl)); ("cols", JInt (cols fl));
         ("grid", JList grid_list);
         ("connections", JList (RoomConnection.to_dict <$> connections fl))]%string.

(** [layout.grid[GridPosition(row, col)] = grid_list[row][col]] *)
Definition load_cell (grid_list : json) (row col : Z)
    (g : gmap (Z * Z) (option Z)) : result (gmap (Z * Z) (option Z)) :=
  grid_row ← py_index grid_list row;
  cell_value ← py_index grid_row col;
  room_id ← as_optional_int cell_value;
  Ok (<[GridPosition.mk row col := room_id]> g).

Definition from_dict (data : json) : result t :=
  rows_value ← py_subscript data "rows";
  r ← as_int rows_value;
  cols_value ← py_subscript data "cols";
  c ← as_int cols_value;
  let layout := init r c in
  grid_list ← py_subscript data "grid";
  g ← for_each (py_range r)
        (fun row g => for_each (py_range c) (load_cell grid_list row) g)
        (grid layout);
  conn_list ← py_get data "connections" (JList []);
  conn_items ← py_iter conn_list;
  conns ← map_result RoomConnection.from_dict conn_items;
  Ok (mk r c g (connections layout ++ conns)).
End FloorLayout.

(** ** Level *)

Module Level.
Record t : Type := mk {
  tile_types : dict;
  rooms : list Room.t;
  layout : list LayoutEntry.t;
  floor_layouts : list FloorLayout.t
}.

Definition default_tile_types : dict :=
  [("0", JDict [("name", JStr "empty"); ("solidType", JStr "none")]);
   ("1", JDict [("name", JStr "block"); ("color", JStr "brown");
                ("solidType", JStr "block")]);
   ("2", JDict [("name", JStr "platform"); ("color", JStr "green");
                ("solidType", JStr "platform")]);
   ("8", JDict [("name", JStr "spawn"); ("color", JStr "magenta");
                ("solidType", JStr "none")]);
   ("9", JDict [("name", JStr "searchable"); ("solidType", JStr "none")])
  ]%string.

(** [Level()] *)
Definition init : t := mk default_tile_types [] [] [].

Definition set_layout (l : t) (lay : list LayoutEntry.t) : t :=
  mk (tile_types l) (rooms l) lay (floor_layouts l).

(** [any(r.id == room_id for r in self.rooms)] *)
Definition has_room (l : t) (room_id : Z) : bool :=
  existsb (fun r => bool_decide (Room.id r = room_id)) (rooms l).

Definition add_room (l : t) (room : Room.t) : bool * t :=
  if has_room l (Room.id room) then (false, l)
  else (true, mk (tile_types l) (rooms l ++ [room]) (layout l)
                 (floor_layouts l)).

(** [lay.sort(key=lambda le: le.position)] followed by
    [for i, le in enumerate(lay): le.position = i]. *)
Definition renumber (lay : list LayoutEntry.t) : list LayoutEntry.t :=
  imap (fun i le => LayoutEntry.set_position le (Z.of_nat i)) lay.

Definition resequence (lay : list LayoutEntry.t) : list LayoutEntry.t :=
  renumber (sort_by LayoutEntry.position lay).

Definition remove_room (l : t) (room_id : Z) : t :=
  mk (tile_types l)
     (filter (fun r => Room.id r <> room_id) (rooms l))
     (resequence
        (filter (fun le => LayoutEntry.room_id le <> room_id) (layout l)))
     (floor_layouts l).

Fixpoint find_room (rs : list Room.t) (room_id : Z) : option Room.t :=
  match rs with
  | [] => None
  | room :: rs' =>
      if decide (Room.id room = room_id) then Some room
      else find_room rs' room_id
  end.

Definition get_room (l : t) (room_id : Z) : option Room.t :=
  find_room (rooms l) room_id.

(** [max(r.id for r in rooms)] on a non-empty list. *)
Definition max_id (first : Room.t) (rest : list Room.t) : Z :=
  foldl (fun m r => Z.max m (Room.id r)) (Room.id first) rest.

Definition get_next_room_id (l : t) : Z :=
  match rooms l with
  | [] => 1
  | first :: rest => max_id first rest + 1
  end.

Definition add_to_layout (l : t) (room_id : Z) : bool * t :=
  if negb (has_room l room_id) then (false, l)
  else
    let position := len (layout l) in
    (true, set_layout l (layout l ++ [LayoutEntry.mk room_id position])).

Definition remove_from_layout (l : t) (position : Z) : t :=
  set_layout l
    (resequence
       (filter (fun le => LayoutEntry.position le <> position) (layout l))).

Definition move_in_layout (l : t) (old_position new_position : Z) : result t :=
  if (old_position <? 0) || (len (layout l) <=? old_position) then Ok l
  else if (new_position <? 0) || (len (layout l) <=? new_position) then Ok l
  else
    entry ← py_getitem (layout l) old_position;
    popped ← py_pop (layout l) old_position;
    Ok (set_layout l (renumber (py_insert popped new_position entry))).

(** *** validate *)

Definition check_room_ids (l : t) : list string :=
  let room_ids := Room.id <$> rooms l in
  if decide (len room_ids <> len (remove_dups room_ids))
  then ["Duplicate room IDs found"%string] else [].

(** The inner [for row in room.interior] with its [break]. *)
Definition check_interior (room : Room.t) : list string :=
  let expected_height := Room.height room - 2 in
  let expected_width := Room.width room - 2 in
  (if decide (len (Room.interior room) <> expected_height)
   then [("Room " ++ py_str (Room.id room) ++ ": Interior height mismatch")%string]
   else []) ++
  (if existsb (fun row => bool_decide (len row <> expected_width))
              (Room.interior room)
   then [("Room " ++ py_str (Room.id room) ++ ": Interior width mismatch")%string]
   else []).

Definition check_layout_refs (l : t) : list string :=
  flat_map
    (fun entry =>
       if negb (has_room l (LayoutEntry.room_id entry))
       then [("Layout references non-existent room " ++
              py_str (LayoutEntry.room_id entry))%string]
       else [])
    (layout l).

Definition check_positions (l : t) : list string :=
  let positions := sort_by (fun p => p) (LayoutEntry.position <$> layout l) in
  let expected := py_range (len (layout l)) in
  if decide (positions <> expected)
  then ["Layout positions are not sequential"%string] else [].

(** [f"Room {room.id} at ({x}, {y})"] *)
Definition spawn_location (room_id x y : Z) : string :=
  ("Room " ++ py_str room_id ++ " at (" ++ py_str x ++ ", " ++ py_str y ++ ")")%string.

(** The three nested loops of the spawn scan; the state is
    [(spawn_count, spawn_locations)]. *)
Definition scan_row (room_id y : Z) (row : list Z) (st : Z * list string)
  : Z * list string :=
  foldl
    (fun st xt =>
       if decide (xt.2 = TileType.SPAWN)
       then (st.1 + 1, st.2 ++ [spawn_location room_id xt.1 y])
       else st)
    st (enumerate row).

Definition scan_room (room : Room.t) (st : Z * list string)
  : Z * list string :=
  foldl (fun st yr => scan_row (Room.id room) yr.1 yr.2 st)
        st (enumerate (Room.interior room)).

Definition scan_spawns (l : t) : Z * list string :=
  foldl (fun st room => scan_room room st) (0, []) (rooms l).

Definition check_spawn (l : t) : list string :=
  let '(spawn_count, spawn_locations) := scan_spawns l in
  if decide (spawn_count = 0)
  then ["No spawn point found in level (place exactly 1 spawn tile)"%string]
  else if decide (spawn_count > 1)
  then [("Multiple spawn points found (" ++ py_str spawn_count ++
         "). Only 1 spawn allowed. Locations: " ++
         py_join ", " spawn_locations)%string]
  else [].

(** The checks before the spawn scan, in the order they run. *)
Definition check_structure (l : t) : list string :=
  check_room_ids l ++ flat_map check_interior (rooms l) ++
  check_layout_refs l ++ check_positions l.

Definition validate (l : t) : list string :=
  check_structure l ++ check_spawn l.

(** *** to_json: the text written to the file *)

Definition nl : string := Json.str1 Json.ch_lf.

(** A double-quoted literal of the source text. *)
Definition quoted (s : string) : string :=
  String Json.ch_quote (s ++ Json.str1 Json.ch_quote).

(** ["[" + ",".join(str(x) for x in row) + "]"] *)
Definition format_row (row : list Z) : string :=
  ("[" ++ py_join "," (py_str <$> row) ++ "]")%string.

Definition format_interior (interior : list (list Z)) : string :=
  let lines := format_row <$> interior in
  ("[" ++ nl ++ "        " ++
   py_join ("," ++ nl ++ "        ") lines ++ nl ++ "      ]")%string.

(** The text appended for room number [i] of [n]. *)
Definition room_text (n : Z) (i : Z) (room : Room.t) : string :=
  ("    {" ++ nl ++
   "      " ++ quoted "id" ++ ": " ++ py_str (Room.id room) ++ "," ++ nl ++
   "      " ++ quoted "width" ++ ": " ++ py_str (Room.width room) ++ "," ++ nl ++
   "      " ++ quoted "height" ++ ": " ++ py_str (Room.height room) ++ "," ++ nl ++
   "      " ++ quoted "interior" ++ ": " ++
     format_interior (Room.interior room) ++ "," ++ nl ++
   "      " ++ quoted "exits" ++ ": " ++
     Json.dumps None (JDict (Room.exits room)) ++ "," ++ nl ++
   "      " ++ quoted "theme" ++ ": " ++
     Json.dumps None (JDict (Room.theme room)) ++ nl ++
   "    }" ++ (if (i <? n - 1)%Z then "," else "") ++ nl)%string.

Definition rooms_text (rs : list Room.t) : string :=
  String.concat "" ((fun ir : Z * Room.t => room_text (len rs) ir.1 ir.2)
                    <$> enumerate rs).

Definition to_json (l : t) : string :=
  ("{" ++ nl ++
   "  " ++ quoted "tile_types" ++ ": " ++
     Json.dumps (Some 4%nat) (JDict (tile_types l)) ++ "," ++ nl ++
   "  " ++ quoted "rooms" ++ ": [" ++ nl ++
   rooms_text (rooms l) ++
   "  ]," ++ nl ++
   "  " ++ quoted "layout" ++ ": " ++
     Json.dumps (Some 4%nat) (JList (LayoutEntry.to_dict <$> layout l)) ++
     "," ++ nl ++
   "  " ++ quoted "floor_layouts" ++ ": " ++
     Json.dumps (Some 4%nat) (JList (FloorLayout.to_dict <$> floor_layouts l)) ++
     nl ++
   "}" ++ nl)%string.

(** *** from_json: [Level.from_json] applied to the text of the file *)

Definition from_json (text : string) : result t :=
  data ← Json.loads text;
  let level := init in
  tile_types_value ← py_get data "tile_types" (JDict (tile_types level));
  tt ← as_dict tile_types_value;
  rooms_value ← py_get data "rooms" (JList []);
  room_items ← py_iter rooms_value;
  rs ← map_result Room.from_dict room_items;
  layout_value ← py_get data "layout" (JList []);
  layout_items ← py_iter layout_value;
  lay ← map_result LayoutEntry.from_dict layout_items;
  floor_value ← py_get data "floor_layouts" (JList []);
  floor_items ← py_iter floor_value;
  fls ← map_result FloorLayout.from_dict floor_items;
  Ok (mk tt (rooms level ++ rs) (layout level ++ lay)
         (floor_layouts level ++ fls)).
End Level.

(** ** Vocabulary of the statements about floor layouts *)

(** The grid is dense: it has an entry exactly for the cells of the
    [rows] x [cols] extent. *)
Definition grid_dense (fl : FloorLayout.t) : Prop :=
  0 <= FloorLayout.rows fl /\ 0 <= FloorLayout.cols fl /\
  forall r c, is_Some (FloorLayout.grid fl !! (r, c)) <->
              (0 <= r < FloorLayout.rows fl /\ 0 <= c < FloorLayout.cols fl).

(** Number of stored records that join [a] and [b], in either
    orientation. *)
Definition joining_count (fl : FloorLayout.t) (a b : GridPosition.t) : nat :=
  length (filter (FloorLayout.joins a b) (FloorLayout.connections fl)).

(** ** Vocabulary of the statements about rooms *)

(** The tile stored at interior column [x], row [y] (0-based). *)
Definition cellN (g : list (list Z)) (y x : nat) : option Z :=
  row ← g !! y; row !! x.

Definition cell (g : list (list Z)) (x y : Z) : option Z :=
  if (0 <=? x) && (0 <=? y) then cellN g (Z.to_nat y) (Z.to_nat x) else None.

(** Every row has [w] entries. *)
Definition rectangular (g : list (list Z)) (w : nat) : Prop :=
  Forall (fun row => length row = w) g.

(** The interior invariant of the data model: [height - 2] rows of
    [width - 2] entries. *)
Definition room_inv (r : Room.t) : Prop :=
  length (Room.interior r) = Z.to_nat (Room.get_interior_height r) /\
  rectangular (Room.interior r) (Z.to_nat (Room.get_interior_width r)).

(** Shape of the interior under construction in [resize], and how far
    the copy loops have got. *)
Definition shaped (h w : nat) (g : list (list Z)) : Prop :=
  length g = h /\ rectangular g w.

(** Row [y] is copied up to column [k]; everything else is as in [g0]. *)
Definition copied (old : list (list Z)) (h w : nat) (y k : nat)
    (g0 g : list (list Z)) : Prop :=
  shaped h w g /\
  forall y' x', cellN g y' x' =
    if decide (y' = y /\ (x' < k)%nat) then cellN old y' x' else cellN g0 y' x'.

(** Rows above [j] are copied over their first [k] columns. *)
Definition rows_copied (old : list (list Z)) (h w : nat) (j k : nat)
    (g0 g : list (list Z)) : Prop :=
  shaped h w g /\
  forall y' x', cellN g y' x' =
    if decide ((y' < j)%nat /\ (x' < k)%nat) then cellN old y' x'
    else cellN g0 y' x'.

(** ** Vocabulary of the statements about levels *)

(** [m] is the largest id held by a room of [rs]. *)
Definition is_max_id (rs : list Room.t) (m : Z) : Prop :=
  (exists r, r ∈ rs /\ Room.id r = m) /\ forall r, r ∈ rs -> Room.id r <= m.

(** Order by a key, as [sort] and [sorted] compare. *)
Definition key_le {A} (key : A -> Z) (a b : A) : Prop := key a <= key b.

Definition position_lt (a b : LayoutEntry.t) : Prop :=
  LayoutEntry.position a < LayoutEntry.position b.

(** The positions of the layout are 0, 1, ..., len - 1, in list order. *)
Definition sequential (lay : list LayoutEntry.t) : Prop :=
  LayoutEntry.position <$> lay = py_range (len lay).

(** [new] is [kept] renumbered in place, and the new position [i] of a
    survivor is ordered as its previous position was. *)
Definition survivors_in_order (kept new : list LayoutEntry.t) : Prop :=
  new = Level.renumber kept /\
  forall i j a b, kept !! i = Some a -> kept !! j = Some b ->
    (LayoutEntry.position a < LayoutEntry.position b <-> (i < j)%nat).

(** [new] is [kept] ordered by position, entries of equal position in the
    order they had in [kept]; every entry keeps its room id and is
    numbered by its index. *)
Definition resequenced (kept new : list LayoutEntry.t) : Prop :=
  exists sorted,
    sorted ≡ₚ kept /\
    StronglySorted (key_le LayoutEntry.position) sorted /\
    (forall k, filter (fun le => LayoutEntry.position le = k) sorted
               = filter (fun le => LayoutEntry.position le = k) kept) /\
    new = imap (fun i le =>
                  LayoutEntry.mk (LayoutEntry.room_id le) (Z.of_nat i)) sorted.

(** [new] is [lay] with the entry at list index [i] taken out and put back
    at list index [j], every entry numbered by its index. *)
Definition moved (lay : list LayoutEntry.t) (i j : nat)
    (new : list LayoutEntry.t) : Prop :=
  exists entry,
    lay !! i = Some entry /\
    new = imap (fun k le =>
                  LayoutEntry.mk (LayoutEntry.room_id le) (Z.of_nat k))
               (take j (delete i lay) ++ entry :: drop j (delete i lay)).

(** Levels reachable from [Level()] through the methods of [Level];
    [reach_edit] covers what callers do to the other fields in place
    (painting tiles, resizing or renaming rooms, editing floor layouts). *)
Inductive reachable : Level.t -> Prop :=
  | reach_init : reachable Level.init
  | reach_add_room l room :
      reachable l -> reachable (Level.add_room l room).2
  | reach_remove_room l room_id :
      reachable l -> reachable (Level.remove_room l room_id)
  | reach_add_to_layout l room_id :
      reachable l -> reachable (Level.add_to_layout l room_id).2
  | reach_remove_from_layout l position :
      reachable l -> reachable (Level.remove_from_layout l position)
  | reach_move_in_layout l old_position new_position l' :
      reachable l ->
      Level.move_in_layout l old_position new_position = Ok l' ->
      reachable l'
  | reach_edit l tile_types rooms floor_layouts :
      reachable l ->
      reachable (Level.mk tile_types rooms (Level.layout l) floor_layouts).

(** Every tile of every room's interior, room by room, row by row. *)
Definition all_tiles (l : Level.t) : list Z :=
  flat_map (fun r => concat (Room.interior r)) (Level.rooms l).

(** How often the Spawn tile occurs in the whole level. *)
Definition spawn_total (l : Level.t) : Z :=
  len (filter (fun t => t = TileType.SPAWN) (all_tiles l)).

(** The location strings of the spawn scan, in closed form. *)
Definition row_spawns (room_id y : Z) (row : list Z) : list string :=
  (fun xt : Z * Z => Level.spawn_location room_id xt.1 y) <$>
    filter (fun xt : Z * Z => xt.2 = TileType.SPAWN) (enumerate row).

Definition room_spawns (r : Room.t) : list string :=
  flat_map (fun yr : Z * list Z => row_spawns (Room.id r) yr.1 yr.2)
           (enumerate (Room.interior r)).

Definition level_spawns (l : Level.t) : list string :=
  flat_map room_spawns (Level.rooms l).

Definition is_substring (s t : string) : Prop :=
  exists pre post, t = (pre ++ s ++ post)%string.

(** The Spawn tiles of the level as (room id, x, y), in the order of the
    scan: room by room, row by row, left to right. *)
Definition row_cells (room_id y : Z) (row : list Z) : list (Z * Z * Z) :=
  (fun xt : Z * Z => (room_id, xt.1, y)) <$>
    filter (fun xt : Z * Z => xt.2 = TileType.SPAWN) (enumerate row).

Definition room_cells (r : Room.t) : list (Z * Z * Z) :=
  flat_map (fun yr : Z * list Z => row_cells (Room.id r) yr.1 yr.2)
           (enumerate (Room.interior r)).

Definition spawn_cells (l : Level.t) : list (Z * Z * Z) :=
  flat_map room_cells (Level.rooms l).

(** What the message says about the Spawn tile of room [c.1.1] at
    interior column [c.1.2], row [c.2]: the three numbers in decimal. *)
Definition occurrence_text (c : Z * Z * Z) : string :=
  ("Room " ++ py_str c.1.1 ++ " at (" ++ py_str c.1.2 ++ ", " ++
   py_str c.2 ++ ")")%string.

(** [s] is made of digits and minus signs. *)
Fixpoint numeral_chars (s : string) : bool :=
  match s with
  | EmptyString => true
  | String c s' => (Json.is_digit c || Ascii.eqb c "-") && numeral_chars s'
  end.

(** The two messages of the spawn check. *)
Definition spawn_error (e : string) : Prop :=
  String.prefix "No spawn point" e = true \/
  String.prefix "Multiple spawn points" e = true.

(** ** Vocabulary of the statements about the JSON codec *)

(** The token sequence of a value. *)
Fixpoint tokens (v : json) : list Json.token :=
  match v with
  | JNull => [Json.TNull]
  | JBool true => [Json.TTrue]
  | JBool false => [Json.TFalse]
  | JInt z => [Json.TInt z]
  | JStr s => [Json.TStr s]
  | JList vs =>
      Json.TLBracket ::
      (fix elems (l : list json) : list Json.token :=
         match l with
         | [] => []
         | x :: l' =>
             match l' with
             | [] => tokens x
             | _ :: _ => tokens x ++ Json.TComma :: elems l'
             end
         end) vs ++ [Json.TRBracket]
  | JDict kvs =>
      Json.TLBrace ::
      (fix mems (l : list (string * json)) : list Json.token :=
         match l with
         | [] => []
         | kx :: l' =>
             match l' with
             | [] => Json.TStr kx.1 :: Json.TColon :: tokens kx.2
             | _ :: _ =>
                 Json.TStr kx.1 :: Json.TColon :: tokens kx.2 ++
                 Json.TComma :: mems l'
             end
         end) kvs ++ [Json.TRBrace]
  end.

Fixpoint element_tokens (l : list json) : list Json.token :=
  match l with
  | [] => []
  | x :: l' =>
      match l' with
      | [] => tokens x
      | _ :: _ => tokens x ++ Json.TComma :: element_tokens l'
      end
  end.

Fixpoint member_tokens (l : list (string * json)) : list Json.token :=
  match l with
  | [] => []
  | kx :: l' =>
      match l' with
      | [] => Json.TStr kx.1 :: Json.TColon :: tokens kx.2
      | _ :: _ =>
          Json.TStr kx.1 :: Json.TColon :: tokens kx.2 ++
          Json.TComma :: member_tokens l'
      end
  end.

(** Every dictionary inside [v] has distinct keys, as a Python [dict]
    does. *)
Fixpoint json_wf (v : json) : Prop :=
  match v with
  | JList vs =>
      (fix all (l : list json) : Prop :=
         match l with
         | [] => True
         | x :: l' => json_wf x /\ all l'
         end) vs
  | JDict kvs =>
      NoDup (fst <$> kvs) /\
      (fix all (l : list (string * json)) : Prop :=
         match l with
         | [] => True
         | kx :: l' => json_wf kx.2 /\ all l'
         end) kvs
  | _ => True
  end.

(** A value starts with a token that opens it. *)
Definition opens (t : Json.token) : Prop :=
  match t with
  | Json.TRBrace | Json.TRBracket | Json.TComma | Json.TColon => False
  | _ => True
  end.

(** The parser reads the tokens of [v] back, with one unit of fuel per
    token. *)
Definition parses (v : json) : Prop :=
  forall fuel rest, (length (tokens v) <= fuel)%nat ->
    Json.parse_value fuel (tokens v ++ rest) = Ok (v, rest).

Definition dict_wf (d : dict) : Prop := json_wf (JDict d).

(** The text after an integer must start with a character that ends
    it. *)
Definition ends_number (rest : string) : bool :=
  match rest with
  | EmptyString => false
  | String c _ =>
      negb (Json.is_digit c || Ascii.eqb c "." || Ascii.eqb c "e" ||
            Ascii.eqb c "E" || Ascii.eqb c "I")
  end.

(** Scanning the encoding of [v], followed by more text, emits the
    tokens of [v]. *)
Definition scans (indent : option nat) (v : json) : Prop :=
  forall level out rest, ends_number rest = true ->
    Json.scan (out, Json.MStart) (Json.dumps_at indent level v +:+ rest)
      = Json.scan (rev (tokens v) ++ out, Json.MStart) rest.

(** The document that [to_json] writes, as a value. *)
Definition level_document (l : Level.t) : json :=
  JDict [("tile_types", JDict (Level.tile_types l));
         ("rooms", JList (Room.to_dict <$> Level.rooms l));
         ("layout", JList (LayoutEntry.to_dict <$> Level.layout l));
         ("floor_layouts", JList (FloorLayout.to_dict <$> Level.floor_layouts l))
        ]%string.

(** The block of one room in the output, up to its closing brace. *)
Definition room_block (room : Room.t) : string :=
  ("    {" ++ Level.nl ++
   "      " ++ Level.quoted "id" ++ ": " ++ py_str (Room.id room) ++ "," ++ Level.nl ++
   "      " ++ Level.quoted "width" ++ ": " ++ py_str (Room.width room) ++ "," ++ Level.nl ++
   "      " ++ Level.quoted "height" ++ ": " ++ py_str (Room.height room) ++ "," ++ Level.nl ++
   "      " ++ Level.quoted "interior" ++ ": " ++
     Level.format_interior (Room.interior room) ++ "," ++ Level.nl ++
   "      " ++ Level.quoted "exits" ++ ": " ++
     Json.dumps None (JDict (Room.exits room)) ++ "," ++ Level.nl ++
   "      " ++ Level.quoted "theme" ++ ": " ++
     Json.dumps None (JDict (Room.theme room)) ++ Level.nl ++
   "    }")%string.

(** The room blocks of the output with their separating commas. *)
Fixpoint room_blocks (rs : list Room.t) : string :=
  match rs with
  | [] => EmptyString
  | x :: rs' =>
      room_block x +:+
      (match rs' with [] => EmptyString | _ :: _ => "," end) +:+
      Level.nl +:+ room_blocks rs'
  end.

(** What a level must satisfy for [to_json] to describe it fully: its
    dictionaries have distinct keys (every Python [dict] does) and the
    grids of its floor layouts are dense. *)
Definition room_wf (r : Room.t) : Prop :=
  dict_wf (Room.exits r) /\ dict_wf (Room.theme r).

Definition level_wf (l : Level.t) : Prop :=
  dict_wf (Level.tile_types l) /\
  Forall room_wf (Level.rooms l) /\
  Forall grid_dense (Level.floor_layouts l).









(** The two lines that [to_json] writes for a room's exits and theme. *)
Definition exits_theme_lines (room : Room.t) : string :=
  ("      " ++ Level.quoted "exits" ++ ": " ++
     Json.dumps None (JDict (Room.exits room)) ++ "," ++ Level.nl ++
   "      " ++ Level.quoted "theme" ++ ": " ++
     Json.dumps None (JDict (Room.theme room)) ++ Level.nl)%string.

(** Writes a text with single quotes standing for double quotes. *)
Definition sq (s : string) : string :=
  string_of_list_ascii
    (List.map (fun c => if Ascii.eqb c "'" then Json.ch_quote else c)
              (list_ascii_of_string s)).





(** * The editor widgets: the data operations of [level_editor.py],
    [tile_canvas.py] and [layout_editor.py].  Painting, dialogs and
    signals are left out; a method is modelled on the part of the state
    it reads and writes. *)

(** ** Python built-ins used by the widgets *)

(** [range(a, b)] *)
Definition py_range2 (a b : Z) : list Z := seqZ a (b - a).

(** The truth value of a JSON-representable value: [None], [False], 0
    and the empty string, list and dictionary are false. *)
Definition py_truthy (v : json) : bool :=
  match v with
  | JNull => false
  | JBool b => b
  | JInt z => negb (z =? 0)
  | JStr s => match s with EmptyString => false | String _ _ => true end
  | JList l => match l with [] => false | _ :: _ => true end
  | JDict d => match d with [] => false | _ :: _ => true end
  end.

(** [d.get(key)] on a dictionary: [None] for a missing key. *)
Definition py_dict_get (d : dict) (key : string) : json :=
  match dict_get d key with
  | Some v => v
  | None => JNull
  end.

(** [l.index(x)]: the first index holding [x]; [None] stands for the
    [ValueError] raised when there is none. *)
Fixpoint py_list_index (l : list string) (x : string) : option Z :=
  match l with
  | [] => None
  | y :: l' =>
      if decide (y = x) then Some 0
      else i ← py_list_index l' x; Some (i + 1)
  end.

(** ** UndoStack *)

Module UndoStack.
Record t (A : Type) : Type := mk {
  max_size : Z;
  undo_stack : list A;
  redo_stack : list A
}.
Arguments mk {A} max_size undo_stack redo_stack.
Arguments max_size {A} _.
Arguments undo_stack {A} _.
Arguments redo_stack {A} _.

(** [UndoStack(max_size)]; the default is 100. *)
Definition init {A} (max_size : Z) : t A := mk max_size [] [].

Definition push {A} (s : t A) (state : A) : result (t A) :=
  let undo := undo_stack s ++ [state] in
  undo' ← (if len undo >? max_size s then py_pop undo 0 else Ok undo);
  Ok (mk (max_size s) undo' []).

Definition can_undo {A} (s : t A) : bool := len (undo_stack s) >? 0.

Definition can_redo {A} (s : t A) : bool := len (redo_stack s) >? 0.

(** [state = self.undo_stack.pop()] is the last element and the list
    without it. *)
Definition undo {A} (s : t A) : result (option A * t A) :=
  if can_undo s then
    state ← py_getitem (undo_stack s) (-1);
    rest ← py_pop (undo_stack s) (-1);
    Ok (Some state, mk (max_size s) rest (redo_stack s ++ [state]))
  else Ok (None, s).

Definition redo {A} (s : t A) : result (option A * t A) :=
  if can_redo s then
    state ← py_getitem (redo_stack s) (-1);
    rest ← py_pop (redo_stack s) (-1);
    Ok (Some state, mk (max_size s) (undo_stack s ++ [state]) rest)
  else Ok (None, s).

Definition clear {A} (s : t A) : t A := mk (max_size s) [] [].
End UndoStack.

(** ** TileCanvas.  The zoom is a float and is not modelled:
    [effective_size], which the source computes as
    [int(self.tile_size * self.zoom_level)], is an argument of
    [get_tile_at_pos]; [set_zoom] keeps it between 3 and 48. *)

Module TileCanvas.
Record t : Type := mk {
  room : option Room.t;
  current_tile_type : Z;
  brush_size : Z;
  selection_start : option (Z * Z);
  selection_end : option (Z * Z)
}.

Definition init : t := mk None TileType.EMPTY 1 None None.

Definition with_room (c : t) (r : option Room.t) : t :=
  mk r (current_tile_type c) (brush_size c) (selection_start c)
     (selection_end c).

Definition set_tile_type (c : t) (tile_type : Z) : t :=
  mk (room c) tile_type (brush_size c) (selection_start c) (selection_end c).

Definition set_brush_size (c : t) (size : Z) : t :=
  mk (room c) (current_tile_type c) (Z.max 1 size) (selection_start c)
     (selection_end c).

Definition get_tile_at_pos (c : t) (effective_size : Z) (x y : Z)
  : option (Z * Z) :=
  match room c with
  | None => None
  | Some r =>
      let tile_x := x `div` effective_size in
      let tile_y := y `div` effective_size in
      if (0 <=? tile_x) && (tile_x <? Room.get_interior_width r) &&
         ((0 <=? tile_y) && (tile_y <? Room.get_interior_height r))
      then Some (tile_x, tile_y)
      else None
  end.

Definition paint_tile (c : t) (tile_x tile_y tile_type : Z) : result t :=
  match room c with
  | None => Ok c
  | Some r =>
      let half_brush := brush_size c `div` 2 in
      r' ← for_each (py_range2 (- half_brush) (half_brush + 1))
             (fun dy r =>
                for_each (py_range2 (- half_brush) (half_brush + 1))
                  (fun dx r =>
                     let x := tile_x + dx in
                     let y := tile_y + dy in
                     if (0 <=? x) && (x <? Room.get_interior_width r) &&
                        ((0 <=? y) && (y <? Room.get_interior_height r))
                     then Room.set_tile r x y tile_type
                     else Ok r)
                  r)
             r;
      Ok (with_room c (Some r'))
  end.

Definition fill_selection (c : t) (tile_type : Z) : result t :=
  match room c, selection_start c, selection_end c with
  | Some r, Some start, Some stop =>
      let x1 := Z.min start.1 stop.1 in
      let x2 := Z.max start.1 stop.1 in
      let y1 := Z.min start.2 stop.2 in
      let y2 := Z.max start.2 stop.2 in
      r' ← for_each (py_range2 y1 (y2 + 1))
             (fun y r =>
                for_each (py_range2 x1 (x2 + 1))
                  (fun x r =>
                     if (0 <=? x) && (x <? Room.get_interior_width r) &&
                        ((0 <=? y) && (y <? Room.get_interior_height r))
                     then Room.set_tile r x y tile_type
                     else Ok r)
                  r)
             r;
      Ok (with_room c (Some r'))
  | _, _, _ => Ok c
  end.

Definition clear_room (c : t) : result t :=
  match room c with
  | None => Ok c
  | Some r =>
      r' ← for_each (py_range (Room.get_interior_height r))
             (fun y r =>
                for_each (py_range (Room.get_interior_width r))
                  (fun x r => Room.set_tile r x y TileType.EMPTY)
                  r)
             r;
      Ok (with_room c (Some r'))
  end.
End TileCanvas.

(** ** DoorSelectorButton *)

Module DoorSelectorButton.
(** The new [door_position]; [None] stands for the [ValueError] of
    [positions.index]. *)
Definition cycle_door_position (door_position : string) : option string :=
  let positions := DoorPosition.get_all_positions in
  current_index ← py_list_index positions door_position;
  let next_index := (current_index + 1) `mod` len positions in
  positions !! Z.to_nat next_index.
End DoorSelectorButton.

(** ** LayoutEditorTab *)

Module LayoutEditorTab.
(** [__init__]: a level without floor layouts gets the default one. *)
Definition init (level : Level.t) : Level.t :=
  match Level.floor_layouts level with
  | [] =>
      Level.mk (Level.tile_types level) (Level.rooms level)
               (Level.layout level)
               (Level.floor_layouts level ++ [FloorLayout.init 5 5])
  | _ :: _ => level
  end.

(** [self.current_layout = self.level.floor_layouts[0]] *)
Definition current_layout (level : Level.t) : result FloorLayout.t :=
  py_getitem (Level.floor_layouts (init level)) 0.
End LayoutEditorTab.

(** ** RoomEditorTab.  [current_room] is [None] or one of the rooms of
    the level; where a method changes that room in place, the model takes
    its index in [level.rooms]. *)

Module RoomEditorTab.

Definition create_new_room (level : Level.t) : Level.t :=
  let room_id := Level.get_next_room_id level in
  let room := Room.init room_id 64 36 in
  let '(added, level') := Level.add_room level room in
  if added : bool then level' else level.

(** [__init__]: a level without rooms gets a first room. *)
Definition init (level : Level.t) : Level.t :=
  match Level.rooms level with
  | [] => create_new_room level
  | _ :: _ => level
  end.

Definition duplicate_room (level : Level.t) (current_room : option Room.t)
  : Level.t :=
  match current_room with
  | None => level
  | Some current =>
      let room_id := Level.get_next_room_id level in
      let copy := Room.clone current in
      let new_room :=
        Room.mk room_id (Room.width copy) (Room.height copy)
                (Room.interior copy) (Room.exits copy) (Room.theme copy) in
      let '(added, level') := Level.add_room level new_room in
      if added : bool then level' else level
  end.

(** [any(r.id == new_id and r is not self.current_room
         for r in self.level.rooms)] *)
Definition id_taken_by_other (level : Level.t) (current : nat) (new_id : Z)
  : bool :=
  existsb (fun ir : Z * Room.t =>
             bool_decide (Room.id ir.2 = new_id) &&
             negb (bool_decide (ir.1 = Z.of_nat current)))
          (enumerate (Level.rooms level)).

Definition on_room_id_changed (level : Level.t) (current_room : option nat)
    (new_id : Z) : Level.t :=
  match current_room with
  | None => level
  | Some current =>
      match Level.rooms level !! current with
      | None => level
      | Some r =>
          if id_taken_by_other level current new_id then level
          else
            Level.mk (Level.tile_types level)
              (<[current :=
                   Room.mk new_id (Room.width r) (Room.height r)
                           (Room.interior r) (Room.exits r) (Room.theme r)]>
                 (Level.rooms level))
              (Level.layout level) (Level.floor_layouts level)
      end
  end.

(** The value stored for an exit: [{"type": "doorway"}] when the combo
    box shows index 1, [None] otherwise. *)
Definition exit_value (index : Z) : json :=
  if decide (index = 1) then JDict [("type", JStr "doorway")]%string
  else JNull.

Definition on_exits_changed (current_room : option Room.t)
    (left_index right_index : Z) : option Room.t :=
  match current_room with
  | None => None
  | Some r =>
      let exits1 := Json.dict_set (Room.exits r) "left" (exit_value left_index) in
      let exits2 := Json.dict_set exits1 "right" (exit_value right_index) in
      Some (Room.mk (Room.id r) (Room.width r) (Room.height r)
                    (Room.interior r) exits2 (Room.theme r))
  end.

(** [pick_color] once the dialog has returned a valid colour named
    [color_name]: [self.current_room.theme[color_key] = color_name]. *)
Definition pick_color (current_room : option Room.t)
    (color_key color_name : string) : option Room.t :=
  match current_room with
  | None => None
  | Some r =>
      Some (Room.mk (Room.id r) (Room.width r) (Room.height r)
                    (Room.interior r) (Room.exits r)
                    (Json.dict_set (Room.theme r) color_key (JStr color_name)))
  end.

(** [on_dimensions_changed] with the values of the two spin boxes. *)
Definition on_dimensions_changed (r : Room.t) (new_width new_height : Z)
  : result Room.t :=
  if decide (new_width <> Room.width r \/ new_height <> Room.height r)
  then Room.resize r new_width new_height
  else Ok r.

(** The indices that [load_room_properties] hands to the two exit combo
    boxes: [1 if self.current_room.exits.get(key) else 0]. *)
Definition exit_index (r : Room.t) (key : string) : Z :=
  if py_truthy (py_dict_get (Room.exits r) key) then 1 else 0.

Definition load_room_properties_exits (r : Room.t) : Z * Z :=
  (exit_index r "left", exit_index r "right").

Definition on_brush_size_changed (canvas : TileCanvas.t) (index : Z)
  : TileCanvas.t :=
  let size := index + 1 in
  TileCanvas.set_brush_size canvas size.

(** [state = deepcopy(self.current_room.interior)] is pushed after the
    canvas has changed the room. *)
Definition on_tile_changed (current_room : option Room.t)
    (undo_stack : UndoStack.t (list (list Z)))
  : result (UndoStack.t (list (list Z))) :=
  match current_room with
  | Some r => UndoStack.push undo_stack (Room.interior r)
  | None => Ok undo_stack
  end.

(** [if state:] is false for [None] and for an interior of no rows. *)
Definition restore (r : Room.t) (state : option (list (list Z))) : Room.t :=
  match state with
  | Some (row :: rows) => Room.set_interior r (row :: rows)
  | _ => r
  end.

Definition undo (current_room : option Room.t)
    (undo_stack : UndoStack.t (list (list Z)))
  : result (option Room.t * UndoStack.t (list (list Z))) :=
  match current_room with
  | Some r =>
      if UndoStack.can_undo undo_stack then
        '(state, undo_stack') ← UndoStack.undo undo_stack;
        Ok (Some (restore r state), undo_stack')
      else Ok (current_room, undo_stack)
  | None => Ok (current_room, undo_stack)
  end.

Definition redo (current_room : option Room.t)
    (undo_stack : UndoStack.t (list (list Z)))
  : result (option Room.t * UndoStack.t (list (list Z))) :=
  match current_room with
  | Some r =>
      if UndoStack.can_redo undo_stack then
        '(state, undo_stack') ← UndoStack.redo undo_stack;
        Ok (Some (restore r state), undo_stack')
      else Ok (current_room, undo_stack)
  | None => Ok (current_room, undo_stack)
  end.
End RoomEditorTab.

(** ** FloorLayoutGridWidget: the handlers edit [self.floor_layout]. *)

Module FloorLayoutGridWidget.
Definition place_room_at (fl : FloorLayout.t) (row col room_id : Z)
  : FloorLayout.t :=
  let pos := GridPosition.mk row col in
  FloorLayout.place_room fl pos (Some room_id).

Definition on_door_changed (fl : FloorLayout.t)
    (from_row from_col to_row to_col : Z) (door_position : string)
  : FloorLayout.t :=
  let from_pos := GridPosition.mk from_row from_col in
  let to_pos := GridPosition.mk to_row to_col in
  FloorLayout.set_connection fl from_pos to_pos door_position.

Definition add_row (fl : FloorLayout.t) : FloorLayout.t :=
  FloorLayout.add_row fl.

Definition add_column (fl : FloorLayout.t) : FloorLayout.t :=
  FloorLayout.add_column fl.

Definition remove_row (fl : FloorLayout.t) : result FloorLayout.t :=
  snd <$> FloorLayout.remove_row fl.

Definition remove_column (fl : FloorLayout.t) : result FloorLayout.t :=
  snd <$> FloorLayout.remove_column fl.
End FloorLayoutGridWidget.

(** ** LevelEditor *)

Module LevelEditor.
(** The level of a new editor window, and after "New Level": [Level()]
    passed to [RoomEditorTab] and then to [LayoutEditorTab]. *)
Definition init : Level.t :=
  LayoutEditorTab.init (RoomEditorTab.init Level.init).

(** [tile_counts[tile] += 1] when [tile in tile_counts]. *)
Fixpoint count_tile (tile_counts : list (Z * Z)) (tile : Z) : list (Z * Z) :=
  match tile_counts with
  | [] => []
  | (t, n) :: rest =>
      if decide (t = tile) then (t, n + 1) :: rest
      else (t, n) :: count_tile rest tile
  end.

(** The dictionary [tile_counts] after the three loops of
    [show_statistics]. *)
Definition tile_counts (level : Level.t) : list (Z * Z) :=
  let zero := (fun t => (t, 0)) <$> TileType.get_all_types in
  foldl (fun counts room =>
           foldl (fun counts row => foldl count_tile counts row)
                 counts (Room.interior room))
        zero (Level.rooms level).

(** The lines of the statistics dialog. *)
Definition show_statistics (level : Level.t) : list string :=
  [("Total Rooms: " ++ py_str (len (Level.rooms level)))%string;
   ("Layout Length: " ++ py_str (len (Level.layout level)))%string;
   (Level.nl ++ "Tile Counts:")%string] ++
  ((fun tc : Z * Z =>
      ("  " ++ TileType.get_name tc.1 ++ ": " ++ py_str tc.2)%string)
   <$> tile_counts level).
End LevelEditor.

(** ** Vocabulary of the statements about rooms and layouts of a level *)

(** Room ids are pairwise distinct. *)
Definition unique_ids (l : Level.t) : Prop := NoDup (Room.id <$> Level.rooms l).

(** The interior of a room has the size its width and height announce. *)
Definition interior_fits (room : Room.t) : Prop :=
  len (Room.interior room) = Room.height room - 2 /\
  Forall (fun row => len row = Room.width room - 2) (Room.interior room).

(** Every layout entry names a room of the level. *)
Definition layout_linked (l : Level.t) : Prop :=
  Forall (fun le => exists r, r ∈ Level.rooms l /\
                              Room.id r = LayoutEntry.room_id le)
         (Level.layout l).


(** Levels built from [Level()] by the methods of [Level] alone. *)
Inductive built : Level.t -> Prop :=
  | built_init : built Level.init
  | built_add_room l room :
      built l -> built (Level.add_room l room).2
  | built_remove_room l room_id :
      built l -> built (Level.remove_room l room_id)
  | built_add_to_layout l room_id :
      built l -> built (Level.add_to_layout l room_id).2
  | built_remove_from_layout l position :
      built l -> built (Level.remove_from_layout l position)
  | built_move_in_layout l old_position new_position l' :
      built l ->
      Level.move_in_layout l old_position new_position = Ok l' ->
      built l'.

(** ** Vocabulary of the further statements about floor layouts *)

(** The position lies inside the [rows] x [cols] extent. *)
Definition in_extent (fl : FloorLayout.t) (pos : GridPosition.t) : Prop :=
  0 <= GridPosition.row pos < FloorLayout.rows fl /\
  0 <= GridPosition.col pos < FloorLayout.cols fl.

#[global] Instance in_extent_dec fl pos : Decision (in_extent fl pos).
Proof. unfold in_extent. apply _. Defined.

(** The two positions are the same unordered pair. *)
Definition same_pair (a b c d : GridPosition.t) : Prop :=
  (a = c /\ b = d) \/ (a = d /\ b = c).

(** No two stored records join the same pair of positions. *)
Definition single_doors (fl : FloorLayout.t) : Prop :=
  forall a b, (joining_count fl a b <= 1)%nat.

(** ** Vocabulary of the further statements about the JSON codec *)

(** The dictionary with one key deleted; any other value as it is. *)
Definition without_key (k : string) (v : json) : json :=
  match v with
  | JDict d => JDict (filter (fun kv : string * json => kv.1 <> k) d)
  | _ => v
  end.

Definition room_keys : list string :=
  ["id"; "width"; "height"; "interior"; "exits"; "theme"]%string.

Definition level_keys : list string :=
  ["tile_types"; "rooms"; "layout"; "floor_layouts"]%string.

(** The level with the field stored under key [k] replaced by what
    [from_json] takes when the key is missing. *)
Definition without_field (k : string) (l : Level.t) : Level.t :=
  if String.eqb k "tile_types" then
    Level.mk Level.default_tile_types (Level.rooms l) (Level.layout l)
             (Level.floor_layouts l)
  else if String.eqb k "rooms" then
    Level.mk (Level.tile_types l) [] (Level.layout l) (Level.floor_layouts l)
  else if String.eqb k "layout" then
    Level.mk (Level.tile_types l) (Level.rooms l) [] (Level.floor_layouts l)
  else if String.eqb k "floor_layouts" then
    Level.mk (Level.tile_types l) (Level.rooms l) (Level.layout l) []
  else l.

(** ** Vocabulary of the statements about the editor *)

(** How often [t] occurs among the tiles. *)
Definition occurrences (t : Z) (tiles : list Z) : Z :=
  len (filter (fun x => x = t) tiles).

(** The counts with [f t] added to the count of each tile type [t]. *)
Definition bump (f : Z -> Z) (counts : list (Z * Z)) : list (Z * Z) :=
  (fun tn : Z * Z => (tn.1, tn.2 + f tn.1)) <$> counts.

(** The interior coordinates that the canvas accepts for a room. *)
Definition inside (r : Room.t) (x y : Z) : Prop :=
  0 <= x < Room.get_interior_width r /\ 0 <= y < Room.get_interior_height r.

#[global] Instance inside_dec r x y : Decision (inside r x y).
Proof. unfold inside. apply _. Defined.

(** The room differs from [r] in its tiles at most. *)
Definition same_frame (r r' : Room.t) : Prop :=
  Room.id r' = Room.id r /\ Room.width r' = Room.width r /\
  Room.height r' = Room.height r /\ Room.exits r' = Room.exits r /\
  Room.theme r' = Room.theme r.

(** The room differs from [r] in its tiles at most, and its interior has
    as many rows as that of [r], each of [W] entries. *)
Definition same_shape (W : nat) (r r' : Room.t) : Prop :=
  same_frame r r' /\ rectangular (Room.interior r') W /\
  length (Room.interior r') = length (Room.interior r).

(** The body shared by the painting loops of the canvas. *)
Definition set_inside (tile_type x y : Z) (r : Room.t) : result Room.t :=
  if (0 <=? x) && (x <? Room.get_interior_width r) &&
     ((0 <=? y) && (y <? Room.get_interior_height r))
  then Room.set_tile r x y tile_type
  else Ok r.

(** ** Levels made in the editor *)

(** One edit of a room through the room tab. *)
Inductive room_step : Room.t -> Room.t -> Prop :=
  | step_paint c r x y t c' r' :
      TileCanvas.room c = Some r ->
      TileCanvas.paint_tile c x y t = Ok c' -> TileCanvas.room c' = Some r' ->
      room_step r r'
  | step_fill c r t c' r' :
      TileCanvas.room c = Some r ->
      TileCanvas.fill_selection c t = Ok c' -> TileCanvas.room c' = Some r' ->
      room_step r r'
  | step_clear c r c' r' :
      TileCanvas.room c = Some r ->
      TileCanvas.clear_room c = Ok c' -> TileCanvas.room c' = Some r' ->
      room_step r r'
  | step_resize r w h r' :
      RoomEditorTab.on_dimensions_changed r w h = Ok r' -> room_step r r'
  | step_exits r left_index right_index r' :
      RoomEditorTab.on_exits_changed (Some r) left_index right_index = Some r' ->
      room_step r r'
  | step_color r color_key color_name r' :
      RoomEditorTab.pick_color (Some r) color_key color_name = Some r' ->
      room_step r r'
  | step_restore r state :
      room_step r (RoomEditorTab.restore r state).

(** One edit of the floor layout through the layout tab. *)
Inductive floor_step : FloorLayout.t -> FloorLayout.t -> Prop :=
  | step_place fl row col room_id :
      floor_step fl (FloorLayoutGridWidget.place_room_at fl row col room_id)
  | step_door fl from_row from_col to_row to_col door_position :
      floor_step fl (FloorLayoutGridWidget.on_door_changed
                       fl from_row from_col to_row to_col door_position)
  | step_add_row fl : floor_step fl (FloorLayoutGridWidget.add_row fl)
  | step_add_column fl : floor_step fl (FloorLayoutGridWidget.add_column fl)
  | step_remove_row fl fl' :
      FloorLayoutGridWidget.remove_row fl = Ok fl' -> floor_step fl fl'
  | step_remove_column fl fl' :
      FloorLayoutGridWidget.remove_column fl = Ok fl' -> floor_step fl fl'.

(** The levels that can be made in a new editor window: rooms are
    created, duplicated, deleted, renumbered and edited, and the first
    floor layout is edited. *)
Inductive edited : Level.t -> Prop :=
  | edited_init : edited LevelEditor.init
  | edited_create l : edited l -> edited (RoomEditorTab.create_new_room l)
  | edited_duplicate l current :
      edited l -> current ∈ Level.rooms l ->
      edited (RoomEditorTab.duplicate_room l (Some current))
  | edited_delete l current :
      edited l -> current ∈ Level.rooms l ->
      edited (Level.remove_room l (Room.id current))
  | edited_rename l current new_id :
      edited l ->
      edited (RoomEditorTab.on_room_id_changed l (Some current) new_id)
  | edited_room l (current : nat) r r' :
      edited l -> Level.rooms l !! current = Some r -> room_step r r' ->
      edited (Level.mk (Level.tile_types l)
                       (<[current := r']> (Level.rooms l))
                       (Level.layout l) (Level.floor_layouts l))
  | edited_floor l fl fl' :
      edited l -> Level.floor_layouts l !! 0%nat = Some fl ->
      floor_step fl fl' ->
      edited (Level.mk (Level.tile_types l) (Level.rooms l) (Level.layout l)
                       (<[0%nat := fl']> (Level.floor_layouts l))).

(** ** Sample values used to exercise the statements *)

Definition sample_room : Room.t :=
  Room.mk 1 5 4 [[1; 2; 3]; [4; 8; 6]] Room.default_exits Room.default_theme.

(** A room whose stored interior (3 x 2) is larger than its width 4 and
    height 3 announce (2 x 1), as after a shrink followed by an undo. *)
Definition oversized_room : Room.t :=
  Room.mk 1 4 3 [[1; 2; 3]; [4; 8; 6]] Room.default_exits Room.default_theme.

(** A 2 x 2 floor with room 7 in the top-left cell and a door from the
    top-left cell down to the cell below it. *)
Definition sample_floor : FloorLayout.t :=
  FloorLayout.set_connection
    (FloorLayout.place_room (FloorLayout.init 2 2) (0, 0) (Some 7))
    (0, 0) (1, 0) DoorPosition.MID.

(** A level holding rooms 1 and 2, built through [add_room]. *)
Definition sample_level : Level.t :=
  (Level.add_room (Level.add_room Level.init (Room.init 1 4 4)).2
                  (Room.init 2 4 4)).2.

(** A level holding rooms 1, 2 and 3. *)
Definition three_room_level : Level.t :=
  (Level.add_room sample_level (Room.init 3 4 4)).2.

(** Rooms 1, 2 and 3 with a layout whose positions are 5, 0, 5, as a
    file can hold them. *)
Definition loaded_layout_level : Level.t :=
  Level.set_layout three_room_level
    [LayoutEntry.mk 1 5; LayoutEntry.mk 2 0; LayoutEntry.mk 3 5].

(** Rooms 1 and 2 with the layout 1, 2, 1. *)
Definition sample_layout_level : Level.t :=
  (Level.add_to_layout
     (Level.add_to_layout
        (Level.add_to_layout sample_level 1).2 2).2 1).2.

(** Levels with one and with two spawn tiles. *)
Definition one_spawn_level : Level.t :=
  (Level.add_room Level.init sample_room).2.

Definition two_spawn_level : Level.t :=
  (Level.add_room one_spawn_level
     (Room.mk 2 4 4 [[0; 8]; [0; 0]] Room.default_exits Room.default_theme)).2.

(** A level with two rooms, a layout and two floor layouts. *)
Definition codec_level : Level.t :=
  Level.mk Level.default_tile_types
    [sample_room; Room.init 2 4 3]
    [LayoutEntry.mk 1 0; LayoutEntry.mk 2 1]
    [sample_floor; FloorLayout.init 0 3].

(* ================================================================== *)
(** * Theorems *)

(** ** Python list primitives *)

Lemma py_getitem_nat {A} (l : list A) (n : nat) (a : A) :
  l !! n = Some a -> py_getitem l (Z.of_nat n) = Ok a.
Proof.
  intros Hl. pose proof (lookup_lt_Some _ _ _ Hl) as Hn.
  unfold py_getitem, len.
  replace (Z.of_nat n <? 0) with false by lia.
  replace ((0 <=? Z.of_nat n) && (Z.of_nat n <? Z.of_nat (length l)))
    with true by lia.
  by rewrite Nat2Z.id, Hl.
Qed.

Lemma py_setitem_nat {A} (l : list A) (n : nat) (v : A) :
  (n < length l)%nat -> py_setitem l (Z.of_nat n) v = Ok (<[n := v]> l).
Proof.
  intros Hn. unfold py_setitem, len.
  replace (Z.of_nat n <? 0) with false by lia.
  replace ((0 <=? Z.of_nat n) && (Z.of_nat n <? Z.of_nat (length l)))
    with true by lia.
  by rewrite Nat2Z.id.
Qed.

Lemma py_getitem_Z {A} (l : list A) (i : Z) (a : A) :
  0 <= i -> l !! Z.to_nat i = Some a -> py_getitem l i = Ok a.
Proof.
  intros Hi Hl. rewrite <- (Z2Nat.id i) by done. by apply py_getitem_nat.
Qed.

Lemma py_setitem_Z {A} (l : list A) (i : Z) (v : A) :
  0 <= i -> (Z.to_nat i < length l)%nat ->
  py_setitem l i v = Ok (<[Z.to_nat i := v]> l).
Proof.
  intros Hi Hl. rewrite <- (Z2Nat.id i) at 1 by done. by apply py_setitem_nat.
Qed.

Lemma for_each_app {S} (xs ys : list Z) (body : Z -> S -> result S) (s : S) :
  for_each (xs ++ ys) body s = (s' ← for_each xs body s; for_each ys body s').
Proof.
  revert s. induction xs as [|x xs IH]; intros s; simpl; [done|].
  destruct (body x s) as [s'|e]; simpl; [apply IH | done].
Qed.

Lemma py_range_S (k : nat) :
  py_range (Z.of_nat (S k)) = py_range (Z.of_nat k) ++ [Z.of_nat k].
Proof. unfold py_range. by rewrite seqZ_S. Qed.

(** ** Room: tile access *)

Section tile_access.
Import Room.

Lemma in_bounds_spec (r : Room.t) (W : nat) (x y : Z) :
  rectangular (interior r) W ->
  in_bounds r x y =
    Ok ((0 <=? y) && (y <? len (interior r)) &&
        ((0 <=? x) && (x <? Z.of_nat W))).
Proof.
  intros Hrect. unfold in_bounds.
  destruct ((0 <=? y) && (y <? len (interior r))) eqn:Hy; [|done].
  destruct (interior r) as [|row0 rows] eqn:Hi.
  { exfalso. unfold len in Hy. cbn [length] in Hy.
    change (Z.of_nat 0) with 0 in Hy. lia. }
  change 0 with (Z.of_nat 0). rewrite (py_getitem_nat _ 0%nat row0) by done.
  simpl. unfold len. apply Forall_cons in Hrect as [-> _]. done.
Qed.

Lemma cell_in_range (g : list (list Z)) (W : nat) (x y : Z) :
  rectangular g W -> 0 <= x < Z.of_nat W -> 0 <= y < len g ->
  exists row v, g !! Z.to_nat y = Some row /\ row !! Z.to_nat x = Some v /\
    cell g x y = Some v.
Proof.
  intros Hrect Hx Hy. unfold len in Hy.
  destruct (lookup_lt_is_Some_2 g (Z.to_nat y)) as [row Hrow]; [lia|].
  pose proof (Forall_lookup_1 _ _ _ _ Hrect Hrow) as Hlen. simpl in Hlen.
  destruct (lookup_lt_is_Some_2 row (Z.to_nat x)) as [v Hv]; [lia|].
  exists row, v. split; [done|]. split; [done|].
  unfold cell, cellN. replace ((0 <=? x) && (0 <=? y)) with true by lia.
  rewrite Hrow. simpl. done.
Qed.

Lemma get_tile_in_range (r : Room.t) (W : nat) (x y : Z) :
  rectangular (interior r) W ->
  0 <= x < Z.of_nat W -> 0 <= y < len (interior r) ->
  exists v, cell (interior r) x y = Some v /\ get_tile r x y = Ok v.
Proof.
  intros Hrect Hx Hy. unfold get_tile. rewrite (in_bounds_spec r W) by done.
  replace ((0 <=? y) && (y <? len (interior r)) &&
           ((0 <=? x) && (x <? Z.of_nat W))) with true by lia.
  destruct (cell_in_range _ W x y Hrect Hx Hy) as (row & v & Hrow & Hv & Hc).
  exists v. split; [done|]. simpl.
  rewrite (py_getitem_Z _ _ _ (proj1 Hy) Hrow). simpl.
  apply py_getitem_Z; [lia|done].
Qed.

Lemma get_tile_out_of_range (r : Room.t) (W : nat) (x y : Z) :
  rectangular (interior r) W ->
  ~ (0 <= x < Z.of_nat W /\ 0 <= y < len (interior r)) ->
  get_tile r x y = Ok TileType.EMPTY.
Proof.
  intros Hrect Hout. unfold get_tile. rewrite (in_bounds_spec r W) by done.
  replace ((0 <=? y) && (y <? len (interior r)) &&
           ((0 <=? x) && (x <? Z.of_nat W))) with false by lia.
  done.
Qed.

Lemma set_tile_out_of_range (r : Room.t) (W : nat) (x y tile : Z) :
  rectangular (interior r) W ->
  ~ (0 <= x < Z.of_nat W /\ 0 <= y < len (interior r)) ->
  set_tile r x y tile = Ok r.
Proof.
  intros Hrect Hout. unfold set_tile. rewrite (in_bounds_spec r W) by done.
  replace ((0 <=? y) && (y <? len (interior r)) &&
           ((0 <=? x) && (x <? Z.of_nat W))) with false by lia.
  done.
Qed.

(** In range, [set_tile] overwrites exactly the addressed cell. *)
Lemma set_tile_in_range (r : Room.t) (W : nat) (x y tile : Z) :
  rectangular (interior r) W ->
  0 <= x < Z.of_nat W -> 0 <= y < len (interior r) ->
  exists row,
    interior r !! Z.to_nat y = Some row /\
    set_tile r x y tile =
      Ok (set_interior r
            (<[Z.to_nat y := <[Z.to_nat x := tile]> row]> (interior r))).
Proof.
  intros Hrect Hx Hy. unfold set_tile. rewrite (in_bounds_spec r W) by done.
  replace ((0 <=? y) && (y <? len (interior r)) &&
           ((0 <=? x) && (x <? Z.of_nat W))) with true by lia.
  destruct (cell_in_range _ W x y Hrect Hx Hy) as (row & v & Hrow & Hv & _).
  exists row. split; [done|]. simpl.
  pose proof (lookup_lt_Some _ _ _ Hrow). pose proof (lookup_lt_Some _ _ _ Hv).
  rewrite (py_getitem_Z _ _ _ (proj1 Hy) Hrow). simpl.
  rewrite py_setitem_Z by (done || lia). simpl.
  rewrite py_setitem_Z by (done || lia). done.
Qed.
End tile_access.

(** C8. On a room whose interior is rectangular ([W] entries in every
    row), [get_tile(x, y)] returns the stored tile when
    [0 <= x < W] and [0 <= y < len(interior)], and Empty (0) otherwise;
    [set_tile(x, y, t)] outside that range returns the room unchanged in
    every field.  Neither call raises. *)
Theorem C8_permissive_tile_access (r : Room.t) (W : nat) (x y t : Z) :
  rectangular (Room.interior r) W ->
  (0 <= x < Z.of_nat W /\ 0 <= y < len (Room.interior r) ->
     exists v, cell (Room.interior r) x y = Some v /\
               Room.get_tile r x y = Ok v) /\
  (~ (0 <= x < Z.of_nat W /\ 0 <= y < len (Room.interior r)) ->
     Room.get_tile r x y = Ok TileType.EMPTY /\
     Room.set_tile r x y t = Ok r).
Proof.
  intros Hrect. split.
  - intros [Hx Hy]. by apply (get_tile_in_range r W).
  - intros Hout. split.
    + by apply (get_tile_out_of_range r W).
    + by apply (set_tile_out_of_range r W).
Qed.

Lemma C8_permissive_tile_access_witness :
  rectangular (Room.interior sample_room) 3 /\
  Room.get_tile sample_room 3 0 = Ok TileType.EMPTY /\
  Room.set_tile sample_room 3 0 9 = Ok sample_room.
Proof.
  assert (rectangular (Room.interior sample_room) 3) as Hrect.
  { repeat constructor. }
  split; [exact Hrect|].
  apply (C8_permissive_tile_access sample_room 3 3 0 9 Hrect).
  unfold len. simpl. lia.
Defined.

(** ** Room: resize *)

Section resize.
Import Room.
Context (old : list (list Z)) (H W H' W' : nat).
Hypothesis old_rows : length old = H.
Hypothesis old_rect : rectangular old W.

Lemma old_cell (y x : nat) :
  (y < H)%nat -> (x < W)%nat ->
  exists row v, old !! y = Some row /\ row !! x = Some v.
Proof.
  intros Hy Hx.
  destruct (lookup_lt_is_Some_2 old y) as [row Hrow]; [lia|].
  pose proof (Forall_lookup_1 _ _ _ _ old_rect Hrow) as Hlen. simpl in Hlen.
  destruct (lookup_lt_is_Some_2 row x) as [v Hv]; [lia|].
  eauto.
Qed.

Lemma copy_cell_spec (g : list (list Z)) (y x : nat) :
  shaped H' W' g ->
  (y < H)%nat -> (x < W)%nat -> (y < H')%nat -> (x < W')%nat ->
  exists g', copy_cell old (Z.of_nat y) (Z.of_nat x) g = Ok g' /\
    shaped H' W' g' /\
    forall y' x', cellN g' y' x' =
      if decide (y' = y /\ x' = x) then cellN old y x else cellN g y' x'.
Proof.
  intros [Hlen Hrect] Hy Hx Hy' Hx'.
  destruct (old_cell y x Hy Hx) as (orow & v & Horow & Hv).
  destruct (lookup_lt_is_Some_2 g y) as [row Hrow]; [lia|].
  pose proof (Forall_lookup_1 _ _ _ _ Hrect Hrow) as Hrl. simpl in Hrl.
  exists (<[y := <[x := v]> row]> g). split; [|split].
  - unfold copy_cell.
    rewrite (py_getitem_nat _ _ _ Horow). simpl.
    rewrite (py_getitem_nat _ _ _ Hv). simpl.
    rewrite (py_getitem_nat _ _ _ Hrow). simpl.
    rewrite py_setitem_nat by lia. simpl.
    rewrite py_setitem_nat by lia. done.
  - split; [by rewrite length_insert|].
    apply Forall_insert; [done|]. by rewrite length_insert.
  - intros y' x'. unfold cellN. rewrite Horow. simpl. rewrite Hv.
    destruct (decide (y' = y)) as [->|Hne].
    + rewrite list_lookup_insert_eq by lia. simpl.
      destruct (decide (x' = x)) as [->|Hnx].
      * rewrite decide_True by done.
        rewrite list_lookup_insert_eq by lia. done.
      * rewrite decide_False by tauto.
        rewrite list_lookup_insert_ne by done. by rewrite Hrow.
    + rewrite decide_False by tauto. by rewrite list_lookup_insert_ne.
Qed.

Lemma copy_cells_spec (g0 : list (list Z)) (y k : nat) :
  shaped H' W' g0 ->
  (y < H)%nat -> (y < H')%nat -> (k <= W)%nat -> (k <= W')%nat ->
  exists g,
    for_each (py_range (Z.of_nat k)) (copy_cell old (Z.of_nat y)) g0 = Ok g /\
    copied old H' W' y k g0 g.
Proof.
  intros Hs Hy Hy'. induction k as [|k IH]; intros HkW HkW'.
  - exists g0. split; [done|]. split; [done|].
    intros y' x'. rewrite decide_False by lia. done.
  - destruct IH as (g & Hg & Hsh & Hcells); [lia..|].
    destruct (copy_cell_spec g y k) as (g' & Hg' & Hsh' & Hcells');
      [done|lia..|].
    exists g'. split; [|split; [done|]].
    + rewrite py_range_S, for_each_app, Hg. simpl. by rewrite Hg'.
    + intros y' x'. rewrite Hcells'.
      destruct (decide (y' = y /\ x' = k)) as [[-> ->]|Hne].
      * rewrite decide_True by lia. done.
      * rewrite Hcells.
        destruct (decide (y' = y /\ (x' < k)%nat)) as [?|?].
        -- rewrite decide_True by lia. done.
        -- rewrite decide_False by lia. done.
Qed.

Lemma copy_row_spec (g0 : list (list Z)) (y : nat) :
  shaped H' W' g0 -> (y < H)%nat -> (y < H')%nat ->
  exists g, copy_row old (Z.of_nat W') (Z.of_nat y) g0 = Ok g /\
    copied old H' W' y (W `min` W') g0 g.
Proof.
  intros Hs Hy Hy'. unfold copy_row.
  destruct (lookup_lt_is_Some_2 old 0) as [row0 Hrow0]; [lia|].
  pose proof (Forall_lookup_1 _ _ _ _ old_rect Hrow0) as Hlen.
  simpl in Hlen.
  change 0 with (Z.of_nat 0). rewrite (py_getitem_nat _ _ _ Hrow0). simpl.
  unfold len. rewrite Hlen, <- Nat2Z.inj_min.
  apply copy_cells_spec; [done|lia..].
Qed.

Lemma copy_rows_spec (g0 : list (list Z)) (j : nat) :
  shaped H' W' g0 -> (j <= H)%nat -> (j <= H')%nat ->
  exists g,
    for_each (py_range (Z.of_nat j)) (copy_row old (Z.of_nat W')) g0 = Ok g /\
    rows_copied old H' W' j (W `min` W') g0 g.
Proof.
  intros Hs. induction j as [|j IH]; intros HjH HjH'.
  - exists g0. split; [done|]. split; [done|].
    intros y' x'. rewrite decide_False by lia. done.
  - destruct IH as (g & Hg & Hsh & Hcells); [lia..|].
    destruct (copy_row_spec g j) as (g' & Hg' & Hsh' & Hcells');
      [done|lia..|].
    exists g'. split; [|split; [done|]].
    + rewrite py_range_S, for_each_app, Hg. simpl. by rewrite Hg'.
    + intros y' x'. rewrite Hcells'.
      destruct (decide (y' = j /\ (x' < W `min` W')%nat)) as [[-> ?]|Hne].
      * rewrite decide_True by lia. done.
      * rewrite Hcells.
        destruct (decide ((y' < j)%nat /\ (x' < W `min` W')%nat)) as [?|?].
        -- rewrite decide_True by lia. done.
        -- rewrite decide_False by lia. done.
Qed.
End resize.

Lemma empty_interior_shaped (W' H' : nat) :
  shaped H' W' (Room.empty_interior (Z.of_nat W') (Z.of_nat H')).
Proof.
  unfold shaped, Room.empty_interior, py_range, rectangular. split.
  - by rewrite length_fmap, length_seqZ, Nat2Z.id.
  - apply Forall_fmap, Forall_forall. intros ? _. simpl.
    by rewrite length_fmap, length_seqZ, Nat2Z.id.
Qed.

Lemma empty_interior_cell (W' H' y x : nat) :
  (y < H')%nat -> (x < W')%nat ->
  cellN (Room.empty_interior (Z.of_nat W') (Z.of_nat H')) y x
    = Some TileType.EMPTY.
Proof.
  intros Hy Hx. unfold cellN, Room.empty_interior, py_range.
  rewrite list_lookup_fmap, lookup_seqZ_lt by lia. simpl.
  rewrite list_lookup_fmap, lookup_seqZ_lt by lia. done.
Qed.

(** [resize] on any rectangular interior of [H] rows and [W] columns. *)
Lemma resize_rectangular (r : Room.t) (H W : nat) (new_w new_h : Z) :
  length (Room.interior r) = H -> rectangular (Room.interior r) W ->
  2 <= new_w -> 2 <= new_h ->
  exists r', Room.resize r new_w new_h = Ok r' /\
    Room.id r' = Room.id r /\
    Room.width r' = new_w /\ Room.height r' = new_h /\
    Room.exits r' = Room.exits r /\ Room.theme r' = Room.theme r /\
    length (Room.interior r') = Z.to_nat (new_h - 2) /\
    rectangular (Room.interior r') (Z.to_nat (new_w - 2)) /\
    forall x y, 0 <= x < new_w - 2 -> 0 <= y < new_h - 2 ->
      cell (Room.interior r') x y =
        if (x <? Z.of_nat W) && (y <? Z.of_nat H)
        then cell (Room.interior r) x y
        else Some TileType.EMPTY.
Proof.
  intros HH HW Hw Hh. unfold Room.resize.
  set (W' := Z.to_nat (new_w - 2)). set (H' := Z.to_nat (new_h - 2)).
  replace (new_w - 2) with (Z.of_nat W') by lia.
  replace (new_h - 2) with (Z.of_nat H') by lia.
  unfold len. rewrite HH, <- Nat2Z.inj_min.
  destruct (copy_rows_spec (Room.interior r) H W H' W' HH HW
              (Room.empty_interior (Z.of_nat W') (Z.of_nat H')) (H `min` H'))
    as (g & Hg & [Hlen Hrect] & Hcells);
    [apply empty_interior_shaped|lia..|].
  rewrite Hg. simpl. eexists. split; [done|]. simpl.
  repeat (split; [done|]).
  intros x y Hx Hy. unfold cell.
  replace ((0 <=? x) && (0 <=? y)) with true by lia.
  rewrite Hcells.
  destruct (decide ((Z.to_nat y < H `min` H')%nat /\
                    (Z.to_nat x < W `min` W')%nat)) as [Hin|Hout].
  - replace ((x <? Z.of_nat W) && (y <? Z.of_nat H)) with true by lia. done.
  - replace ((x <? Z.of_nat W) && (y <? Z.of_nat H)) with false by lia.
    apply empty_interior_cell; lia.
Qed.

(** C7. For a room with [width, height >= 2] whose interior has the
    model's shape ([height - 2] rows of [width - 2] entries) and new
    dimensions [new_w, new_h >= 2], [resize] succeeds; the new interior
    has [new_h - 2] rows of [new_w - 2] entries; a cell inside both the
    old and the new interior keeps its tile, every other cell of the new
    interior is Empty. *)
Theorem C7_resize_preserves_overlap (r : Room.t) (new_w new_h : Z) :
  room_inv r -> 2 <= Room.width r -> 2 <= Room.height r ->
  2 <= new_w -> 2 <= new_h ->
  exists r', Room.resize r new_w new_h = Ok r' /\
    Room.width r' = new_w /\ Room.height r' = new_h /\
    length (Room.interior r') = Z.to_nat (new_h - 2) /\
    rectangular (Room.interior r') (Z.to_nat (new_w - 2)) /\
    forall x y, 0 <= x < new_w - 2 -> 0 <= y < new_h - 2 ->
      if (x <? Room.get_interior_width r) && (y <? Room.get_interior_height r)
      then exists v, cell (Room.interior r) x y = Some v /\
                     cell (Room.interior r') x y = Some v
      else cell (Room.interior r') x y = Some TileType.EMPTY.
Proof.
  intros [Hrows Hrect] Hw Hh Hnw Hnh.
  destruct (resize_rectangular r _ _ new_w new_h Hrows Hrect Hnw Hnh)
    as (r' & Hr' & _ & Hw' & Hh' & _ & _ & Hlen' & Hrect' & Hcells).
  exists r'. repeat (split; [done|]).
  intros x y Hx Hy. specialize (Hcells x y Hx Hy).
  unfold Room.get_interior_width, Room.get_interior_height in *.
  rewrite !Z2Nat.id in Hcells by lia.
  destruct ((x <? Room.width r - 2) && (y <? Room.height r - 2)) eqn:Hov;
    [|done].
  destruct (cell_in_range (Room.interior r) _ x y Hrect) as (? & v & _ & _ & Hv);
    [lia|unfold len; lia|].
  exists v. by rewrite Hcells.
Qed.

Example resize_sample :
  Room.resize sample_room 4 5 =
    Ok (Room.mk 1 4 5 [[1; 2]; [4; 8]; [0; 0]]
          Room.default_exits Room.default_theme).
Proof. reflexivity. Qed.

Lemma C7_resize_preserves_overlap_witness :
  room_inv sample_room /\
  exists r', Room.resize sample_room 4 5 = Ok r' /\
    Room.width r' = 4 /\ Room.height r' = 5 /\
    length (Room.interior r') = Z.to_nat (5 - 2) /\
    rectangular (Room.interior r') (Z.to_nat (4 - 2)) /\
    forall x y, 0 <= x < 4 - 2 -> 0 <= y < 5 - 2 ->
      if (x <? Room.get_interior_width sample_room) &&
         (y <? Room.get_interior_height sample_room)
      then exists v, cell (Room.interior sample_room) x y = Some v /\
                     cell (Room.interior r') x y = Some v
      else cell (Room.interior r') x y = Some TileType.EMPTY.
Proof.
  assert (room_inv sample_room) as Hinv.
  { split; [reflexivity|repeat constructor]. }
  split; [exact Hinv|].
  apply (C7_resize_preserves_overlap sample_room 4 5 Hinv); simpl; lia.
Defined.

(** ** FloorLayout *)

Section floor.
Import FloorLayout.

Lemma first_joining_filter a b (cs : list RoomConnection.t) :
  first_joining a b cs = head (filter (joins a b) cs).
Proof.
  induction cs as [|c cs IH]; [done|]. simpl.
  rewrite filter_cons. destruct (decide (joins a b c)); [done|apply IH].
Qed.

Lemma joins_sym a b c : joins a b c <-> joins b a c.
Proof. unfold joins. tauto. Qed.

Lemma filter_joins_sym a b (cs : list RoomConnection.t) : filter (joins a b) cs = filter (joins b a) cs.
Proof. apply list_filter_iff. intros c. apply joins_sym. Qed.

Lemma get_connection_sym fl a b : get_connection fl a b = get_connection fl b a.
Proof.
  unfold get_connection. by rewrite !first_joining_filter, filter_joins_sym.
Qed.

Lemma filter_joins_stripped a b (cs : list RoomConnection.t) :
  filter (joins a b) (filter (fun c => ~ joins a b c) cs) = [].
Proof.
  induction cs as [|c cs IH]; [done|].
  rewrite (filter_cons (fun c => ~ joins a b c)).
  destruct (decide (~ joins a b c)) as [Hn|Hy]; [|done].
  rewrite filter_cons, decide_False by done. done.
Qed.

Lemma set_connection_joining a b door fl :
  filter (joins a b) (connections (set_connection fl a b door)) =
    if decide (door <> DoorPosition.NONE) then [RoomConnection.mk a b door] else [].
Proof.
  unfold set_connection. destruct (decide (door <> DoorPosition.NONE)); simpl.
  - rewrite filter_app, filter_joins_stripped. simpl.
    rewrite filter_cons, decide_True; [done|]. left. done.
  - apply filter_joins_stripped.
Qed.

(** Deleting the first [k] cells of row [row]. *)
Lemma delete_row_cells (g : gmap (Z * Z) (option Z)) (row : Z) (k : nat) :
  (forall col, 0 <= col < Z.of_nat k -> is_Some (g !! (row, col))) ->
  exists g',
    for_each (py_range (Z.of_nat k))
      (fun col g => py_del g (GridPosition.mk row col)) g = Ok g' /\
    forall pos, g' !! pos =
      if decide (pos.1 = row /\ 0 <= pos.2 < Z.of_nat k) then None else g !! pos.
Proof.
  induction k as [|k IH]; intros Hall.
  - exists g. split; [done|]. intros pos. rewrite decide_False by lia. done.
  - destruct IH as (g1 & Hg1 & Hlk); [intros; apply Hall; lia|].
    exists (delete (row, Z.of_nat k) g1). split.
    + rewrite py_range_S, for_each_app, Hg1. simpl.
      unfold py_del, GridPosition.mk. rewrite decide_True; [done|].
      rewrite Hlk, decide_False by (simpl; lia). apply Hall. lia.
    + intros [r c]. simpl. destruct (decide ((r, c) = (row, Z.of_nat k))) as [Heq|Hne].
      * injection Heq as -> ->. rewrite lookup_delete_eq.
        rewrite decide_True by lia. done.
      * rewrite lookup_delete_ne by done. rewrite Hlk. simpl.
        destruct (decide (r = row /\ 0 <= c < Z.of_nat k)).
        -- rewrite decide_True by lia. done.
        -- rewrite decide_False; [done|]. intros [-> ?]. 
           assert (c <> Z.of_nat k) by congruence. lia.
Qed.

Lemma delete_column_cells (g : gmap (Z * Z) (option Z)) (col : Z) (k : nat) :
  (forall row, 0 <= row < Z.of_nat k -> is_Some (g !! (row, col))) ->
  exists g',
    for_each (py_range (Z.of_nat k))
      (fun row g => py_del g (GridPosition.mk row col)) g = Ok g' /\
    forall pos, g' !! pos =
      if decide (pos.2 = col /\ 0 <= pos.1 < Z.of_nat k) then None else g !! pos.
Proof.
  induction k as [|k IH]; intros Hall.
  - exists g. split; [done|]. intros pos. rewrite decide_False by lia. done.
  - destruct IH as (g1 & Hg1 & Hlk); [intros; apply Hall; lia|].
    exists (delete (Z.of_nat k, col) g1). split.
    + rewrite py_range_S, for_each_app, Hg1. simpl.
      unfold py_del, GridPosition.mk. rewrite decide_True; [done|].
      rewrite Hlk, decide_False by (simpl; lia). apply Hall. lia.
    + intros [r c]. simpl. destruct (decide ((r, c) = (Z.of_nat k, col))) as [Heq|Hne].
      * injection Heq as -> ->. rewrite lookup_delete_eq.
        rewrite decide_True by lia. done.
      * rewrite lookup_delete_ne by done. rewrite Hlk. simpl.
        destruct (decide (c = col /\ 0 <= r < Z.of_nat k)).
        -- rewrite decide_True by lia. done.
        -- rewrite decide_False; [done|]. intros [-> ?]. 
           assert (r <> Z.of_nat k) by congruence. lia.
Qed.

Lemma remove_row_refuses (fl : t) :
  rows fl <= 1 \/
  (exists col v, 0 <= col < cols fl /\ grid fl !! (rows fl - 1, col) = Some (Some v)) ->
  remove_row fl = Ok (false, fl).
Proof.
  intros Hc. unfold remove_row.
  destruct (rows fl <=? 1) eqn:Hr; [done|].
  destruct Hc as [?|(col & v & Hcol & Hv)]; [lia|].
  destruct (existsb _ _) eqn:Hex; [done|]. exfalso.
  apply not_true_iff_false in Hex. apply Hex.
  apply existsb_exists. exists col. split.
  - apply list_elem_of_In, elem_of_seqZ. lia.
  - apply bool_decide_eq_true. unfold get_room_at, GridPosition.mk. by rewrite Hv.
Qed.

Lemma remove_column_refuses (fl : t) :
  cols fl <= 1 \/
  (exists row v, 0 <= row < rows fl /\ grid fl !! (row, cols fl - 1) = Some (Some v)) ->
  remove_column fl = Ok (false, fl).
Proof.
  intros Hc. unfold remove_column.
  destruct (cols fl <=? 1) eqn:Hr; [done|].
  destruct Hc as [?|(row & v & Hrow & Hv)]; [lia|].
  destruct (existsb _ _) eqn:Hex; [done|]. exfalso.
  apply not_true_iff_false in Hex. apply Hex.
  apply existsb_exists. exists row. split.
  - apply list_elem_of_In, elem_of_seqZ. lia.
  - apply bool_decide_eq_true. unfold get_room_at, GridPosition.mk. by rewrite Hv.
Qed.

Lemma remove_row_succeeds (fl : t) :
  1 < rows fl ->
  (forall col, 0 <= col < cols fl -> grid fl !! (rows fl - 1, col) = Some None) ->
  exists g',
    remove_row fl =
      Ok (true,
          mk (rows fl - 1) (cols fl) g'
             (filter (fun c =>
                        GridPosition.row (RoomConnection.from_pos c) < rows fl - 1 /\
                        GridPosition.row (RoomConnection.to_pos c) < rows fl - 1)
                     (connections fl))) /\
    forall pos, g' !! pos =
      if decide (pos.1 = rows fl - 1 /\ 0 <= pos.2 < cols fl) then None
      else grid fl !! pos.
Proof.
  intros Hr Hall. unfold remove_row.
  replace (rows fl <=? 1) with false by lia.
  destruct (existsb _ _) eqn:Hex.
  { exfalso. apply existsb_exists in Hex as (col & Hin & Hb).
    apply list_elem_of_In, elem_of_seqZ in Hin.
    apply bool_decide_eq_true in Hb. apply Hb.
    unfold get_room_at, GridPosition.mk. rewrite Hall by lia. done. }
  destruct (Z.le_gt_cases 0 (cols fl)) as [Hc|Hc].
  - destruct (delete_row_cells (grid fl) (rows fl - 1) (Z.to_nat (cols fl)))
      as (g' & Hg' & Hlk).
    { intros col Hcol. rewrite Hall by lia. done. }
    rewrite Z2Nat.id in Hg', Hlk by done.
    exists g'. rewrite Hg'. split; [done|]. done.
  - exists (grid fl). unfold py_range. rewrite seqZ_nil by lia. simpl.
    split; [done|]. intros pos. rewrite decide_False by lia. done.
Qed.

Lemma remove_column_succeeds (fl : t) :
  1 < cols fl ->
  (forall row, 0 <= row < rows fl -> grid fl !! (row, cols fl - 1) = Some None) ->
  exists g',
    remove_column fl =
      Ok (true,
          mk (rows fl) (cols fl - 1) g'
             (filter (fun c =>
                        GridPosition.col (RoomConnection.from_pos c) < cols fl - 1 /\
                        GridPosition.col (RoomConnection.to_pos c) < cols fl - 1)
                     (connections fl))) /\
    forall pos, g' !! pos =
      if decide (pos.2 = cols fl - 1 /\ 0 <= pos.1 < rows fl) then None
      else grid fl !! pos.
Proof.
  intros Hr Hall. unfold remove_column.
  replace (cols fl <=? 1) with false by lia.
  destruct (existsb _ _) eqn:Hex.
  { exfalso. apply existsb_exists in Hex as (row & Hin & Hb).
    apply list_elem_of_In, elem_of_seqZ in Hin.
    apply bool_decide_eq_true in Hb. apply Hb.
    unfold get_room_at, GridPosition.mk. rewrite Hall by lia. done. }
  destruct (Z.le_gt_cases 0 (rows fl)) as [Hc|Hc].
  - destruct (delete_column_cells (grid fl) (cols fl - 1) (Z.to_nat (rows fl)))
      as (g' & Hg' & Hlk).
    { intros row Hrow. rewrite Hall by lia. done. }
    rewrite Z2Nat.id in Hg', Hlk by done.
    exists g'. rewrite Hg'. split; [done|]. done.
  - exists (grid fl). unfold py_range. rewrite seqZ_nil by lia. simpl.
    split; [done|]. intros pos. rewrite decide_False by lia. done.
Qed.

Lemma clear_row_lookup (g : gmap (Z * Z) (option Z)) (row cols : Z) pos :
  clear_row row cols g !! pos =
    if decide (pos.1 = row /\ 0 <= pos.2 < cols) then Some None else g !! pos.
Proof.
  unfold clear_row, py_range.
  destruct (Z.le_gt_cases 0 cols) as [Hc|Hc].
  2:{ rewrite seqZ_nil by lia. simpl. rewrite decide_False by lia. done. }
  rewrite <- (Z2Nat.id cols) by done.
  induction (Z.to_nat cols) as [|k IH].
  - simpl. rewrite decide_False by lia. done.
  - rewrite seqZ_S, foldl_app. cbn [foldl].
    change (GridPosition.mk row (0 + Z.of_nat k)) with (row, Z.of_nat k).
    destruct pos as [r c]. cbn [fst snd] in *.
    destruct (decide ((r, c) = (row, Z.of_nat k))) as [Heq|Hne].
    + injection Heq as -> ->. rewrite lookup_insert_eq.
      rewrite decide_True by lia. done.
    + rewrite lookup_insert_ne by done. rewrite IH.
      destruct (decide (r = row /\ 0 <= c < Z.of_nat k)).
      * rewrite decide_True by lia. done.
      * rewrite decide_False; [done|]. intros [-> ?].
        assert (c <> Z.of_nat k) by congruence. lia.
Qed.

Lemma clear_column_lookup (g : gmap (Z * Z) (option Z)) (col rows : Z) pos :
  clear_column col rows g !! pos =
    if decide (pos.2 = col /\ 0 <= pos.1 < rows) then Some None else g !! pos.
Proof.
  unfold clear_column, py_range.
  destruct (Z.le_gt_cases 0 rows) as [Hc|Hc].
  2:{ rewrite seqZ_nil by lia. simpl. rewrite decide_False by lia. done. }
  rewrite <- (Z2Nat.id rows) by done.
  induction (Z.to_nat rows) as [|k IH].
  - simpl. rewrite decide_False by lia. done.
  - rewrite seqZ_S, foldl_app. cbn [foldl].
    change (GridPosition.mk (0 + Z.of_nat k) col) with (Z.of_nat k, col).
    destruct pos as [r c]. cbn [fst snd] in *.
    destruct (decide ((r, c) = (Z.of_nat k, col))) as [Heq|Hne].
    + injection Heq as -> ->. rewrite lookup_insert_eq.
      rewrite decide_True by lia. done.
    + rewrite lookup_insert_ne by done. rewrite IH.
      destruct (decide (c = col /\ 0 <= r < Z.of_nat k)).
      * rewrite decide_True by lia. done.
      * rewrite decide_False; [done|]. intros [-> ?].
        assert (r <> Z.of_nat k) by congruence. lia.
Qed.

Lemma init_lookup (rows cols : Z) pos :
  grid (init rows cols) !! pos =
    if decide (0 <= pos.1 < rows /\ 0 <= pos.2 < cols) then Some None else None.
Proof.
  unfold init. simpl. unfold py_range.
  destruct (Z.le_gt_cases 0 rows) as [Hc|Hc].
  2:{ rewrite seqZ_nil by lia. simpl. rewrite decide_False by lia. done. }
  rewrite <- (Z2Nat.id rows) by done.
  induction (Z.to_nat rows) as [|k IH].
  - simpl. rewrite decide_False by lia. done.
  - rewrite seqZ_S, foldl_app. cbn [foldl]. rewrite clear_row_lookup, IH.
    change (0 + Z.of_nat k) with (Z.of_nat k).
    destruct (decide (pos.1 = Z.of_nat k /\ 0 <= pos.2 < cols)).
    + rewrite decide_True by lia. done.
    + destruct (decide (0 <= pos.1 < Z.of_nat k /\ 0 <= pos.2 < cols)).
      * rewrite decide_True by lia. done.
      * rewrite decide_False by lia. done.
Qed.

Lemma init_dense (rows cols : Z) :
  0 <= rows -> 0 <= cols -> grid_dense (init rows cols).
Proof.
  intros Hr Hc. split; [done|]. split; [done|]. intros r c.
  rewrite init_lookup. simpl. destruct (decide _); split; done.
Qed.

Lemma dense_lookup (fl : t) (r c : Z) :
  grid_dense fl ->
  ~ (0 <= r < rows fl /\ 0 <= c < cols fl) -> grid fl !! (r, c) = None.
Proof.
  intros (_ & _ & Hd) Hout. apply eq_None_not_Some. by rewrite Hd.
Qed.

Lemma place_room_dense (fl : t) pos v :
  grid_dense fl -> grid_dense (place_room fl pos v).
Proof.
  intros (Hr & Hc & Hd). unfold place_room.
  destruct (decide (is_Some (grid fl !! pos))) as [Hs|Hn]; [|done].
  split; [done|]. split; [done|]. intros r c. simpl.
  rewrite <- Hd. destruct (decide (pos = (r, c))) as [->|Hne].
  - rewrite lookup_insert_eq. split; [done|]. by eexists.
  - by rewrite lookup_insert_ne.
Qed.

Lemma add_row_dense (fl : t) : grid_dense fl -> grid_dense (add_row fl).
Proof.
  intros (Hr & Hc & Hd). unfold grid_dense, add_row. cbn [rows cols grid].
  split; [lia|]. split; [done|]. intros r c.
  rewrite clear_row_lookup. cbn [fst snd]. destruct (decide _) as [Hin|Hout].
  - split; [intros _; lia|]. by eexists.
  - rewrite Hd. lia.
Qed.

Lemma add_column_dense (fl : t) : grid_dense fl -> grid_dense (add_column fl).
Proof.
  intros (Hr & Hc & Hd). unfold grid_dense, add_column. cbn [rows cols grid].
  split; [done|]. split; [lia|]. intros r c.
  rewrite clear_column_lookup. cbn [fst snd]. destruct (decide _) as [Hin|Hout].
  - split; [intros _; lia|]. by eexists.
  - rewrite Hd. lia.
Qed.

Lemma set_connection_dense (fl : t) a b door :
  grid_dense fl -> grid_dense (set_connection fl a b door).
Proof. unfold set_connection. by destruct (decide _). Qed.

(** On a dense grid the shrink operations never raise and keep the
    grid dense. *)
Lemma remove_row_dense (fl : t) :
  grid_dense fl ->
  exists b fl', remove_row fl = Ok (b, fl') /\ grid_dense fl'.
Proof.
  intros Hdense. pose proof Hdense as (Hr & Hc & Hd).
  destruct (decide (rows fl <= 1)) as [Hle|Hgt].
  { exists false, fl. split; [|done]. apply remove_row_refuses. by left. }
  destruct (decide (Forall (fun col => grid fl !! (rows fl - 1, col) = Some None)
                      (py_range (cols fl)))) as [Hall|Hnot].
  - unfold py_range in Hall. rewrite Forall_seqZ in Hall.
    destruct (remove_row_succeeds fl) as (g' & Hrm & Hlk); [lia| |].
    { intros col Hcol. apply Hall. lia. }
    eexists _, _. split; [exact Hrm|]. unfold grid_dense. cbn [rows cols grid].
    split; [lia|]. split; [done|]. intros r c. rewrite Hlk. cbn [fst snd].
    destruct (decide _) as [Hin|Hout].
    + split; [by intros [? [=]]|lia].
    + rewrite Hd. lia.
  - apply not_Forall_Exists in Hnot; [|apply _].
    apply Exists_exists in Hnot as (col & Hin & Hne).
    unfold py_range in Hin. apply elem_of_seqZ in Hin.
    destruct (Hd (rows fl - 1) col) as [_ [[v|] Hv]]; [lia| |done].
    exists false, fl. split; [|done]. apply remove_row_refuses. right.
    exists col, v. split; [lia|done].
Qed.

Lemma remove_column_dense (fl : t) :
  grid_dense fl ->
  exists b fl', remove_column fl = Ok (b, fl') /\ grid_dense fl'.
Proof.
  intros Hdense. pose proof Hdense as (Hr & Hc & Hd).
  destruct (decide (cols fl <= 1)) as [Hle|Hgt].
  { exists false, fl. split; [|done]. apply remove_column_refuses. by left. }
  destruct (decide (Forall (fun row => grid fl !! (row, cols fl - 1) = Some None)
                      (py_range (rows fl)))) as [Hall|Hnot].
  - unfold py_range in Hall. rewrite Forall_seqZ in Hall.
    destruct (remove_column_succeeds fl) as (g' & Hrm & Hlk); [lia| |].
    { intros row Hrow. apply Hall. lia. }
    eexists _, _. split; [exact Hrm|]. unfold grid_dense. cbn [rows cols grid].
    split; [done|]. split; [lia|]. intros r c. rewrite Hlk. cbn [fst snd].
    destruct (decide _) as [Hin|Hout].
    + split; [by intros [? [=]]|lia].
    + rewrite Hd. lia.
  - apply not_Forall_Exists in Hnot; [|apply _].
    apply Exists_exists in Hnot as (row & Hin & Hne).
    unfold py_range in Hin. apply elem_of_seqZ in Hin.
    destruct (Hd row (cols fl - 1)) as [_ [[v|] Hv]]; [lia| |done].
    exists false, fl. split; [|done]. apply remove_column_refuses. right.
    exists row, v. split; [lia|done].
Qed.
End floor.

(** C10. A position with no entry in the grid (on a dense grid: any
    position outside the [rows] x [cols] extent) is harmless:
    [place_room] returns the layout unchanged and [get_room_at] returns
    [None]. *)
Theorem C10_out_of_grid_access (fl : FloorLayout.t) (pos : GridPosition.t)
    (room_id : option Z) :
  FloorLayout.grid fl !! pos = None \/
  (grid_dense fl /\
   ~ (0 <= GridPosition.row pos < FloorLayout.rows fl /\
      0 <= GridPosition.col pos < FloorLayout.cols fl)) ->
  FloorLayout.place_room fl pos room_id = fl /\
  FloorLayout.get_room_at fl pos = None.
Proof.
  intros Hpos.
  assert (FloorLayout.grid fl !! pos = None) as Hnone.
  { destruct Hpos as [?|[Hd Hout]]; [done|].
    destruct pos as [r c]. by apply dense_lookup. }
  unfold FloorLayout.place_room, FloorLayout.get_room_at. rewrite Hnone.
  split; [|done]. rewrite decide_False; [done|]. by intros [? [=]].
Qed.

Lemma C10_out_of_grid_access_witness :
  FloorLayout.place_room sample_floor (2, 0) (Some 3) = sample_floor /\
  FloorLayout.get_room_at sample_floor (2, 0) = None.
Proof.
  apply (C10_out_of_grid_access sample_floor (2, 0) (Some 3)).
  left. vm_compute. reflexivity.
Defined.

(** C4. After [set_connection(A, B, "top")] both [get_connection(A, B)]
    and [get_connection(B, A)] return the record with door "top", and it
    is the only stored record joining [A] and [B] in either orientation.
    After a further [set_connection(A, B, "none")] or
    [set_connection(B, A, "none")] both lookups return nothing and no
    record joins [A] and [B]. *)
Theorem C4_connections_undirected (fl : FloorLayout.t) (A B : GridPosition.t) :
  let top := RoomConnection.mk A B DoorPosition.TOP in
  let fl1 := FloorLayout.set_connection fl A B DoorPosition.TOP in
  let fl2 := FloorLayout.set_connection fl1 A B DoorPosition.NONE in
  let fl2' := FloorLayout.set_connection fl1 B A DoorPosition.NONE in
  (FloorLayout.get_connection fl1 A B = Some top /\
   FloorLayout.get_connection fl1 B A = Some top /\
   RoomConnection.door_position top = "top"%string /\
   filter (FloorLayout.joins A B) (FloorLayout.connections fl1) = [top] /\
   joining_count fl1 A B = 1%nat) /\
  (FloorLayout.get_connection fl2 A B = None /\
   FloorLayout.get_connection fl2 B A = None /\
   joining_count fl2 A B = 0%nat) /\
  (FloorLayout.get_connection fl2' A B = None /\
   FloorLayout.get_connection fl2' B A = None /\
   joining_count fl2' A B = 0%nat).
Proof.
  intros top fl1 fl2 fl2'.
  assert (filter (FloorLayout.joins A B) (FloorLayout.connections fl1) = [top])
    as H1.
  { unfold fl1. rewrite set_connection_joining. by rewrite decide_True. }
  assert (filter (FloorLayout.joins A B) (FloorLayout.connections fl2) = [])
    as H2.
  { unfold fl2. rewrite set_connection_joining. by rewrite decide_False by tauto. }
  assert (filter (FloorLayout.joins A B) (FloorLayout.connections fl2') = [])
    as H2'.
  { unfold fl2'. rewrite filter_joins_sym, set_connection_joining.
    by rewrite decide_False by tauto. }
  unfold joining_count.
  rewrite !(get_connection_sym _ B A).
  unfold FloorLayout.get_connection. rewrite !first_joining_filter.
  rewrite H1, H2, H2'. done.
Qed.

(** Both orientations never coexist after [set_connection]: every stored
    record that joins the two positions is the one just written. *)
Lemma set_connection_single (fl : FloorLayout.t) (A B : GridPosition.t)
    (door : string) (c : RoomConnection.t) :
  c ∈ FloorLayout.connections (FloorLayout.set_connection fl A B door) ->
  FloorLayout.joins A B c ->
  door <> DoorPosition.NONE /\ c = RoomConnection.mk A B door.
Proof.
  intros Hin Hj.
  assert (c ∈ filter (FloorLayout.joins A B)
            (FloorLayout.connections (FloorLayout.set_connection fl A B door)))
    as Hf by (by apply list_elem_of_filter).
  rewrite set_connection_joining in Hf.
  destruct (decide (door <> DoorPosition.NONE)).
  - apply list_elem_of_singleton in Hf. done.
  - by apply elem_of_nil in Hf.
Qed.

Example sample_floor_connections :
  FloorLayout.connections
    (FloorLayout.set_connection sample_floor (1, 0) (0, 0) DoorPosition.TOP)
  = [RoomConnection.mk (1, 0) (0, 0) "top"].
Proof. reflexivity. Qed.

(** C3. [remove_row] (resp. [remove_column]) returns [False] and the
    layout unchanged when [rows <= 1] (resp. [cols <= 1]) or some cell of
    the bottom row (resp. rightmost column) holds a room id.  When the
    extent is above 1 and every cell of that row (column) is present and
    empty, it returns [True], the extent drops by one, exactly the
    boundary cells leave the grid, and the connections kept are those
    whose two ends lie below the new extent, so none refers to the
    removed index. *)
Theorem C3_shrink_guard (fl : FloorLayout.t) :
  (FloorLayout.rows fl <= 1 \/
   (exists col v, 0 <= col < FloorLayout.cols fl /\
      FloorLayout.grid fl !! (FloorLayout.rows fl - 1, col) = Some (Some v)) ->
   FloorLayout.remove_row fl = Ok (false, fl)) /\
  (FloorLayout.cols fl <= 1 \/
   (exists row v, 0 <= row < FloorLayout.rows fl /\
      FloorLayout.grid fl !! (row, FloorLayout.cols fl - 1) = Some (Some v)) ->
   FloorLayout.remove_column fl = Ok (false, fl)) /\
  (1 < FloorLayout.rows fl ->
   (forall col, 0 <= col < FloorLayout.cols fl ->
      FloorLayout.grid fl !! (FloorLayout.rows fl - 1, col) = Some None) ->
   exists fl', FloorLayout.remove_row fl = Ok (true, fl') /\
     FloorLayout.rows fl' = FloorLayout.rows fl - 1 /\
     FloorLayout.cols fl' = FloorLayout.cols fl /\
     (forall pos, FloorLayout.grid fl' !! pos =
        if decide (GridPosition.row pos = FloorLayout.rows fl - 1 /\
                   0 <= GridPosition.col pos < FloorLayout.cols fl)
        then None else FloorLayout.grid fl !! pos) /\
     (forall c, c ∈ FloorLayout.connections fl' <->
        c ∈ FloorLayout.connections fl /\
        GridPosition.row (RoomConnection.from_pos c) < FloorLayout.rows fl - 1 /\
        GridPosition.row (RoomConnection.to_pos c) < FloorLayout.rows fl - 1) /\
     sublist (FloorLayout.connections fl') (FloorLayout.connections fl)) /\
  (1 < FloorLayout.cols fl ->
   (forall row, 0 <= row < FloorLayout.rows fl ->
      FloorLayout.grid fl !! (row, FloorLayout.cols fl - 1) = Some None) ->
   exists fl', FloorLayout.remove_column fl = Ok (true, fl') /\
     FloorLayout.rows fl' = FloorLayout.rows fl /\
     FloorLayout.cols fl' = FloorLayout.cols fl - 1 /\
     (forall pos, FloorLayout.grid fl' !! pos =
        if decide (GridPosition.col pos = FloorLayout.cols fl - 1 /\
                   0 <= GridPosition.row pos < FloorLayout.rows fl)
        then None else FloorLayout.grid fl !! pos) /\
     (forall c, c ∈ FloorLayout.connections fl' <->
        c ∈ FloorLayout.connections fl /\
        GridPosition.col (RoomConnection.from_pos c) < FloorLayout.cols fl - 1 /\
        GridPosition.col (RoomConnection.to_pos c) < FloorLayout.cols fl - 1) /\
     sublist (FloorLayout.connections fl') (FloorLayout.connections fl)).
Proof.
  split; [apply remove_row_refuses|].
  split; [apply remove_column_refuses|].
  split.
  - intros Hr Hall.
    destruct (remove_row_succeeds fl Hr Hall) as (g' & Hrm & Hlk).
    eexists. split; [exact Hrm|]. cbn.
    repeat (split; [done|]).
    split; [|apply sublist_filter].
    intros c. by rewrite list_elem_of_filter, (comm and).
  - intros Hc Hall.
    destruct (remove_column_succeeds fl Hc Hall) as (g' & Hrm & Hlk).
    eexists. split; [exact Hrm|]. cbn.
    repeat (split; [done|]).
    split; [|apply sublist_filter].
    intros c. by rewrite list_elem_of_filter, (comm and).
Qed.

Example sample_floor_remove_column :
  FloorLayout.remove_column sample_floor
  = Ok (true,
        FloorLayout.mk 2 1 {[ (0, 0) := Some 7; (1, 0) := None ]}
          [RoomConnection.mk (0, 0) (1, 0) "mid"]).
Proof. vm_compute. reflexivity. Qed.

Lemma C3_shrink_guard_witness :
  1 < FloorLayout.rows sample_floor /\
  exists fl', FloorLayout.remove_row sample_floor = Ok (true, fl') /\
    FloorLayout.rows fl' = 1 /\
    FloorLayout.connections fl' = [].
Proof.
  split; [vm_compute; reflexivity|].
  destruct (proj1 (proj2 (proj2 (C3_shrink_guard sample_floor))))
    as (fl' & Hrm & Hrows & _ & _ & Hconn & _).
  - vm_compute. reflexivity.
  - intros col Hcol.
    change (FloorLayout.cols sample_floor) with 2 in Hcol.
    assert (col = 0 \/ col = 1) as [-> | ->] by lia; vm_compute; reflexivity.
  - exists fl'. split; [exact Hrm|]. split; [exact Hrows|].
    apply elem_of_nil_inv. intros c Hc. apply Hconn in Hc as (Hin & Hf & Ht).
    cbn in Hin. apply list_elem_of_singleton in Hin. subst c.
    vm_compute in Ht. discriminate Ht.
Defined.


(** ** Level: room ids *)

Section next_id.
Import Level.

Lemma is_max_id_unique rs m1 m2 : is_max_id rs m1 -> is_max_id rs m2 -> m1 = m2.
Proof.
  intros [(r1 & Hr1 & <-) Hle1] [(r2 & Hr2 & <-) Hle2].
  specialize (Hle1 _ Hr2). specialize (Hle2 _ Hr1). lia.
Qed.

Lemma foldl_max_spec (rest : list Room.t) (m0 : Z) :
  let m := foldl (fun m r => Z.max m (Room.id r)) m0 rest in
  m0 <= m /\ (forall r, r ∈ rest -> Room.id r <= m) /\
  (m = m0 \/ exists r, r ∈ rest /\ Room.id r = m).
Proof.
  revert m0. induction rest as [|r rest IH]; intros m0; simpl.
  - split; [lia|]. split; [|by left]. intros r Hr. by apply elem_of_nil in Hr.
  - destruct (IH (Z.max m0 (Room.id r))) as (Hle & Hall & Hex).
    split; [lia|]. split.
    + intros r' Hr'. apply elem_of_cons in Hr' as [->|Hr']; [lia|by apply Hall].
    + destruct Hex as [Heq|(r' & Hr' & Heq)].
      * destruct (Z.max_spec m0 (Room.id r)) as [[_ Hm]|[_ Hm]].
        -- right. exists r. split; [apply elem_of_cons; by left|]. lia.
        -- left. lia.
      * right. exists r'. split; [apply elem_of_cons; by right|done].
Qed.

Lemma max_id_spec (first : Room.t) (rest : list Room.t) :
  is_max_id (first :: rest) (max_id first rest).
Proof.
  unfold max_id.
  destruct (foldl_max_spec rest (Room.id first)) as (Hle & Hall & Hex).
  split.
  - destruct Hex as [Heq|(r & Hr & Heq)].
    + exists first. split; [apply elem_of_cons; by left|done].
    + exists r. split; [apply elem_of_cons; by right|done].
  - intros r Hr. apply elem_of_cons in Hr as [->|Hr]; [done|by apply Hall].
Qed.

Lemma get_next_room_id_empty (l : t) : rooms l = [] -> get_next_room_id l = 1.
Proof. unfold get_next_room_id. by intros ->. Qed.

Lemma get_next_room_id_max (l : t) (m : Z) :
  is_max_id (rooms l) m -> get_next_room_id l = m + 1.
Proof.
  intros Hm. unfold get_next_room_id.
  destruct (rooms l) as [|first rest] eqn:Hrs.
  - destruct Hm as [(r & Hr & _) _]. by apply elem_of_nil in Hr.
  - f_equal. eapply is_max_id_unique; [apply max_id_spec|done].
Qed.

Lemma rooms_have_max (rs : list Room.t) : rs <> [] -> exists m, is_max_id rs m.
Proof.
  destruct rs as [|first rest]; [done|]. intros _.
  eexists. apply max_id_spec.
Qed.

Lemma get_next_room_id_exceeds (l : t) (r : Room.t) :
  r ∈ rooms l -> Room.id r < get_next_room_id l.
Proof.
  intros Hr. destruct (rooms_have_max (rooms l)) as [m Hm].
  { intros Hnil. rewrite Hnil in Hr. by apply elem_of_nil in Hr. }
  rewrite (get_next_room_id_max l m Hm). destruct Hm as [_ Hle].
  specialize (Hle r Hr). lia.
Qed.

Lemma has_room_spec (l : t) (i : Z) :
  has_room l i = true <-> exists r, r ∈ rooms l /\ Room.id r = i.
Proof.
  unfold has_room. rewrite existsb_exists. split.
  - intros (r & Hin & Hb). exists r. split; [by apply list_elem_of_In|].
    by apply bool_decide_eq_true in Hb.
  - intros (r & Hin & Hb). exists r. split; [by apply list_elem_of_In|].
    by apply bool_decide_eq_true.
Qed.

Lemma add_room_next_id (l : t) (room : Room.t) :
  1 <= Room.id room ->
  get_next_room_id l <= get_next_room_id (add_room l room).2.
Proof.
  intros Hpos. unfold add_room. destruct (has_room l (Room.id room)); [done|].
  simpl. destruct (decide (rooms l = [])) as [Hnil|Hne].
  - rewrite (get_next_room_id_empty l Hnil).
    rewrite (get_next_room_id_max _ (Room.id room)); [lia|].
    simpl. rewrite Hnil. simpl. split.
    + exists room. split; [apply list_elem_of_singleton|]; done.
    + intros r Hr. apply list_elem_of_singleton in Hr. by subst.
  - destruct (rooms_have_max _ Hne) as [m [(rm & Hrm & Heq) Hle]].
    rewrite (get_next_room_id_max l m) by (split; eauto).
    rewrite (get_next_room_id_max _ (Z.max m (Room.id room))); [lia|].
    simpl. split.
    + destruct (Z.max_spec m (Room.id room)) as [[_ ->]|[_ ->]].
      * exists room. split; [|done]. apply elem_of_app. right.
        by apply list_elem_of_singleton.
      * exists rm. split; [|done]. apply elem_of_app. by left.
    + intros r Hr. apply elem_of_app in Hr as [Hr|Hr].
      * specialize (Hle r Hr). lia.
      * apply list_elem_of_singleton in Hr. subst. lia.
Qed.

Lemma remove_room_keeps_max (l : t) (i m : Z) :
  is_max_id (rooms l) m -> m <> i ->
  get_next_room_id (remove_room l i) = get_next_room_id l.
Proof.
  intros Hm Hne. rewrite (get_next_room_id_max l m Hm).
  apply get_next_room_id_max. destruct Hm as [(r & Hr & Heq) Hle].
  simpl. split.
  - exists r. split; [|done]. apply list_elem_of_filter. split; [congruence|done].
  - intros r' Hr'. apply list_elem_of_filter in Hr' as [_ Hr']. by apply Hle.
Qed.

Lemma remove_room_max_reused (l : t) (i : Z) :
  1 <= i -> is_max_id (rooms l) i ->
  get_next_room_id (remove_room l i) <= i /\ i < get_next_room_id l.
Proof.
  intros Hpos Hm. rewrite (get_next_room_id_max l i Hm). split; [|lia].
  destruct (decide (rooms (remove_room l i) = [])) as [Hnil|Hne].
  - rewrite get_next_room_id_empty by done. done.
  - destruct (rooms_have_max _ Hne) as [m Hm'].
    rewrite (get_next_room_id_max _ m Hm').
    destruct Hm' as [(r & Hr & Heq) _]. simpl in Hr.
    apply list_elem_of_filter in Hr as [Hri Hr].
    destruct Hm as [_ Hle]. specialize (Hle r Hr). lia.
Qed.

Lemma remove_room_not_max (l : t) (i : Z) :
  (forall m, is_max_id (rooms l) m -> m <> i) ->
  get_next_room_id (remove_room l i) = get_next_room_id l.
Proof.
  intros Hne. destruct (decide (rooms l = [])) as [Hnil|Hrs].
  - rewrite !get_next_room_id_empty; [done..|]. simpl. by rewrite Hnil.
  - destruct (rooms_have_max _ Hrs) as [m Hm].
    by apply (remove_room_keeps_max l i m); [|apply Hne].
Qed.

(** The rooms left after a sequence of removals. *)
Lemma remove_rooms_rooms (l : t) (ids : list Z) :
  rooms (foldl remove_room l ids)
    = filter (fun r => Room.id r ∉ ids) (rooms l).
Proof.
  revert l. induction ids as [|i ids IH]; intros l; simpl.
  - induction (rooms l) as [|r rs IHr]; [done|].
    rewrite filter_cons_True by apply not_elem_of_nil. by rewrite <- IHr.
  - rewrite IH. simpl. rewrite list_filter_filter.
    apply list_filter_iff. intros r. rewrite not_elem_of_cons. tauto.
Qed.

Lemma remove_rooms_next_id (l : t) (ids : list Z) (i : Z) :
  (forall r, r ∈ rooms l -> (Room.id r ∈ ids) \/ Room.id r < i) ->
  (exists r, r ∈ rooms l /\ (Room.id r ∉ ids) /\ Room.id r = i - 1) ->
  get_next_room_id (foldl remove_room l ids) = i.
Proof.
  intros Hall (r & Hr & Hkeep & Hid).
  rewrite (get_next_room_id_max _ (i - 1)); [lia|].
  rewrite remove_rooms_rooms. split.
  - exists r. split; [|done]. by apply list_elem_of_filter.
  - intros r' Hr'. apply list_elem_of_filter in Hr' as [Hkeep' Hr'].
    destruct (Hall r' Hr'); [done|lia].
Qed.

Lemma remove_room_never_raises (l : t) (i : Z) :
  (forall r, r ∈ rooms l -> 0 <= Room.id r) ->
  get_next_room_id (remove_room l i) <= get_next_room_id l.
Proof.
  intros Hpos. destruct (decide (rooms l = [])) as [Hnil|Hrs].
  - rewrite !get_next_room_id_empty; [done..|]. simpl. by rewrite Hnil.
  - destruct (rooms_have_max _ Hrs) as [m Hm].
    rewrite (get_next_room_id_max l m Hm).
    destruct Hm as [(rm & Hrm & Heq) Hle]. pose proof (Hpos rm Hrm).
    destruct (decide (rooms (remove_room l i) = [])) as [Hnil'|Hrs'].
    + rewrite get_next_room_id_empty by done. lia.
    + destruct (rooms_have_max _ Hrs') as [m' Hm'].
      rewrite (get_next_room_id_max _ m' Hm').
      destruct Hm' as [(r' & Hr' & Heq') _]. simpl in Hr'.
      apply list_elem_of_filter in Hr' as [_ Hr'].
      specialize (Hle r' Hr'). lia.
Qed.
End next_id.

(** C2, as the code has it.  [get_next_room_id] is 1 on an empty level
    and otherwise one more than the largest id in [rooms], so it exceeds
    every id currently held; no record of freed ids is kept.  [add_room]
    of a room with a positive id never lowers the value.  [remove_room]
    never raises it (when no id is negative): removing an id that is not
    the largest leaves it unchanged, and removing a positive id that is
    the largest lowers it to at most that id, so the freed largest id can
    be returned again.  After any sequence of removals the rooms left are
    those whose id was not removed and the value is one more than the
    largest id left (1 when none is left), so an id freed earlier, also one that was below the
    largest when it was freed, is handed out again once every room with
    that id or a larger one has been removed and the room with the id
    before it is still there. *)
Theorem C2_next_room_id (l : Level.t) :
  (Level.rooms l = [] -> Level.get_next_room_id l = 1) /\
  (forall m, is_max_id (Level.rooms l) m -> Level.get_next_room_id l = m + 1) /\
  (Level.rooms l <> [] -> exists m, is_max_id (Level.rooms l) m) /\
  (forall r, r ∈ Level.rooms l -> Room.id r < Level.get_next_room_id l) /\
  (forall room, 1 <= Room.id room ->
     Level.get_next_room_id l
       <= Level.get_next_room_id (Level.add_room l room).2) /\
  (forall i, (forall m, is_max_id (Level.rooms l) m -> m <> i) ->
     Level.get_next_room_id (Level.remove_room l i)
       = Level.get_next_room_id l) /\
  (forall i, 1 <= i -> is_max_id (Level.rooms l) i ->
     Level.get_next_room_id (Level.remove_room l i) <= i /\
     i < Level.get_next_room_id l) /\
  (forall i, (forall r, r ∈ Level.rooms l -> 0 <= Room.id r) ->
     Level.get_next_room_id (Level.remove_room l i)
       <= Level.get_next_room_id l) /\
  (forall ids,
     Level.rooms (foldl Level.remove_room l ids)
       = filter (fun r => Room.id r ∉ ids) (Level.rooms l)) /\
  (forall ids i,
     (forall r, r ∈ Level.rooms l -> (Room.id r ∈ ids) \/ Room.id r < i) ->
     (exists r, r ∈ Level.rooms l /\ (Room.id r ∉ ids) /\ Room.id r = i - 1) ->
     Level.get_next_room_id (foldl Level.remove_room l ids) = i).
Proof.
  split; [apply get_next_room_id_empty|].
  split; [apply get_next_room_id_max|].
  split; [apply rooms_have_max|].
  split; [apply get_next_room_id_exceeds|].
  split; [apply add_room_next_id|].
  split; [apply remove_room_not_max|].
  split; [apply remove_room_max_reused|].
  split; [intros i Hpos; by apply remove_room_never_raises|].
  split; [apply remove_rooms_rooms|].
  apply remove_rooms_next_id.
Qed.

Lemma C2_next_room_id_witness :
  is_max_id (Level.rooms sample_level) 2 /\
  Level.get_next_room_id sample_level = 2 + 1 /\
  Level.get_next_room_id (Level.remove_room sample_level 1)
    = Level.get_next_room_id sample_level /\
  Level.get_next_room_id three_room_level = 4 /\
  Level.get_next_room_id (Level.remove_room three_room_level 2) = 4 /\
  Level.get_next_room_id
    (Level.remove_room (Level.remove_room three_room_level 2) 3) = 2.
Proof.
  assert (is_max_id (Level.rooms sample_level) 2) as Hmax.
  { split.
    - exists (Room.init 2 4 4). split; [|done].
      apply elem_of_cons. right. apply elem_of_cons. by left.
    - intros r Hr. cbn in Hr.
      apply elem_of_cons in Hr as [->|Hr]; [cbn; lia|].
      apply list_elem_of_singleton in Hr as ->. cbn. lia. }
  destruct (C2_next_room_id sample_level) as (_ & Hnext & _ & _ & _ & Hkeep & _).
  split; [exact Hmax|]. split; [by apply Hnext|].
  split.
  { apply (Hkeep 1). intros m Hm.
    rewrite (is_max_id_unique _ _ _ Hm Hmax). lia. }
  split; [reflexivity|]. split; [reflexivity|].
  destruct (C2_next_room_id three_room_level)
    as (_ & _ & _ & _ & _ & _ & _ & _ & _ & Hreuse).
  apply (Hreuse [2; 3] 2).
  - intros r Hr. cbn in Hr.
    apply elem_of_cons in Hr as [->|Hr]; [right; cbn; lia|].
    apply elem_of_cons in Hr as [->|Hr];
      [left; cbn; apply elem_of_cons; by left|].
    apply list_elem_of_singleton in Hr as ->. left. cbn.
    apply elem_of_cons. right. apply elem_of_cons. by left.
  - exists (Room.init 1 4 4). split; [apply elem_of_cons; by left|].
    split; [|done]. cbn. intros Hin.
    apply elem_of_cons in Hin as [Hin|Hin]; [lia|].
    apply list_elem_of_singleton in Hin. lia.
Defined.

(** The claim as worded fails: with rooms 1 and 2 the next id is 3;
    after removing room 2 it is 2, lower than before and equal to the id
    just freed. *)
Lemma C2_counterexample :
  Level.get_next_room_id sample_level = 3 /\
  Level.get_next_room_id (Level.remove_room sample_level 2) = 2 /\
  ~ (Level.get_next_room_id sample_level
       <= Level.get_next_room_id (Level.remove_room sample_level 2)).
Proof.
  split; [reflexivity|]. split; [reflexivity|].
  change (~ (3 <= 2)). lia.
Qed.


(** ** Level: the legacy layout *)

Section layout.
Import Level.

Lemma renumber_length lay : length (renumber lay) = length lay.
Proof. unfold renumber. by rewrite length_imap. Qed.

Lemma renumber_lookup lay (i : nat) :
  renumber lay !! i = (fun le => LayoutEntry.set_position le (Z.of_nat i)) <$> lay !! i.
Proof. unfold renumber. by rewrite list_lookup_imap. Qed.

Lemma renumber_sequential lay : sequential (renumber lay).
Proof.
  unfold sequential. apply list_eq. intros i.
  rewrite list_lookup_fmap, renumber_lookup. unfold len, py_range.
  rewrite renumber_length.
  destruct (lay !! i) as [le|] eqn:Hi; simpl.
  - apply lookup_lt_Some in Hi. rewrite lookup_seqZ_lt by lia. done.
  - apply lookup_ge_None in Hi. rewrite lookup_seqZ_ge by lia. done.
Qed.

Lemma renumber_room_ids lay :
  LayoutEntry.room_id <$> renumber lay = LayoutEntry.room_id <$> lay.
Proof.
  apply list_eq. intros i. rewrite !list_lookup_fmap, renumber_lookup.
  by destruct (lay !! i).
Qed.

Lemma sequential_lookup lay (i : nat) le :
  sequential lay -> lay !! i = Some le -> LayoutEntry.position le = Z.of_nat i.
Proof.
  intros Hseq Hi. pose proof (lookup_lt_Some _ _ _ Hi) as Hlt.
  assert ((LayoutEntry.position <$> lay) !! i = Some (LayoutEntry.position le)) as H
    by (by rewrite list_lookup_fmap, Hi).
  rewrite Hseq in H. unfold py_range, len in H.
  rewrite lookup_seqZ_lt in H by lia. injection H as <-. lia.
Qed.

End layout.

(** ** The stable sort *)
Section stable_sort.
Context {A : Type} (key : A -> Z).

Lemma insert_by_perm (a : A) (l : list A) : insert_by key a l ≡ₚ a :: l.
Proof.
  induction l as [|b l IH]; simpl; [done|].
  destruct (key a <=? key b); [done|]. rewrite IH. apply Permutation_swap.
Qed.

Lemma sort_by_perm (l : list A) : sort_by key l ≡ₚ l.
Proof.
  induction l as [|a l IH]; simpl; [done|]. by rewrite insert_by_perm, IH.
Qed.


Lemma insert_by_sorted (a : A) (l : list A) :
  StronglySorted (key_le key) l -> StronglySorted (key_le key) (insert_by key a l).
Proof.
  induction 1 as [|b l Hs IH Hall]; simpl.
  - repeat constructor.
  - destruct (key a <=? key b) eqn:Hab.
    + constructor; [by constructor|]. constructor; [unfold key_le; lia|].
      eapply Forall_impl; [exact Hall|]. unfold key_le. intros c Hc. lia.
    + constructor; [done|]. rewrite insert_by_perm. constructor; [|done].
      unfold key_le. lia.
  Qed.

Lemma sort_by_sorted (l : list A) : StronglySorted (key_le key) (sort_by key l).
Proof.
  induction l as [|a l IH]; simpl; [constructor|]. by apply insert_by_sorted.
Qed.

Lemma sort_by_id (l : list A) : StronglySorted (key_le key) l -> sort_by key l = l.
Proof.
  induction 1 as [|a l Hs IH Hall]; simpl; [done|]. rewrite IH.
  destruct l as [|b l]; [done|]. simpl.
  apply Forall_cons in Hall as [Hab _]. unfold key_le in Hab.
  replace (key a <=? key b) with true by lia. done.
Qed.

(** Stability: elements with equal keys keep their order. *)
Lemma insert_by_stable (k : Z) (a : A) (l : list A) :
  StronglySorted (key_le key) l ->
  filter (fun x => key x = k) (insert_by key a l)
    = filter (fun x => key x = k) (a :: l).
Proof.
  induction 1 as [|b l Hs IH Hall]; simpl; [done|].
  destruct (key a <=? key b) eqn:Hab; [done|].
  rewrite (filter_cons _ b), IH. rewrite !(filter_cons _ a), (filter_cons _ b).
  destruct (decide (key b = k)), (decide (key a = k)); try done. lia.
Qed.

Lemma sort_by_stable (k : Z) (l : list A) :
  filter (fun x => key x = k) (sort_by key l) = filter (fun x => key x = k) l.
Proof.
  induction l as [|a l IH]; simpl; [done|].
  rewrite insert_by_stable by apply sort_by_sorted.
  by rewrite !(filter_cons _ a), IH.
Qed.

Lemma sorted_lookup_le (l : list A) (i j : nat) (a b : A) :
  StronglySorted (key_le key) l -> l !! i = Some a -> l !! j = Some b ->
  (i < j)%nat -> key a <= key b.
Proof.
  intros Hs. revert i j. induction Hs as [|c l Hs IH Hall]; intros i j Hi Hj Hlt.
  - done.
  - destruct j as [|j]; [lia|]. simpl in Hj. destruct i as [|i].
    + simpl in Hi. injection Hi as ->.
      rewrite Forall_forall in Hall. apply Hall.
      by eapply list_elem_of_lookup_2.
    + simpl in Hi. apply (IH i j); [done..|lia].
Qed.

Lemma sorted_lookup_lt (l : list A) (i j : nat) (a b : A) :
  StronglySorted (key_le key) l -> l !! i = Some a -> l !! j = Some b ->
  key a < key b -> (i < j)%nat.
Proof.
  intros Hs Hi Hj Hlt. destruct (decide (i < j)%nat) as [|Hge]; [done|].
  exfalso. destruct (decide (i = j)) as [->|Hne].
  - rewrite Hi in Hj. injection Hj as ->. lia.
  - assert (key b <= key a) as Hle; [|lia].
    apply (sorted_lookup_le l j i); [done..|lia].
Qed.

End stable_sort.

Section layout_ops.
Import Level.

Lemma strongly_sorted_lookup {B} (R : relation B) (l : list B) (i j : nat) (a b : B) :
  StronglySorted R l -> l !! i = Some a -> l !! j = Some b ->
  (i < j)%nat -> R a b.
Proof.
  intros Hs. revert i j. induction Hs as [|c l Hs IH Hall]; intros i j Hi Hj Hlt.
  - done.
  - destruct j as [|j]; [lia|]. simpl in Hj. destruct i as [|i].
    + simpl in Hi. injection Hi as ->.
      rewrite Forall_forall in Hall. apply Hall.
      by eapply list_elem_of_lookup_2.
    + simpl in Hi. apply (IH i j); [done..|lia].
Qed.

Lemma strongly_sorted_filter {B} (R : relation B) (P : B -> Prop)
    `{forall x, Decision (P x)} (l : list B) :
  StronglySorted R l -> StronglySorted R (filter P l).
Proof.
  induction 1 as [|c l Hs IH Hall]; [constructor|].
  rewrite filter_cons. destruct (decide (P c)); [|done].
  constructor; [done|]. rewrite Forall_forall in Hall |- *.
  intros x Hx. apply list_elem_of_filter in Hx as [_ Hx]. by apply Hall.
Qed.

Lemma sequential_increasing (lay : list LayoutEntry.t) :
  sequential lay -> StronglySorted position_lt lay.
Proof.
  unfold sequential, py_range, len.
  generalize 0 at 1. induction lay as [|a lay IH]; intros z Hseq; [constructor|].
  cbn [length] in Hseq. rewrite seqZ_cons in Hseq by lia.
  cbn [fmap list_fmap] in Hseq. injection Hseq as Ha Hrest.
  replace (Z.pred (Z.of_nat (S (length lay)))) with (Z.of_nat (length lay)) in Hrest by lia.
  constructor; [by apply (IH (Z.succ z))|].
  apply Forall_forall. intros b Hb.
  apply (list_elem_of_fmap_2 LayoutEntry.position) in Hb. rewrite Hrest in Hb.
  apply elem_of_seqZ in Hb. unfold position_lt. lia.
Qed.

Lemma increasing_sorted (lay : list LayoutEntry.t) :
  StronglySorted position_lt lay ->
  StronglySorted (key_le LayoutEntry.position) lay.
Proof.
  induction 1 as [|c l Hs IH Hall]; constructor; [done|].
  eapply Forall_impl; [exact Hall|]. unfold position_lt, key_le. intros; lia.
Qed.

(** From a sequential layout, filtering then resequencing needs no
    reordering: the survivors are renumbered in place. *)
Lemma resequence_filter (P : LayoutEntry.t -> Prop) `{forall x, Decision (P x)}
    (lay : list LayoutEntry.t) :
  sequential lay -> resequence (filter P lay) = renumber (filter P lay).
Proof.
  intros Hseq. unfold resequence. f_equal. apply sort_by_id.
  by apply increasing_sorted, strongly_sorted_filter, sequential_increasing.
Qed.

Lemma increasing_order (lay : list LayoutEntry.t) (i j : nat) (a b : LayoutEntry.t) :
  StronglySorted position_lt lay -> lay !! i = Some a -> lay !! j = Some b ->
  (LayoutEntry.position a < LayoutEntry.position b <-> (i < j)%nat).
Proof.
  intros Hs Hi Hj. split.
  - intros Hlt. destruct (lt_eq_lt_dec i j) as [[?| ->]|Hgt]; [done| |].
    + rewrite Hi in Hj. injection Hj as ->. lia.
    + pose proof (strongly_sorted_lookup _ _ _ _ _ _ Hs Hj Hi Hgt) as Hba.
      unfold position_lt in Hba. lia.
  - intros Hlt. exact (strongly_sorted_lookup _ _ _ _ _ _ Hs Hi Hj Hlt).
Qed.

Lemma add_to_layout_sequential (l : t) (room_id : Z) :
  sequential (layout l) -> sequential (layout (add_to_layout l room_id).2).
Proof.
  intros Hseq. unfold add_to_layout. destruct (negb _); [done|]. simpl.
  unfold sequential. rewrite fmap_app, Hseq. simpl. unfold len.
  rewrite length_app. simpl. replace (length (layout l) + 1)%nat with (S (length (layout l))) by lia.
  by rewrite py_range_S.
Qed.

Lemma move_in_layout_spec (l : t) (old_position new_position : Z) :
  (0 <= old_position < len (layout l) /\ 0 <= new_position < len (layout l) /\
   exists entry,
     layout l !! Z.to_nat old_position = Some entry /\
     move_in_layout l old_position new_position =
       Ok (set_layout l
             (renumber
                (take (Z.to_nat new_position)
                      (delete (Z.to_nat old_position) (layout l)) ++
                 entry ::
                 drop (Z.to_nat new_position)
                      (delete (Z.to_nat old_position) (layout l)))))) \/
  (~ (0 <= old_position < len (layout l) /\ 0 <= new_position < len (layout l)) /\
   move_in_layout l old_position new_position = Ok l).
Proof.
  unfold move_in_layout.
  destruct ((old_position <? 0) || (len (layout l) <=? old_position)) eqn:Ho.
  { right. split; [lia|done]. }
  destruct ((new_position <? 0) || (len (layout l) <=? new_position)) eqn:Hn.
  { right. split; [lia|done]. }
  assert (0 <= old_position < len (layout l)) as Hob by lia.
  assert (0 <= new_position < len (layout l)) as Hnb by lia.
  clear Ho Hn.
  left. split; [done|]. split; [done|].
  destruct (lookup_lt_is_Some_2 (layout l) (Z.to_nat old_position)) as [entry He].
  { unfold len in Hob. lia. }
  exists entry. split; [done|].
  rewrite (py_getitem_Z _ _ _ (proj1 Hob) He). simpl.
  unfold py_pop. replace (old_position <? 0) with false by lia.
  replace ((0 <=? old_position) && (old_position <? len (layout l))) with true by lia.
  simpl. unfold py_insert. replace (new_position <? 0) with false by lia.
  assert (len (delete (Z.to_nat old_position) (layout l)) = len (layout l) - 1) as Hlen.
  { unfold len in *. rewrite length_delete by (by eexists). 
    apply lookup_lt_Some in He. lia. }
  rewrite Hlen. replace (Z.min new_position (len (layout l) - 1)) with new_position by lia.
  done.
Qed.

Lemma move_in_layout_sequential (l l' : t) (old_position new_position : Z) :
  sequential (layout l) ->
  move_in_layout l old_position new_position = Ok l' ->
  sequential (layout l').
Proof.
  intros Hseq Hmv.
  destruct (move_in_layout_spec l old_position new_position)
    as [(_ & _ & entry & _ & Heq)|[_ Heq]];
    rewrite Heq in Hmv; injection Hmv as <-; [|done].
  apply renumber_sequential.
Qed.

Lemma reachable_sequential (l : t) : reachable l -> sequential (layout l).
Proof.
  induction 1 as [|l room _ IH|l room_id _ IH|l room_id _ IH|l position _ IH
                  |l o n l' _ IH Hmv|l tt rs fls _ IH].
  - done.
  - unfold add_room. by destruct (has_room _ _).
  - apply renumber_sequential.
  - by apply add_to_layout_sequential.
  - apply renumber_sequential.
  - by eapply move_in_layout_sequential.
  - done.
Qed.

Lemma filter_survivors_in_order (P : LayoutEntry.t -> Prop)
    `{forall x, Decision (P x)} (lay : list LayoutEntry.t) :
  sequential lay -> survivors_in_order (filter P lay) (resequence (filter P lay)).
Proof.
  intros Hseq. split; [by apply resequence_filter|].
  intros i j a b. apply increasing_order.
  by apply strongly_sorted_filter, sequential_increasing.
Qed.

Lemma resequence_resequenced (lay : list LayoutEntry.t) :
  resequenced lay (resequence lay).
Proof.
  exists (sort_by LayoutEntry.position lay).
  split; [apply sort_by_perm|]. split; [apply sort_by_sorted|].
  split; [intros k; apply sort_by_stable|]. done.
Qed.

Lemma resequence_ids (lay : list LayoutEntry.t) :
  LayoutEntry.room_id <$> resequence lay ≡ₚ LayoutEntry.room_id <$> lay.
Proof.
  unfold resequence. rewrite renumber_room_ids.
  apply fmap_Permutation, sort_by_perm.
Qed.

Lemma moved_ids (lay : list LayoutEntry.t) (i j : nat) (entry : LayoutEntry.t) :
  lay !! i = Some entry ->
  LayoutEntry.room_id <$>
    renumber (take j (delete i lay) ++ entry :: drop j (delete i lay))
  ≡ₚ LayoutEntry.room_id <$> lay.
Proof.
  intros He. rewrite renumber_room_ids. apply fmap_Permutation.
  rewrite <- Permutation_middle, take_drop.
  symmetry. by apply delete_Permutation.
Qed.
End layout_ops.

(** C6, as the code has it.  On every level, also one read by
    [from_json] whose positions are arbitrary, [remove_from_layout] and
    [remove_room] leave the positions equal to 0, 1, ..., len - 1 in list
    order (so their multiset is {0, ..., len - 1}); the entries that stay
    are ordered by their previous position, entries of equal previous
    position in their previous list order, and each keeps its room id.
    When the positions were sequential before, the entries that stay are
    renumbered in place.  [move_in_layout] never raises: with both indices
    inside the list it takes the entry at list index [old_position] out,
    puts it back at list index [new_position] and numbers every entry by
    its index, so the positions are sequential and the other entries keep
    their list order; with an index outside the list it changes nothing,
    so positions that were not sequential stay so.  A level built from
    [Level()] by the methods of [Level] always has sequential
    positions. *)
Theorem C6_layout_resequencing (l : Level.t) :
  (forall position,
     sequential (Level.layout (Level.remove_from_layout l position)) /\
     resequenced
       (filter (fun le => LayoutEntry.position le <> position) (Level.layout l))
       (Level.layout (Level.remove_from_layout l position)) /\
     LayoutEntry.room_id <$> Level.layout (Level.remove_from_layout l position)
       ≡ₚ LayoutEntry.room_id <$>
            filter (fun le => LayoutEntry.position le <> position)
                   (Level.layout l) /\
     (sequential (Level.layout l) ->
      survivors_in_order
        (filter (fun le => LayoutEntry.position le <> position) (Level.layout l))
        (Level.layout (Level.remove_from_layout l position)))) /\
  (forall room_id,
     sequential (Level.layout (Level.remove_room l room_id)) /\
     resequenced
       (filter (fun le => LayoutEntry.room_id le <> room_id) (Level.layout l))
       (Level.layout (Level.remove_room l room_id)) /\
     LayoutEntry.room_id <$> Level.layout (Level.remove_room l room_id)
       ≡ₚ LayoutEntry.room_id <$>
            filter (fun le => LayoutEntry.room_id le <> room_id)
                   (Level.layout l) /\
     (sequential (Level.layout l) ->
      survivors_in_order
        (filter (fun le => LayoutEntry.room_id le <> room_id) (Level.layout l))
        (Level.layout (Level.remove_room l room_id)))) /\
  (forall old_position new_position,
     exists l', Level.move_in_layout l old_position new_position = Ok l' /\
       ((0 <= old_position < len (Level.layout l) /\
         0 <= new_position < len (Level.layout l) /\
         sequential (Level.layout l') /\
         moved (Level.layout l) (Z.to_nat old_position)
               (Z.to_nat new_position) (Level.layout l') /\
         LayoutEntry.room_id <$> Level.layout l'
           ≡ₚ LayoutEntry.room_id <$> Level.layout l) \/
        (~ (0 <= old_position < len (Level.layout l) /\
            0 <= new_position < len (Level.layout l)) /\ l' = l))) /\
  (reachable l -> sequential (Level.layout l)).
Proof.
  split; [|split; [|split]].
  - intros position. split; [apply renumber_sequential|].
    split; [apply resequence_resequenced|]. split; [apply resequence_ids|].
    intros Hseq. by apply filter_survivors_in_order.
  - intros room_id. split; [apply renumber_sequential|].
    split; [apply resequence_resequenced|]. split; [apply resequence_ids|].
    intros Hseq. by apply filter_survivors_in_order.
  - intros o n.
    destruct (move_in_layout_spec l o n)
      as [(Ho & Hn & entry & He & Heq)|[Hout Heq]].
    + eexists. split; [exact Heq|]. left. split; [done|]. split; [done|].
      split; [apply renumber_sequential|]. split.
      * by exists entry.
      * by apply moved_ids.
    + exists l. split; [done|]. by right.
  - apply reachable_sequential.
Qed.

Example remove_from_layout_sample :
  Level.layout (Level.remove_from_layout sample_layout_level 1)
  = [LayoutEntry.mk 1 0; LayoutEntry.mk 1 1].
Proof. reflexivity. Qed.

Example move_in_layout_sample :
  Level.layout <$> Level.move_in_layout sample_layout_level 0 2
  = Ok [LayoutEntry.mk 2 0; LayoutEntry.mk 1 1; LayoutEntry.mk 1 2].
Proof. reflexivity. Qed.

Lemma C6_layout_resequencing_witness :
  reachable sample_layout_level /\
  sequential (Level.layout sample_layout_level) /\
  sequential (Level.layout (Level.remove_from_layout sample_layout_level 1)) /\
  sequential (Level.layout (Level.remove_room sample_layout_level 1)) /\
  sequential (Level.layout (Level.remove_from_layout loaded_layout_level 0)) /\
  Level.layout (Level.remove_from_layout loaded_layout_level 0)
    = [LayoutEntry.mk 1 0; LayoutEntry.mk 3 1].
Proof.
  assert (reachable sample_layout_level) as Hreach.
  { repeat apply reach_add_to_layout. repeat apply reach_add_room.
    apply reach_init. }
  split; [exact Hreach|].
  destruct (C6_layout_resequencing sample_layout_level)
    as (Hrm & Hrr & _ & Hseq).
  split; [by apply Hseq|].
  split; [apply Hrm|]. split; [apply Hrr|].
  destruct (C6_layout_resequencing loaded_layout_level) as (Hrm' & _).
  split; [apply Hrm'|reflexivity].
Defined.

(** The claim as worded fails on a level read from a file.  The level
    with layout positions 5, 0, 5 is what [from_json] reads back from its
    own [to_json] text.  On it [move_in_layout(7, 0)] returns without a
    change, and the positions are not 0, 1, 2 in any order.  With both
    indices inside the list, [move_in_layout(0, 0)] numbers the entries
    in list order: the entry of room 2, whose previous position 0 was
    below the 5 of room 1, now stands after it. *)
Lemma C6_counterexample :
  Level.from_json (Level.to_json loaded_layout_level) = Ok loaded_layout_level /\
  Level.move_in_layout loaded_layout_level 7 0 = Ok loaded_layout_level /\
  LayoutEntry.position <$> Level.layout loaded_layout_level = [5; 0; 5] /\
  ~ (LayoutEntry.position <$> Level.layout loaded_layout_level
       ≡ₚ py_range (len (Level.layout loaded_layout_level))) /\
  Level.layout <$> Level.move_in_layout loaded_layout_level 0 0
    = Ok [LayoutEntry.mk 1 0; LayoutEntry.mk 2 1; LayoutEntry.mk 3 2].
Proof.
  split; [vm_compute; reflexivity|].
  split; [reflexivity|]. split; [reflexivity|]. split; [|reflexivity].
  intros Hperm.
  assert (H5 : 5 ∈ py_range (len (Level.layout loaded_layout_level))).
  { rewrite <- Hperm. apply elem_of_cons. by left. }
  change (len (Level.layout loaded_layout_level)) with 3 in H5.
  apply elem_of_seqZ in H5. lia.
Qed.



(** ** Level: validation *)

Section strings.
Local Open Scope string_scope.

Lemma string_app_assoc (s1 s2 s3 : string) : (s1 ++ s2) ++ s3 = s1 ++ s2 ++ s3.
Proof.
  induction s1 as [|a s1 IH]; [done|].
  change (String a ((s1 ++ s2) ++ s3) = String a (s1 ++ s2 ++ s3)).
  by rewrite IH.
Qed.

Lemma string_app_nil_r (s : string) : s ++ "" = s.
Proof.
  induction s as [|a s IH]; [done|].
  change (String a (s ++ "") = String a s). by rewrite IH.
Qed.

Lemma is_substring_refl s : is_substring s s.
Proof. exists "", "". by rewrite string_app_nil_r. Qed.

Lemma is_substring_app_l s t pre : is_substring s t -> is_substring s (pre ++ t).
Proof.
  intros (p & q & ->). exists (pre ++ p), q. by rewrite string_app_assoc.
Qed.

Lemma is_substring_app_r s t post : is_substring s t -> is_substring s (t ++ post).
Proof.
  intros (p & q & ->). exists p, (q ++ post).
  by rewrite !string_app_assoc.
Qed.

Lemma py_join_cons sep x xs :
  xs <> [] -> py_join sep (x :: xs) = x ++ sep ++ py_join sep xs.
Proof. destruct xs; done. Qed.

Lemma py_join_substring sep (l : list string) x :
  x ∈ l -> is_substring x (py_join sep l).
Proof.
  induction l as [|y l IH]; intros Hin; [by apply elem_of_nil in Hin|].
  destruct (decide (l = [])) as [->|Hne].
  - apply list_elem_of_singleton in Hin as ->. apply is_substring_refl.
  - rewrite py_join_cons by done. apply elem_of_cons in Hin as [->|Hin].
    + apply is_substring_app_r, is_substring_refl.
    + apply is_substring_app_l, is_substring_app_l, IH, Hin.
Qed.
End strings.

Section spawn_scan.
Import Level.

Lemma enumerate_snoc {A} (l : list A) (a : A) :
  enumerate (l ++ [a]) = enumerate l ++ [(len l, a)].
Proof.
  unfold enumerate. rewrite imap_app. simpl. unfold len.
  by rewrite Nat.add_0_r.
Qed.

Lemma scan_row_spec (room_id y : Z) (row : list Z) (st : Z * list string) :
  scan_row room_id y row st =
    (st.1 + len (filter (fun t => t = TileType.SPAWN) row),
     st.2 ++ row_spawns room_id y row).
Proof.
  unfold scan_row, row_spawns.
  induction row as [|t row IH] using rev_ind.
  - simpl. unfold len. simpl. rewrite Z.add_0_r, app_nil_r. by destruct st.
  - rewrite enumerate_snoc, foldl_app, IH. cbn [foldl snd fst].
    rewrite !filter_app, fmap_app, !filter_cons, !filter_nil. cbn [snd fst].
    destruct (decide (t = TileType.SPAWN)).
    + cbn [fmap list_fmap fst snd]. unfold len. rewrite !length_app. cbn [length].
      rewrite app_assoc. f_equal. lia.
    + cbn [fmap list_fmap]. rewrite !app_nil_r. done.
Qed.

Lemma scan_room_spec (room : Room.t) (st : Z * list string) :
  scan_room room st =
    (st.1 + len (filter (fun t => t = TileType.SPAWN) (concat (Room.interior room))),
     st.2 ++ room_spawns room).
Proof.
  unfold scan_room, room_spawns.
  induction (Room.interior room) as [|row rows IH] using rev_ind.
  - simpl. unfold len. simpl. rewrite Z.add_0_r, app_nil_r. by destruct st.
  - rewrite enumerate_snoc, foldl_app, IH. cbn [foldl snd fst].
    rewrite scan_row_spec. cbn [fst snd].
    rewrite concat_app, filter_app, flat_map_app. cbn [concat flat_map fst snd].
    rewrite !app_nil_r, app_assoc. unfold len. rewrite length_app.
    f_equal. lia.
Qed.

Lemma scan_spawns_spec (l : t) :
  scan_spawns l = (spawn_total l, level_spawns l).
Proof.
  unfold scan_spawns, spawn_total, level_spawns, all_tiles.
  induction (rooms l) as [|room rs IH] using rev_ind; [done|].
  rewrite foldl_app, IH. cbn [foldl]. rewrite scan_room_spec. cbn [fst snd].
  rewrite !flat_map_app. cbn [flat_map]. rewrite !app_nil_r, filter_app.
  unfold len. rewrite length_app. f_equal. lia.
Qed.

Lemma enumerate_lookup {A} (l : list A) (i : nat) (a : A) :
  l !! i = Some a -> (Z.of_nat i, a) ∈ enumerate l.
Proof.
  intros Hi. apply list_elem_of_lookup. exists i.
  unfold enumerate. by rewrite list_lookup_imap, Hi.
Qed.

Lemma check_structure_not_spawn (l : t) :
  Forall (fun e => ~ spawn_error e) (check_structure l).
Proof.
  unfold check_structure. repeat apply Forall_app_2.
  - unfold check_room_ids. destruct (decide _); repeat constructor.
    intros [H|H]; vm_compute in H; discriminate H.
  - apply Forall_forall. intros e He.
    apply list_elem_of_In, in_flat_map in He as (room & _ & He).
    unfold check_interior in He. apply in_app_or in He as [He|He].
    + destruct (decide _); [|done]. destruct He as [<-|[]].
      intros [H|H]; vm_compute in H; discriminate H.
    + destruct (existsb _ _); [|done]. destruct He as [<-|[]].
      intros [H|H]; vm_compute in H; discriminate H.
  - apply Forall_forall. intros e He.
    apply list_elem_of_In, in_flat_map in He as (entry & _ & He).
    destruct (negb _); [|done]. destruct He as [<-|[]].
    intros [H|H]; vm_compute in H; discriminate H.
  - unfold check_positions. cbv zeta. destruct (decide _); repeat constructor.
    intros [H|H]; vm_compute in H; discriminate H.
Qed.

Lemma check_spawn_spec (l : t) :
  check_spawn l =
    if decide (spawn_total l = 0)
    then ["No spawn point found in level (place exactly 1 spawn tile)"%string]
    else if decide (spawn_total l > 1)
    then [("Multiple spawn points found (" ++ py_str (spawn_total l) ++
           "). Only 1 spawn allowed. Locations: " ++
           py_join ", " (level_spawns l))%string]
    else [].
Proof. unfold check_spawn. by rewrite scan_spawns_spec. Qed.
End spawn_scan.

(** ** The JSON codec *)

Section parser.
Import Json.

Lemma json_ind' (P : json -> Prop) :
  P JNull -> (forall b, P (JBool b)) -> (forall z, P (JInt z)) ->
  (forall s, P (JStr s)) ->
  (forall l, Forall P l -> P (JList l)) ->
  (forall kvs, Forall (fun kv => P kv.2) kvs -> P (JDict kvs)) ->
  forall v, P v.
Proof.
  intros HN HB HI HS HL HD. fix IH 1. intros [|b|z|s|l|kvs].
  - exact HN.
  - apply HB.
  - apply HI.
  - apply HS.
  - apply HL. induction l as [|x l IHl]; constructor; [apply IH|exact IHl].
  - apply HD. induction kvs as [|[k x] kvs IHl]; constructor;
      [apply IH|exact IHl].
Qed.

Lemma tokens_list (vs : list json) :
  tokens (JList vs) = TLBracket :: element_tokens vs ++ [TRBracket].
Proof. reflexivity. Qed.

Lemma tokens_dict (kvs : list (string * json)) :
  tokens (JDict kvs) = TLBrace :: member_tokens kvs ++ [TRBrace].
Proof. reflexivity. Qed.

Lemma json_wf_list (vs : list json) : json_wf (JList vs) <-> Forall json_wf vs.
Proof.
  simpl. induction vs as [|x l IH]; [by split; intros; constructor|].
  rewrite Forall_cons. tauto.
Qed.

Lemma json_wf_dict (kvs : list (string * json)) :
  json_wf (JDict kvs) <->
  NoDup (fst <$> kvs) /\ Forall (fun kv => json_wf kv.2) kvs.
Proof.
  simpl. apply and_iff_compat_l.
  induction kvs as [|x l IH]; [by split; intros; constructor|].
  rewrite Forall_cons. tauto.
Qed.

Lemma tokens_opens (v : json) : exists t ts, tokens v = t :: ts /\ opens t.
Proof.
  destruct v as [|[|]|z|s|l|kvs]; by eexists _, _.
Qed.

Lemma dict_set_fresh (d : dict) (k : string) (v : json) :
  k ∉ (fst <$> d) -> dict_set d k v = d ++ [(k, v)].
Proof.
  induction d as [|[k' v'] d IH]; intros Hk; [done|]. simpl in *.
  apply not_elem_of_cons in Hk as [Hne Hk].
  destruct (String.eqb_spec k' k) as [->|_]; [done|]. by rewrite IH.
Qed.

Lemma dict_of_pairs_nodup (kvs : list (string * json)) :
  NoDup (fst <$> kvs) -> dict_of_pairs kvs = kvs.
Proof.
  unfold dict_of_pairs. intros Hnd.
  enough (forall d, NoDup (fst <$> (d ++ kvs)) ->
            foldl (fun d kv => dict_set d kv.1 kv.2) d kvs = d ++ kvs) as H.
  { by apply (H []). }
  clear Hnd. induction kvs as [|[k v] kvs IH]; intros d Hnd; simpl.
  - by rewrite app_nil_r.
  - rewrite dict_set_fresh.
    + rewrite IH; rewrite <- app_assoc; done.
    + rewrite fmap_app in Hnd. apply NoDup_app in Hnd as (_ & Hd & _).
      intros Hin. apply (Hd k Hin). simpl. apply elem_of_cons. by left.
Qed.

Lemma element_tokens_cons (x : json) (l : list json) :
  element_tokens (x :: l) =
    tokens x ++ match l with [] => [] | _ :: _ => TComma :: element_tokens l end.
Proof. destruct l; simpl; [by rewrite app_nil_r|done]. Qed.

Lemma member_tokens_cons (kx : string * json) (l : list (string * json)) :
  member_tokens (kx :: l) =
    TStr kx.1 :: TColon :: tokens kx.2 ++
    match l with [] => [] | _ :: _ => TComma :: member_tokens l end.
Proof. destruct l; simpl; [by rewrite app_nil_r|done]. Qed.

Lemma element_tokens_opens (vs : list json) :
  vs <> [] -> exists t ts, element_tokens vs = t :: ts /\ opens t.
Proof.
  destruct vs as [|x l]; [done|]. intros _. rewrite element_tokens_cons.
  destruct (tokens_opens x) as (t & ts & -> & Ht). by eexists _, _.
Qed.

Lemma parse_elements_tokens (vs : list json) :
  vs <> [] -> Forall parses vs ->
  forall fuel rest, (length (element_tokens vs) + 1 <= fuel)%nat ->
    parse_elements fuel (element_tokens vs ++ TRBracket :: rest) = Ok (vs, rest).
Proof.
  intros Hne Hall. induction Hall as [|x l Hx Hl IH]; [done|].
  intros fuel rest Hfuel. clear Hne.
  rewrite element_tokens_cons in *. rewrite length_app in Hfuel.
  destruct fuel as [|fuel]; [lia|]. cbn [parse_elements].
  rewrite <- app_assoc. rewrite Hx by lia.
  destruct l as [|y l]; [done|]. cbn [app].
  rewrite IH; [done|done|]. cbn [length] in Hfuel. lia.
Qed.

Lemma parse_members_tokens (kvs : list (string * json)) :
  kvs <> [] -> Forall (fun kv => parses kv.2) kvs ->
  forall fuel rest, (length (member_tokens kvs) + 1 <= fuel)%nat ->
    parse_members fuel (member_tokens kvs ++ TRBrace :: rest) = Ok (kvs, rest).
Proof.
  intros Hne Hall. induction Hall as [|[k x] l Hx Hl IH]; [done|].
  intros fuel rest Hfuel. clear Hne.
  rewrite member_tokens_cons in *. cbn [fst snd length] in *.
  rewrite length_app in Hfuel.
  destruct fuel as [|fuel]; [lia|]. cbn [parse_members app].
  rewrite <- app_assoc. rewrite Hx by lia.
  destruct l as [|y l]; [done|]. cbn [app].
  rewrite IH; [done|done|]. cbn [length] in Hfuel. lia.
Qed.

Lemma parse_value_tokens (v : json) : json_wf v -> parses v.
Proof.
  induction v as [|b|z|s|l IH|kvs IH] using json_ind'; intros Hwf fuel rest Hfuel.
  - destruct fuel; [simpl in Hfuel; lia|done].
  - destruct fuel; [simpl in Hfuel; destruct b; simpl in Hfuel; lia|by destruct b].
  - destruct fuel; [simpl in Hfuel; lia|done].
  - destruct fuel; [simpl in Hfuel; lia|done].
  - rewrite tokens_list in *. apply json_wf_list in Hwf.
    cbn [length] in Hfuel. rewrite length_app in Hfuel.
    destruct fuel as [|fuel]; [lia|].
    destruct l as [|x l]; [done|].
    assert (Forall parses (x :: l)) as Hall.
    { apply Forall_forall. intros y Hy. rewrite Forall_forall in IH, Hwf.
      by apply IH, Hwf. }
    pose proof (parse_elements_tokens (x :: l) ltac:(done) Hall fuel rest) as Hp.
    destruct (element_tokens_opens (x :: l)) as (t & ts & Heq & Ht); [done|].
    rewrite Heq in *. cbn [app length] in *. rewrite <- app_assoc.
    cbn [app]. cbn [parse_value].
    rewrite Hp by lia. by destruct t.
  - rewrite tokens_dict in *. apply json_wf_dict in Hwf as [Hnd Hwf].
    cbn [length] in Hfuel. rewrite length_app in Hfuel.
    destruct fuel as [|fuel]; [lia|].
    destruct kvs as [|kx kvs]; [done|].
    assert (Forall (fun kv => parses kv.2) (kx :: kvs)) as Hall.
    { apply Forall_forall. intros y Hy. rewrite Forall_forall in IH, Hwf.
      by apply IH, Hwf. }
    pose proof (parse_members_tokens (kx :: kvs) ltac:(done) Hall fuel rest) as Hp.
    rewrite member_tokens_cons in *. cbn [app length] in *.
    rewrite <- app_assoc. cbn [app parse_value].
    cbn [app] in Hp.
    rewrite Hp by lia. by rewrite dict_of_pairs_nodup.
Qed.
End parser.

Section scanner.
Import Json.

Lemma scan_app (sc : scanner) (s1 s2 : string) :
  scan sc (s1 +:+ s2) =
    match scan sc s1 with
    | Ok sc' => scan sc' s2
    | Raise e => Raise e
    end.
Proof.
  revert sc. induction s1 as [|c s1 IH]; intros sc; [done|].
  change (String c s1 +:+ s2) with (String c (s1 +:+ s2)). cbn [scan].
  destruct (step sc c); [apply IH|done].
Qed.

(** The tokens already emitted do not influence the scanner. *)
Lemma step_start_out (out : list token) (c : ascii) :
  step_start out c =
    match step_start [] c with
    | Ok (o, m) => Ok (o ++ out, m)
    | Raise e => Raise e
    end.
Proof.
  unfold step_start.
  repeat match goal with
         | |- context [if ?b then _ else _] => destruct b; [done|]
         end.
  done.
Qed.

Lemma step_out (out : list token) (m : mode) (c : ascii) :
  step (out, m) c =
    match step ([], m) c with
    | Ok (o, m') => Ok (o ++ out, m')
    | Raise e => Raise e
    end.
Proof.
  destruct m as [|acc|acc|acc ds|text|tok expected]; cbn [step].
  - apply step_start_out.
  - repeat match goal with
           | |- context [if ?b then _ else _] => destruct b; [done|]
           end; done.
  - repeat match goal with
           | |- context [if ?b then _ else _] => destruct b; [done|]
           end; done.
  - destruct (hex_value c); [|done].
    destruct ds as [|d1 [|d2 [|d3 [|d4 ds]]]]; try done.
    by destruct (_ <? _)%N.
  - destruct (is_digit c); [done|].
    destruct (_ || _); [done|].
    destruct (int_of_text text) as [z|e]; [|done]. cbn.
    rewrite (step_start_out [TInt z]), (step_start_out (TInt z :: out)).
    destruct (step_start [] c) as [[o m]|e]; [|done].
    by rewrite <- app_assoc.
  - destruct expected as [|e rest]; [done|].
    destruct (Ascii.eqb c e); [|done]. by destruct rest.
Qed.

Lemma scan_out (out : list token) (m : mode) (s : string) :
  scan (out, m) s =
    match scan ([], m) s with
    | Ok (o, m') => Ok (o ++ out, m')
    | Raise e => Raise e
    end.
Proof.
  revert out m. induction s as [|c s IH]; intros out m; [done|].
  cbn [scan]. rewrite step_out.
  destruct (step ([], m) c) as [[o m']|e]; [|done].
  rewrite (IH (o ++ out)), (IH o).
  destruct (scan ([], m') s) as [[o' m'']|e]; [|done].
  by rewrite app_assoc.
Qed.

(** A piece of text that scans, on its own, to the tokens [rtoks] (most
    recent first) and leaves the scanner between tokens. *)
Lemma scan_literal (lit : string) (rtoks out : list token) (rest : string) :
  scan ([], MStart) lit = Ok (rtoks, MStart) ->
  scan (out, MStart) (lit +:+ rest) = scan (rtoks ++ out, MStart) rest.
Proof.
  intros Hlit. rewrite scan_app, scan_out, Hlit. done.
Qed.

Lemma scan_spaces (n : nat) (out : list token) (rest : string) :
  scan (out, MStart) (spaces n +:+ rest) = scan (out, MStart) rest.
Proof. induction n as [|n IH]; [done|]. exact IH. Qed.

Lemma scan_newline_indent indent level out rest :
  scan (out, MStart) (newline_indent indent level +:+ rest)
    = scan (out, MStart) rest.
Proof.
  destruct indent as [n|]; [|done]. unfold newline_indent.
  change (String ch_lf (spaces (n * level)) +:+ rest)
    with (String ch_lf (spaces (n * level) +:+ rest)).
  cbn [scan]. change (step (out, MStart) ch_lf) with (Ok (out, MStart) : result scanner).
  apply scan_spaces.
Qed.

(** **** Strings *)

Lemma scan_escape_char (acc : string) (c : ascii) out rest :
  scan (out, MStr acc) (escape_char c +:+ rest)
    = scan (out, MStr (acc +:+ str1 c)) rest.
Proof.
  destruct c as [b0 b1 b2 b3 b4 b5 b6 b7].
  destruct b0, b1, b2, b3, b4, b5, b6, b7; reflexivity.
Qed.

Lemma scan_escape (s acc : string) out rest :
  scan (out, MStr acc) (escape s +:+ rest) = scan (out, MStr (acc +:+ s)) rest.
Proof.
  revert acc. induction s as [|c s IH]; intros acc.
  - by rewrite string_app_nil_r.
  - cbn [escape]. rewrite string_app_assoc, scan_escape_char, IH.
    by rewrite string_app_assoc.
Qed.

Lemma scan_encode_string (s : string) out rest :
  scan (out, MStart) (encode_string s +:+ rest) = scan (TStr s :: out, MStart) rest.
Proof.
  unfold encode_string.
  change (String ch_quote (escape s +:+ str1 ch_quote) +:+ rest)
    with (String ch_quote ((escape s +:+ str1 ch_quote) +:+ rest)).
  rewrite string_app_assoc. cbn [scan].
  change (step (out, MStart) ch_quote) with (Ok (out, MStr "") : result scanner).
  cbn iota. rewrite scan_escape. reflexivity.
Qed.

(** **** Integers *)

Lemma scan_digits (d : Decimal.uint) (acc : string) out rest :
  scan (out, MNum acc) (NilEmpty.string_of_uint d +:+ rest)
    = scan (out, MNum (acc +:+ NilEmpty.string_of_uint d)) rest.
Proof.
  revert acc. induction d as [|d IH|d IH|d IH|d IH|d IH|d IH|d IH|d IH|d IH|d IH];
    intros acc;
    [by rewrite string_app_nil_r
    |cbn [NilEmpty.string_of_uint];
     match goal with
     | |- scan _ (String ?c ?s +:+ _) = _ =>
         change (String c s +:+ rest) with (String c (s +:+ rest));
         cbn [scan];
         change (step (out, MNum acc) c)
           with (Ok (out, MNum (acc +:+ str1 c)) : result scanner);
         cbn iota; rewrite IH, string_app_assoc; reflexivity
     end ..].
Qed.

Lemma to_uint_head (p : positive) :
  match Pos.to_uint p with
  | Decimal.Nil | Decimal.D0 _ => False
  | _ => True
  end.
Proof.
  assert (Decimal.unorm (Pos.to_uint p) = Pos.to_uint p) as Hn.
  { rewrite <- DecimalPos.Unsigned.to_of, DecimalPos.Unsigned.of_to. done. }
  pose proof (DecimalPos.Unsigned.to_uint_nonzero p) as Hnz.
  unfold Decimal.unorm in Hn.
  pose proof (DecimalFacts.nzhead_nonzero (Pos.to_uint p)) as Hh.
  destruct (Decimal.nzhead (Pos.to_uint p)) eqn:E; rewrite <- Hn; try done.
  by eapply Hh.
Qed.

Lemma string_of_uint_pos (p : positive) :
  NilZero.string_of_uint (Pos.to_uint p)
    = NilEmpty.string_of_uint (Pos.to_uint p).
Proof. pose proof (to_uint_head p). by destruct (Pos.to_uint p). Qed.

Lemma scan_py_str (z : Z) out rest :
  scan (out, MStart) (py_str z +:+ rest) = scan (out, MNum (py_str z)) rest.
Proof.
  unfold py_str. destruct z as [|p|p]; cbn [Z.to_int NilZero.string_of_int].
  - reflexivity.
  - rewrite string_of_uint_pos. pose proof (to_uint_head p) as Hh.
    destruct (Pos.to_uint p) as [|d|d|d|d|d|d|d|d|d|d]; try done;
      cbn [NilEmpty.string_of_uint];
      match goal with
      | |- scan _ (String ?c ?s +:+ _) = _ =>
          change (String c s +:+ rest) with (String c (s +:+ rest));
          cbn [scan];
          change (step (out, MStart) c)
            with (Ok (out, MNum (str1 c)) : result scanner);
          cbn iota; rewrite scan_digits; reflexivity
      end.
  - change (String "-" (NilZero.string_of_uint (Pos.to_uint p)) +:+ rest)
      with (String "-" (NilZero.string_of_uint (Pos.to_uint p) +:+ rest)).
    cbn [scan].
    change (step (out, MStart) "-") with (Ok (out, MNum "-") : result scanner).
    cbn iota. rewrite string_of_uint_pos, scan_digits. reflexivity.
Qed.

Lemma int_of_text_py_str (z : Z) : int_of_text (py_str z) = Ok z.
Proof.
  unfold py_str. destruct z as [|p|p]; cbn [Z.to_int NilZero.string_of_int].
  - reflexivity.
  - rewrite string_of_uint_pos. unfold int_of_text.
    pose proof (NilEmpty.isi (Decimal.Pos (Pos.to_uint p))) as Hisi.
    pose proof (DecimalZ.of_to (Z.pos p)) as Hz.
    cbn [NilEmpty.string_of_int Z.to_int] in Hisi, Hz.
    pose proof (to_uint_head p) as Hh.
    destruct (Pos.to_uint p) as [|d|d|d|d|d|d|d|d|d|d]; try done;
      cbn [NilEmpty.string_of_uint] in *; rewrite Hisi, Hz; reflexivity.
  - rewrite string_of_uint_pos. unfold int_of_text.
    pose proof (NilEmpty.isi (Decimal.Neg (Pos.to_uint p))) as Hisi.
    pose proof (DecimalZ.of_to (Z.neg p)) as Hz.
    cbn [NilEmpty.string_of_int Z.to_int] in Hisi, Hz.
    pose proof (to_uint_head p) as Hh.
    destruct (Pos.to_uint p) as [|d|d|d|d|d|d|d|d|d|d]; try done;
      cbn [NilEmpty.string_of_uint] in *; rewrite Hisi, Hz; reflexivity.
Qed.

Lemma scan_number (z : Z) out rest :
  ends_number rest = true ->
  scan (out, MStart) (py_str z +:+ rest) = scan (TInt z :: out, MStart) rest.
Proof.
  intros Hend. rewrite scan_py_str.
  destruct rest as [|c rest]; [done|]. cbn [scan step].
  unfold ends_number in Hend. apply negb_true_iff in Hend.
  repeat (apply orb_false_elim in Hend as [Hend ?]).
  rewrite Hend. cbn [orb].
  repeat match goal with H : Ascii.eqb c _ = false |- _ => rewrite H; clear H end.
  cbn [orb]. rewrite int_of_text_py_str. reflexivity.
Qed.

(** **** Values *)

Lemma dumps_at_list indent level (x : json) (l : list json) :
  dumps_at indent level (JList (x :: l)) =
    "[" +:+ newline_indent indent (S level) +:+
    py_join (item_separator indent +:+ newline_indent indent (S level))
            (List.map (dumps_at indent (S level)) (x :: l)) +:+
    newline_indent indent level +:+ "]".
Proof. reflexivity. Qed.

Lemma dumps_at_dict indent level (kx : string * json) (l : list (string * json)) :
  dumps_at indent level (JDict (kx :: l)) =
    "{" +:+ newline_indent indent (S level) +:+
    py_join (item_separator indent +:+ newline_indent indent (S level))
            (List.map
               (fun kv : string * json =>
                  encode_string kv.1 +:+ key_separator +:+
                  dumps_at indent (S level) kv.2)
               (kx :: l)) +:+
    newline_indent indent level +:+ "}".
Proof. reflexivity. Qed.

Lemma ends_number_close indent level (close rest : string) :
  ends_number (close +:+ rest) = true ->
  ends_number (newline_indent indent level +:+ close +:+ rest) = true.
Proof. by destruct indent. Qed.

Lemma ends_number_sep indent level (rest : string) :
  ends_number
    ((item_separator indent +:+ newline_indent indent level) +:+ rest) = true.
Proof. by destruct indent. Qed.

Lemma scan_sep indent level out rest :
  scan (out, MStart)
    ((item_separator indent +:+ newline_indent indent level) +:+ rest)
    = scan (TComma :: out, MStart) rest.
Proof.
  rewrite string_app_assoc. destruct indent as [n|].
  - change (item_separator (Some n)) with ",".
    rewrite (scan_literal "," [TComma]) by reflexivity.
    apply scan_newline_indent.
  - reflexivity.
Qed.

Lemma py_join_cons2 (sep x y : string) (l : list string) :
  py_join sep (x :: y :: l) = x +:+ sep +:+ py_join sep (y :: l).
Proof. reflexivity. Qed.

Lemma scan_elements indent level (vs : list json) out rest :
  vs <> [] -> Forall (scans indent) vs -> ends_number rest = true ->
  scan (out, MStart)
    (py_join (item_separator indent +:+ newline_indent indent level)
             (List.map (dumps_at indent level) vs) +:+ rest)
    = scan (rev (element_tokens vs) ++ out, MStart) rest.
Proof.
  intros Hne Hall Hend. revert out.
  induction Hall as [|x l Hx Hl IH]; [done|]. intros out. clear Hne.
  rewrite element_tokens_cons. destruct l as [|y l].
  - cbn [List.map py_join String.concat]. rewrite app_nil_r. by apply Hx.
  - cbn [List.map]. rewrite py_join_cons2, !string_app_assoc.
    rewrite Hx by (rewrite <- string_app_assoc; apply ends_number_sep).
    rewrite <- string_app_assoc, scan_sep.
    cbn [List.map] in IH. rewrite IH by done.
    rewrite rev_app_distr. cbn [rev]. rewrite <- !app_assoc. reflexivity.
Qed.

Lemma scan_members indent level (kvs : list (string * json)) out rest :
  kvs <> [] -> Forall (fun kv => scans indent kv.2) kvs ->
  ends_number rest = true ->
  scan (out, MStart)
    (py_join (item_separator indent +:+ newline_indent indent level)
             (List.map
                (fun kv : string * json =>
                   encode_string kv.1 +:+ key_separator +:+
                   dumps_at indent level kv.2)
                kvs) +:+ rest)
    = scan (rev (member_tokens kvs) ++ out, MStart) rest.
Proof.
  intros Hne Hall Hend. revert out.
  induction Hall as [|[k x] l Hx Hl IH]; [done|]. intros out. clear Hne.
  rewrite member_tokens_cons. cbn [fst snd] in *. destruct l as [|y l].
  - cbn [List.map py_join String.concat fst snd]. rewrite app_nil_r.
    rewrite !string_app_assoc, scan_encode_string.
    rewrite (scan_literal key_separator [TColon]) by reflexivity.
    rewrite Hx by done. cbn [rev app]. rewrite <- !app_assoc. reflexivity.
  - cbn [List.map]. rewrite py_join_cons2. cbn [fst snd].
    rewrite !string_app_assoc, scan_encode_string.
    rewrite (scan_literal key_separator [TColon]) by reflexivity.
    rewrite Hx by (rewrite <- string_app_assoc; apply ends_number_sep).
    rewrite <- string_app_assoc, scan_sep.
    cbn [List.map] in IH. rewrite IH by done.
    cbn [rev]. rewrite !rev_app_distr. cbn [rev app].
    rewrite <- !app_assoc. reflexivity.
Qed.

Lemma scan_dumps_at (indent : option nat) (v : json) : scans indent v.
Proof.
  induction v as [|b|z|s|l IH|kvs IH] using json_ind'; intros level out rest Hend.
  - by rewrite (scan_literal "null" [TNull]).
  - destruct b.
    + by rewrite (scan_literal "true" [TTrue]).
    + by rewrite (scan_literal "false" [TFalse]).
  - by apply scan_number.
  - apply scan_encode_string.
  - destruct l as [|x l].
    { by rewrite (scan_literal "[]" [TRBracket; TLBracket]). }
    rewrite dumps_at_list, tokens_list, !string_app_assoc.
    rewrite (scan_literal "[" [TLBracket]) by reflexivity.
    rewrite scan_newline_indent.
    rewrite scan_elements; [|done|done|by apply ends_number_close].
    rewrite scan_newline_indent.
    rewrite (scan_literal "]" [TRBracket]) by reflexivity.
    cbn [rev]. rewrite rev_app_distr. cbn [rev app].
    rewrite <- !app_assoc. reflexivity.
  - destruct kvs as [|kx kvs].
    { by rewrite (scan_literal "{}" [TRBrace; TLBrace]). }
    rewrite dumps_at_dict, tokens_dict, !string_app_assoc.
    rewrite (scan_literal "{" [TLBrace]) by reflexivity.
    rewrite scan_newline_indent.
    rewrite scan_members; [|done|done|by apply ends_number_close].
    rewrite scan_newline_indent.
    rewrite (scan_literal "}" [TRBrace]) by reflexivity.
    cbn [rev]. rewrite rev_app_distr. cbn [rev app].
    rewrite <- !app_assoc. reflexivity.
Qed.
End scanner.

Section to_json.
Import Json.

Lemma scan_joined {A} (f : A -> string) (g : A -> json) (sep : string)
    (xs : list A) out rest :
  xs <> [] ->
  (forall out rest,
     scan (out, MStart) (sep +:+ rest) = scan (TComma :: out, MStart) rest) ->
  (forall rest, ends_number (sep +:+ rest) = true) ->
  Forall (fun x => forall out rest, ends_number rest = true ->
            scan (out, MStart) (f x +:+ rest)
              = scan (rev (tokens (g x)) ++ out, MStart) rest) xs ->
  ends_number rest = true ->
  scan (out, MStart) (py_join sep (f <$> xs) +:+ rest)
    = scan (rev (element_tokens (g <$> xs)) ++ out, MStart) rest.
Proof.
  intros Hne Hsep Hsepend Hall Hend. revert out.
  induction Hall as [|x l Hx Hl IH]; [done|]. intros out. clear Hne.
  cbn [fmap list_fmap]. rewrite element_tokens_cons. destruct l as [|y l].
  - cbn [fmap list_fmap py_join String.concat]. rewrite app_nil_r. by apply Hx.
  - cbn [fmap list_fmap]. rewrite py_join_cons2, !string_app_assoc.
    rewrite Hx by apply Hsepend. rewrite Hsep.
    cbn [fmap list_fmap] in IH. rewrite IH by done.
    rewrite rev_app_distr. cbn [rev]. rewrite <- !app_assoc. reflexivity.
Qed.

Lemma scan_format_row (row : list Z) out rest :
  scan (out, MStart) (Level.format_row row +:+ rest)
    = scan (rev (tokens (JList (JInt <$> row))) ++ out, MStart) rest.
Proof.
  unfold Level.format_row. rewrite tokens_list, !string_app_assoc.
  rewrite (scan_literal "[" [TLBracket]) by reflexivity.
  destruct (decide (row = [])) as [->|Hne].
  { reflexivity. }
  rewrite (scan_joined py_str JInt "," row); try done.
  - rewrite (scan_literal "]" [TRBracket]) by reflexivity.
    cbn [rev]. rewrite rev_app_distr. cbn [rev app].
    rewrite <- !app_assoc. reflexivity.
  - apply Forall_forall. intros z _ out' rest' Hend. by apply scan_number.
Qed.

Lemma scan_format_interior (rows : list (list Z)) out rest :
  scan (out, MStart) (Level.format_interior rows +:+ rest)
    = scan (rev (tokens (JList ((fun row => JList (JInt <$> row)) <$> rows)))
              ++ out, MStart) rest.
Proof.
  unfold Level.format_interior. cbv zeta.
  rewrite tokens_list, !string_app_assoc.
  rewrite (scan_literal "[" [TLBracket]) by reflexivity.
  rewrite (scan_literal Level.nl []) by reflexivity.
  rewrite (scan_literal "        " []) by reflexivity. cbn [app].
  destruct (decide (rows = [])) as [->|Hne].
  { reflexivity. }
  rewrite (scan_joined Level.format_row (fun row => JList (JInt <$> row))
             ("," +:+ Level.nl +:+ "        ") rows); try done.
  - rewrite (scan_literal Level.nl []) by reflexivity.
    rewrite (scan_literal "      ]" [TRBracket]) by reflexivity.
    cbn [rev]. rewrite rev_app_distr. cbn [rev app].
    rewrite <- !app_assoc. reflexivity.
  - apply Forall_forall. intros row _ out' rest' _. apply scan_format_row.
Qed.

Lemma tokens_room (room : Room.t) :
  tokens (Room.to_dict room) =
    [TLBrace; TStr "id"; TColon; TInt (Room.id room); TComma;
     TStr "width"; TColon; TInt (Room.width room); TComma;
     TStr "height"; TColon; TInt (Room.height room); TComma;
     TStr "interior"; TColon] ++
    tokens (JList ((fun row => JList (JInt <$> row)) <$> Room.interior room)) ++
    [TComma; TStr "exits"; TColon] ++ tokens (JDict (Room.exits room)) ++
    [TComma; TStr "theme"; TColon] ++ tokens (JDict (Room.theme room)) ++
    [TRBrace].
Proof.
  unfold Room.to_dict. rewrite (tokens_dict (_ :: _)).
  rewrite !member_tokens_cons. cbn [fst snd app].
  change (tokens (JInt ?z)) with [TInt z].
  repeat first [rewrite <- app_assoc | rewrite app_nil_r | progress cbn [app]].
  reflexivity.
Qed.

Lemma scan_room_block (room : Room.t) out rest :
  scan (out, MStart) (room_block room +:+ rest)
    = scan (rev (tokens (Room.to_dict room)) ++ out, MStart) rest.
Proof.
  unfold room_block, dumps. rewrite !string_app_assoc.
  repeat (erewrite scan_literal by reflexivity).
  rewrite scan_number by reflexivity.
  repeat (erewrite scan_literal by reflexivity).
  rewrite scan_number by reflexivity.
  repeat (erewrite scan_literal by reflexivity).
  rewrite scan_number by reflexivity.
  repeat (erewrite scan_literal by reflexivity).
  rewrite scan_format_interior.
  repeat (erewrite scan_literal by reflexivity).
  rewrite scan_dumps_at by reflexivity.
  repeat (erewrite scan_literal by reflexivity).
  rewrite scan_dumps_at by reflexivity.
  repeat (erewrite scan_literal by reflexivity).
  rewrite tokens_room. rewrite !rev_app_distr. cbn [rev app].
  rewrite <- !app_assoc. cbn [app]. reflexivity.
Qed.

Lemma room_text_block (n i : Z) (room : Room.t) :
  Level.room_text n i room =
    room_block room +:+ (if i <? n - 1 then "," else "") +:+ Level.nl.
Proof.
  unfold Level.room_text, room_block. by rewrite !string_app_assoc.
Qed.

Lemma concat_empty_cons (t : string) (ts : list string) :
  String.concat "" (t :: ts) = t +:+ String.concat "" ts.
Proof. destruct ts; [by rewrite string_app_nil_r|reflexivity]. Qed.

Lemma rooms_text_from (k n : Z) (rs : list Room.t) :
  n = k + len rs ->
  String.concat ""
    ((fun ir : Z * Room.t => Level.room_text n ir.1 ir.2) <$>
       imap (fun i a => (k + Z.of_nat i, a)) rs)
  = room_blocks rs.
Proof.
  revert k. induction rs as [|x rs IH]; intros k Hn; [done|].
  rewrite imap_cons. cbn [fmap list_fmap]. rewrite concat_empty_cons.
  cbn [fst snd room_blocks]. rewrite room_text_block.
  rewrite !string_app_assoc. f_equal.
  change (Z.of_nat 0) with 0.
  assert (len (x :: rs) = 1 + len rs) as Hlen
    by (unfold len; cbn [length]; lia).
  rewrite Hlen in Hn. f_equal.
  - destruct rs as [|y rs].
    + change (len []) with 0 in Hn. by replace (k + 0 <? n - 1) with false by lia.
    + assert (0 < len (y :: rs)) by (unfold len; cbn [length]; lia).
      by replace (k + 0 <? n - 1) with true by lia.
  - f_equal. rewrite <- (IH (k + 1)) by lia. do 2 f_equal.
    apply imap_ext. intros i z _. cbn. f_equal. lia.
Qed.

Lemma rooms_text_blocks (rs : list Room.t) :
  Level.rooms_text rs = room_blocks rs.
Proof.
  unfold Level.rooms_text, enumerate.
  rewrite <- (rooms_text_from 0 (len rs) rs) by lia. reflexivity.
Qed.

Lemma scan_room_blocks (rs : list Room.t) out rest :
  scan (out, MStart) (room_blocks rs +:+ rest)
    = scan (rev (element_tokens (Room.to_dict <$> rs)) ++ out, MStart) rest.
Proof.
  revert out. induction rs as [|x rs IH]; intros out; [done|].
  cbn [room_blocks fmap list_fmap]. rewrite element_tokens_cons.
  rewrite !string_app_assoc, scan_room_block.
  destruct rs as [|y rs].
  - rewrite app_nil_r. reflexivity.
  - rewrite (scan_literal "," [TComma]) by reflexivity.
    rewrite (scan_literal Level.nl []) by reflexivity. cbn [app].
    rewrite IH. cbn [fmap list_fmap]. rewrite rev_app_distr. cbn [rev].
    rewrite <- !app_assoc. reflexivity.
Qed.

Lemma tokens_level_document (l : Level.t) :
  tokens (level_document l) =
    [TLBrace; TStr "tile_types"; TColon] ++
    tokens (JDict (Level.tile_types l)) ++
    [TComma; TStr "rooms"; TColon; TLBracket] ++
    element_tokens (Room.to_dict <$> Level.rooms l) ++
    [TRBracket; TComma; TStr "layout"; TColon] ++
    tokens (JList (LayoutEntry.to_dict <$> Level.layout l)) ++
    [TComma; TStr "floor_layouts"; TColon] ++
    tokens (JList (FloorLayout.to_dict <$> Level.floor_layouts l)) ++
    [TRBrace].
Proof.
  unfold level_document. rewrite (tokens_dict (_ :: _)).
  rewrite !member_tokens_cons. cbn [fst snd app].
  rewrite (tokens_list (Room.to_dict <$> _)).
  repeat first [rewrite <- app_assoc | rewrite app_nil_r | progress cbn [app]].
  reflexivity.
Qed.

Lemma scan_to_json (l : Level.t) :
  scan ([], MStart) (Level.to_json l)
    = Ok (rev (tokens (level_document l)), MStart).
Proof.
  rewrite <- (string_app_nil_r (Level.to_json l)).
  unfold Level.to_json, dumps. rewrite rooms_text_blocks.
  rewrite !string_app_assoc.
  repeat (erewrite scan_literal by reflexivity).
  rewrite scan_dumps_at by reflexivity.
  repeat (erewrite scan_literal by reflexivity).
  rewrite scan_room_blocks.
  repeat (erewrite scan_literal by reflexivity).
  rewrite scan_dumps_at by reflexivity.
  repeat (erewrite scan_literal by reflexivity).
  rewrite scan_dumps_at by reflexivity.
  repeat (erewrite scan_literal by reflexivity).
  cbn [scan]. rewrite tokens_level_document.
  rewrite !rev_app_distr. cbn [rev app].
  repeat first [rewrite <- app_assoc | rewrite app_nil_r | progress cbn [app]].
  reflexivity.
Qed.

Lemma tokenize_to_json (l : Level.t) :
  tokenize (Level.to_json l) = Ok (tokens (level_document l)).
Proof.
  unfold tokenize. rewrite scan_to_json.
  unfold mbind, result_bind, finish. by rewrite rev_involutive.
Qed.

Lemma loads_tokens (s : string) (v : json) :
  tokenize s = Ok (tokens v) -> json_wf v -> loads s = Ok v.
Proof.
  intros Htok Hwf. unfold loads. rewrite Htok.
  unfold mbind, result_bind.
  rewrite <- (app_nil_r (tokens v)) at 2.
  rewrite (parse_value_tokens v Hwf) by lia. done.
Qed.
End to_json.

Section codec.

Lemma map_result_fmap {A B} (f : B -> result A) (g : A -> B) (l : list A) :
  (forall x, f (g x) = Ok x) -> map_result f (g <$> l) = Ok l.
Proof.
  intros Hfg. induction l as [|a l IH]; [done|].
  cbn [fmap list_fmap map_result]. cbn [fmap list_fmap] in IH.
  by rewrite Hfg, IH.
Qed.

Lemma as_int_rows_to (rows : list (list Z)) :
  as_int_rows (JList ((fun row => JList (JInt <$> row)) <$> rows)) = Ok rows.
Proof.
  cbn [as_int_rows]. apply map_result_fmap. intros row.
  cbn [as_int_list]. by apply map_result_fmap.
Qed.

Lemma room_from_to (r : Room.t) : Room.from_dict (Room.to_dict r) = Ok r.
Proof.
  destruct r as [i w h rows e t]. unfold Room.from_dict, Room.to_dict.
  cbn -[as_int_rows]. rewrite as_int_rows_to. reflexivity.
Qed.

Lemma layout_entry_from_to (le : LayoutEntry.t) :
  LayoutEntry.from_dict (LayoutEntry.to_dict le) = Ok le.
Proof. by destruct le. Qed.

Lemma grid_position_from_to (p : GridPosition.t) :
  GridPosition.from_dict (GridPosition.to_dict p) = Ok p.
Proof. by destruct p. Qed.

Lemma room_connection_from_to (c : RoomConnection.t) :
  RoomConnection.from_dict (RoomConnection.to_dict c) = Ok c.
Proof.
  destruct c as [f t d]. unfold RoomConnection.from_dict, RoomConnection.to_dict.
  cbn -[GridPosition.from_dict GridPosition.to_dict].
  by rewrite !grid_position_from_to.
Qed.

(** The [grid] entry of [FloorLayout.to_dict]. *)
Lemma load_cell_ok (fl : FloorLayout.t) (row col : Z) g :
  0 <= row < FloorLayout.rows fl -> 0 <= col < FloorLayout.cols fl ->
  FloorLayout.load_cell
    (JList ((fun row =>
               JList ((fun col =>
                         json_of_optional_int
                           (FloorLayout.get_room_at fl (GridPosition.mk row col)))
                      <$> py_range (FloorLayout.cols fl)))
            <$> py_range (FloorLayout.rows fl)))
    row col g
  = Ok (<[(row, col) := FloorLayout.get_room_at fl (row, col)]> g).
Proof.
  intros Hrow Hcol. unfold FloorLayout.load_cell. cbn [py_index].
  erewrite py_getitem_Z; [|lia|].
  2:{ unfold py_range. rewrite list_lookup_fmap, lookup_seqZ_lt by lia.
      reflexivity. }
  cbn [mbind result_bind py_index].
  erewrite py_getitem_Z; [|lia|].
  2:{ unfold py_range. rewrite list_lookup_fmap, lookup_seqZ_lt by lia.
      reflexivity. }
  cbn [mbind result_bind]. rewrite !Z.add_0_l, !Z2Nat.id by lia.
  unfold GridPosition.mk.
  by destruct (FloorLayout.get_room_at fl (row, col)).
Qed.

Section floor_layout_codec.
Context (fl : FloorLayout.t).

Lemma load_row_ok (row : Z) (g : gmap (Z * Z) (option Z)) (k : nat) :
  0 <= row < FloorLayout.rows fl -> Z.of_nat k <= FloorLayout.cols fl ->
  exists g',
    for_each (py_range (Z.of_nat k)) (FloorLayout.load_cell (JList (FloorLayout.grid_to_list fl)) row) g
      = Ok g' /\
    forall pos, g' !! pos =
      if decide (pos.1 = row /\ 0 <= pos.2 < Z.of_nat k)
      then Some (FloorLayout.get_room_at fl pos) else g !! pos.
Proof.
  intros Hrow. induction k as [|k IH]; intros Hk.
  - exists g. split; [done|]. intros pos. by rewrite decide_False by lia.
  - destruct IH as (g1 & Hg1 & Hlk); [lia|].
    eexists. split.
    + rewrite py_range_S, for_each_app, Hg1. cbn [mbind result_bind for_each].
      unfold FloorLayout.grid_to_list. rewrite load_cell_ok by lia. reflexivity.
    + intros [r c]. cbn [fst snd].
      destruct (decide ((r, c) = (row, Z.of_nat k))) as [Heq|Hne].
      * injection Heq as -> ->. rewrite lookup_insert_eq.
        by rewrite decide_True by lia.
      * rewrite lookup_insert_ne by done. rewrite Hlk. cbn [fst snd].
        destruct (decide (r = row /\ 0 <= c < Z.of_nat k)).
        -- by rewrite decide_True by lia.
        -- rewrite decide_False; [done|]. intros [-> ?].
           assert (c <> Z.of_nat k) by congruence. lia.
Qed.

Lemma load_rows_ok (g : gmap (Z * Z) (option Z)) (j : nat) :
  0 <= FloorLayout.cols fl -> Z.of_nat j <= FloorLayout.rows fl ->
  exists g',
    for_each (py_range (Z.of_nat j))
      (fun row g =>
         for_each (py_range (FloorLayout.cols fl))
           (FloorLayout.load_cell (JList (FloorLayout.grid_to_list fl)) row) g) g
      = Ok g' /\
    forall pos, g' !! pos =
      if decide (0 <= pos.1 < Z.of_nat j /\ 0 <= pos.2 < FloorLayout.cols fl)
      then Some (FloorLayout.get_room_at fl pos) else g !! pos.
Proof.
  intros Hcols. induction j as [|j IH]; intros Hj.
  - exists g. split; [done|]. intros pos. by rewrite decide_False by lia.
  - destruct IH as (g1 & Hg1 & Hlk); [lia|].
    destruct (load_row_ok (Z.of_nat j) g1 (Z.to_nat (FloorLayout.cols fl)))
      as (g2 & Hg2 & Hlk2); [lia..|].
    rewrite Z2Nat.id in Hg2, Hlk2 by done.
    exists g2. split.
    + rewrite py_range_S, for_each_app, Hg1. cbn [mbind result_bind for_each].
      by rewrite Hg2.
    + intros pos. rewrite Hlk2, Hlk.
      destruct (decide (pos.1 = Z.of_nat j /\ 0 <= pos.2 < FloorLayout.cols fl)).
      * by rewrite decide_True by lia.
      * destruct (decide (0 <= pos.1 < Z.of_nat j /\
                          0 <= pos.2 < FloorLayout.cols fl)).
        -- by rewrite decide_True by lia.
        -- by rewrite decide_False by lia.
Qed.

Lemma floor_layout_from_to :
  grid_dense fl -> FloorLayout.from_dict (FloorLayout.to_dict fl) = Ok fl.
Proof.
  intros (Hrows & Hcols & Hdense).
  unfold FloorLayout.from_dict, FloorLayout.to_dict. cbv zeta.
  cbn [py_subscript dict_get String.eqb Ascii.eqb Bool.eqb mbind result_bind
       as_int py_get py_iter].
  destruct (load_rows_ok (FloorLayout.grid (FloorLayout.init (FloorLayout.rows fl)
                                              (FloorLayout.cols fl)))
              (Z.to_nat (FloorLayout.rows fl)))
    as (g & Hg & Hlk); [lia..|].
  rewrite Z2Nat.id in Hg, Hlk by done. rewrite Hg.
  cbn [mbind result_bind].
  rewrite (map_result_fmap _ _ _ room_connection_from_to).
  cbn [mbind result_bind FloorLayout.connections FloorLayout.init app].
  destruct fl as [r c gr conns]. cbn [FloorLayout.rows FloorLayout.cols
    FloorLayout.grid FloorLayout.connections] in *.
  f_equal. f_equal. apply map_eq. intros [pr pc]. rewrite Hlk.
  rewrite init_lookup. cbn [fst snd].
  specialize (Hdense pr pc).
  destruct (decide (0 <= pr < r /\ 0 <= pc < c)) as [Hin|Hout].
  - apply Hdense in Hin as [v Hv]. unfold FloorLayout.get_room_at.
    cbn [FloorLayout.grid]. by rewrite Hv.
  - symmetry. apply eq_None_not_Some. by rewrite Hdense.
Qed.
End floor_layout_codec.
End codec.

(** Distinctness of a literal list of keys. *)
Ltac nodup_keys :=
  cbn [fmap list_fmap fst];
  repeat (apply NoDup_cons; split;
          [rewrite ?elem_of_cons, elem_of_nil; intros H;
           repeat (destruct H as [H|H]; [discriminate H|]); exact H|]);
  apply NoDup_nil_2.

Section round_trip.

Lemma json_wf_list_fmap {A} (f : A -> json) (l : list A) :
  (forall x, x ∈ l -> json_wf (f x)) -> json_wf (JList (f <$> l)).
Proof.
  intros Hf. apply json_wf_list, Forall_fmap, Forall_forall. exact Hf.
Qed.

Lemma json_wf_int_rows (rows : list (list Z)) :
  json_wf (JList ((fun row => JList (JInt <$> row)) <$> rows)).
Proof.
  apply json_wf_list_fmap. intros row _. by apply json_wf_list_fmap.
Qed.

Lemma json_wf_room (r : Room.t) : room_wf r -> json_wf (Room.to_dict r).
Proof.
  intros [He Ht]. unfold Room.to_dict. apply json_wf_dict. split.
  - nodup_keys.
  - repeat (apply Forall_cons; split); try done.
    apply json_wf_int_rows.
Qed.

Lemma json_wf_layout_entry (le : LayoutEntry.t) :
  json_wf (LayoutEntry.to_dict le).
Proof.
  unfold LayoutEntry.to_dict. apply json_wf_dict. split; [nodup_keys|].
  by repeat (apply Forall_cons; split).
Qed.

Lemma json_wf_grid_position (p : GridPosition.t) :
  json_wf (GridPosition.to_dict p).
Proof.
  unfold GridPosition.to_dict. apply json_wf_dict. split; [nodup_keys|].
  by repeat (apply Forall_cons; split).
Qed.

Lemma json_wf_room_connection (c : RoomConnection.t) :
  json_wf (RoomConnection.to_dict c).
Proof.
  unfold RoomConnection.to_dict. apply json_wf_dict. split; [nodup_keys|].
  repeat (apply Forall_cons; split); try done; apply json_wf_grid_position.
Qed.

Lemma json_wf_floor_layout (fl : FloorLayout.t) :
  json_wf (FloorLayout.to_dict fl).
Proof.
  unfold FloorLayout.to_dict. cbv zeta. apply json_wf_dict.
  split; [nodup_keys|].
  repeat (apply Forall_cons; split); try done.
  - apply json_wf_list_fmap. intros row _. apply json_wf_list_fmap.
    intros col _. by destruct (FloorLayout.get_room_at _ _).
  - apply json_wf_list_fmap. intros c _. apply json_wf_room_connection.
Qed.

Lemma json_wf_level (l : Level.t) : level_wf l -> json_wf (level_document l).
Proof.
  intros (Htt & Hrooms & _). unfold level_document. apply json_wf_dict.
  split; [nodup_keys|].
  repeat (apply Forall_cons; split); try done.
  - apply json_wf_list_fmap. intros r Hr. apply json_wf_room.
    rewrite Forall_forall in Hrooms. by apply Hrooms.
  - apply json_wf_list_fmap. intros le _. apply json_wf_layout_entry.
  - apply json_wf_list_fmap. intros fl _. apply json_wf_floor_layout.
Qed.

Lemma loads_to_json (l : Level.t) :
  level_wf l -> Json.loads (Level.to_json l) = Ok (level_document l).
Proof.
  intros Hwf. apply loads_tokens; [apply tokenize_to_json|by apply json_wf_level].
Qed.

Lemma map_result_fmap_in {A B} (f : B -> result A) (g : A -> B) (l : list A) :
  (forall x, x ∈ l -> f (g x) = Ok x) -> map_result f (g <$> l) = Ok l.
Proof.
  induction l as [|a l IH]; intros Hfg; [done|].
  cbn [fmap list_fmap map_result]. cbn [fmap list_fmap] in IH.
  rewrite Hfg by (apply elem_of_cons; by left).
  rewrite IH; [done|]. intros x Hx. apply Hfg, elem_of_cons. by right.
Qed.

Lemma from_json_to_json (l : Level.t) :
  level_wf l -> Level.from_json (Level.to_json l) = Ok l.
Proof.
  intros Hwf. unfold Level.from_json. rewrite loads_to_json by done.
  destruct Hwf as (_ & _ & Hfloors).
  unfold level_document.
  cbn [py_get dict_get String.eqb Ascii.eqb Bool.eqb mbind result_bind
       as_dict py_iter].
  rewrite (map_result_fmap _ _ _ room_from_to). cbn [mbind result_bind].
  rewrite (map_result_fmap _ _ _ layout_entry_from_to). cbn [mbind result_bind].
  rewrite (map_result_fmap_in FloorLayout.from_dict FloorLayout.to_dict).
  - by destruct l.
  - intros fl Hfl. apply floor_layout_from_to.
    rewrite Forall_forall in Hfloors. by apply Hfloors.
Qed.
End round_trip.

(** What the constructors and mutators build satisfies [level_wf]. *)
Section constructed.

Lemma dict_wf_default_exits : dict_wf Room.default_exits.
Proof. apply json_wf_dict. split; [nodup_keys|]. by repeat constructor. Qed.

Lemma dict_wf_default_theme : dict_wf Room.default_theme.
Proof. apply json_wf_dict. split; [nodup_keys|]. by repeat constructor. Qed.

Lemma dict_wf_default_tile_types : dict_wf Level.default_tile_types.
Proof.
  apply json_wf_dict. split; [nodup_keys|].
  repeat (apply Forall_cons; split); try done;
    (apply json_wf_dict; split; [nodup_keys|by repeat constructor]).
Qed.

Lemma room_wf_init (room_id w h : Z) : room_wf (Room.init room_id w h).
Proof. split; [apply dict_wf_default_exits|apply dict_wf_default_theme]. Qed.

Lemma room_wf_set_tile (r r' : Room.t) (x y t : Z) :
  room_wf r -> Room.set_tile r x y t = Ok r' -> room_wf r'.
Proof.
  unfold Room.set_tile. intros Hwf.
  destruct (Room.in_bounds r x y) as [[|]|]; cbn; try congruence.
  destruct (py_getitem (Room.interior r) y) as [row|]; cbn; [|done].
  destruct (py_setitem row x t) as [row'|]; cbn; [|done].
  destruct (py_setitem (Room.interior r) y row') as [i|]; cbn; [|done].
  by intros [= <-].
Qed.

Lemma room_wf_resize (r r' : Room.t) (w h : Z) :
  room_wf r -> Room.resize r w h = Ok r' -> room_wf r'.
Proof.
  unfold Room.resize. intros Hwf. cbv zeta.
  destruct (for_each _ _ _) as [i|]; cbn; [|done]. by intros [= <-].
Qed.

(** [d[k] = v] keeps the keys distinct. *)
Lemma dict_set_keys (d : dict) (k : string) (v : json) :
  (fst <$> Json.dict_set d k v) =
    if bool_decide (k ∈ (fst <$> d)) then fst <$> d else (fst <$> d) ++ [k].
Proof.
  induction d as [|[k' v'] d IH]; [done|]. cbn [Json.dict_set fmap list_fmap fst].
  destruct (String.eqb_spec k' k) as [->|Hne].
  - rewrite bool_decide_eq_true_2 by (apply elem_of_cons; by left). done.
  - cbn [fmap list_fmap fst] in *. rewrite IH.
    destruct (bool_decide (k ∈ (fst <$> d))) eqn:Hin.
    + apply bool_decide_eq_true in Hin.
      rewrite bool_decide_eq_true_2 by (apply elem_of_cons; by right). done.
    + apply bool_decide_eq_false in Hin.
      rewrite bool_decide_eq_false_2; [done|].
      intros [?|?]%elem_of_cons; congruence.
Qed.

Lemma level_wf_init : level_wf Level.init.
Proof.
  split; [apply dict_wf_default_tile_types|]. split; constructor.
Qed.

Lemma level_wf_add_room (l : Level.t) (room : Room.t) :
  level_wf l -> room_wf room -> level_wf (Level.add_room l room).2.
Proof.
  intros (Htt & Hrooms & Hfl) Hroom. unfold Level.add_room.
  destruct (Level.has_room _ _); [done|]. cbn.
  split; [done|]. split; [|done]. apply Forall_app. split; [done|].
  by constructor.
Qed.

Lemma level_wf_remove_room (l : Level.t) (room_id : Z) :
  level_wf l -> level_wf (Level.remove_room l room_id).
Proof.
  intros (Htt & Hrooms & Hfl). split; [done|]. split; [|done]. cbn.
  rewrite Forall_forall in Hrooms |- *. intros r Hr.
  apply list_elem_of_filter in Hr as [_ Hr]. by apply Hrooms.
Qed.

Lemma level_wf_set_layout (l : Level.t) lay :
  level_wf l -> level_wf (Level.set_layout l lay).
Proof. by intros (Htt & Hrooms & Hfl). Qed.

Lemma level_wf_codec_level : level_wf codec_level.
Proof.
  split; [apply dict_wf_default_tile_types|]. split.
  - apply Forall_cons. split; [apply (room_wf_init 1 5 4)|].
    apply Forall_cons. split; [apply room_wf_init|]. constructor.
  - apply Forall_cons. split.
    { apply set_connection_dense, place_room_dense, init_dense; lia. }
    apply Forall_cons. split; [apply init_dense; lia|]. constructor.
Qed.
End constructed.

(** C1. For a level whose dictionaries have distinct keys and whose
    floor-layout grids are dense (what the constructors and mutators
    build), reading back the text written by [to_json] succeeds and gives
    a level with the same rooms (ids, sizes, interiors, exits, themes, in
    order), the same layout entries in order and the same floor layouts
    (rows, cols, the grid as a map, the connections in order, hence as a
    set). *)
Theorem C1_json_round_trip (l : Level.t) :
  level_wf l ->
  exists l', Level.from_json (Level.to_json l) = Ok l' /\
    Level.rooms l' = Level.rooms l /\
    Level.layout l' = Level.layout l /\
    Level.floor_layouts l' = Level.floor_layouts l /\
    Level.tile_types l' = Level.tile_types l.
Proof.
  intros Hwf. exists l. by rewrite from_json_to_json.
Qed.

Example from_json_to_json_sample :
  Level.from_json (Level.to_json codec_level) = Ok codec_level.
Proof. vm_compute. reflexivity. Qed.

Lemma C1_json_round_trip_witness :
  level_wf codec_level /\
  exists l', Level.from_json (Level.to_json codec_level) = Ok l' /\
    Level.rooms l' = Level.rooms codec_level /\
    Level.layout l' = Level.layout codec_level /\
    Level.floor_layouts l' = Level.floor_layouts codec_level /\
    Level.tile_types l' = Level.tile_types codec_level.
Proof.
  split; [apply level_wf_codec_level|].
  apply (C1_json_round_trip codec_level), level_wf_codec_level.
Defined.

(** ** The text written by [Level.to_json] *)

Section formatting.
Import Json.














(** **** Indentation *)










End formatting.

Section export_format.
Import Json.



Lemma is_substring_trans (a b c : string) :
  is_substring a b -> is_substring b c -> is_substring a c.
Proof.
  intros (p1 & q1 & ->) (p2 & q2 & ->). exists (p2 +:+ p1), (q1 +:+ q2).
  by rewrite !string_app_assoc.
Qed.

Lemma exits_theme_lines_in_block (room : Room.t) :
  is_substring (exits_theme_lines room) (room_block room).
Proof.
  exists ("    {" +:+ Level.nl +:+
          "      " +:+ Level.quoted "id" +:+ ": " +:+
            py_str (Room.id room) +:+ "," +:+ Level.nl +:+
          "      " +:+ Level.quoted "width" +:+ ": " +:+
            py_str (Room.width room) +:+ "," +:+ Level.nl +:+
          "      " +:+ Level.quoted "height" +:+ ": " +:+
            py_str (Room.height room) +:+ "," +:+ Level.nl +:+
          "      " +:+ Level.quoted "interior" +:+ ": " +:+
            Level.format_interior (Room.interior room) +:+ "," +:+ Level.nl),
         "    }".
  unfold room_block, exits_theme_lines. by rewrite !string_app_assoc.
Qed.

Lemma room_block_in_blocks (room : Room.t) (rs : list Room.t) :
  room ∈ rs -> is_substring (room_block room) (room_blocks rs).
Proof.
  induction rs as [|x rs IH]; intros Hin; [by apply elem_of_nil in Hin|].
  cbn [room_blocks]. apply elem_of_cons in Hin as [->|Hin].
  - apply is_substring_app_r, is_substring_refl.
  - do 3 apply is_substring_app_l. by apply IH.
Qed.

Lemma rooms_text_in_to_json (l : Level.t) :
  is_substring (Level.rooms_text (Level.rooms l)) (Level.to_json l).
Proof.
  unfold Level.to_json.
  do 12 apply is_substring_app_l. apply is_substring_app_r, is_substring_refl.
Qed.

Lemma exits_theme_lines_in_to_json (l : Level.t) (room : Room.t) :
  room ∈ Level.rooms l -> is_substring (exits_theme_lines room) (Level.to_json l).
Proof.
  intros Hroom.
  eapply is_substring_trans; [apply exits_theme_lines_in_block|].
  eapply is_substring_trans; [by apply room_block_in_blocks|].
  rewrite <- rooms_text_blocks. apply rooms_text_in_to_json.
Qed.




End export_format.

Example to_json_one_room :
  Level.to_json (Level.mk [] [Room.mk 1 4 3 [[0; 8]] Room.default_exits []] [] [])
  = sq "{
  'tile_types': {},
  'rooms': [
    {
      'id': 1,
      'width': 4,
      'height': 3,
      'interior': [
        [0,8]
      ],
      'exits': {'left': null, 'right': null},
      'theme': {}
    }
  ],
  'layout': [],
  'floor_layouts': []
}
".
Proof. vm_compute. reflexivity. Qed.





(** ** Level: the spawn messages *)

Section spawn_text.
Import Level.

Lemma py_str_inj (a b : Z) : py_str a = py_str b -> a = b.
Proof.
  intros Heq. pose proof (int_of_text_py_str a) as Ha.
  rewrite Heq, int_of_text_py_str in Ha. by injection Ha.
Qed.

Lemma numeral_digits (d : Decimal.uint) :
  numeral_chars (NilEmpty.string_of_uint d) = true.
Proof.
  induction d; cbn [NilEmpty.string_of_uint numeral_chars]; by rewrite ?IHd.
Qed.

Lemma numeral_py_str (z : Z) : numeral_chars (py_str z) = true.
Proof.
  unfold py_str. destruct z as [|p|p]; cbn [Z.to_int NilZero.string_of_int].
  - done.
  - rewrite string_of_uint_pos. apply numeral_digits.
  - rewrite string_of_uint_pos. cbn [numeral_chars].
    by rewrite numeral_digits.
Qed.

(** A numeral ends where the first character that is no digit and no
    minus sign stands. *)
Lemma numeral_split (a a' : string) (d : ascii) (s s' : string) :
  numeral_chars a = true -> numeral_chars a' = true ->
  Json.is_digit d || Ascii.eqb d "-" = false ->
  (a ++ String d s)%string = (a' ++ String d s')%string -> a = a' /\ s = s'.
Proof.
  intros Ha Ha' Hd. revert a' Ha'.
  induction a as [|c a IH]; intros [|c' a'] Ha' Heq; simpl in *.
  - by injection Heq.
  - injection Heq as -> _. apply andb_prop in Ha' as [Hc _]. congruence.
  - injection Heq as -> _. apply andb_prop in Ha as [Hc _]. congruence.
  - injection Heq as -> Heq. apply andb_prop in Ha as [_ Ha].
    apply andb_prop in Ha' as [_ Ha'].
    destruct (IH Ha a' Ha' Heq) as [-> ->]. done.
Qed.

Lemma occurrence_text_inj (c c' : Z * Z * Z) :
  occurrence_text c = occurrence_text c' -> c = c'.
Proof.
  destruct c as [[i x] y], c' as [[i' x'] y']. unfold occurrence_text.
  cbn [fst snd String.append]. intros Heq. injection Heq as Heq.
  apply numeral_split in Heq as [Hi Heq];
    [|apply numeral_py_str..|done].
  cbn [String.append] in Heq. injection Heq as Heq.
  apply numeral_split in Heq as [Hx Heq];
    [|apply numeral_py_str..|done].
  cbn [String.append] in Heq. injection Heq as Heq.
  apply numeral_split in Heq as [Hy _];
    [|apply numeral_py_str..|done].
  apply py_str_inj in Hi, Hx, Hy. by subst.
Qed.

Lemma level_spawns_cells (l : t) :
  level_spawns l = occurrence_text <$> spawn_cells l.
Proof.
  unfold level_spawns, spawn_cells.
  induction (rooms l) as [|room rs IH]; [done|].
  cbn [flat_map]. rewrite fmap_app, IH. f_equal.
  unfold room_spawns, room_cells.
  induction (enumerate (Room.interior room)) as [|[y row] yrs IHy]; [done|].
  cbn [flat_map fst snd]. rewrite fmap_app, IHy. f_equal.
  unfold row_spawns, row_cells. rewrite <- list_fmap_compose.
  by apply list_fmap_ext.
Qed.

Lemma enumerate_inv {A} (l : list A) (z : Z) (a : A) :
  (z, a) ∈ enumerate l -> exists i : nat, z = Z.of_nat i /\ l !! i = Some a.
Proof.
  unfold enumerate. rewrite elem_of_lookup_imap.
  intros (i & x & [= -> ->] & Hx). by exists i.
Qed.

Lemma spawn_cells_complete (l : t) (room : Room.t) (y x : nat) :
  room ∈ rooms l ->
  cellN (Room.interior room) y x = Some TileType.SPAWN ->
  (Room.id room, Z.of_nat x, Z.of_nat y) ∈ spawn_cells l.
Proof.
  intros Hr Hc. unfold spawn_cells. apply list_elem_of_In, in_flat_map.
  exists room. split; [by apply list_elem_of_In|].
  unfold cellN in Hc.
  destruct (Room.interior room !! y) as [row|] eqn:Hrow; [|done]. simpl in Hc.
  unfold room_cells. apply in_flat_map.
  exists (Z.of_nat y, row). split.
  - by apply list_elem_of_In, enumerate_lookup.
  - apply list_elem_of_In. unfold row_cells.
    apply (list_elem_of_fmap_2'
             (fun xt : Z * Z => (Room.id room, xt.1, Z.of_nat y))
             _ (Z.of_nat x, TileType.SPAWN)); [|done].
    apply list_elem_of_filter. split; [done|]. by apply enumerate_lookup.
Qed.

Lemma spawn_cells_sound (l : t) (i x y : Z) :
  (i, x, y) ∈ spawn_cells l ->
  exists room, room ∈ rooms l /\ Room.id room = i /\
    cell (Room.interior room) x y = Some TileType.SPAWN.
Proof.
  unfold spawn_cells. intros Hin.
  apply list_elem_of_In, in_flat_map in Hin as (room & Hroom & Hin).
  exists room. split; [by apply list_elem_of_In|].
  unfold room_cells in Hin. apply in_flat_map in Hin as ([y' row] & Hrow & Hin).
  apply list_elem_of_In, enumerate_inv in Hrow as (j & -> & Hrow).
  apply list_elem_of_In in Hin. unfold row_cells in Hin. cbn [fst snd] in Hin.
  apply list_elem_of_fmap in Hin as ([x' v] & [= -> -> ->] & Hin).
  apply list_elem_of_filter in Hin as [Hv Hin]. cbn [snd] in Hv. subst v.
  apply enumerate_inv in Hin as (k & -> & Hk).
  split; [done|]. unfold cell, cellN. cbn [fst].
  rewrite !(proj2 (Z.leb_le 0 (Z.of_nat _))) by lia. cbn [andb].
  rewrite !Nat2Z.id, Hrow. done.
Qed.

Lemma level_spawns_length (l : t) : len (level_spawns l) = spawn_total l.
Proof.
  pose proof (scan_spawns_spec l) as Hscan.
  assert (Hgen : forall rs st,
            len (foldl (fun st room => scan_room room st) st rs).2
              - (foldl (fun st room => scan_room room st) st rs).1
            = len st.2 - st.1).
  { clear. induction rs as [|room rs IH]; intros st; [done|].
    cbn [foldl]. rewrite IH. clear IH. unfold scan_room.
    generalize (enumerate (Room.interior room)). intros yrs. revert st.
    induction yrs as [|[y row] yrs IH]; intros st; [done|].
    cbn [foldl fst snd]. rewrite IH. clear IH. unfold scan_row.
    generalize (enumerate row). intros xts. revert st.
    induction xts as [|[x v] xts IH]; intros st; [done|].
    cbn [foldl fst snd]. rewrite IH. clear IH.
    destruct (decide (v = TileType.SPAWN)); [|done].
    cbn [fst snd]. unfold len. rewrite length_app. cbn [length]. lia. }
  specialize (Hgen (rooms l) (0, [])). unfold scan_spawns in Hscan.
  rewrite Hscan in Hgen. cbn [fst snd] in Hgen. unfold len in Hgen at 2.
  cbn [length] in Hgen. lia.
Qed.
End spawn_text.

(** C5. The checks that run before the spawn scan never produce a spawn
    message.  With no Spawn tile in any interior, [validate] ends with
    the "No spawn point" error; with exactly one it reports no spawn
    error at all; with more than one it ends with the "Multiple spawn
    points" error.  The text of that error gives the number of Spawn
    tiles and then, separated by ", ", one item "Room <id> at (<x>, <y>)"
    for every Spawn tile, in the order of the scan, with the room id and
    the interior column and row in decimal: every Spawn tile of every room
    has its item in the text, every item stands for a Spawn tile, there
    are as many items as Spawn tiles, and different tiles have different
    items. *)
Theorem C5_spawn_validation (l : Level.t) :
  Forall (fun e => ~ spawn_error e) (Level.check_structure l) /\
  (spawn_total l = 0 ->
     Level.validate l = Level.check_structure l ++
       ["No spawn point found in level (place exactly 1 spawn tile)"%string]) /\
  (spawn_total l = 1 ->
     Level.validate l = Level.check_structure l /\
     Forall (fun e => ~ spawn_error e) (Level.validate l)) /\
  (spawn_total l > 1 ->
     exists msg,
       Level.validate l = Level.check_structure l ++ [msg] /\
       spawn_error msg /\
       msg = ("Multiple spawn points found (" ++ py_str (spawn_total l) ++
              "). Only 1 spawn allowed. Locations: " ++
              py_join ", " (occurrence_text <$> spawn_cells l))%string /\
       forall room (x y : nat),
         room ∈ Level.rooms l ->
         cellN (Room.interior room) y x = Some TileType.SPAWN ->
         (Room.id room, Z.of_nat x, Z.of_nat y) ∈ spawn_cells l /\
         is_substring
           ("Room " ++ py_str (Room.id room) ++ " at (" ++
            py_str (Z.of_nat x) ++ ", " ++ py_str (Z.of_nat y) ++ ")")%string
           msg) /\
  len (spawn_cells l) = spawn_total l /\
  (forall i x y, (i, x, y) ∈ spawn_cells l ->
     exists room, room ∈ Level.rooms l /\ Room.id room = i /\
       cell (Room.interior room) x y = Some TileType.SPAWN) /\
  (forall c c', occurrence_text c = occurrence_text c' -> c = c').
Proof.
  pose proof (check_structure_not_spawn l) as Hstruct.
  unfold Level.validate. rewrite check_spawn_spec.
  split; [done|]. split; [|split; [|split; [|split; [|split]]]].
  - intros H0. by rewrite decide_True.
  - intros H1. rewrite decide_False, decide_False by lia.
    by rewrite app_nil_r.
  - intros Hmany. rewrite decide_False, decide_True by lia.
    eexists. split; [done|]. split; [by right|].
    split; [by rewrite level_spawns_cells|].
    intros room x y Hroom Hcell.
    pose proof (spawn_cells_complete l room y x Hroom Hcell) as Hin.
    split; [done|].
    apply is_substring_app_l, is_substring_app_l, is_substring_app_l.
    apply py_join_substring. rewrite level_spawns_cells.
    by apply (list_elem_of_fmap_2' occurrence_text _
                (Room.id room, Z.of_nat x, Z.of_nat y)).
  - rewrite <- level_spawns_length, level_spawns_cells. unfold len.
    by rewrite length_fmap.
  - apply spawn_cells_sound.
  - apply occurrence_text_inj.
Qed.

Example validate_no_spawn :
  Level.validate sample_level
  = ["No spawn point found in level (place exactly 1 spawn tile)"%string].
Proof. vm_compute. reflexivity. Qed.

Example validate_one_spawn : Level.validate one_spawn_level = [].
Proof. vm_compute. reflexivity. Qed.

Example validate_two_spawns :
  Level.validate two_spawn_level
  = ["Multiple spawn points found (2). Only 1 spawn allowed. Locations: Room 1 at (1, 1), Room 2 at (1, 0)"%string].
Proof. vm_compute. reflexivity. Qed.

Lemma C5_spawn_validation_witness :
  spawn_total two_spawn_level > 1 /\
  exists msg,
    Level.validate two_spawn_level = Level.check_structure two_spawn_level ++ [msg] /\
    is_substring "Room 1 at (1, 1)" msg /\
    is_substring "Room 2 at (1, 0)" msg.
Proof.
  assert (spawn_total two_spawn_level > 1) as Hmany by (vm_compute; reflexivity).
  split; [exact Hmany|].
  destruct (proj1 (proj2 (proj2 (proj2 (C5_spawn_validation two_spawn_level))))
              Hmany)
    as (msg & Hval & _ & _ & Hocc).
  exists msg. split; [exact Hval|]. split.
  - apply (Hocc sample_room 1%nat 1%nat); [|reflexivity].
    apply elem_of_cons. by left.
  - apply (Hocc (Room.mk 2 4 4 [[0; 8]; [0; 0]] Room.default_exits
                   Room.default_theme) 1%nat 0%nat); [|reflexivity].
    apply elem_of_cons. right. apply elem_of_cons. by left.
Defined.

(** * Further properties of the data model and of the editor *)

Section rooms_of_level.
Import Level.

Lemma has_room_false (l : t) (i : Z) :
  has_room l i = false <-> forall r, r ∈ rooms l -> Room.id r <> i.
Proof.
  rewrite <- not_true_iff_false, has_room_spec. split.
  - intros Hn r Hr Hi. apply Hn. by exists r.
  - intros Hn (r & Hr & Hi). by apply (Hn r).
Qed.

Lemma find_room_app (rs1 rs2 : list Room.t) (i : Z) :
  find_room (rs1 ++ rs2) i =
    match find_room rs1 i with
    | Some r => Some r
    | None => find_room rs2 i
    end.
Proof.
  induction rs1 as [|r rs1 IH]; simpl; [done|].
  destruct (decide (Room.id r = i)); [done | apply IH].
Qed.

Lemma find_room_none (rs : list Room.t) (i : Z) :
  find_room rs i = None <-> forall r, r ∈ rs -> Room.id r <> i.
Proof.
  induction rs as [|r rs IH]; simpl.
  - split; [intros _ r Hr; by apply not_elem_of_nil in Hr | done].
  - destruct (decide (Room.id r = i)) as [Hi|Hi].
    + split; [done|]. intros Hn. exfalso. apply (Hn r); [apply elem_of_cons; by left | done].
    + rewrite IH. split.
      * intros Hn r' Hr'. apply elem_of_cons in Hr' as [->|Hr']; [done | by apply Hn].
      * intros Hn r' Hr'. apply Hn, elem_of_cons. by right.
Qed.

Lemma find_room_some (rs : list Room.t) (i : Z) (r : Room.t) :
  find_room rs i = Some r -> r ∈ rs /\ Room.id r = i.
Proof.
  induction rs as [|r' rs IH]; simpl; [done|].
  destruct (decide (Room.id r' = i)) as [Hi|Hi].
  - intros [= ->]. split; [apply elem_of_cons; by left | done].
  - intros Hf. destruct (IH Hf) as [Hr Hid]. split; [apply elem_of_cons; by right | done].
Qed.

Lemma find_room_unique (rs : list Room.t) (r : Room.t) :
  NoDup (Room.id <$> rs) -> r ∈ rs -> find_room rs (Room.id r) = Some r.
Proof.
  induction rs as [|r' rs IH]; simpl; intros Hnd Hr.
  - by apply not_elem_of_nil in Hr.
  - apply NoDup_cons in Hnd as [Hnotin Hnd].
    apply elem_of_cons in Hr as [->|Hr].
    + by rewrite decide_True.
    + rewrite decide_False; [by apply IH|].
      intros Heq. apply Hnotin. rewrite Heq. by apply list_elem_of_fmap_2.
Qed.

Lemma find_room_filter (rs : list Room.t) (i j : Z) :
  find_room (filter (fun r => Room.id r <> i) rs) j =
    if decide (j = i) then None else find_room rs j.
Proof.
  induction rs as [|r rs IH]; simpl.
  - by destruct (decide (j = i)).
  - rewrite filter_cons. destruct (decide (Room.id r <> i)) as [Hne|Heq]; simpl.
    + destruct (decide (Room.id r = j)) as [Hj|Hj].
      * rewrite decide_False by congruence. done.
      * apply IH.
    + apply dec_stable in Heq. rewrite IH.
      destruct (decide (j = i)) as [Hji|Hji]; [done|].
      rewrite decide_False by congruence. done.
Qed.

End rooms_of_level.

Lemma add_room_fresh_id_unique (l : Level.t) (room : Room.t) :
  unique_ids l -> unique_ids (Level.add_room l room).2.
Proof.
  unfold Level.add_room, unique_ids.
  destruct (Level.has_room l (Room.id room)) eqn:Hhas; simpl; [done|].
  pose proof (proj1 (has_room_false l _) Hhas) as Hfresh.
  intros Hnd. rewrite fmap_app. apply NoDup_app. split; [done|]. split.
  - intros i Hi Hin. apply list_elem_of_singleton in Hin as ->.
    apply list_elem_of_fmap in Hi as (r & Heq & Hr). by apply (Hfresh r).
  - apply NoDup_singleton.
Qed.

Lemma filter_ids_unique (P : Room.t -> Prop) `{forall r, Decision (P r)}
    (rs : list Room.t) :
  NoDup (Room.id <$> rs) -> NoDup (Room.id <$> filter P rs).
Proof.
  induction rs as [|r rs IH]; [done|]. simpl. intros Hnd.
  apply NoDup_cons in Hnd as [Hnotin Hnd].
  rewrite filter_cons. destruct (decide (P r)); [|by apply IH].
  simpl. apply NoDup_cons. split; [|by apply IH].
  intros Hin. apply Hnotin.
  apply list_elem_of_fmap in Hin as (r' & Heq & Hr').
  apply list_elem_of_filter in Hr' as [_ Hr']. rewrite Heq.
  by apply list_elem_of_fmap_2.
Qed.

Lemma remove_room_unique (l : Level.t) (i : Z) :
  unique_ids l -> unique_ids (Level.remove_room l i).
Proof. unfold unique_ids. simpl. apply filter_ids_unique. Qed.

(** X1. [add_room] refuses a room whose id is taken and otherwise appends it:
    it succeeds exactly when no room holds the id, a refused call leaves
    the level as it was, the room added is the one [get_room] finds under
    its id, lookups of other ids are unaffected, and distinct ids stay
    distinct. *)
Theorem add_room_fresh_id (l : Level.t) (room : Room.t) :
  ((Level.add_room l room).1 = true <->
     forall r, r ∈ Level.rooms l -> Room.id r <> Room.id room) /\
  ((Level.add_room l room).1 = false -> (Level.add_room l room).2 = l) /\
  ((Level.add_room l room).1 = true ->
     Level.rooms (Level.add_room l room).2 = Level.rooms l ++ [room] /\
     Level.get_room (Level.add_room l room).2 (Room.id room) = Some room) /\
  (forall i, i <> Room.id room ->
     Level.get_room (Level.add_room l room).2 i = Level.get_room l i) /\
  (unique_ids l -> unique_ids (Level.add_room l room).2).
Proof.
  unfold Level.add_room, unique_ids.
  destruct (Level.has_room l (Room.id room)) eqn:Hhas; simpl.
  - split; [|by repeat split].
    split; [done|]. intros Hn. apply has_room_spec in Hhas as (r & Hr & Hi).
    by destruct (Hn r Hr).
  - pose proof (proj1 (has_room_false l _) Hhas) as Hfresh.
    split; [by split|]. split; [done|]. split; [|split].
    + intros _. split; [done|]. unfold Level.get_room; simpl.
      rewrite find_room_app.
      rewrite (proj2 (find_room_none _ _) Hfresh). simpl.
      by rewrite decide_True.
    + intros i Hi. unfold Level.get_room; simpl. rewrite find_room_app.
      destruct (Level.find_room (Level.rooms l) i); [done|]. simpl.
      by rewrite decide_False.
    + intros Hnd. pose proof (add_room_fresh_id_unique l room Hnd) as Hu.
      unfold Level.add_room, unique_ids in Hu. by rewrite Hhas in Hu.
Qed.

(** X2. [get_room] returns the first room holding the id: what it returns
    is a room of the level with that id, it returns nothing exactly when
    no room holds the id, and when ids are distinct every room is found
    under its own id. *)
Theorem get_room_finds (l : Level.t) (i : Z) :
  (forall r, Level.get_room l i = Some r -> r ∈ Level.rooms l /\ Room.id r = i) /\
  (Level.get_room l i = None <->
     forall r, r ∈ Level.rooms l -> Room.id r <> i) /\
  (forall pre r post, Level.rooms l = pre ++ r :: post -> Room.id r = i ->
     (forall r', r' ∈ pre -> Room.id r' <> i) -> Level.get_room l i = Some r) /\
  (unique_ids l ->
     forall r, r ∈ Level.rooms l -> Level.get_room l (Room.id r) = Some r).
Proof.
  unfold Level.get_room. split; [|split; [|split]].
  - intros r. apply find_room_some.
  - apply find_room_none.
  - intros pre r post -> Hid Hpre. rewrite find_room_app.
    rewrite (proj2 (find_room_none _ _) Hpre). simpl. by rewrite decide_True.
  - intros Hnd r Hr. by apply find_room_unique.
Qed.

Section layout_more.
Import Level.

Lemma renumber_fixed (lay : list LayoutEntry.t) :
  sequential lay -> renumber lay = lay.
Proof.
  intros Hseq. apply list_eq. intros i. rewrite renumber_lookup.
  destruct (lay !! i) as [le|] eqn:Hle; simpl; [|done].
  rewrite <- (sequential_lookup lay i le Hseq Hle). by destruct le.
Qed.

Lemma resequence_fixed (lay : list LayoutEntry.t) :
  sequential lay -> resequence lay = lay.
Proof.
  intros Hseq. unfold resequence.
  rewrite sort_by_id by by apply increasing_sorted, sequential_increasing.
  by apply renumber_fixed.
Qed.

Lemma resequence_sequential (lay : list LayoutEntry.t) :
  sequential (resequence lay).
Proof. apply renumber_sequential. Qed.

Lemma resequence_room_ids (lay : list LayoutEntry.t) :
  LayoutEntry.room_id <$> resequence lay ≡ₚ LayoutEntry.room_id <$> lay.
Proof.
  unfold resequence. rewrite renumber_room_ids. apply fmap_Permutation, sort_by_perm.
Qed.

Lemma filter_all {A} (P : A -> Prop) `{forall x, Decision (P x)} (l : list A) :
  Forall P l -> filter P l = l.
Proof.
  induction 1 as [|x l Hx Hl IH]; [done|].
  rewrite filter_cons, decide_True by done. by rewrite IH.
Qed.

Lemma resequence_keeps_room_ids (P : Z -> Prop) (lay : list LayoutEntry.t) :
  Forall (fun le => P (LayoutEntry.room_id le)) lay ->
  Forall (fun le => P (LayoutEntry.room_id le)) (resequence lay).
Proof.
  intros Hall. apply Forall_forall. intros le Hle.
  assert (Hin : LayoutEntry.room_id le ∈ LayoutEntry.room_id <$> resequence lay)
    by by apply list_elem_of_fmap_2.
  rewrite resequence_room_ids in Hin.
  apply list_elem_of_fmap in Hin as (le' & -> & Hle').
  by apply (proj1 (Forall_forall _ _) Hall).
Qed.

End layout_more.

(** X3. [remove_room] drops the room and every layout entry that names it:
    afterwards the id is not found, other ids are found as before, no
    layout entry names the id and the layout is sequential; removing the
    same id again changes nothing.  The tile types and the floor layouts
    are not touched, so a floor-layout cell that held the id still holds
    it. *)
Theorem remove_room_forgets (l : Level.t) (i : Z) :
  Level.get_room (Level.remove_room l i) i = None /\
  (forall j, j <> i ->
     Level.get_room (Level.remove_room l i) j = Level.get_room l j) /\
  Forall (fun le => LayoutEntry.room_id le <> i)
         (Level.layout (Level.remove_room l i)) /\
  sequential (Level.layout (Level.remove_room l i)) /\
  Level.remove_room (Level.remove_room l i) i = Level.remove_room l i /\
  Level.floor_layouts (Level.remove_room l i) = Level.floor_layouts l /\
  Level.tile_types (Level.remove_room l i) = Level.tile_types l /\
  (unique_ids l -> unique_ids (Level.remove_room l i)).
Proof.
  assert (Hlay : Forall (fun le => LayoutEntry.room_id le <> i)
                   (Level.layout (Level.remove_room l i))).
  { simpl. apply (resequence_keeps_room_ids (fun j => j <> i)).
    apply Forall_forall. intros le Hle. by apply list_elem_of_filter in Hle as [? _]. }
  split; [|split; [|split; [|split; [|split; [|split; [|split]]]]]]; try done.
  - unfold Level.get_room; simpl. rewrite find_room_filter. by rewrite decide_True.
  - intros j Hj. unfold Level.get_room; simpl. rewrite find_room_filter.
    by rewrite decide_False.
  - apply resequence_sequential.
  - unfold Level.remove_room at 1 3. simpl. f_equal.
    + rewrite filter_all; [done|]. apply Forall_forall. intros r Hr.
      by apply list_elem_of_filter in Hr as [? _].
    + rewrite (filter_all _ _ Hlay). simpl.
      apply resequence_fixed, resequence_sequential.
  - apply remove_room_unique.
Qed.

Section validate.
Import Level.

Lemma remove_dups_length_le {A} `{EqDecision A} (l : list A) :
  (length (remove_dups l) <= length l)%nat.
Proof.
  induction l as [|x l IH]; simpl; [done|].
  destruct (decide_rel elem_of x l); simpl; lia.
Qed.

Lemma remove_dups_length {A} `{EqDecision A} (l : list A) :
  length (remove_dups l) = length l <-> NoDup l.
Proof.
  induction l as [|x l IH]; simpl.
  - split; [intros _; apply NoDup_nil_2 | done].
  - pose proof (remove_dups_length_le l) as Hle.
    destruct (decide_rel elem_of x l) as [Hin|Hin]; simpl.
    + split; [lia|]. intros Hnd. apply NoDup_cons in Hnd as [Hx _]. done.
    + rewrite NoDup_cons. split.
      * intros Hlen. split; [done|]. apply IH. lia.
      * intros [_ Hnd]. apply IH in Hnd. lia.
Qed.

Lemma check_room_ids_nil (l : t) :
  check_room_ids l = [] <-> NoDup (Room.id <$> rooms l).
Proof.
  unfold check_room_ids. rewrite <- remove_dups_length. unfold len.
  destruct (decide _) as [Hne|Heq]; split; try done.
  - intros Hlen. destruct Hne. by rewrite Hlen.
  - intros _. apply dec_stable in Heq. lia.
Qed.

Lemma check_interior_nil (room : Room.t) :
  check_interior room = [] <-> interior_fits room.
Proof.
  unfold check_interior, interior_fits.
  destruct (decide (len (Room.interior room) <> Room.height room - 2)) as [Hh|Hh].
  { split; [done|]. by intros [Hlen _]. }
  apply dec_stable in Hh. simpl.
  destruct (existsb _ _) eqn:Hex.
  - split; [done|]. intros [_ Hall]. exfalso.
    apply existsb_exists in Hex as (row & Hrow & Hbad).
    apply bool_decide_eq_true in Hbad. apply Hbad.
    apply (proj1 (Forall_forall _ _) Hall). by apply list_elem_of_In.
  - split; [|done]. intros _. split; [done|].
    apply Forall_forall. intros row Hrow.
    destruct (decide (len row = Room.width room - 2)) as [|Hne]; [done|].
    exfalso. apply not_true_iff_false in Hex. apply Hex.
    apply existsb_exists. exists row. split; [by apply list_elem_of_In|].
    by apply bool_decide_eq_true.
Qed.

Lemma flat_map_nil {A B} (f : A -> list B) (l : list A) :
  flat_map f l = [] <-> Forall (fun a => f a = []) l.
Proof.
  induction l as [|a l IH]; simpl.
  - split; [intros _; apply Forall_nil_2 | done].
  - rewrite Forall_cons. split.
    + intros Happ. apply app_eq_nil in Happ as [Ha Hl]. split; [done | by apply IH].
    + intros [Ha Hl]. rewrite Ha. by apply IH.
Qed.

Lemma check_layout_refs_nil (l : t) :
  check_layout_refs l = [] <-> layout_linked l.
Proof.
  unfold check_layout_refs, layout_linked. rewrite flat_map_nil.
  apply Forall_iff. intros le.
  destruct (has_room l (LayoutEntry.room_id le)) eqn:Hhas; simpl.
  - split; [|done]. intros _. by apply has_room_spec.
  - split; [done|]. intros Hex. apply has_room_spec in Hex. congruence.
Qed.

#[local] Instance key_le_id_antisymm : AntiSymm (=) (key_le (fun p : Z => p)).
Proof. intros a b. unfold key_le. lia. Qed.

Lemma py_range_sorted (n : Z) : StronglySorted (key_le (fun p : Z => p)) (py_range n).
Proof.
  unfold py_range. generalize 0. 
  induction (Z.to_nat n) as [|k IH] eqn:Hk in n |- *; intros a.
  - unfold seqZ. rewrite Hk. simpl. constructor.
  - unfold seqZ. rewrite Hk. simpl. constructor.
    + specialize (IH (Z.of_nat k) ltac:(lia) (a + 1)). unfold seqZ in IH.
      rewrite Nat2Z.id in IH. rewrite <- fmap_S_seq, <- list_fmap_compose.
      erewrite list_fmap_ext; [exact IH|]. intros i x _. simpl. lia.
    + apply Forall_forall. intros x Hx.
      apply list_elem_of_fmap in Hx as (y & -> & Hy). unfold key_le. lia.
Qed.

Lemma check_positions_nil (l : t) :
  check_positions l = [] <->
  LayoutEntry.position <$> layout l ≡ₚ py_range (len (layout l)).
Proof.
  unfold check_positions. destruct (decide _) as [Hne|Heq].
  - split; [done|]. intros Hperm. destruct Hne.
    eapply (@StronglySorted_unique _ (key_le (fun p : Z => p)) _).
    + apply sort_by_sorted.
    + apply py_range_sorted.
    + by rewrite sort_by_perm.
  - apply dec_stable in Heq. split; [|done]. intros _.
    rewrite <- Heq. symmetry. apply sort_by_perm.
Qed.

End validate.

(** X4. [validate] reports nothing exactly when the room ids are pairwise
    distinct, every interior has [height - 2] rows of [width - 2] tiles,
    every layout entry names a room of the level, the layout positions
    are 0, ..., len - 1 in some order, and the level holds exactly one
    Spawn tile. *)
Theorem validate_accepts (l : Level.t) :
  Level.validate l = [] <->
    unique_ids l /\
    Forall interior_fits (Level.rooms l) /\
    layout_linked l /\
    LayoutEntry.position <$> Level.layout l
      ≡ₚ py_range (len (Level.layout l)) /\
    spawn_total l = 1.
Proof.
  unfold Level.validate, Level.check_structure, unique_ids.
  rewrite check_spawn_spec.
  rewrite <- check_room_ids_nil, <- check_layout_refs_nil, <- check_positions_nil.
  rewrite <- (Forall_iff _ _ _ check_interior_nil).
  rewrite <- flat_map_nil.
  split.
  - intros Happ.
    apply app_eq_nil in Happ as [Happ Hspawn].
    apply app_eq_nil in Happ as [Hids Happ].
    apply app_eq_nil in Happ as [Hint Happ].
    apply app_eq_nil in Happ as [Hrefs Hpos].
    repeat split; try done.
    destruct (decide (spawn_total l = 0)); [done|].
    destruct (decide (spawn_total l > 1)); [done|].
    unfold spawn_total, len in *. lia.
  - intros (-> & -> & -> & -> & Hone). simpl.
    rewrite decide_False by lia. rewrite decide_False by lia. done.
Qed.

Section layout_at.
Import Level.

Lemma set_layout_same (l : t) : set_layout l (layout l) = l.
Proof. by destruct l. Qed.

Lemma sequential_filter_position (lay : list LayoutEntry.t) (p : Z) :
  sequential lay ->
  filter (fun le => LayoutEntry.position le <> p) lay =
    if decide (0 <= p < len lay) then delete (Z.to_nat p) lay else lay.
Proof.
  intros Hseq. destruct (decide (0 <= p < len lay)) as [Hin|Hout].
  - unfold len in Hin.
    destruct (lookup_lt_is_Some_2 lay (Z.to_nat p) ltac:(lia)) as [le Hle].
    rewrite <- (take_drop_middle lay (Z.to_nat p) le Hle) at 1.
    rewrite filter_app, filter_cons.
    pose proof (sequential_lookup lay _ le Hseq Hle) as Hpos.
    rewrite decide_False by (intros Hne; apply Hne; lia).
    rewrite delete_take_drop. f_equal.
    + apply filter_all, Forall_lookup_2. intros i x Hx.
      apply lookup_take_Some in Hx as [Hx Hi].
      rewrite (sequential_lookup lay i x Hseq Hx). lia.
    + apply filter_all, Forall_lookup_2. intros i x Hx.
      rewrite lookup_drop in Hx.
      rewrite (sequential_lookup lay _ x Hseq Hx). lia.
  - apply filter_all, Forall_lookup_2. intros i x Hx.
    rewrite (sequential_lookup lay i x Hseq Hx).
    pose proof (lookup_lt_Some _ _ _ Hx). unfold len in Hout. lia.
Qed.

Lemma renumber_app_sequential (lay : list LayoutEntry.t) (le : LayoutEntry.t) :
  sequential lay -> LayoutEntry.position le = len lay -> sequential (lay ++ [le]).
Proof.
  intros Hseq Hpos. unfold sequential, len in *.
  rewrite fmap_app, length_app. simpl.
  replace (Z.of_nat (length lay + 1)) with (Z.of_nat (S (length lay))) by lia.
  rewrite py_range_S, Hseq, Hpos. done.
Qed.

End layout_at.

(** X5. On a layout whose positions are sequential, [add_to_layout]
    succeeds exactly when some room holds the id (a room may be named any
    number of times), and then appends the entry at position [len];
    [remove_from_layout] at that position takes it away again and gives
    the level back; a refused call leaves the level as it was. *)
Theorem add_to_layout_round_trip (l : Level.t) (room_id : Z) :
  sequential (Level.layout l) ->
  ((Level.add_to_layout l room_id).1 = true <->
     exists r, r ∈ Level.rooms l /\ Room.id r = room_id) /\
  ((Level.add_to_layout l room_id).1 = false ->
     (Level.add_to_layout l room_id).2 = l) /\
  ((Level.add_to_layout l room_id).1 = true ->
     Level.layout (Level.add_to_layout l room_id).2
       = Level.layout l ++ [LayoutEntry.mk room_id (len (Level.layout l))] /\
     sequential (Level.layout (Level.add_to_layout l room_id).2) /\
     Level.remove_from_layout (Level.add_to_layout l room_id).2
       (len (Level.layout l)) = l).
Proof.
  intros Hseq. rewrite <- has_room_spec. unfold Level.add_to_layout.
  destruct (Level.has_room l room_id); simpl; [|by repeat split].
  split; [done|]. split; [done|]. intros _. split; [done|].
  assert (Hseq' : sequential (Level.layout l ++
                    [LayoutEntry.mk room_id (len (Level.layout l))]))
    by by apply renumber_app_sequential.
  split; [done|].
  unfold Level.remove_from_layout. simpl.
  rewrite (sequential_filter_position _ _ Hseq').
  rewrite decide_True by (unfold len; rewrite length_app; simpl; lia).
  replace (Z.to_nat (len (Level.layout l))) with (length (Level.layout l))
    by (unfold len; lia).
  rewrite delete_take_drop, take_app_length.
  rewrite drop_app_ge by lia.
  replace (S (length (Level.layout l)) - length (Level.layout l))%nat
    with 1%nat by lia.
  simpl. rewrite app_nil_r.
  rewrite (resequence_fixed _ Hseq). by destruct l.
Qed.

Lemma add_to_layout_round_trip_witness :
  sequential (Level.layout sample_layout_level) /\
  (Level.add_to_layout sample_layout_level 2).1 = true /\
  Level.remove_from_layout (Level.add_to_layout sample_layout_level 2).2 3
    = sample_layout_level.
Proof.
  assert (Hseq : sequential (Level.layout sample_layout_level)) by reflexivity.
  split; [exact Hseq|].
  destruct (add_to_layout_round_trip sample_layout_level 2 Hseq) as (_ & _ & Hadd).
  split; [reflexivity|]. apply Hadd. reflexivity.
Defined.

(** X6. On a layout whose positions are sequential, [remove_from_layout]
    at a position inside the layout deletes exactly the entry at that
    index and renumbers the rest in place, so the sequence of room ids
    loses that one element; at any other position it changes nothing. *)
Theorem remove_from_layout_at (l : Level.t) (position : Z) :
  sequential (Level.layout l) ->
  (0 <= position < len (Level.layout l) ->
     Level.layout (Level.remove_from_layout l position)
       = Level.renumber (delete (Z.to_nat position) (Level.layout l)) /\
     LayoutEntry.room_id <$> Level.layout (Level.remove_from_layout l position)
       = delete (Z.to_nat position) (LayoutEntry.room_id <$> Level.layout l) /\
     len (Level.layout (Level.remove_from_layout l position))
       = len (Level.layout l) - 1) /\
  (~ (0 <= position < len (Level.layout l)) ->
     Level.remove_from_layout l position = l).
Proof.
  intros Hseq. unfold Level.remove_from_layout.
  rewrite (resequence_filter _ _ Hseq).
  rewrite (sequential_filter_position _ _ Hseq).
  split; intros Hpos.
  - rewrite decide_True by done. simpl. split; [done|].
    rewrite renumber_room_ids. split.
    + apply list_eq. intros i. rewrite list_lookup_fmap.
      destruct (decide (i < Z.to_nat position)%nat).
      * rewrite !list_lookup_delete_lt by done. by rewrite list_lookup_fmap.
      * rewrite !list_lookup_delete_ge by lia. by rewrite list_lookup_fmap.
    + unfold len in *. rewrite renumber_length, length_delete; [lia|].
      apply lookup_lt_is_Some_2. lia.
  - rewrite decide_False by done. rewrite (renumber_fixed _ Hseq).
    apply set_layout_same.
Qed.

Lemma remove_from_layout_at_witness :
  sequential (Level.layout sample_layout_level) /\
  LayoutEntry.room_id <$>
    Level.layout (Level.remove_from_layout sample_layout_level 1) = [1; 1] /\
  Level.remove_from_layout sample_layout_level 3 = sample_layout_level.
Proof.
  assert (Hseq : sequential (Level.layout sample_layout_level)) by reflexivity.
  split; [exact Hseq|].
  assert (Hlen : len (Level.layout sample_layout_level) = 3) by reflexivity.
  destruct (remove_from_layout_at sample_layout_level 1 Hseq) as [Hin _].
  destruct (remove_from_layout_at sample_layout_level 3 Hseq) as [_ Hout].
  split.
  - destruct Hin as (_ & Hids & _); [lia|]. exact Hids.
  - apply Hout. lia.
Defined.

Section built_levels.
Import Level.

Lemma built_reachable (l : t) : built l -> reachable l.
Proof.
  induction 1.
  - apply reach_init.
  - by apply reach_add_room.
  - by apply reach_remove_room.
  - by apply reach_add_to_layout.
  - by apply reach_remove_from_layout.
  - by eapply reach_move_in_layout.
Qed.

Lemma renumber_keeps_room_ids (P : Z -> Prop) (lay : list LayoutEntry.t) :
  Forall (fun le => P (LayoutEntry.room_id le)) lay ->
  Forall (fun le => P (LayoutEntry.room_id le)) (renumber lay).
Proof.
  intros Hall. apply Forall_lookup_2. intros i le Hle.
  rewrite renumber_lookup in Hle.
  destruct (lay !! i) as [le'|] eqn:Hle'; simpl in Hle; [|done].
  injection Hle as <-. simpl.
  by apply (Forall_lookup_1 _ _ _ _ Hall Hle').
Qed.

Lemma add_room_rooms (l : t) (room : Room.t) (r : Room.t) :
  r ∈ rooms l -> r ∈ rooms (add_room l room).2.
Proof.
  unfold add_room. destruct (has_room l (Room.id room)); simpl; [done|].
  intros Hr. apply elem_of_app. by left.
Qed.

Lemma built_linked (l : t) : built l -> layout_linked l.
Proof.
  unfold layout_linked. induction 1 as
    [|l room Hb IH|l i Hb IH|l i Hb IH|l p Hb IH|l o n l' Hb IH Hmove].
  - apply Forall_nil_2.
  - replace (layout (add_room l room).2) with (layout l)
      by (unfold add_room; by destruct (has_room _ _)).
    eapply Forall_impl; [exact IH|]. simpl.
    intros le (r & Hr & Hid). exists r. split; [by apply add_room_rooms | done].
  - simpl.
    apply (resequence_keeps_room_ids
             (fun j => exists r, r ∈ filter (fun r => Room.id r <> i) (rooms l) /\
                                 Room.id r = j)).
    apply Forall_forall. intros le Hle.
    apply list_elem_of_filter in Hle as [Hne Hle].
    destruct (proj1 (Forall_forall _ _) IH le Hle) as (r & Hr & Hid).
    exists r. split; [|done]. apply list_elem_of_filter. split; [congruence | done].
  - unfold add_to_layout. destruct (has_room l i) eqn:Hhas; simpl; [|done].
    apply Forall_app. split; [done|]. apply Forall_singleton. simpl.
    by apply has_room_spec.
  - simpl.
    apply (resequence_keeps_room_ids
             (fun j => exists r, r ∈ rooms l /\ Room.id r = j)).
    apply Forall_forall. intros le Hle.
    apply list_elem_of_filter in Hle as [_ Hle].
    by apply (proj1 (Forall_forall _ _) IH le Hle).
  - destruct (move_in_layout_spec l o n) as
      [(Ho & Hn & entry & Hentry & Heq)|[_ Heq]];
      rewrite Heq in Hmove; injection Hmove as <-; [|done].
    simpl.
    apply (renumber_keeps_room_ids
             (fun j => exists r, r ∈ rooms l /\ Room.id r = j)).
    apply Forall_app. split; [|apply Forall_cons; split].
    + apply Forall_take. rewrite delete_take_drop. apply Forall_app.
      split; [by apply Forall_take | by apply Forall_drop].
    + by apply (Forall_lookup_1 _ _ _ _ IH Hentry).
    + apply Forall_drop. rewrite delete_take_drop. apply Forall_app.
      split; [by apply Forall_take | by apply Forall_drop].
Qed.

Lemma built_unique (l : t) : built l -> unique_ids l.
Proof.
  induction 1 as
    [|l room Hb IH|l i Hb IH|l i Hb IH|l p Hb IH|l o n l' Hb IH Hmove].
  - apply NoDup_nil_2.
  - by apply add_room_fresh_id_unique.
  - by apply remove_room_unique.
  - unfold add_to_layout. by destruct (has_room l i).
  - done.
  - destruct (move_in_layout_spec l o n) as
      [(Ho & Hn & entry & Hentry & Heq)|[_ Heq]];
      rewrite Heq in Hmove; by injection Hmove as <-.
Qed.

End built_levels.

(** X8. A level built from [Level()] by the methods of [Level] alone has
    pairwise distinct room ids, layout entries that all name existing
    rooms and sequential layout positions, so [validate] can only report
    interior-size and spawn errors on it. *)
Theorem built_validate (l : Level.t) :
  built l ->
  unique_ids l /\ layout_linked l /\ sequential (Level.layout l) /\
  Level.validate l
    = flat_map Level.check_interior (Level.rooms l) ++ Level.check_spawn l.
Proof.
  intros Hb.
  pose proof (built_unique l Hb) as Hu.
  pose proof (built_linked l Hb) as Hl.
  pose proof (reachable_sequential l (built_reachable l Hb)) as Hs.
  repeat split; try done.
  unfold Level.validate, Level.check_structure.
  rewrite (proj2 (check_room_ids_nil l) Hu).
  rewrite (proj2 (check_layout_refs_nil l) Hl).
  rewrite (proj2 (check_positions_nil l)) by (by rewrite Hs).
  simpl. by rewrite app_nil_r.
Qed.

Lemma built_validate_witness :
  built sample_layout_level /\
  Level.validate sample_layout_level
    = ["No spawn point found in level (place exactly 1 spawn tile)"%string].
Proof.
  assert (Hb : built sample_layout_level).
  { repeat first [apply built_add_to_layout | apply built_add_room
                 | apply built_init]. }
  split; [exact Hb|].
  destruct (built_validate sample_layout_level Hb) as (_ & _ & _ & ->).
  reflexivity.
Defined.

(** ** Room: construction, tile round trip, resizing again *)

Section room_more.
Import Room.

Lemma py_range_to_nat (n : Z) : py_range n = py_range (Z.of_nat (Z.to_nat n)).
Proof. unfold py_range, seqZ. by rewrite Nat2Z.id. Qed.

Lemma empty_interior_to_nat (w h : Z) :
  empty_interior w h
    = empty_interior (Z.of_nat (Z.to_nat w)) (Z.of_nat (Z.to_nat h)).
Proof.
  unfold empty_interior.
  by rewrite <- (py_range_to_nat w), <- (py_range_to_nat h).
Qed.

Lemma init_shaped (room_id w h : Z) :
  shaped (Z.to_nat (h - 2)) (Z.to_nat (w - 2)) (interior (init room_id w h)).
Proof. simpl. rewrite empty_interior_to_nat. apply empty_interior_shaped. Qed.

Lemma empty_interior_cells (w h : Z) (y x : nat) (v : Z) :
  cellN (empty_interior w h) y x = Some v -> v = TileType.EMPTY.
Proof.
  unfold cellN, empty_interior. rewrite list_lookup_fmap.
  destruct (py_range h !! y); simpl; [|done]. rewrite list_lookup_fmap.
  destruct (py_range w !! x); simpl; [|done]. by intros [= <-].
Qed.

Lemma get_tile_as_cell (r : t) (W : nat) (x y : Z) :
  rectangular (interior r) W ->
  get_tile r x y = Ok (default TileType.EMPTY (cell (interior r) x y)).
Proof.
  intros Hrect.
  destruct (decide (0 <= x < Z.of_nat W /\ 0 <= y < len (interior r)))
    as [[Hx Hy]|Hout].
  - destruct (get_tile_in_range r W x y Hrect Hx Hy) as (v & -> & ->). done.
  - rewrite (get_tile_out_of_range r W x y Hrect Hout).
    unfold cell, cellN.
    destruct ((0 <=? x) && (0 <=? y)) eqn:Hnn; [|done].
    destruct (interior r !! Z.to_nat y) as [row|] eqn:Hrow; simpl; [|done].
    destruct (row !! Z.to_nat x) as [v|] eqn:Hv; simpl; [|done].
    exfalso. apply Hout.
    pose proof (lookup_lt_Some _ _ _ Hrow) as Hlt.
    pose proof (lookup_lt_Some _ _ _ Hv) as Hltx.
    rewrite (proj1 (Forall_forall _ _) Hrect row) in Hltx
      by (by eapply list_elem_of_lookup_2).
    unfold len. lia.
Qed.

Lemma cell_insert (g : list (list Z)) (row : list Z) (x y t x' y' : Z) :
  0 <= x -> 0 <= y ->
  g !! Z.to_nat y = Some row -> (Z.to_nat x < length row)%nat ->
  cell (<[Z.to_nat y := <[Z.to_nat x := t]> row]> g) x' y' =
    if decide (x' = x /\ y' = y) then Some t else cell g x' y'.
Proof.
  intros Hx Hy Hrow Hlt. unfold cell, cellN.
  pose proof (lookup_lt_Some _ _ _ Hrow) as Hylt.
  destruct ((0 <=? x') && (0 <=? y')) eqn:Hnn.
  2:{ rewrite decide_False by lia. done. }
  destruct (decide (Z.to_nat y' = Z.to_nat y)) as [Hey|Hney].
  - rewrite Hey, list_lookup_insert_eq by done. simpl. rewrite Hrow. simpl.
    destruct (decide (Z.to_nat x' = Z.to_nat x)) as [Hex|Hnex].
    + rewrite Hex, list_lookup_insert_eq by done.
      rewrite decide_True by lia. done.
    + rewrite list_lookup_insert_ne by done.
      rewrite decide_False by lia. done.
  - rewrite list_lookup_insert_ne by done.
    rewrite decide_False by lia. done.
Qed.

Lemma get_tile_empty (r : t) (w h x y : Z) :
  interior r = empty_interior w h -> get_tile r x y = Ok TileType.EMPTY.
Proof.
  intros Hi.
  assert (Hrect : rectangular (interior r) (Z.to_nat w)).
  { rewrite Hi, empty_interior_to_nat. apply empty_interior_shaped. }
  rewrite (get_tile_as_cell _ _ x y Hrect). f_equal.
  destruct (cell _ x y) as [v|] eqn:Hc; [|done]. simpl.
  unfold cell in Hc. destruct ((0 <=? x) && (0 <=? y)); [|done].
  rewrite Hi in Hc. by apply empty_interior_cells in Hc.
Qed.

Lemma empty_interior_tiles (w h t : Z) :
  t ∈ concat (empty_interior w h) -> t = TileType.EMPTY.
Proof.
  intros Hin. apply list_elem_of_In, in_concat in Hin as (row & Hrow & Ht).
  apply list_elem_of_In in Hrow, Ht. unfold empty_interior in Hrow.
  apply list_elem_of_fmap in Hrow as (y & -> & _).
  by apply list_elem_of_fmap in Ht as (x & -> & _).
Qed.

Lemma filter_none {B} (P : B -> Prop) `{forall x, Decision (P x)} (l : list B) :
  Forall (fun x => ~ P x) l -> filter P l = [].
Proof.
  induction 1 as [|x l Hx Hl IH]; [done|].
  by rewrite filter_cons, decide_False.
Qed.

Lemma grid_ext (g1 g2 : list (list Z)) (W : nat) :
  length g1 = length g2 -> rectangular g1 W -> rectangular g2 W ->
  (forall y x, (y < length g1)%nat -> (x < W)%nat ->
     cellN g1 y x = cellN g2 y x) ->
  g1 = g2.
Proof.
  intros Hlen H1 H2 Hcell. apply list_eq. intros y.
  destruct (decide (y < length g1)%nat) as [Hy|Hy].
  2:{ rewrite !lookup_ge_None_2 by lia. done. }
  destruct (lookup_lt_is_Some_2 g1 y Hy) as [r1 Hr1].
  destruct (lookup_lt_is_Some_2 g2 y ltac:(lia)) as [r2 Hr2].
  rewrite Hr1, Hr2. f_equal.
  pose proof (proj1 (Forall_forall _ _) H1 r1 (list_elem_of_lookup_2 _ _ _ Hr1)) as Hl1.
  pose proof (proj1 (Forall_forall _ _) H2 r2 (list_elem_of_lookup_2 _ _ _ Hr2)) as Hl2.
  simpl in Hl1, Hl2. apply list_eq. intros x.
  destruct (decide (x < W)%nat) as [Hx|Hx].
  - specialize (Hcell y x Hy Hx). unfold cellN in Hcell.
    rewrite Hr1, Hr2 in Hcell. exact Hcell.
  - rewrite !lookup_ge_None_2 by lia. done.
Qed.

End room_more.

(** X9. A new room [Room(id, width, height)] has an interior of
    [max(height - 2, 0)] rows of [max(width - 2, 0)] Empty tiles, so
    [get_tile] returns Empty everywhere; its interior has the size its
    width and height announce (what [validate] checks) exactly when
    [height >= 2] and, unless there are no rows at all, [width >= 2]. *)
Theorem room_init_empty (room_id w h : Z) :
  Room.id (Room.init room_id w h) = room_id /\
  length (Room.interior (Room.init room_id w h)) = Z.to_nat (h - 2) /\
  rectangular (Room.interior (Room.init room_id w h)) (Z.to_nat (w - 2)) /\
  (forall x y, Room.get_tile (Room.init room_id w h) x y = Ok TileType.EMPTY) /\
  (Level.check_interior (Room.init room_id w h) = [] <->
     2 <= h /\ (2 <= w \/ h = 2)).
Proof.
  destruct (init_shaped room_id w h) as [Hlen Hrect].
  split; [done|]. split; [done|]. split; [done|]. split.
  - intros x y. by apply (get_tile_empty _ (w - 2) (h - 2)).
  - rewrite check_interior_nil. unfold interior_fits.
    change (Room.height (Room.init room_id w h)) with h.
    change (Room.width (Room.init room_id w h)) with w.
    unfold len. rewrite Hlen. split.
    + intros [Hh Hall]. split; [lia|].
      destruct (decide (h = 2)) as [|Hne]; [by right | left].
      destruct (Room.interior (Room.init room_id w h)) as [|row rows].
      { simpl in Hlen. lia. }
      apply Forall_cons in Hall as [Hrow _].
      apply Forall_cons in Hrect as [Hrow' _]. lia.
    + intros [Hh Hw]. split; [lia|].
      destruct Hw as [Hw| ->].
      * eapply Forall_impl; [exact Hrect|]. simpl. intros row Hrow. lia.
      * destruct (Room.interior (Room.init room_id w 2)); [done|].
        simpl in Hlen. lia.
Qed.

(** X10. On a rectangular interior, [set_tile] inside the interior stores
    the tile: [get_tile] at that cell then returns it, every other cell
    reads as before, and the id, size, exits, theme and the shape of the
    interior are unchanged. *)
Theorem set_tile_get_tile (r : Room.t) (W : nat) (x y t : Z) :
  rectangular (Room.interior r) W ->
  0 <= x < Z.of_nat W -> 0 <= y < len (Room.interior r) ->
  exists r', Room.set_tile r x y t = Ok r' /\
    Room.get_tile r' x y = Ok t /\
    (forall x' y', (x', y') <> (x, y) ->
       Room.get_tile r' x' y' = Room.get_tile r x' y') /\
    Room.id r' = Room.id r /\ Room.width r' = Room.width r /\
    Room.height r' = Room.height r /\ Room.exits r' = Room.exits r /\
    Room.theme r' = Room.theme r /\
    length (Room.interior r') = length (Room.interior r) /\
    rectangular (Room.interior r') W.
Proof.
  intros Hrect Hx Hy.
  destruct (set_tile_in_range r W x y t Hrect Hx Hy) as (row & Hrow & Hset).
  eexists. split; [exact Hset|].
  assert (Hlen : length row = W).
  { apply (proj1 (Forall_forall _ _) Hrect row).
    by eapply list_elem_of_lookup_2. }
  assert (Hrect' : rectangular
            (<[Z.to_nat y := <[Z.to_nat x := t]> row]> (Room.interior r)) W).
  { apply Forall_insert; [done|]. by rewrite length_insert. }
  simpl. split; [|split; [|repeat split; try done]].
  - rewrite (get_tile_as_cell _ W) by done. simpl.
    rewrite (cell_insert _ row) by (done || lia).
    by rewrite decide_True.
  - intros x' y' Hne.
    rewrite (get_tile_as_cell _ W) by done.
    rewrite (get_tile_as_cell r W) by done. simpl.
    rewrite (cell_insert _ row) by (done || lia).
    rewrite decide_False; [done|]. intros [-> ->]. done.
  - by rewrite length_insert.
Qed.

Lemma set_tile_get_tile_witness :
  exists r', Room.set_tile sample_room 2 1 9 = Ok r' /\
    Room.get_tile r' 2 1 = Ok 9 /\
    Room.get_tile r' 1 1 = Room.get_tile sample_room 1 1.
Proof.
  assert (Hrect : rectangular (Room.interior sample_room) 3).
  { repeat constructor. }
  destruct (set_tile_get_tile sample_room 3 2 1 9 Hrect)
    as (r' & Hset & Hget & Hother & _).
  - simpl. lia.
  - vm_compute. split; [discriminate | reflexivity].
  - exists r'. split; [exact Hset|]. split; [exact Hget|].
    apply Hother. discriminate.
Defined.

Ltac ltb_cases :=
  repeat match goal with
         | |- context [?a <? ?b] => destruct (Z.ltb_spec a b)
         end;
  cbn [andb]; try done; lia.

Section resize_more.

Lemma py_range_nonpos (n : Z) : n <= 0 -> py_range n = [].
Proof.
  intros Hn. unfold py_range, seqZ. by replace (Z.to_nat n) with 0%nat by lia.
Qed.

Lemma for_each_skip {S} (xs : list Z) (body : Z -> S -> result S) (s : S) :
  (forall x s, body x s = Ok s) -> for_each xs body s = Ok s.
Proof.
  intros Hbody. induction xs as [|x xs IH]; [done|].
  simpl. by rewrite Hbody.
Qed.

(** With no column to copy, a row of [resize] changes nothing. *)
Lemma copy_row_narrow (old : list (list Z)) (new_w y : Z)
    (cur : list (list Z)) :
  old <> [] -> new_w <= 0 -> Room.copy_row old new_w y cur = Ok cur.
Proof.
  intros Hold Hw. unfold Room.copy_row.
  destruct old as [|row0 old]; [done|].
  rewrite (py_getitem_Z _ 0 row0) by done. simpl.
  by rewrite py_range_nonpos by lia.
Qed.

(** [resize] of a rectangular interior never raises, whatever the new
    size: the new interior has [max(new_h - 2, 0)] rows of
    [max(new_w - 2, 0)] tiles and holds the stored tiles where the two
    interiors overlap. *)
Lemma resize_any (r : Room.t) (W : nat) (new_w new_h : Z) :
  rectangular (Room.interior r) W ->
  exists r', Room.resize r new_w new_h = Ok r' /\
    Room.id r' = Room.id r /\
    Room.width r' = new_w /\ Room.height r' = new_h /\
    Room.exits r' = Room.exits r /\ Room.theme r' = Room.theme r /\
    length (Room.interior r') = Z.to_nat (new_h - 2) /\
    rectangular (Room.interior r') (Z.to_nat (new_w - 2)) /\
    forall x y, 0 <= x < new_w - 2 -> 0 <= y < new_h - 2 ->
      cell (Room.interior r') x y =
        if (x <? Z.of_nat W) && (y <? len (Room.interior r))
        then cell (Room.interior r) x y
        else Some TileType.EMPTY.
Proof.
  intros Hrect.
  destruct (decide (2 <= new_w /\ 2 <= new_h)) as [[Hw Hh]|Hsmall].
  { exact (resize_rectangular r _ W new_w new_h eq_refl Hrect Hw Hh). }
  assert (Hloop :
    for_each (py_range (Z.min (len (Room.interior r)) (new_h - 2)))
      (Room.copy_row (Room.interior r) (new_w - 2))
      (Room.empty_interior (new_w - 2) (new_h - 2))
    = Ok (Room.empty_interior (new_w - 2) (new_h - 2))).
  { destruct (decide (Z.min (len (Room.interior r)) (new_h - 2) <= 0))
      as [Hnone|Hsome].
    - by rewrite py_range_nonpos.
    - apply for_each_skip. intros y cur. apply copy_row_narrow; [|lia].
      intros Hnil. rewrite Hnil in Hsome. unfold len in Hsome.
      simpl in Hsome. lia. }
  unfold Room.resize. cbv zeta. rewrite Hloop. simpl.
  eexists. split; [done|]. simpl. repeat (split; [done|]).
  destruct (empty_interior_shaped (Z.to_nat (new_w - 2))
              (Z.to_nat (new_h - 2))) as [Hlen0 Hrect0].
  rewrite <- empty_interior_to_nat in Hlen0, Hrect0.
  split; [done|]. split; [done|]. intros x y Hx Hy. lia.
Qed.

(** Two rooms with the same fields and the same cells are equal. *)
Lemma room_ext (ra rb : Room.t) (W' H' : nat) :
  Room.id ra = Room.id rb -> Room.width ra = Room.width rb ->
  Room.height ra = Room.height rb -> Room.exits ra = Room.exits rb ->
  Room.theme ra = Room.theme rb ->
  length (Room.interior ra) = H' -> length (Room.interior rb) = H' ->
  rectangular (Room.interior ra) W' -> rectangular (Room.interior rb) W' ->
  (forall x y, 0 <= x < Z.of_nat W' -> 0 <= y < Z.of_nat H' ->
     cell (Room.interior ra) x y = cell (Room.interior rb) x y) ->
  ra = rb.
Proof.
  destruct ra as [ia wa ha ga ea ta], rb as [ib wb hb gb eb tb]; simpl.
  intros -> -> -> -> -> Hla Hlb Hra Hrb Hcell. f_equal.
  apply (grid_ext _ _ W'); [lia|done..|].
  intros y x Hy Hx.
  specialize (Hcell (Z.of_nat x) (Z.of_nat y) ltac:(lia) ltac:(lia)).
  unfold cell in Hcell.
  rewrite !(proj2 (Z.leb_le 0 (Z.of_nat _))) in Hcell by lia.
  cbn [andb] in Hcell. by rewrite !Nat2Z.id in Hcell.
Qed.
End resize_more.

(** X11. On a room whose interior rows all have the same length [W],
    [resize] never raises, whatever the sizes.  [resize] to the width and
    height the room already has gives the room back exactly when its
    interior has the size they announce ([height - 2] rows of [width - 2]
    tiles); otherwise it cuts or pads the interior to that size.  After two
    resizes in a row the interior has the size the second one asked for,
    and a cell holds its original tile only where it lies inside the
    stored interior and inside the intermediate one: what a shrink cuts
    off is Empty after growing back.  When the intermediate interior is at
    least as large as the smaller of the stored and the final one in both
    directions, the two resizes give what the direct resize gives. *)
Theorem resize_again (r : Room.t) (W : nat) (w1 h1 w2 h2 : Z) :
  rectangular (Room.interior r) W ->
  (Room.resize r (Room.width r) (Room.height r) = Ok r <-> room_inv r) /\
  exists r1 r2,
    Room.resize r w1 h1 = Ok r1 /\ Room.resize r1 w2 h2 = Ok r2 /\
    room_inv r2 /\ Room.width r2 = w2 /\ Room.height r2 = h2 /\
    (forall x y, 0 <= x < w2 - 2 -> 0 <= y < h2 - 2 ->
       cell (Room.interior r2) x y =
         if (x <? Z.min (Z.of_nat W) (w1 - 2)) &&
            (y <? Z.min (len (Room.interior r)) (h1 - 2))
         then cell (Room.interior r) x y
         else Some TileType.EMPTY) /\
    (Z.min (Z.of_nat W) (w2 - 2) <= w1 - 2 ->
     Z.min (len (Room.interior r)) (h2 - 2) <= h1 - 2 ->
     Room.resize r w2 h2 = Ok r2).
Proof.
  intros Hrect. split.
  - destruct (resize_any r W (Room.width r) (Room.height r) Hrect)
      as (r' & Hr' & Hid & Hw' & Hh' & He & Ht & Hl' & Hrc' & Hcell).
    split.
    + intros Hsame. rewrite Hsame in Hr'. injection Hr' as <-. by split.
    + intros [Hlen Hinv]. rewrite Hr'. f_equal.
      unfold Room.get_interior_height, Room.get_interior_width in *.
      apply (room_ext r' r (Z.to_nat (Room.width r - 2))
               (Z.to_nat (Room.height r - 2))); try done.
      intros x y Hx Hy. rewrite (Hcell x y) by lia.
      destruct (decide (Room.interior r = [])) as [Hnil|Hne].
      * rewrite Hnil in Hlen. simpl in Hlen. lia.
      * assert (HW : W = Z.to_nat (Room.width r - 2)).
        { destruct (Room.interior r) as [|row rows]; [done|].
          apply Forall_cons in Hrect as [<- _].
          by apply Forall_cons in Hinv as [<- _]. }
        unfold len. rewrite Hlen, HW.
        by rewrite !(proj2 (Z.ltb_lt _ _)) by lia.
  - destruct (resize_any r W w1 h1 Hrect)
      as (r1 & Hr1 & Hid1 & Hwd1 & Hhd1 & He1 & Ht1 & Hl1 & Hrc1 & Hcell1).
    destruct (resize_any r1 _ w2 h2 Hrc1)
      as (r2 & Hr2 & Hid2 & Hwd2 & Hhd2 & He2 & Ht2 & Hl2 & Hrc2 & Hcell2).
    exists r1, r2. split; [done|]. split; [done|].
    split.
    { split; unfold Room.get_interior_height, Room.get_interior_width;
        by rewrite ?Hwd2, ?Hhd2. }
    split; [done|]. split; [done|].
    assert (Hcells : forall x y, 0 <= x < w2 - 2 -> 0 <= y < h2 - 2 ->
              cell (Room.interior r2) x y =
                if (x <? Z.min (Z.of_nat W) (w1 - 2)) &&
                   (y <? Z.min (len (Room.interior r)) (h1 - 2))
                then cell (Room.interior r) x y
                else Some TileType.EMPTY).
    { intros x y Hx Hy. rewrite (Hcell2 x y Hx Hy).
      unfold len at 1. rewrite Hl1.
      destruct (decide (x < w1 - 2 /\ y < h1 - 2)) as [Hin1|Hout1].
      - rewrite (Hcell1 x y) by lia. ltb_cases.
      - ltb_cases. }
    split; [exact Hcells|].
    intros Hwmin Hhmin.
    destruct (resize_any r W w2 h2 Hrect)
      as (r' & Hr' & Hid' & Hwd' & Hhd' & He' & Ht' & Hl' & Hrc' & Hcell').
    rewrite Hr'. f_equal.
    apply (room_ext r' r2 (Z.to_nat (w2 - 2)) (Z.to_nat (h2 - 2)));
      try congruence.
    intros x y Hx Hy.
    rewrite (Hcell' x y) by lia. rewrite (Hcells x y) by lia. ltb_cases.
Qed.

Lemma resize_again_witness :
  (Room.resize sample_room 5 4 = Ok sample_room <-> room_inv sample_room) /\
  exists r1 r2, Room.resize sample_room 4 3 = Ok r1 /\
    Room.resize r1 5 4 = Ok r2 /\
    Room.interior r2 = [[1; 2; 0]; [0; 0; 0]].
Proof.
  assert (Hrect : rectangular (Room.interior sample_room) 3).
  { repeat constructor. }
  destruct (resize_again sample_room 3 4 3 5 4 Hrect) as [Hsame _].
  split; [exact Hsame|].
  eexists _, _. split; [reflexivity|]. split; reflexivity.
Defined.

(** ** FloorLayout: cells, growing and shrinking, doors *)

Section floor_more.
Import FloorLayout.

Lemma dense_is_Some (fl : t) (pos : GridPosition.t) :
  grid_dense fl -> is_Some (grid fl !! pos) <-> in_extent fl pos.
Proof. intros (_ & _ & Hd). destruct pos as [r c]. apply Hd. Qed.

Lemma get_room_at_place_room (fl : t) (pos pos' : GridPosition.t) v :
  get_room_at (place_room fl pos v) pos' =
    if decide (pos' = pos /\ is_Some (grid fl !! pos)) then v
    else get_room_at fl pos'.
Proof.
  unfold place_room, get_room_at.
  destruct (decide (is_Some (grid fl !! pos))) as [Hs|Hn]; simpl.
  - destruct (decide (pos' = pos)) as [->|Hne].
    + rewrite lookup_insert_eq, decide_True by done. done.
    + rewrite lookup_insert_ne by done. rewrite decide_False by tauto. done.
  - rewrite decide_False by tauto. done.
Qed.

End floor_more.

(** [FloorLayout(rows, cols)] is an empty grid with no doors: it has an
    entry exactly for the cells inside its extent, [get_room_at] returns
    nothing everywhere, and no pair of positions is connected. *)
Theorem floor_layout_init_empty (rows cols : Z) (pos a b : GridPosition.t) :
  FloorLayout.rows (FloorLayout.init rows cols) = rows /\
  FloorLayout.cols (FloorLayout.init rows cols) = cols /\
  (is_Some (FloorLayout.grid (FloorLayout.init rows cols) !! pos) <->
     in_extent (FloorLayout.init rows cols) pos) /\
  FloorLayout.get_room_at (FloorLayout.init rows cols) pos = None /\
  FloorLayout.get_connection (FloorLayout.init rows cols) a b = None.
Proof.
  split; [done|]. split; [done|]. split; [|split; [|done]].
  - rewrite init_lookup. unfold in_extent. simpl.
    destruct (decide _) as [Hin|Hout]; [by split; [|eexists]|].
    split; [by intros [? ?] | done].
  - unfold FloorLayout.get_room_at. rewrite init_lookup.
    by destruct (decide _).
Qed.

(** X12. On a dense grid [place_room] followed by [get_room_at] reads back
    what was placed when the position lies inside the extent, and every
    other cell reads as before; the size, the doors and the density of
    the grid are unchanged.  Nothing stops one room id from being placed
    in several cells. *)
Theorem place_room_get_room_at (fl : FloorLayout.t) (pos pos' : GridPosition.t)
    (room_id : option Z) :
  grid_dense fl ->
  FloorLayout.get_room_at (FloorLayout.place_room fl pos room_id) pos' =
    (if decide (pos' = pos /\ in_extent fl pos) then room_id
     else FloorLayout.get_room_at fl pos') /\
  grid_dense (FloorLayout.place_room fl pos room_id) /\
  FloorLayout.rows (FloorLayout.place_room fl pos room_id) = FloorLayout.rows fl /\
  FloorLayout.cols (FloorLayout.place_room fl pos room_id) = FloorLayout.cols fl /\
  FloorLayout.connections (FloorLayout.place_room fl pos room_id)
    = FloorLayout.connections fl.
Proof.
  intros Hd. split; [|split; [by apply place_room_dense|]].
  - rewrite get_room_at_place_room.
    destruct (decide (pos' = pos /\ in_extent fl pos)) as [[-> Hin]|Hn].
    + rewrite decide_True; [done|]. split; [done|]. by apply dense_is_Some.
    + rewrite decide_False; [done|]. intros [-> Hs]. apply Hn.
      split; [done|]. by apply dense_is_Some.
  - unfold FloorLayout.place_room. by destruct (decide _).
Qed.

Lemma place_room_get_room_at_witness :
  grid_dense (FloorLayout.init 2 2) /\
  FloorLayout.get_room_at
    (FloorLayout.place_room (FloorLayout.init 2 2) (1, 0) (Some 4)) (1, 0)
    = Some 4.
Proof.
  assert (Hd : grid_dense (FloorLayout.init 2 2)) by (apply init_dense; lia).
  split; [exact Hd|].
  destruct (place_room_get_room_at (FloorLayout.init 2 2) (1, 0) (1, 0)
              (Some 4) Hd) as [Hget _].
  rewrite Hget. apply decide_True. split; [reflexivity|].
  unfold in_extent. simpl. lia.
Defined.

(** X13. Adding a row and removing it again gives the layout back, except
    that a door naming a row at or beyond the old extent is dropped; the
    same holds for columns.  On a layout of no rows (columns) the removal
    is refused, since one row (column) must stay. *)
Theorem add_then_remove (fl : FloorLayout.t) :
  grid_dense fl ->
  (1 <= FloorLayout.rows fl ->
     FloorLayout.remove_row (FloorLayout.add_row fl) =
       Ok (true,
           FloorLayout.set_connections fl
             (filter (fun c =>
                        GridPosition.row (RoomConnection.from_pos c)
                          < FloorLayout.rows fl /\
                        GridPosition.row (RoomConnection.to_pos c)
                          < FloorLayout.rows fl)
                     (FloorLayout.connections fl)))) /\
  (1 <= FloorLayout.cols fl ->
     FloorLayout.remove_column (FloorLayout.add_column fl) =
       Ok (true,
           FloorLayout.set_connections fl
             (filter (fun c =>
                        GridPosition.col (RoomConnection.from_pos c)
                          < FloorLayout.cols fl /\
                        GridPosition.col (RoomConnection.to_pos c)
                          < FloorLayout.cols fl)
                     (FloorLayout.connections fl)))) /\
  (FloorLayout.rows fl = 0 ->
     FloorLayout.remove_row (FloorLayout.add_row fl)
       = Ok (false, FloorLayout.add_row fl)) /\
  (FloorLayout.cols fl = 0 ->
     FloorLayout.remove_column (FloorLayout.add_column fl)
       = Ok (false, FloorLayout.add_column fl)).
Proof.
  intros (Hr & Hc & Hd). split; [|split; [|split]].
  - intros Hrows.
    destruct (remove_row_succeeds (FloorLayout.add_row fl)) as (g' & -> & Hg').
    { simpl. lia. }
    { intros col Hcol. simpl in *. rewrite clear_row_lookup. simpl.
      rewrite decide_True by lia. done. }
    simpl. replace (FloorLayout.rows fl + 1 - 1) with (FloorLayout.rows fl) by lia.
    f_equal. f_equal. unfold FloorLayout.set_connections. f_equal.
    apply map_eq. intros [r c]. rewrite Hg'. simpl.
    destruct (decide _) as [[-> Hcol]|Hout].
    + symmetry. apply eq_None_not_Some. rewrite Hd. lia.
    + rewrite clear_row_lookup. simpl. rewrite decide_False by lia. done.
  - intros Hcols.
    destruct (remove_column_succeeds (FloorLayout.add_column fl))
      as (g' & -> & Hg').
    { simpl. lia. }
    { intros row Hrow. simpl in *. rewrite clear_column_lookup. simpl.
      rewrite decide_True by lia. done. }
    simpl. replace (FloorLayout.cols fl + 1 - 1) with (FloorLayout.cols fl) by lia.
    f_equal. f_equal. unfold FloorLayout.set_connections. f_equal.
    apply map_eq. intros [r c]. rewrite Hg'. simpl.
    destruct (decide _) as [[-> Hrow]|Hout].
    + symmetry. apply eq_None_not_Some. rewrite Hd. lia.
    + rewrite clear_column_lookup. simpl. rewrite decide_False by lia. done.
  - intros H0. apply remove_row_refuses. left. simpl. lia.
  - intros H0. apply remove_column_refuses. left. simpl. lia.
Qed.

Lemma add_then_remove_witness :
  grid_dense sample_floor /\
  FloorLayout.remove_row (FloorLayout.add_row sample_floor)
    = Ok (true, sample_floor).
Proof.
  assert (Hd : grid_dense sample_floor).
  { apply set_connection_dense, place_room_dense, init_dense; lia. }
  split; [exact Hd|].
  destruct (add_then_remove sample_floor Hd) as [Hrow _].
  rewrite Hrow by (vm_compute; discriminate). reflexivity.
Defined.

(** Growing by a row and growing by a column commute. *)
Theorem add_row_add_column (fl : FloorLayout.t) :
  0 <= FloorLayout.rows fl -> 0 <= FloorLayout.cols fl ->
  FloorLayout.add_row (FloorLayout.add_column fl)
    = FloorLayout.add_column (FloorLayout.add_row fl) /\
  (forall pos, in_extent fl pos ->
     FloorLayout.get_room_at (FloorLayout.add_row (FloorLayout.add_column fl)) pos
       = FloorLayout.get_room_at fl pos) /\
  (forall pos,
     in_extent (FloorLayout.add_row (FloorLayout.add_column fl)) pos ->
     ~ in_extent fl pos ->
     FloorLayout.grid (FloorLayout.add_row (FloorLayout.add_column fl)) !! pos
       = Some None).
Proof.
  intros Hr Hc.
  assert (Hlk : forall pos,
            FloorLayout.grid (FloorLayout.add_row (FloorLayout.add_column fl)) !! pos
              = if decide (in_extent (FloorLayout.add_row (FloorLayout.add_column fl)) pos
                           /\ ~ in_extent fl pos)
                then Some None else FloorLayout.grid fl !! pos).
  { intros [r c]. unfold in_extent. simpl.
    rewrite clear_row_lookup, clear_column_lookup. simpl.
    repeat destruct (decide _); try done; lia. }
  split; [|split].
  - unfold FloorLayout.add_row, FloorLayout.add_column. simpl. f_equal.
    apply map_eq. intros [r c].
    repeat first [rewrite clear_row_lookup | rewrite clear_column_lookup].
    simpl. repeat destruct (decide _); try done; lia.
  - intros pos Hin. unfold FloorLayout.get_room_at. rewrite Hlk.
    rewrite decide_False by tauto. done.
  - intros pos Hin Hout. rewrite Hlk. by rewrite decide_True.
Qed.

Lemma add_row_add_column_witness :
  FloorLayout.add_row (FloorLayout.add_column sample_floor)
    = FloorLayout.add_column (FloorLayout.add_row sample_floor) /\
  FloorLayout.get_room_at
    (FloorLayout.add_row (FloorLayout.add_column sample_floor)) (0, 0) = Some 7.
Proof.
  destruct (add_row_add_column sample_floor) as (Hcomm & Hold & _).
  - vm_compute. discriminate.
  - vm_compute. discriminate.
  - split; [exact Hcomm|]. rewrite Hold; [reflexivity|].
    repeat split; vm_compute; congruence.
Defined.

Section doors.
Import FloorLayout.

Lemma joins_same_pair (a b c d : GridPosition.t) (r : RoomConnection.t) :
  joins a b r -> joins c d r -> same_pair a b c d.
Proof. unfold joins, same_pair. intros [[<- <-]|[<- <-]] [[<- <-]|[<- <-]]; tauto. Qed.

Lemma same_pair_joins (a b c d : GridPosition.t) (r : RoomConnection.t) :
  same_pair a b c d -> joins a b r <-> joins c d r.
Proof. unfold joins, same_pair. intros [[-> ->]|[-> ->]]; tauto. Qed.

Lemma filter_joins_other (a b c d : GridPosition.t) (cs : list RoomConnection.t) :
  ~ same_pair a b c d ->
  filter (joins c d) (filter (fun r => ~ joins a b r) cs) = filter (joins c d) cs.
Proof.
  intros Hne. induction cs as [|r cs IH]; [done|].
  rewrite !filter_cons. destruct (decide (~ joins a b r)) as [Hn|Hj].
  - rewrite filter_cons. destruct (decide (joins c d r)); by rewrite IH.
  - apply dec_stable in Hj. rewrite decide_False; [done|].
    intros Hcd. apply Hne. by eapply joins_same_pair.
Qed.

Lemma filter_joins_set_connection (fl : t) (a b c d : GridPosition.t) door :
  ~ same_pair a b c d ->
  filter (joins c d) (connections (set_connection fl a b door))
    = filter (joins c d) (connections fl).
Proof.
  intros Hne. unfold set_connection.
  destruct (decide (door <> DoorPosition.NONE)); simpl.
  - rewrite filter_app, filter_joins_other by done.
    rewrite filter_cons, decide_False, filter_nil, app_nil_r; [done|].
    unfold joins, same_pair in *. simpl. intros [[-> ->]|[-> ->]]; tauto.
  - by apply filter_joins_other.
Qed.

End doors.

(** X14. [set_connection] between two positions leaves the door of every
    other pair as it was, never touches the grid, and keeps the layout
    free of double records: if no pair of positions had more than one
    record before, none has afterwards.  Any door string other than
    "none" is stored as given and found again in both directions; the
    positions are not checked against the grid.  Clearing the door of a
    pair that has none changes nothing. *)
Theorem set_connection_frame (fl : FloorLayout.t) (a b : GridPosition.t)
    (door : string) :
  (forall c d, ~ same_pair a b c d ->
     FloorLayout.get_connection (FloorLayout.set_connection fl a b door) c d
       = FloorLayout.get_connection fl c d) /\
  (single_doors fl -> single_doors (FloorLayout.set_connection fl a b door)) /\
  (door <> DoorPosition.NONE ->
     FloorLayout.get_connection (FloorLayout.set_connection fl a b door) a b
       = Some (RoomConnection.mk a b door) /\
     FloorLayout.get_connection (FloorLayout.set_connection fl a b door) b a
       = Some (RoomConnection.mk a b door)) /\
  (door = DoorPosition.NONE -> FloorLayout.get_connection fl a b = None ->
     FloorLayout.set_connection fl a b door = fl) /\
  FloorLayout.grid (FloorLayout.set_connection fl a b door) = FloorLayout.grid fl /\
  FloorLayout.rows (FloorLayout.set_connection fl a b door) = FloorLayout.rows fl /\
  FloorLayout.cols (FloorLayout.set_connection fl a b door) = FloorLayout.cols fl.
Proof.
  split; [|split; [|split; [|split]]].
  - intros c d Hne. unfold FloorLayout.get_connection.
    rewrite !first_joining_filter.
    by rewrite (filter_joins_set_connection fl a b c d door Hne).
  - intros Hs c d. unfold joining_count.
    destruct (decide (same_pair a b c d)) as [Hsame|Hne].
    + rewrite <- (list_filter_iff (FloorLayout.joins a b) (FloorLayout.joins c d)
                    _ (fun r => same_pair_joins a b c d r Hsame)).
      rewrite set_connection_joining. destruct (decide _); simpl; lia.
    + rewrite (filter_joins_set_connection fl a b c d door Hne). apply Hs.
  - intros Hdoor.
    assert (Hab : FloorLayout.get_connection
                    (FloorLayout.set_connection fl a b door) a b
                  = Some (RoomConnection.mk a b door)).
    { unfold FloorLayout.get_connection.
      rewrite first_joining_filter, set_connection_joining.
      by rewrite decide_True. }
    split; [done|]. by rewrite get_connection_sym.
  - intros -> Hnone. unfold FloorLayout.set_connection.
    rewrite decide_False by (intros Hn; by apply Hn).
    unfold FloorLayout.get_connection in Hnone.
    rewrite first_joining_filter in Hnone.
    rewrite filter_all; [by destruct fl|].
    apply Forall_forall. intros r Hr Hj.
    assert (Hin : r ∈ filter (FloorLayout.joins a b) (FloorLayout.connections fl))
      by (apply list_elem_of_filter; by split).
    destruct (filter _ _); [by apply not_elem_of_nil in Hin | done].
  - unfold FloorLayout.set_connection. by destruct (decide _).
Qed.

(** ** Dictionaries of rooms and floor layouts *)

Lemma room_from_dict_needs_keys (r : Room.t) (k : string) :
  Room.from_dict (Room.to_dict r) = Ok r /\
  (k ∈ room_keys ->
   Room.from_dict (without_key k (Room.to_dict r)) = Raise KeyError).
Proof.
  split; [apply room_from_to|].
  intros Hk. unfold room_keys in Hk.
  assert (Hrows : as_int_rows
            (JList ((fun row => JList (JInt <$> row)) <$> Room.interior r))
          = Ok (Room.interior r)) by apply as_int_rows_to.
  repeat (apply elem_of_cons in Hk as [->|Hk]);
    [..|by apply not_elem_of_nil in Hk];
    unfold Room.from_dict, Room.to_dict, without_key;
    cbn [filter list_filter fst snd];
    repeat (first [rewrite decide_True by discriminate
                  | rewrite decide_False by (intros Hn; by apply Hn)]);
    cbn [py_subscript dict_get String.eqb Ascii.eqb Bool.eqb mbind
         result_bind as_int as_dict];
    rewrite ?Hrows; reflexivity.
Qed.

(** X15. [Room.from_dict] reads back what [Room.to_dict] wrote, and needs
    every one of the six keys: with any of them deleted from the
    dictionary it raises [KeyError]. *)
Theorem room_dict_keys (r : Room.t) (k : string) :
  Room.from_dict (Room.to_dict r) = Ok r /\
  (k ∈ room_keys ->
   Room.from_dict (without_key k (Room.to_dict r)) = Raise KeyError).
Proof. apply room_from_dict_needs_keys. Qed.

Lemma room_dict_keys_witness :
  Room.from_dict (without_key "theme" (Room.to_dict sample_room))
    = Raise KeyError.
Proof.
  apply (room_dict_keys sample_room "theme").
  unfold room_keys. repeat first [apply list_elem_of_here | apply list_elem_of_further].
Defined.



(** ** Loading documents that [to_json] did not write *)

Section documents.

Lemma loads_dumps (indent : option nat) (v : json) :
  json_wf v -> Json.loads (Json.dumps indent v +:+ Level.nl) = Ok v.
Proof.
  intros Hwf. apply loads_tokens; [|done].
  unfold Json.tokenize, Json.dumps.
  rewrite scan_dumps_at by reflexivity.
  cbn [Json.scan Level.nl Json.str1]. cbn. by rewrite app_nil_r, rev_involutive.
Qed.

Lemma json_wf_without_key (k : string) (v : json) :
  json_wf v -> json_wf (without_key k v).
Proof.
  destruct v as [| | | | |d]; try done. unfold without_key.
  rewrite !json_wf_dict. intros [Hnd Hall]. split.
  - induction d as [|[k' v'] d IH]; [done|].
    simpl in Hnd. apply NoDup_cons in Hnd as [Hnotin Hnd].
    apply Forall_cons in Hall as [_ Hall].
    rewrite filter_cons. destruct (decide _); [|by apply IH].
    simpl. apply NoDup_cons. split; [|by apply IH].
    intros Hin. apply Hnotin.
    apply list_elem_of_fmap in Hin as (kv & Heq & Hkv).
    apply list_elem_of_filter in Hkv as [_ Hkv].
    simpl in Heq. rewrite Heq. by apply list_elem_of_fmap_2.
  - apply Forall_forall. intros kv Hkv.
    apply list_elem_of_filter in Hkv as [_ Hkv].
    by apply (proj1 (Forall_forall _ _) Hall).
Qed.

End documents.

(** X17. [from_json] does not depend on the layout of the text: it reads
    the document of a level back from the output of [json.dumps] with any
    indentation.  Each of the four top-level keys is optional: without
    it the field takes its default (the standard tile types, or an empty
    list), so the empty object loads as [Level()].  A document whose top
    level is a list raises [AttributeError], and a room that lacks one of
    its six keys makes the whole load fail with [KeyError]. *)
Theorem from_json_documents (l : Level.t) (indent : option nat) :
  level_wf l ->
  Level.from_json (Json.dumps indent (level_document l) +:+ Level.nl) = Ok l /\
  (forall k, k ∈ level_keys ->
     Level.from_json
       (Json.dumps indent (without_key k (level_document l)) +:+ Level.nl)
     = Ok (without_field k l)) /\
  Level.from_json (Json.dumps indent (JDict []) +:+ Level.nl) = Ok Level.init /\
  (forall vs, json_wf (JList vs) ->
     Level.from_json (Json.dumps indent (JList vs) +:+ Level.nl)
     = Raise AttributeError) /\
  (forall r k, room_wf r -> k ∈ room_keys ->
     Level.from_json
       (Json.dumps indent
          (JDict [("rooms"%string, JList [without_key k (Room.to_dict r)])])
        +:+ Level.nl)
     = Raise KeyError).
Proof.
  intros Hwf. pose proof (json_wf_level l Hwf) as Hdoc.
  destruct Hwf as (Htt & Hrooms & Hfloors).
  assert (Hfl : map_result FloorLayout.from_dict
                  (FloorLayout.to_dict <$> Level.floor_layouts l)
                = Ok (Level.floor_layouts l)).
  { apply map_result_fmap_in. intros fl Hfl. apply floor_layout_from_to.
    by apply (proj1 (Forall_forall _ _) Hfloors). }
  pose proof (map_result_fmap _ _ (Level.rooms l) room_from_to) as Hrs.
  pose proof (map_result_fmap _ _ (Level.layout l) layout_entry_from_to) as Hls.
  split; [|split; [|split; [|split]]].
  - unfold Level.from_json. rewrite loads_dumps by done.
    unfold level_document.
    cbn [py_get dict_get String.eqb Ascii.eqb Bool.eqb mbind result_bind
         as_dict py_iter].
    rewrite Hrs. cbn [mbind result_bind].
    rewrite Hls. cbn [mbind result_bind].
    rewrite Hfl. by destruct l.
  - intros k Hk. unfold Level.from_json.
    rewrite loads_dumps by by apply json_wf_without_key.
    unfold level_keys in Hk.
    repeat (apply elem_of_cons in Hk as [->|Hk]);
      [..|by apply not_elem_of_nil in Hk];
      unfold level_document, without_key;
      cbn [filter list_filter fst snd];
      repeat (first [rewrite decide_True by discriminate
                    | rewrite decide_False by (intros Hn; by apply Hn)]);
      cbn [py_get dict_get String.eqb Ascii.eqb Bool.eqb mbind result_bind
           as_dict py_iter map_result Level.init Level.tile_types Level.rooms
           Level.layout Level.floor_layouts app];
      rewrite ?Hrs; cbn [mbind result_bind map_result];
      rewrite ?Hls; cbn [mbind result_bind map_result];
      rewrite ?Hfl; reflexivity.
  - unfold Level.from_json. rewrite loads_dumps by (apply json_wf_dict; by split; constructor).
    reflexivity.
  - intros vs Hvs. unfold Level.from_json. rewrite loads_dumps by done.
    reflexivity.
  - intros r k Hr Hk. unfold Level.from_json.
    rewrite loads_dumps.
    2:{ apply json_wf_dict. split; [nodup_keys|].
        apply Forall_singleton. simpl. split; [|done].
        apply (json_wf_without_key k (Room.to_dict r)). by apply json_wf_room. }
    cbn [py_get dict_get String.eqb Ascii.eqb Bool.eqb mbind result_bind
         as_dict py_iter map_result Level.init Level.tile_types].
    rewrite (proj2 (room_from_dict_needs_keys r k) Hk). reflexivity.
Qed.

Lemma from_json_documents_witness :
  Level.from_json (Json.dumps None (level_document codec_level) +:+ Level.nl)
    = Ok codec_level /\
  Level.from_json
    (Json.dumps (Some 2%nat) (without_key "rooms" (level_document codec_level))
     +:+ Level.nl)
    = Ok (without_field "rooms" codec_level).
Proof.
  destruct (from_json_documents codec_level None level_wf_codec_level)
    as (Hall & _).
  destruct (from_json_documents codec_level (Some 2%nat) level_wf_codec_level)
    as (_ & Hkey & _).
  split; [exact Hall|]. apply Hkey.
  repeat first [apply list_elem_of_here | apply list_elem_of_further].
Defined.

(** ** Names of tile types and door positions *)

(** [TileType.get_name] answers "Unknown" exactly for the ids that
    [get_all_types] does not list, and [DoorPosition.get_name] exactly
    for the strings that [get_all_positions] does not list; the listed
    values have pairwise distinct names. *)
Theorem names_of_constants (tile_id : Z) (position : string) :
  (TileType.get_name tile_id = "Unknown"%string <->
     tile_id ∉ TileType.get_all_types) /\
  (DoorPosition.get_name position = "Unknown"%string <->
     position ∉ DoorPosition.get_all_positions) /\
  NoDup (TileType.get_name <$> TileType.get_all_types) /\
  NoDup (DoorPosition.get_name <$> DoorPosition.get_all_positions).
Proof.
  split; [|split; [|split]].
  - unfold TileType.get_name, TileType.get_all_types.
    rewrite !not_elem_of_cons.
    repeat destruct (decide _); split; try done; try tauto.
    intros _. repeat split; try done. apply not_elem_of_nil.
  - unfold DoorPosition.get_name, DoorPosition.get_all_positions.
    rewrite !not_elem_of_cons.
    repeat destruct (decide _); split; try done; try tauto.
    intros _. repeat split; try done. apply not_elem_of_nil.
  - vm_compute. repeat (apply NoDup_cons; split;
      [rewrite ?elem_of_cons, elem_of_nil; intros H;
       repeat (destruct H as [H|H]; [discriminate H|]); exact H|]).
    apply NoDup_nil_2.
  - vm_compute. repeat (apply NoDup_cons; split;
      [rewrite ?elem_of_cons, elem_of_nil; intros H;
       repeat (destruct H as [H|H]; [discriminate H|]); exact H|]).
    apply NoDup_nil_2.
Qed.

(** ** UndoStack *)

Section undo_stack.
Context {A : Type}.
Implicit Types (s : UndoStack.t A) (l : list A).

Lemma py_getitem_last l (a : A) : py_getitem (l ++ [a]) (-1) = Ok a.
Proof.
  unfold py_getitem, len. rewrite length_app. simpl.
  replace (Z.of_nat (length l + 1)) with (Z.of_nat (length l) + 1) by lia.
  replace (Z.to_nat (-1 + (Z.of_nat (length l) + 1))) with (length l) by lia.
  pose proof (Nat2Z.is_nonneg (length l)) as Hn.
  replace ((0 <=? -1 + (Z.of_nat (length l) + 1)) &&
           (-1 + (Z.of_nat (length l) + 1) <? Z.of_nat (length l) + 1))
    with true by (generalize dependent (Z.of_nat (length l)); intros; lia).
  by rewrite list_lookup_middle.
Qed.

Lemma py_pop_last l (a : A) : py_pop (l ++ [a]) (-1) = Ok l.
Proof.
  unfold py_pop, len. rewrite length_app. simpl.
  replace (Z.of_nat (length l + 1)) with (Z.of_nat (length l) + 1) by lia.
  replace (Z.to_nat (-1 + (Z.of_nat (length l) + 1))) with (length l) by lia.
  pose proof (Nat2Z.is_nonneg (length l)) as Hn.
  replace ((0 <=? -1 + (Z.of_nat (length l) + 1)) &&
           (-1 + (Z.of_nat (length l) + 1) <? Z.of_nat (length l) + 1))
    with true by (generalize dependent (Z.of_nat (length l)); intros; lia).
  rewrite delete_middle. by rewrite app_nil_r.
Qed.

Lemma py_pop_first (a : A) l : py_pop (a :: l) 0 = Ok l.
Proof.
  unfold py_pop, len. simpl length.
  replace (0 <? 0) with false by lia.
  replace (0 <=? 0) with true by lia.
  replace (0 <? Z.of_nat (S (length l))) with true
    by (symmetry; apply Z.ltb_lt; lia).
  done.
Qed.

Lemma can_undo_snoc s :
  UndoStack.can_undo s = true ->
  exists l a, UndoStack.undo_stack s = l ++ [a].
Proof.
  unfold UndoStack.can_undo, len. intros Hc.
  destruct (UndoStack.undo_stack s) as [|x l] using rev_ind.
  - vm_compute in Hc. discriminate Hc.
  - by exists l, x.
Qed.

Lemma can_redo_snoc s :
  UndoStack.can_redo s = true ->
  exists l a, UndoStack.redo_stack s = l ++ [a].
Proof.
  unfold UndoStack.can_redo, len. intros Hc.
  destruct (UndoStack.redo_stack s) as [|x l] using rev_ind.
  - vm_compute in Hc. discriminate Hc.
  - by exists l, x.
Qed.

Lemma undo_snoc (m : Z) l (a : A) (redo : list A) :
  UndoStack.undo (UndoStack.mk m (l ++ [a]) redo)
    = Ok (Some a, UndoStack.mk m l (redo ++ [a])).
Proof.
  unfold UndoStack.undo, UndoStack.can_undo, len. simpl.
  rewrite length_app. simpl.
  replace (Z.of_nat (length l + 1) >? 0) with true
    by (symmetry; apply Z.gtb_lt; lia).
  rewrite py_getitem_last. simpl. rewrite py_pop_last. done.
Qed.

Lemma redo_snoc (m : Z) (undo : list A) l (a : A) :
  UndoStack.redo (UndoStack.mk m undo (l ++ [a]))
    = Ok (Some a, UndoStack.mk m (undo ++ [a]) l).
Proof.
  unfold UndoStack.redo, UndoStack.can_redo, len. simpl.
  rewrite length_app. simpl.
  replace (Z.of_nat (length l + 1) >? 0) with true
    by (symmetry; apply Z.gtb_lt; lia).
  rewrite py_getitem_last. simpl. rewrite py_pop_last. done.
Qed.

Lemma push_spec s (state : A) :
  UndoStack.push s state =
    Ok (UndoStack.mk (UndoStack.max_size s)
          (if len (UndoStack.undo_stack s) + 1 >? UndoStack.max_size s
           then drop 1 (UndoStack.undo_stack s ++ [state])
           else UndoStack.undo_stack s ++ [state])
          []).
Proof.
  unfold UndoStack.push, len. rewrite length_app. simpl.
  replace (Z.of_nat (length (UndoStack.undo_stack s) + 1))
    with (Z.of_nat (length (UndoStack.undo_stack s)) + 1) by lia.
  destruct (_ >? _); [|done].
  destruct (UndoStack.undo_stack s) as [|x l]; cbn [app].
  - by rewrite py_pop_first.
  - by rewrite py_pop_first.
Qed.

End undo_stack.

(** X18. [push] never raises, empties the redo stack and keeps the undo
    stack within [max_size]: on a stack that is full the oldest state is
    dropped, otherwise nothing is.  With room for at least one state the
    pushed state is the one [undo] hands back next. *)
Theorem undo_stack_push {A} (s : UndoStack.t A) (state : A) :
  0 <= UndoStack.max_size s ->
  len (UndoStack.undo_stack s) <= UndoStack.max_size s ->
  exists s', UndoStack.push s state = Ok s' /\
    UndoStack.max_size s' = UndoStack.max_size s /\
    UndoStack.redo_stack s' = [] /\
    len (UndoStack.undo_stack s') <= UndoStack.max_size s /\
    (len (UndoStack.undo_stack s) < UndoStack.max_size s ->
       UndoStack.undo_stack s' = UndoStack.undo_stack s ++ [state]) /\
    (len (UndoStack.undo_stack s) = UndoStack.max_size s ->
       UndoStack.undo_stack s' = drop 1 (UndoStack.undo_stack s ++ [state])) /\
    (1 <= UndoStack.max_size s ->
       exists s'', UndoStack.undo s' = Ok (Some state, s'') /\
                   UndoStack.redo_stack s'' = [state]).
Proof.
  intros Hmax Hlen. rewrite push_spec. eexists. split; [reflexivity|].
  simpl. split; [done|]. split; [done|].
  unfold len in *.
  destruct (_ >? _) eqn:Hfull; rewrite Z.gtb_ltb in Hfull;
    [apply Z.ltb_lt in Hfull | apply Z.ltb_ge in Hfull].
  - split; [|split; [|split]].
    + rewrite length_drop, length_app. simpl. lia.
    + lia.
    + done.
    + intros Hone.
      destruct (UndoStack.undo_stack s) as [|x l]; simpl in *; [lia|].
      rewrite drop_0, undo_snoc. eexists. by split.
  - split; [|split; [|split]].
    + rewrite length_app. simpl. lia.
    + done.
    + lia.
    + intros _. rewrite undo_snoc. eexists. by split.
Qed.

Lemma undo_stack_push_witness :
  exists s', UndoStack.push (UndoStack.mk 2 [7; 8] [9]) 5 = Ok s' /\
    UndoStack.undo_stack s' = [8; 5] /\ UndoStack.redo_stack s' = [].
Proof.
  destruct (undo_stack_push (UndoStack.mk 2 [7; 8] [9]) 5)
    as (s' & Hpush & _ & Hredo & _ & _ & Hfull & _).
  - simpl. lia.
  - vm_compute. discriminate.
  - exists s'. split; [exact Hpush|]. split; [|exact Hredo].
    apply Hfull. reflexivity.
Defined.

(** X19. [undo] and [redo] are inverse to each other: when a state can be
    undone, [undo] hands back the newest state and a following [redo]
    hands back the same state and restores both stacks, and likewise
    [redo] followed by [undo].  On an empty stack they return nothing and
    change nothing; neither ever raises or loses a state. *)
Theorem undo_redo_inverse {A} (s : UndoStack.t A) :
  (UndoStack.can_undo s = true ->
     exists state s', UndoStack.undo s = Ok (Some state, s') /\
       last (UndoStack.undo_stack s) = Some state /\
       UndoStack.redo s' = Ok (Some state, s)) /\
  (UndoStack.can_redo s = true ->
     exists state s', UndoStack.redo s = Ok (Some state, s') /\
       last (UndoStack.redo_stack s) = Some state /\
       UndoStack.undo s' = Ok (Some state, s)) /\
  (UndoStack.can_undo s = false -> UndoStack.undo s = Ok (None, s)) /\
  (UndoStack.can_redo s = false -> UndoStack.redo s = Ok (None, s)) /\
  (forall o s', UndoStack.undo s = Ok (o, s') \/ UndoStack.redo s = Ok (o, s') ->
     UndoStack.max_size s' = UndoStack.max_size s /\
     UndoStack.undo_stack s' ++ UndoStack.redo_stack s'
       ≡ₚ UndoStack.undo_stack s ++ UndoStack.redo_stack s).
Proof.
  split; [|split; [|split; [|split]]].
  - intros Hc. destruct (can_undo_snoc s Hc) as (l & a & Hl).
    destruct s as [m u r]. simpl in Hl. subst u.
    exists a. eexists. rewrite undo_snoc. split; [done|].
    split; [apply last_snoc|]. by rewrite redo_snoc.
  - intros Hc. destruct (can_redo_snoc s Hc) as (l & a & Hl).
    destruct s as [m u r]. simpl in Hl. subst r.
    exists a. eexists. rewrite redo_snoc. split; [done|].
    split; [apply last_snoc|]. by rewrite undo_snoc.
  - intros Hc. unfold UndoStack.undo. by rewrite Hc.
  - intros Hc. unfold UndoStack.redo. by rewrite Hc.
  - intros o s' [Hu|Hr].
    + destruct (UndoStack.can_undo s) eqn:Hc.
      * destruct (can_undo_snoc s Hc) as (l & a & Hl).
        destruct s as [m u r]. simpl in Hl. subst u.
        rewrite undo_snoc in Hu. injection Hu as <- <-. simpl.
        split; [done|]. rewrite <- !app_assoc. apply Permutation_app_head.
        apply Permutation_app_comm.
      * unfold UndoStack.undo in Hu. rewrite Hc in Hu. by injection Hu as <- <-.
    + destruct (UndoStack.can_redo s) eqn:Hc.
      * destruct (can_redo_snoc s Hc) as (l & a & Hl).
        destruct s as [m u r]. simpl in Hl. subst r.
        rewrite redo_snoc in Hr. injection Hr as <- <-. simpl.
        split; [done|]. rewrite <- !app_assoc. apply Permutation_app_head.
        apply Permutation_app_comm.
      * unfold UndoStack.redo in Hr. rewrite Hc in Hr. by injection Hr as <- <-.
Qed.

(** ** RoomEditorTab *)

Section editor_undo.

Lemma push_top {A} (s : UndoStack.t A) (a : A) :
  1 <= UndoStack.max_size s ->
  exists l, UndoStack.push s a = Ok (UndoStack.mk (UndoStack.max_size s) (l ++ [a]) []) /\
    (2 <= UndoStack.max_size s ->
     forall l0 x, UndoStack.undo_stack s = l0 ++ [x] -> exists l1, l = l1 ++ [x]).
Proof.
  intros Hmax. rewrite push_spec. unfold len.
  destruct (_ >? _) eqn:Hfull; rewrite Z.gtb_ltb in Hfull;
    [apply Z.ltb_lt in Hfull | apply Z.ltb_ge in Hfull].
  - destruct (UndoStack.undo_stack s) as [|y l]; simpl in *; [lia|].
    exists l. rewrite drop_0. split; [done|].
    intros Hmax2 l0 x Heq. destruct l0 as [|z l0]; simpl in Heq.
    + injection Heq as -> ->. simpl in Hfull. lia.
    + injection Heq as -> ->. by eexists.
  - exists (UndoStack.undo_stack s). split; [done|].
    intros _ l0 x ->. by eexists.
Qed.

Lemma restore_nonempty (r : Room.t) (i : list (list Z)) :
  i <> [] -> RoomEditorTab.restore r (Some i) = Room.set_interior r i.
Proof. by destruct i. Qed.

Lemma restore_same (r : Room.t) :
  RoomEditorTab.restore r (Some (Room.interior r)) = r.
Proof.
  unfold RoomEditorTab.restore. destruct (Room.interior r) eqn:Hi; [done|].
  destruct r. simpl in *. by rewrite Hi.
Qed.

End editor_undo.

(** X20. What the editor saves for undo is the interior after the change:
    [on_tile_changed] pushes the room as it is now, so the first [undo]
    after a recorded edit hands that same interior back and the room
    stays as edited; a second [undo] shows the interior recorded by the
    edit before.  (The interiors have at least one row; an interior of
    no rows counts as no state and is never restored.) *)
Theorem undo_after_edit (first second : Room.t)
    (stack : UndoStack.t (list (list Z))) :
  2 <= UndoStack.max_size stack ->
  Room.interior first <> [] -> Room.interior second <> [] ->
  exists stack1 stack2 stack3 stack4,
    RoomEditorTab.on_tile_changed (Some first) stack = Ok stack1 /\
    RoomEditorTab.on_tile_changed (Some second) stack1 = Ok stack2 /\
    RoomEditorTab.undo (Some second) stack2 = Ok (Some second, stack3) /\
    RoomEditorTab.undo (Some second) stack3
      = Ok (Some (Room.set_interior second (Room.interior first)), stack4) /\
    UndoStack.redo_stack stack4 = [Room.interior second; Room.interior first].
Proof.
  intros Hmax Hfirst Hsecond. unfold RoomEditorTab.on_tile_changed.
  destruct (push_top stack (Room.interior first)) as (l1 & Hp1 & _); [lia|].
  destruct (push_top (UndoStack.mk (UndoStack.max_size stack)
                        (l1 ++ [Room.interior first]) [])
              (Room.interior second)) as (l2 & Hp2 & Hl2); [simpl; lia|].
  destruct (Hl2 Hmax l1 (Room.interior first) eq_refl) as (l3 & ->).
  simpl in Hp2. do 4 eexists. split; [exact Hp1|]. split; [exact Hp2|].
  unfold RoomEditorTab.undo.
  assert (Hcan : forall (m : Z) (l r : list (list (list Z))) a,
            UndoStack.can_undo (UndoStack.mk m (l ++ [a]) r) = true).
  { intros m l r a. unfold UndoStack.can_undo, len. simpl.
    rewrite length_app. simpl. apply Z.gtb_lt. lia. }
  rewrite Hcan, undo_snoc. cbn [mbind result_bind].
  rewrite restore_same. split; [reflexivity|].
  rewrite Hcan, undo_snoc. cbn [mbind result_bind].
  rewrite restore_nonempty by done. split; reflexivity.
Qed.

Lemma undo_after_edit_witness :
  exists stack1 stack2 stack3 stack4,
    RoomEditorTab.on_tile_changed (Some (Room.init 1 3 3)) (UndoStack.init 100)
      = Ok stack1 /\
    RoomEditorTab.on_tile_changed (Some sample_room) stack1 = Ok stack2 /\
    RoomEditorTab.undo (Some sample_room) stack2 = Ok (Some sample_room, stack3) /\
    RoomEditorTab.undo (Some sample_room) stack3
      = Ok (Some (Room.set_interior sample_room [[0]]), stack4).
Proof.
  destruct (undo_after_edit (Room.init 1 3 3) sample_room (UndoStack.init 100))
    as (s1 & s2 & s3 & s4 & H1 & H2 & H3 & H4 & _).
  - simpl. lia.
  - discriminate.
  - discriminate.
  - exists s1, s2, s3, s4. repeat split; assumption.
Defined.

Section new_rooms.
Import Level.

Lemma next_id_free (l : t) : has_room l (get_next_room_id l) = false.
Proof.
  apply has_room_false. intros r Hr.
  pose proof (get_next_room_id_exceeds l r Hr). lia.
Qed.

Lemma add_room_next (l : t) (room : Room.t) :
  Room.id room = get_next_room_id l ->
  add_room l room
    = (true, mk (tile_types l) (rooms l ++ [room]) (layout l) (floor_layouts l)) /\
  get_next_room_id (add_room l room).2 = get_next_room_id l + 1.
Proof.
  intros Hid. unfold add_room. rewrite Hid, next_id_free. split; [done|].
  simpl. apply get_next_room_id_max. simpl. split.
  - exists room. split; [|done]. apply elem_of_app. right. by apply list_elem_of_singleton.
  - intros r Hr. apply elem_of_app in Hr as [Hr|Hr].
    + pose proof (get_next_room_id_exceeds l r Hr). lia.
    + apply list_elem_of_singleton in Hr as ->. lia.
Qed.

End new_rooms.

(** X21. "New Room" and "Duplicate" always add a room: the id they take from
    [get_next_room_id] is held by no room, so [add_room] never refuses
    it.  The new room is appended (an empty 64 x 36 room, or a copy of
    the current room that differs from it in the id alone), the next id
    goes up by one, distinct ids stay distinct, and the layout and the
    floor layouts are not touched.  Without a current room "Duplicate"
    does nothing. *)
Theorem new_room_is_added (l : Level.t) (current : Room.t) :
  let next := Level.get_next_room_id l in
  let copy := Room.mk next (Room.width current) (Room.height current)
                (Room.interior current) (Room.exits current)
                (Room.theme current) in
  RoomEditorTab.create_new_room l
    = Level.mk (Level.tile_types l) (Level.rooms l ++ [Room.init next 64 36])
               (Level.layout l) (Level.floor_layouts l) /\
  RoomEditorTab.duplicate_room l (Some current)
    = Level.mk (Level.tile_types l) (Level.rooms l ++ [copy])
               (Level.layout l) (Level.floor_layouts l) /\
  RoomEditorTab.duplicate_room l None = l /\
  Level.get_next_room_id (RoomEditorTab.create_new_room l) = next + 1 /\
  Level.get_next_room_id (RoomEditorTab.duplicate_room l (Some current))
    = next + 1 /\
  (unique_ids l ->
     unique_ids (RoomEditorTab.create_new_room l) /\
     unique_ids (RoomEditorTab.duplicate_room l (Some current))).
Proof.
  intros next copy.
  destruct (add_room_next l (Room.init next 64 36) eq_refl) as [Hnew Hnext].
  destruct (add_room_next l copy eq_refl) as [Hdup Hnext'].
  assert (Hc : RoomEditorTab.create_new_room l
               = (Level.add_room l (Room.init next 64 36)).2).
  { unfold RoomEditorTab.create_new_room. fold next. by rewrite Hnew. }
  assert (Hd : RoomEditorTab.duplicate_room l (Some current)
               = (Level.add_room l copy).2).
  { unfold RoomEditorTab.duplicate_room, Room.clone. simpl. fold next.
    fold copy. by rewrite Hdup. }
  rewrite Hc, Hd. split; [by rewrite Hnew|]. split; [by rewrite Hdup|].
  split; [done|]. split; [done|]. split; [done|].
  intros Hu. split; by apply add_room_fresh_id_unique.
Qed.

Section rename.
Import Level.

Lemma enumerate_elem {A} (l : list A) (z : Z) (a : A) :
  (z, a) ∈ enumerate l <-> exists i : nat, z = Z.of_nat i /\ l !! i = Some a.
Proof.
  unfold enumerate. rewrite elem_of_lookup_imap. split.
  - intros (i & x & [= -> ->] & Hx). by exists i.
  - intros (i & -> & Hx). by exists i, a.
Qed.

Lemma id_taken_by_other_spec (l : t) (current : nat) (new_id : Z) :
  RoomEditorTab.id_taken_by_other l current new_id = true <->
  exists (j : nat) r', j <> current /\ rooms l !! j = Some r' /\
                       Room.id r' = new_id.
Proof.
  unfold RoomEditorTab.id_taken_by_other. rewrite existsb_exists. split.
  - intros ([z r'] & Hin & Hb). apply list_elem_of_In, enumerate_elem in Hin
      as (j & -> & Hj).
    apply andb_prop in Hb as [Hid Hne]. simpl in *.
    apply bool_decide_eq_true in Hid. apply negb_true_iff in Hne.
    apply bool_decide_eq_false in Hne.
    exists j, r'. split; [|done]. intros ->. by apply Hne.
  - intros (j & r' & Hne & Hj & Hid). exists (Z.of_nat j, r'). split.
    + apply list_elem_of_In, enumerate_elem. by exists j.
    + simpl. apply andb_true_intro. split; [by apply bool_decide_eq_true|].
      apply negb_true_iff, bool_decide_eq_false. lia.
Qed.

Lemma NoDup_insert_fresh {B} (l : list B) (i : nat) (x : B) :
  NoDup l -> (forall j, j <> i -> l !! j <> Some x) -> NoDup (<[i := x]> l).
Proof.
  intros Hnd Hfresh. apply NoDup_alt. intros j k y Hj Hk.
  destruct (decide (i < length l)%nat) as [Hi|Hi].
  2:{ rewrite list_insert_ge in Hj, Hk by lia.
      by eapply (proj1 (NoDup_alt l) Hnd). }
  destruct (decide (j = i)) as [->|Hji], (decide (k = i)) as [->|Hki].
  - done.
  - rewrite list_lookup_insert_eq in Hj by done. injection Hj as <-.
    rewrite list_lookup_insert_ne in Hk by done. by destruct (Hfresh k Hki).
  - rewrite list_lookup_insert_eq in Hk by done. injection Hk as <-.
    rewrite list_lookup_insert_ne in Hj by done. by destruct (Hfresh j Hji).
  - rewrite list_lookup_insert_ne in Hj, Hk by done.
    by eapply (proj1 (NoDup_alt l) Hnd).
Qed.

End rename.

Lemma on_room_id_changed_unique (l : Level.t) (current : option nat)
    (new_id : Z) :
  unique_ids l ->
  unique_ids (RoomEditorTab.on_room_id_changed l current new_id).
Proof.
  intros Hnd. unfold RoomEditorTab.on_room_id_changed.
  destruct current as [current|]; [|done].
  destruct (Level.rooms l !! current) as [r|] eqn:Hcur; [|done].
  destruct (RoomEditorTab.id_taken_by_other l current new_id) eqn:Htaken;
    [done|].
  unfold unique_ids. simpl. rewrite list_fmap_insert.
  apply NoDup_insert_fresh; [done|].
  intros j Hne Hj. rewrite list_lookup_fmap in Hj.
  destruct (Level.rooms l !! j) as [r'|] eqn:Hr'; [|done].
  injection Hj as Hid. apply not_true_iff_false in Htaken. apply Htaken.
  apply id_taken_by_other_spec. by exists j, r'.
Qed.

(** X22. Changing the id of the current room is refused when another room
    holds the new id and otherwise renames that room alone, so distinct
    ids stay distinct.  The layout is not touched: an entry that named
    the room still carries the old id, which no room holds any more, and
    [validate] then reports a layout entry without a room. *)
Theorem room_id_change (l : Level.t) (current : nat) (r : Room.t) (new_id : Z) :
  Level.rooms l !! current = Some r ->
  let l' := RoomEditorTab.on_room_id_changed l (Some current) new_id in
  let renamed := Room.mk new_id (Room.width r) (Room.height r)
                   (Room.interior r) (Room.exits r) (Room.theme r) in
  ((exists (j : nat) r', j <> current /\ Level.rooms l !! j = Some r' /\
                         Room.id r' = new_id) -> l' = l) /\
  ((forall (j : nat) r', j <> current -> Level.rooms l !! j = Some r' ->
                         Room.id r' <> new_id) ->
     Level.rooms l' = <[current := renamed]> (Level.rooms l)) /\
  (unique_ids l -> unique_ids l') /\
  Level.layout l' = Level.layout l /\
  Level.floor_layouts l' = Level.floor_layouts l /\
  (unique_ids l -> new_id <> Room.id r ->
   (forall (j : nat) r', j <> current -> Level.rooms l !! j = Some r' ->
                         Room.id r' <> new_id) ->
   (exists le, le ∈ Level.layout l /\ LayoutEntry.room_id le = Room.id r) ->
   Level.check_layout_refs l' <> []).
Proof.
  intros Hcur l' renamed. subst l'. unfold RoomEditorTab.on_room_id_changed.
  rewrite Hcur. fold renamed.
  destruct (RoomEditorTab.id_taken_by_other l current new_id) eqn:Htaken.
  { apply id_taken_by_other_spec in Htaken as (j & r' & Hne & Hj & Hid).
    split; [done|]. split; [|split; [|split; [|split]]]; try done.
    - intros Hfree. by destruct (Hfree j r' Hne Hj).
    - intros _ _ Hfree. by destruct (Hfree j r' Hne Hj). }
  assert (Hfree : forall (j : nat) r', j <> current ->
            Level.rooms l !! j = Some r' -> Room.id r' <> new_id).
  { intros j r' Hne Hj Hid. apply not_true_iff_false in Htaken. apply Htaken.
    apply id_taken_by_other_spec. by exists j, r'. }
  assert (Hu : unique_ids l ->
            NoDup (Room.id <$> <[current := renamed]> (Level.rooms l))).
  { intros Hnd. rewrite list_fmap_insert. apply NoDup_insert_fresh; [done|].
    intros j Hne Hj. rewrite list_lookup_fmap in Hj.
    destruct (Level.rooms l !! j) as [r'|] eqn:Hr'; [|done].
    injection Hj as Hid. by apply (Hfree j r' Hne Hr'). }
  split; [|split; [|split; [|split; [|split]]]]; try done.
  - intros (j & r' & Hne & Hj & Hid). by destruct (Hfree j r' Hne Hj).
  - intros Hnd Hnew _ (le & Hle & Hid). rewrite check_layout_refs_nil.
    unfold layout_linked. simpl. intros Hall.
    destruct (proj1 (Forall_forall _ _) Hall le Hle) as (r' & Hr' & Hid').
    apply list_elem_of_lookup in Hr' as [j Hj].
    destruct (decide (j = current)) as [->|Hne].
    + rewrite list_lookup_insert_eq in Hj by (by eapply lookup_lt_Some).
      injection Hj as <-. simpl in Hid'. congruence.
    + rewrite list_lookup_insert_ne in Hj by done.
      assert (Heq : j = current).
      { apply (proj1 (NoDup_alt _) Hnd j current (Room.id r)).
        - rewrite list_lookup_fmap, Hj. simpl. congruence.
        - by rewrite list_lookup_fmap, Hcur. }
      done.
Qed.

Lemma room_id_change_witness :
  Level.rooms (RoomEditorTab.on_room_id_changed sample_layout_level (Some 0%nat) 2)
    = Level.rooms sample_layout_level /\
  Level.check_layout_refs
    (RoomEditorTab.on_room_id_changed sample_layout_level (Some 0%nat) 5) <> [].
Proof.
  assert (Hcur : Level.rooms sample_layout_level !! 0%nat = Some (Room.init 1 4 4))
    by reflexivity.
  destruct (room_id_change sample_layout_level 0 (Room.init 1 4 4) 2 Hcur)
    as (Hrefused & _).
  destruct (room_id_change sample_layout_level 0 (Room.init 1 4 4) 5 Hcur)
    as (_ & _ & _ & _ & _ & Hdangling).
  split.
  - rewrite Hrefused; [reflexivity|].
    exists 1%nat, (Room.init 2 4 4). split; [discriminate|]. split; reflexivity.
  - apply Hdangling.
    + repeat constructor; rewrite ?elem_of_cons, ?elem_of_nil; intros H;
        repeat (destruct H as [H|H]; try discriminate H); exact H.
    + discriminate.
    + intros [|[|j]] r' Hne Hj; [done| |done].
      injection Hj as <-. discriminate.
    + exists (LayoutEntry.mk 1 0). split; [|reflexivity].
      apply list_elem_of_here.
Defined.

Section exits.

Lemma dict_get_dict_set (d : dict) (k k' : string) (v : json) :
  dict_get (Json.dict_set d k v) k' =
    if decide (k' = k) then Some v else dict_get d k'.
Proof.
  induction d as [|[k0 v0] d IH]; simpl.
  - destruct (decide (k' = k)) as [->|Hne].
    + by rewrite String.eqb_refl.
    + destruct (String.eqb_spec k k'); [congruence | done].
  - destruct (String.eqb_spec k0 k) as [->|Hk0]; simpl.
    + destruct (String.eqb_spec k k') as [->|Hkk'].
      * by rewrite decide_True.
      * rewrite decide_False by congruence. done.
    + destruct (String.eqb_spec k0 k') as [->|Hk0'].
      * by rewrite decide_False.
      * apply IH.
Qed.

Lemma dict_wf_dict_set (d : dict) (k : string) (v : json) :
  dict_wf d -> json_wf v -> dict_wf (Json.dict_set d k v).
Proof.
  unfold dict_wf. rewrite !json_wf_dict. intros [Hnd Hall] Hv. split.
  - rewrite dict_set_keys. destruct (bool_decide _) eqn:Hin; [done|].
    apply bool_decide_eq_false in Hin.
    apply NoDup_app. split; [done|]. split; [|apply NoDup_singleton].
    intros x Hx Hx'. apply list_elem_of_singleton in Hx' as ->. done.
  - clear Hnd. induction d as [|[k0 v0] d IH]; simpl.
    + by apply Forall_singleton.
    + apply Forall_cons in Hall as [Hv0 Hall].
      destruct (String.eqb k0 k); apply Forall_cons; split; try done.
      by apply IH.
Qed.

End exits.

(** X23. The two exit combo boxes and the room agree: after
    [on_exits_changed] the exits hold a doorway exactly where the index
    was 1, so [load_room_properties] shows index 1 there and 0 elsewhere.
    Entries of [exits] under other keys, the tiles and the theme are
    kept, and a dictionary with distinct keys stays one. *)
Theorem exits_change_round_trip (r : Room.t) (left_index right_index : Z) :
  exists r',
    RoomEditorTab.on_exits_changed (Some r) left_index right_index = Some r' /\
    RoomEditorTab.load_room_properties_exits r'
      = (if decide (left_index = 1) then 1 else 0,
         if decide (right_index = 1) then 1 else 0) /\
    (forall k, k <> "left"%string -> k <> "right"%string ->
       dict_get (Room.exits r') k = dict_get (Room.exits r) k) /\
    (room_wf r -> room_wf r') /\
    Room.id r' = Room.id r /\ Room.width r' = Room.width r /\
    Room.height r' = Room.height r /\ Room.interior r' = Room.interior r /\
    Room.theme r' = Room.theme r.
Proof.
  eexists. split; [reflexivity|]. simpl.
  split; [|split; [|split; [|done]]].
  - unfold RoomEditorTab.load_room_properties_exits, RoomEditorTab.exit_index,
      py_dict_get. simpl.
    rewrite !dict_get_dict_set.
    rewrite (decide_False (P := "left"%string = "right"%string)) by discriminate.
    rewrite !decide_True by done.
    unfold RoomEditorTab.exit_value.
    by destruct (decide (left_index = 1)), (decide (right_index = 1)).
  - intros k Hl Hr. rewrite !dict_get_dict_set.
    by rewrite !decide_False.
  - intros [He Ht]. split; [|done]. simpl.
    assert (Hv : forall i, json_wf (RoomEditorTab.exit_value i)).
    { intros i. unfold RoomEditorTab.exit_value. destruct (decide _); [|done].
      apply json_wf_dict. split; [nodup_keys | by repeat constructor]. }
    by repeat apply dict_wf_dict_set.
Qed.

(** ** LevelEditor: statistics *)

Section statistics.
Import LevelEditor.

Lemma bump_keys (f : Z -> Z) (counts : list (Z * Z)) :
  fst <$> bump f counts = fst <$> counts.
Proof.
  unfold bump. rewrite <- list_fmap_compose. by apply list_fmap_ext.
Qed.

Lemma bump_bump (f g : Z -> Z) (counts : list (Z * Z)) :
  bump g (bump f counts) = bump (fun t => f t + g t) counts.
Proof.
  unfold bump. rewrite <- list_fmap_compose. apply list_fmap_ext.
  intros i [t n] _. simpl. f_equal. lia.
Qed.

Lemma bump_zero (counts : list (Z * Z)) : bump (fun _ => 0) counts = counts.
Proof.
  unfold bump. rewrite <- (list_fmap_id counts) at 2. apply list_fmap_ext.
  intros i [t n] _. simpl. f_equal. lia.
Qed.

Lemma bump_ext (f g : Z -> Z) (counts : list (Z * Z)) :
  (forall t, f t = g t) -> bump f counts = bump g counts.
Proof.
  intros Hfg. unfold bump. apply list_fmap_ext. intros i [t n] _. simpl.
  by rewrite Hfg.
Qed.

Lemma occurrences_one (t tile : Z) :
  occurrences t [tile] = if decide (tile = t) then 1 else 0.
Proof.
  unfold occurrences. rewrite filter_cons. by destruct (decide (tile = t)).
Qed.

Lemma occurrences_app (t : Z) (l1 l2 : list Z) :
  occurrences t (l1 ++ l2) = occurrences t l1 + occurrences t l2.
Proof. unfold occurrences, len. rewrite filter_app, length_app. lia. Qed.

Lemma count_tile_spec (counts : list (Z * Z)) (tile : Z) :
  NoDup (fst <$> counts) ->
  count_tile counts tile = bump (fun t => occurrences t [tile]) counts.
Proof.
  induction counts as [|[t n] counts IH]; [done|]. simpl. intros Hnd.
  apply NoDup_cons in Hnd as [Hnotin Hnd].
  rewrite occurrences_one.
  destruct (decide (t = tile)) as [->|Hne].
  - rewrite decide_True by done. f_equal.
    rewrite <- (list_fmap_id counts) at 1. apply Forall_fmap_ext, Forall_forall.
    intros [t' n'] Hin. simpl. rewrite occurrences_one.
    rewrite decide_False; [f_equal; lia|].
    intros <-. apply Hnotin. by apply (list_elem_of_fmap_2 fst) in Hin.
  - rewrite decide_False by congruence. f_equal; [f_equal; lia|].
    by apply IH.
Qed.

Lemma count_row_spec (counts : list (Z * Z)) (row : list Z) :
  NoDup (fst <$> counts) ->
  foldl count_tile counts row = bump (fun t => occurrences t row) counts.
Proof.
  revert counts. induction row as [|tile row IH]; intros counts Hnd; simpl.
  - symmetry. apply bump_zero.
  - rewrite count_tile_spec by done.
    rewrite IH by (by rewrite bump_keys).
    rewrite bump_bump. apply bump_ext. intros t.
    by rewrite <- occurrences_app.
Qed.

Lemma count_rows_spec (counts : list (Z * Z)) (rows : list (list Z)) :
  NoDup (fst <$> counts) ->
  foldl (fun counts row => foldl count_tile counts row) counts rows
    = bump (fun t => occurrences t (concat rows)) counts.
Proof.
  revert counts. induction rows as [|row rows IH]; intros counts Hnd; simpl.
  - symmetry. apply bump_zero.
  - rewrite count_row_spec by done.
    rewrite IH by (by rewrite bump_keys).
    rewrite bump_bump. apply bump_ext. intros t.
    by rewrite <- occurrences_app.
Qed.

Lemma count_rooms_spec (counts : list (Z * Z)) (rs : list Room.t) :
  NoDup (fst <$> counts) ->
  foldl (fun counts room =>
           foldl (fun counts row => foldl count_tile counts row)
                 counts (Room.interior room))
        counts rs
    = bump (fun t => occurrences t
                       (flat_map (fun r => concat (Room.interior r)) rs))
           counts.
Proof.
  revert counts. induction rs as [|r rs IH]; intros counts Hnd; simpl.
  - symmetry. apply bump_zero.
  - rewrite count_rows_spec by done.
    rewrite IH by (by rewrite bump_keys).
    rewrite bump_bump. apply bump_ext. intros t.
    by rewrite <- occurrences_app.
Qed.

End statistics.

(** X24. The statistics count, for each of the five tile types, how often it
    occurs in the interiors of all rooms; tiles of any other value are
    not counted.  The number shown for Spawn is the one [validate]
    compares with 1. *)
Theorem statistics_tile_counts (l : Level.t) :
  LevelEditor.tile_counts l
    = (fun t => (t, occurrences t (all_tiles l))) <$> TileType.get_all_types /\
  (TileType.SPAWN, spawn_total l) ∈ LevelEditor.tile_counts l /\
  ("  Spawn: " ++ py_str (spawn_total l))%string ∈ LevelEditor.show_statistics l /\
  ("Total Rooms: " ++ py_str (len (Level.rooms l)))%string
    ∈ LevelEditor.show_statistics l /\
  foldr Z.add 0 (snd <$> LevelEditor.tile_counts l)
    = len (filter (fun x => x ∈ TileType.get_all_types) (all_tiles l)).
Proof.
  assert (Hcounts : LevelEditor.tile_counts l
            = (fun t => (t, occurrences t (all_tiles l)))
                <$> TileType.get_all_types).
  { unfold LevelEditor.tile_counts. rewrite count_rooms_spec.
    - unfold bump. rewrite <- list_fmap_compose. by apply list_fmap_ext.
    - rewrite <- list_fmap_compose. simpl.
      repeat (apply NoDup_cons; split;
        [rewrite ?elem_of_cons, elem_of_nil; intros H;
         repeat (destruct H as [H|H]; [discriminate H|]); exact H|]).
      apply NoDup_nil_2. }
  assert (Hspawn : (TileType.SPAWN, spawn_total l) ∈ LevelEditor.tile_counts l).
  { rewrite Hcounts. apply list_elem_of_fmap. exists TileType.SPAWN.
    split; [done|].
    repeat first [apply list_elem_of_here | apply list_elem_of_further]. }
  split; [done|]. split; [done|]. split; [|split].
  - unfold LevelEditor.show_statistics. apply elem_of_app. right.
    apply list_elem_of_fmap. exists (TileType.SPAWN, spawn_total l).
    split; [done|done].
  - unfold LevelEditor.show_statistics. apply elem_of_app. left.
    apply list_elem_of_here.
  - rewrite Hcounts. rewrite <- list_fmap_compose. simpl.
    unfold occurrences, len. clear Hcounts Hspawn.
    generalize (all_tiles l). intros tiles.
    induction tiles as [|x tiles IH]; [done|].
    rewrite !filter_cons.
    destruct (decide (x ∈ TileType.get_all_types)) as [Hin|Hout].
    + simpl length. rewrite Nat2Z.inj_succ, <- IH.
      unfold TileType.get_all_types, TileType.EMPTY, TileType.BLOCK,
        TileType.PLATFORM, TileType.SPAWN, TileType.SEARCHABLE in *.
      repeat (apply elem_of_cons in Hin as [->|Hin]);
        [..|by apply not_elem_of_nil in Hin];
        repeat case_decide; try lia; cbn [length]; lia.
    + rewrite <- IH.
      unfold TileType.get_all_types in Hout.
      rewrite !not_elem_of_cons in Hout.
      destruct Hout as (H0 & H1 & H2 & H8 & H9 & _).
      rewrite !decide_False by done. done.
Qed.

(** ** TileCanvas *)

Section canvas.

Lemma for_each_fmap {S} (f : Z -> Z) (xs : list Z) (body : Z -> S -> result S)
    (s : S) :
  for_each (f <$> xs) body s = for_each xs (fun x => body (f x)) s.
Proof.
  revert s. induction xs as [|x xs IH]; intros s; simpl; [done|].
  destruct (body (f x) s); simpl; [apply IH | done].
Qed.

Lemma for_each_ext_inv {S} (P : S -> Prop) (xs : list Z)
    (body1 body2 : Z -> S -> result S) (s : S) :
  P s ->
  (forall x s, P s -> body1 x s = body2 x s) ->
  (forall x s s', P s -> body2 x s = Ok s' -> P s') ->
  for_each xs body1 s = for_each xs body2 s.
Proof.
  intros Hs Hext Hinv. revert s Hs.
  induction xs as [|x xs IH]; intros s Hs; simpl; [done|].
  rewrite (Hext x s Hs). destruct (body2 x s) as [s'|e] eqn:Hb; simpl; [|done].
  apply IH. by eapply Hinv.
Qed.

Lemma same_frame_refl (r : Room.t) : same_frame r r.
Proof. by repeat split. Qed.

Lemma same_frame_trans (r1 r2 r3 : Room.t) :
  same_frame r1 r2 -> same_frame r2 r3 -> same_frame r1 r3.
Proof.
  unfold same_frame. intros (? & ? & ? & ? & ?) (? & ? & ? & ? & ?).
  repeat split; congruence.
Qed.

Lemma same_shape_refl (W : nat) (r : Room.t) :
  rectangular (Room.interior r) W -> same_shape W r r.
Proof. intros Hrect. split; [apply same_frame_refl|done]. Qed.

Lemma same_shape_trans (W : nat) (r1 r2 r3 : Room.t) :
  same_shape W r1 r2 -> same_shape W r2 r3 -> same_shape W r1 r3.
Proof.
  intros (Hf1 & _ & Hl1) (Hf2 & Hr2 & Hl2).
  split; [by eapply same_frame_trans|]. split; [done|congruence].
Qed.

(** The cells that a rectangular interior stores. *)
Lemma stored_iff (g : list (list Z)) (W : nat) (x y : Z) :
  rectangular g W ->
  is_Some (cell g x y) <-> 0 <= x < Z.of_nat W /\ 0 <= y < len g.
Proof.
  intros Hrect. split.
  - intros [v Hv]. unfold cell in Hv.
    destruct ((0 <=? x) && (0 <=? y)) eqn:Hb; [|done].
    unfold cellN in Hv.
    destruct (g !! Z.to_nat y) as [row|] eqn:Hrow; simpl in Hv; [|done].
    assert (length row = W) as Hlen.
    { apply (proj1 (Forall_forall _ _) Hrect row).
      by eapply list_elem_of_lookup_2. }
    apply lookup_lt_Some in Hv, Hrow. unfold len. lia.
  - intros [Hx Hy].
    destruct (cell_in_range g W x y Hrect Hx Hy) as (row & v & _ & _ & Hc).
    rewrite Hc. by eexists.
Qed.

Lemma stored_same (W : nat) (r s : Room.t) (x y : Z) :
  rectangular (Room.interior r) W -> same_shape W r s ->
  is_Some (cell (Room.interior s) x y) <-> is_Some (cell (Room.interior r) x y).
Proof.
  intros Hrect (_ & Hrect' & Hlen).
  rewrite (stored_iff _ W) by done. rewrite (stored_iff _ W) by done.
  unfold len. by rewrite Hlen.
Qed.

(** [set_tile] on a rectangular interior never raises: it stores the tile
    when the interior has the cell and does nothing otherwise. *)
Lemma set_tile_cells (W : nat) (t x y : Z) (r : Room.t) :
  rectangular (Room.interior r) W ->
  exists r', Room.set_tile r x y t = Ok r' /\ same_shape W r r' /\
    forall x' y', cell (Room.interior r') x' y' =
      if decide ((x' = x /\ y' = y) /\ is_Some (cell (Room.interior r) x y))
      then Some t else cell (Room.interior r) x' y'.
Proof.
  intros Hrect.
  destruct (decide (0 <= x < Z.of_nat W /\ 0 <= y < len (Room.interior r)))
    as [[Hx Hy]|Hout].
  - destruct (set_tile_in_range r W x y t Hrect Hx Hy) as (row & Hrow & Hset).
    assert (Hrowlen : length row = W).
    { apply (proj1 (Forall_forall _ _) Hrect row).
      by eapply list_elem_of_lookup_2. }
    eexists. split; [exact Hset|]. split.
    + split; [by repeat split|]. simpl. split.
      * apply Forall_insert; [done|]. by rewrite length_insert.
      * by rewrite length_insert.
    + intros x' y'. simpl. rewrite (cell_insert _ row) by (done || lia).
      destruct (decide (x' = x /\ y' = y)) as [Heq|Hne].
      * rewrite decide_True; [done|]. split; [done|].
        by apply (stored_iff _ W).
      * rewrite decide_False by tauto. done.
  - rewrite (set_tile_out_of_range r W x y t Hrect Hout).
    exists r. split; [done|]. split; [by apply same_shape_refl|].
    intros x' y'. rewrite decide_False; [done|].
    intros [_ Hs]. apply (stored_iff _ W) in Hs; tauto.
Qed.

(** The loops of the canvas: every body sets a tile when a condition on
    the coordinates holds, the same for all rooms of the frame. *)
Section loops.
Context (W : nat) (t : Z) (r : Room.t).
Context (G : Z -> Z -> Prop) `{forall x y, Decision (G x y)}.
Context (body : Z -> Z -> Room.t -> result Room.t).
Hypothesis Hrect : rectangular (Room.interior r) W.
Hypothesis Hbody : forall x y s, same_shape W r s ->
  body x y s = if decide (G x y) then Room.set_tile s x y t else Ok s.

Lemma paint_cell (x y : Z) (s : Room.t) :
  same_shape W r s ->
  exists s', body x y s = Ok s' /\ same_shape W r s' /\
    forall x' y', cell (Room.interior s') x' y' =
      if decide ((x' = x /\ y' = y) /\
                 G x y /\ is_Some (cell (Room.interior r) x y))
      then Some t else cell (Room.interior s) x' y'.
Proof.
  intros Hs. rewrite Hbody by done.
  destruct (decide (G x y)) as [Hg|Hg].
  - destruct (set_tile_cells W t x y s (proj1 (proj2 Hs)))
      as (s' & Hs' & Hsh & Hc).
    exists s'. split; [done|]. split; [by eapply same_shape_trans|].
    intros x' y'. rewrite Hc.
    pose proof (stored_same W r s x y Hrect Hs) as Hst.
    destruct (decide ((x' = x /\ y' = y) /\
                      is_Some (cell (Room.interior s) x y))),
      (decide ((x' = x /\ y' = y) /\
               G x y /\ is_Some (cell (Room.interior r) x y)));
      try done; tauto.
  - exists s. split; [done|]. split; [done|]. intros x' y'.
    rewrite decide_False; [done|]. tauto.
Qed.

Lemma paint_row (y : Z) (xs : list Z) (s : Room.t) :
  same_shape W r s ->
  exists s', for_each xs (fun x s => body x y s) s = Ok s' /\
    same_shape W r s' /\
    forall x' y', cell (Room.interior s') x' y' =
      if decide ((x' ∈ xs /\ y' = y) /\
                 G x' y' /\ is_Some (cell (Room.interior r) x' y'))
      then Some t else cell (Room.interior s) x' y'.
Proof.
  revert s. induction xs as [|x xs IH]; intros s Hs.
  - exists s. split; [done|]. split; [done|].
    intros x' y'. rewrite decide_False; [done|].
    intros [[Hin _] _]. by apply not_elem_of_nil in Hin.
  - destruct (paint_cell x y s Hs) as (s1 & Hs1 & Hsh1 & Hc1).
    destruct (IH s1 Hsh1) as (s' & Hs' & Hsh' & Hc').
    exists s'. simpl. rewrite Hs1. simpl. split; [done|]. split; [done|].
    intros x' y'. rewrite Hc', Hc1.
    assert (Hiff : (x' ∈ x :: xs /\ y' = y) /\
                   G x' y' /\ is_Some (cell (Room.interior r) x' y') <->
              ((x' ∈ xs /\ y' = y) /\
               G x' y' /\ is_Some (cell (Room.interior r) x' y')) \/
              ((x' = x /\ y' = y) /\
               G x y /\ is_Some (cell (Room.interior r) x y))).
    { rewrite elem_of_cons. split.
      - intros [[[->|Hxs] ->] Hg]; tauto.
      - intros [[[Hxs ->] Hg]|[[-> ->] Hg]]; tauto. }
    destruct (decide ((x' ∈ xs /\ y' = y) /\
                      G x' y' /\ is_Some (cell (Room.interior r) x' y'))),
      (decide ((x' = x /\ y' = y) /\
               G x y /\ is_Some (cell (Room.interior r) x y))),
      (decide ((x' ∈ x :: xs /\ y' = y) /\
               G x' y' /\ is_Some (cell (Room.interior r) x' y')));
      try done; tauto.
Qed.

Lemma paint_rows (xsf : Room.t -> list Z) (xs ys : list Z) (s : Room.t) :
  (forall s, same_shape W r s -> xsf s = xs) ->
  same_shape W r s ->
  exists s',
    for_each ys (fun y s => for_each (xsf s) (fun x s => body x y s) s) s
      = Ok s' /\
    same_shape W r s' /\
    forall x' y', cell (Room.interior s') x' y' =
      if decide ((x' ∈ xs /\ y' ∈ ys) /\
                 G x' y' /\ is_Some (cell (Room.interior r) x' y'))
      then Some t else cell (Room.interior s) x' y'.
Proof.
  intros Hxs. revert s. induction ys as [|y ys IH]; intros s Hs.
  - exists s. split; [done|]. split; [done|].
    intros x' y'. rewrite decide_False; [done|].
    intros [[_ Hin] _]. by apply not_elem_of_nil in Hin.
  - destruct (paint_row y xs s Hs) as (s1 & Hs1 & Hsh1 & Hc1).
    destruct (IH s1 Hsh1) as (s' & Hs' & Hsh' & Hc').
    exists s'. cbn [for_each]. rewrite (Hxs s Hs), Hs1. simpl.
    split; [done|]. split; [done|].
    intros x' y'. rewrite Hc', Hc1.
    assert (Hiff : (x' ∈ xs /\ y' ∈ y :: ys) /\
                   G x' y' /\ is_Some (cell (Room.interior r) x' y') <->
              ((x' ∈ xs /\ y' ∈ ys) /\
               G x' y' /\ is_Some (cell (Room.interior r) x' y')) \/
              ((x' ∈ xs /\ y' = y) /\
               G x' y' /\ is_Some (cell (Room.interior r) x' y'))).
    { rewrite elem_of_cons. tauto. }
    destruct (decide ((x' ∈ xs /\ y' ∈ ys) /\
                      G x' y' /\ is_Some (cell (Room.interior r) x' y'))),
      (decide ((x' ∈ xs /\ y' = y) /\
               G x' y' /\ is_Some (cell (Room.interior r) x' y'))),
      (decide ((x' ∈ xs /\ y' ∈ y :: ys) /\
               G x' y' /\ is_Some (cell (Room.interior r) x' y')));
      try done; tauto.
Qed.
End loops.

Lemma get_tile_painted (W : nat) (r r' : Room.t) (t : Z) (P : Z -> Z -> Prop)
    `{forall x y, Decision (P x y)} :
  rectangular (Room.interior r) W -> rectangular (Room.interior r') W ->
  (forall x y, cell (Room.interior r') x y =
     if decide (P x y) then Some t else cell (Room.interior r) x y) ->
  forall x y, Room.get_tile r' x y =
    if decide (P x y) then Ok t else Room.get_tile r x y.
Proof.
  intros Hrect Hrect' Hcell x y.
  rewrite (get_tile_as_cell r' W x y Hrect'), (get_tile_as_cell r W x y Hrect).
  rewrite Hcell. by destruct (decide (P x y)).
Qed.

(** The guard of the canvas is the same for all rooms of a frame. *)
Lemma set_inside_guarded (W : nat) (t x y : Z) (r s : Room.t) :
  same_shape W r s ->
  set_inside t x y s =
    if decide (inside r x y) then Room.set_tile s x y t else Ok s.
Proof.
  intros [(_ & Hw & Hh & _) _]. unfold set_inside, inside,
    Room.get_interior_width, Room.get_interior_height. rewrite Hw, Hh.
  destruct (decide _) as [Hin|Hout].
  - by replace ((0 <=? x) && (x <? Room.width r - 2) &&
                ((0 <=? y) && (y <? Room.height r - 2))) with true by lia.
  - by replace ((0 <=? x) && (x <? Room.width r - 2) &&
                ((0 <=? y) && (y <? Room.height r - 2))) with false by lia.
Qed.

(** Under the interior invariant the canvas guard accepts exactly the
    cells that the interior stores. *)
Lemma inside_stored (r : Room.t) (x y : Z) :
  room_inv r -> inside r x y <-> is_Some (cell (Room.interior r) x y).
Proof.
  intros [Hlen Hrect]. rewrite (stored_iff _ _ x y Hrect).
  unfold inside, len. rewrite Hlen. lia.
Qed.

Lemma same_shape_inv (r r' : Room.t) :
  room_inv r ->
  same_shape (Z.to_nat (Room.get_interior_width r)) r r' -> room_inv r'.
Proof.
  intros [Hlen Hrect] ((_ & Hw & Hh & _) & Hrect' & Hlen').
  unfold room_inv, Room.get_interior_width, Room.get_interior_height in *.
  rewrite Hw, Hh. split; [congruence|done].
Qed.

End canvas.

Section canvas_ops.

Lemma elem_of_py_range2 (a b x : Z) : x ∈ py_range2 a b <-> a <= x < b.
Proof. unfold py_range2. rewrite elem_of_seqZ. lia. Qed.

Lemma elem_of_shifted (c a b x : Z) :
  x ∈ (fun d => c + d) <$> py_range2 a b <-> c + a <= x < c + b.
Proof.
  rewrite list_elem_of_fmap. split.
  - intros (d & -> & Hd). apply elem_of_py_range2 in Hd. lia.
  - intros Hx. exists (x - c). split; [lia|]. apply elem_of_py_range2. lia.
Qed.

(** The square that [paint_tile] sets, cell by cell. *)
Lemma paint_tile_cells (c : TileCanvas.t) (r : Room.t) (W : nat)
    (tile_x tile_y tile_type : Z) :
  TileCanvas.room c = Some r -> rectangular (Room.interior r) W ->
  let half := TileCanvas.brush_size c `div` 2 in
  exists r',
    TileCanvas.paint_tile c tile_x tile_y tile_type
      = Ok (TileCanvas.with_room c (Some r')) /\
    same_shape W r r' /\
    forall x y, cell (Room.interior r') x y =
      if decide ((tile_x - half <= x <= tile_x + half /\
                  tile_y - half <= y <= tile_y + half) /\
                 inside r x y /\ is_Some (cell (Room.interior r) x y))
      then Some tile_type else cell (Room.interior r) x y.
Proof.
  intros Hroom Hrect half.
  unfold TileCanvas.paint_tile. rewrite Hroom. fold half.
  destruct (paint_rows W tile_type r (inside r)
              (fun x y s => set_inside tile_type x y s) Hrect
              (fun x y s Hs => set_inside_guarded W tile_type x y r s Hs)
              (fun _ => (fun d => tile_x + d) <$> py_range2 (- half) (half + 1))
              ((fun d => tile_x + d) <$> py_range2 (- half) (half + 1))
              ((fun d => tile_y + d) <$> py_range2 (- half) (half + 1))
              r (fun _ _ => eq_refl) (same_shape_refl W r Hrect))
    as (r' & Hr' & Hsh' & Hc').
  rewrite for_each_fmap in Hr'.
  erewrite (for_each_ext_inv (fun _ => True)) in Hr'; [| done | | done].
  2:{ intros dy s _. apply for_each_fmap. }
  exists r'. split; [|split; [done|]].
  - change (set_inside tile_type) with
      (fun x y r0 =>
         if (0 <=? x) && (x <? Room.get_interior_width r0) &&
            ((0 <=? y) && (y <? Room.get_interior_height r0))
         then Room.set_tile r0 x y tile_type else Ok r0) in Hr'.
    cbv beta in Hr'. rewrite Hr'. done.
  - intros x y. rewrite Hc'.
    destruct (decide _) as [Hin|Hout], (decide _) as [Hin'|Hout'];
      try done; exfalso; rewrite !elem_of_shifted in *;
      [apply Hout' | apply Hout]; (split; [lia | tauto]).
Qed.

Lemma fill_selection_cells (c : TileCanvas.t) (r : Room.t) (W : nat)
    (start stop : Z * Z) (tile_type : Z) :
  TileCanvas.room c = Some r -> rectangular (Room.interior r) W ->
  TileCanvas.selection_start c = Some start ->
  TileCanvas.selection_end c = Some stop ->
  exists r',
    TileCanvas.fill_selection c tile_type
      = Ok (TileCanvas.with_room c (Some r')) /\
    same_shape W r r' /\
    forall x y, cell (Room.interior r') x y =
      if decide ((Z.min start.1 stop.1 <= x <= Z.max start.1 stop.1 /\
                  Z.min start.2 stop.2 <= y <= Z.max start.2 stop.2) /\
                 inside r x y /\ is_Some (cell (Room.interior r) x y))
      then Some tile_type else cell (Room.interior r) x y.
Proof.
  intros Hroom Hrect Hstart Hstop.
  unfold TileCanvas.fill_selection. rewrite Hroom, Hstart, Hstop.
  destruct (paint_rows W tile_type r (inside r)
              (fun x y s => set_inside tile_type x y s) Hrect
              (fun x y s Hs => set_inside_guarded W tile_type x y r s Hs)
              (fun _ => py_range2 (Z.min start.1 stop.1)
                                  (Z.max start.1 stop.1 + 1))
              (py_range2 (Z.min start.1 stop.1) (Z.max start.1 stop.1 + 1))
              (py_range2 (Z.min start.2 stop.2) (Z.max start.2 stop.2 + 1))
              r (fun _ _ => eq_refl) (same_shape_refl W r Hrect))
    as (r' & Hr' & Hsh' & Hc').
  exists r'. split; [|split; [done|]].
  - change (set_inside tile_type) with
      (fun x y r0 =>
         if (0 <=? x) && (x <? Room.get_interior_width r0) &&
            ((0 <=? y) && (y <? Room.get_interior_height r0))
         then Room.set_tile r0 x y tile_type else Ok r0) in Hr'.
    cbv beta in Hr'. cbv zeta. rewrite Hr'. done.
  - intros x y. rewrite Hc'.
    destruct (decide _) as [Hin|Hout], (decide _) as [Hin'|Hout'];
      try done; exfalso; rewrite !elem_of_py_range2 in *;
      [apply Hout' | apply Hout]; (split; [lia | tauto]).
Qed.

Lemma clear_room_cells (c : TileCanvas.t) (r : Room.t) (W : nat) :
  TileCanvas.room c = Some r -> rectangular (Room.interior r) W ->
  exists r',
    TileCanvas.clear_room c = Ok (TileCanvas.with_room c (Some r')) /\
    same_shape W r r' /\
    forall x y, cell (Room.interior r') x y =
      if decide (inside r x y /\ is_Some (cell (Room.interior r) x y))
      then Some TileType.EMPTY else cell (Room.interior r) x y.
Proof.
  intros Hroom Hrect. unfold TileCanvas.clear_room. rewrite Hroom.
  assert (Hbody : forall x y s, same_shape W r s ->
            Room.set_tile s x y TileType.EMPTY =
              if decide True then Room.set_tile s x y TileType.EMPTY
              else Ok s) by (intros; by rewrite decide_True).
  destruct (@paint_rows W TileType.EMPTY r (fun _ _ => True)
              (fun _ _ => True_dec)
              (fun x y s => Room.set_tile s x y TileType.EMPTY) Hrect
              Hbody
              (fun s => py_range (Room.get_interior_width s))
              (py_range (Room.get_interior_width r))
              (py_range (Room.get_interior_height r)) r)
    as (r' & Hr' & Hsh' & Hc').
  { intros s [(_ & Hw & _) _]. unfold Room.get_interior_width.
    by rewrite Hw. }
  { by apply same_shape_refl. }
  exists r'. rewrite Hr'. split; [done|]. split; [done|].
  intros x y. rewrite Hc'. apply decide_ext.
  unfold inside, py_range. rewrite !elem_of_seqZ. intuition lia.
Qed.

End canvas_ops.

(** X25. On a room whose interior rows all have the same length,
    [paint_tile] with brush size [b] never raises and sets the tiles of
    the square of side [2 * (b // 2) + 1] centred on the given tile, as
    far as they lie inside [width - 2] by [height - 2] and the stored
    interior has them; every other tile, the shape of the interior and the
    rest of the room stay as they are.  When the interior has the size
    that width and height announce, these are the tiles of the square
    inside the interior, and the interior keeps that size.  Brush sizes
    [2k] and [2k + 1] paint the same square: the brush offered as "2x2"
    paints 3 x 3 tiles. *)
Theorem paint_tile_square (c : TileCanvas.t) (r : Room.t) (W : nat)
    (tile_x tile_y tile_type : Z) :
  TileCanvas.room c = Some r -> rectangular (Room.interior r) W ->
  let half := TileCanvas.brush_size c `div` 2 in
  (exists r',
     TileCanvas.paint_tile c tile_x tile_y tile_type
       = Ok (TileCanvas.with_room c (Some r')) /\
     same_frame r r' /\ rectangular (Room.interior r') W /\
     length (Room.interior r') = length (Room.interior r) /\
     (forall x y, Room.get_tile r' x y =
        if decide ((tile_x - half <= x <= tile_x + half /\
                    tile_y - half <= y <= tile_y + half) /\
                   inside r x y /\ is_Some (cell (Room.interior r) x y))
        then Ok tile_type else Room.get_tile r x y) /\
     (room_inv r ->
      room_inv r' /\
      forall x y, Room.get_tile r' x y =
        if decide ((tile_x - half <= x <= tile_x + half /\
                    tile_y - half <= y <= tile_y + half) /\ inside r x y)
        then Ok tile_type else Room.get_tile r x y)) /\
  (forall k, 1 <= k ->
     TileCanvas.room <$>
       TileCanvas.paint_tile (TileCanvas.set_brush_size c (2 * k))
         tile_x tile_y tile_type
     = TileCanvas.room <$>
         TileCanvas.paint_tile (TileCanvas.set_brush_size c (2 * k + 1))
           tile_x tile_y tile_type).
Proof.
  intros Hroom Hrect half. split.
  - destruct (paint_tile_cells c r W tile_x tile_y tile_type Hroom Hrect)
      as (r' & Hr' & (Hf & Hrect' & Hlen') & Hc').
    fold half in Hc'.
    exists r'. split; [done|]. split; [done|]. split; [done|].
    split; [done|].
    assert (Hget : forall x y, Room.get_tile r' x y =
              if decide ((tile_x - half <= x <= tile_x + half /\
                          tile_y - half <= y <= tile_y + half) /\
                         inside r x y /\ is_Some (cell (Room.interior r) x y))
              then Ok tile_type else Room.get_tile r x y).
    { by apply (get_tile_painted W r r' tile_type
                  (fun x y =>
                     (tile_x - half <= x <= tile_x + half /\
                      tile_y - half <= y <= tile_y + half) /\
                     inside r x y /\ is_Some (cell (Room.interior r) x y))). }
    split; [exact Hget|].
    intros Hinv. split.
    + destruct (paint_tile_cells c r _ tile_x tile_y tile_type Hroom
                  (proj2 Hinv)) as (r'' & Hr'' & Hsh'' & _).
      rewrite Hr' in Hr''. injection Hr'' as <-.
      by apply (same_shape_inv r).
    + intros x y. rewrite Hget.
      pose proof (inside_stored r x y Hinv) as Hst.
      destruct (decide _) as [Hin|Hout], (decide _) as [Hin'|Hout'];
        try done; tauto.
  - intros k Hk. unfold TileCanvas.paint_tile, TileCanvas.set_brush_size.
    simpl.
    replace (Z.max 1 (2 * k + 1) `div` 2) with k
      by (rewrite Z.max_r by lia; apply Z.div_unique with 1; lia).
    replace (Z.max 1 (2 * k) `div` 2) with k
      by (rewrite Z.max_r by lia; apply Z.div_unique with 0; lia).
    rewrite Hroom. by destruct (for_each _ _ _).
Qed.

Lemma paint_tile_square_witness :
  (exists r',
     TileCanvas.paint_tile
       (TileCanvas.mk (Some sample_room) 0 3 None None) 0 0 9
       = Ok (TileCanvas.mk (Some r') 0 3 None None) /\
     Room.interior r' = [[9; 9; 3]; [9; 9; 6]]) /\
  (exists r',
     TileCanvas.paint_tile
       (TileCanvas.mk (Some oversized_room) 0 3 None None) 2 1 9
       = Ok (TileCanvas.mk (Some r') 0 3 None None) /\
     Room.interior r' = [[1; 9; 3]; [4; 8; 6]]).
Proof.
  assert (Hrect : rectangular (Room.interior sample_room) 3).
  { repeat constructor. }
  assert (Hrect' : rectangular (Room.interior oversized_room) 3).
  { repeat constructor. }
  split.
  - destruct (paint_tile_square (TileCanvas.mk (Some sample_room) 0 3 None None)
                sample_room 3 0 0 9 eq_refl Hrect) as [(r' & Hpaint & _) _].
    exists r'. split; [exact Hpaint|].
    vm_compute in Hpaint. injection Hpaint as <-. reflexivity.
  - destruct (paint_tile_square
                (TileCanvas.mk (Some oversized_room) 0 3 None None)
                oversized_room 3 2 1 9 eq_refl Hrect') as [(r' & Hpaint & _) _].
    exists r'. split; [exact Hpaint|].
    vm_compute in Hpaint. injection Hpaint as <-. reflexivity.
Defined.

(** X26. On a room whose interior rows all have the same length,
    [fill_selection] never raises and sets the tiles of the rectangle
    spanned by the two corners of the selection, whichever corner was
    picked first, as far as they lie inside [width - 2] by [height - 2]
    and the stored interior has them; every other tile, the shape of the
    interior and the rest of the room stay as they are.  When the interior
    has the size that width and height announce, these are the tiles of
    the rectangle inside the interior, and the interior keeps that
    size. *)
Theorem fill_selection_rectangle (c : TileCanvas.t) (r : Room.t) (W : nat)
    (start stop : Z * Z) (tile_type : Z) :
  TileCanvas.room c = Some r -> rectangular (Room.interior r) W ->
  TileCanvas.selection_start c = Some start ->
  TileCanvas.selection_end c = Some stop ->
  (exists r',
     TileCanvas.fill_selection c tile_type
       = Ok (TileCanvas.with_room c (Some r')) /\
     same_frame r r' /\ rectangular (Room.interior r') W /\
     length (Room.interior r') = length (Room.interior r) /\
     (forall x y, Room.get_tile r' x y =
        if decide ((Z.min start.1 stop.1 <= x <= Z.max start.1 stop.1 /\
                    Z.min start.2 stop.2 <= y <= Z.max start.2 stop.2) /\
                   inside r x y /\ is_Some (cell (Room.interior r) x y))
        then Ok tile_type else Room.get_tile r x y) /\
     (room_inv r ->
      room_inv r' /\
      forall x y, Room.get_tile r' x y =
        if decide ((Z.min start.1 stop.1 <= x <= Z.max start.1 stop.1 /\
                    Z.min start.2 stop.2 <= y <= Z.max start.2 stop.2) /\
                   inside r x y)
        then Ok tile_type else Room.get_tile r x y)) /\
  TileCanvas.room <$> TileCanvas.fill_selection c tile_type
    = TileCanvas.room <$>
        TileCanvas.fill_selection
          (TileCanvas.mk (TileCanvas.room c) (TileCanvas.current_tile_type c)
             (TileCanvas.brush_size c) (Some stop) (Some start))
          tile_type.
Proof.
  intros Hroom Hrect Hstart Hstop. split.
  - destruct (fill_selection_cells c r W start stop tile_type
                Hroom Hrect Hstart Hstop)
      as (r' & Hr' & (Hf & Hrect' & Hlen') & Hc').
    exists r'. split; [done|]. split; [done|]. split; [done|].
    split; [done|].
    assert (Hget : forall x y, Room.get_tile r' x y =
              if decide ((Z.min start.1 stop.1 <= x <= Z.max start.1 stop.1 /\
                          Z.min start.2 stop.2 <= y <= Z.max start.2 stop.2) /\
                         inside r x y /\ is_Some (cell (Room.interior r) x y))
              then Ok tile_type else Room.get_tile r x y).
    { by apply (get_tile_painted W r r' tile_type
                  (fun x y =>
                     (Z.min start.1 stop.1 <= x <= Z.max start.1 stop.1 /\
                      Z.min start.2 stop.2 <= y <= Z.max start.2 stop.2) /\
                     inside r x y /\ is_Some (cell (Room.interior r) x y))). }
    split; [exact Hget|].
    intros Hinv. split.
    + destruct (fill_selection_cells c r _ start stop tile_type Hroom
                  (proj2 Hinv) Hstart Hstop) as (r'' & Hr'' & Hsh'' & _).
      rewrite Hr' in Hr''. injection Hr'' as <-.
      by apply (same_shape_inv r).
    + intros x y. rewrite Hget.
      pose proof (inside_stored r x y Hinv) as Hst.
      destruct (decide _) as [Hin|Hout], (decide _) as [Hin'|Hout'];
        try done; tauto.
  - unfold TileCanvas.fill_selection. rewrite Hroom, Hstart, Hstop. simpl.
    cbv zeta.
    rewrite (Z.min_comm stop.1), (Z.max_comm stop.1),
      (Z.min_comm stop.2), (Z.max_comm stop.2).
    by destruct (for_each _ _ _).
Qed.

Lemma fill_selection_rectangle_witness :
  (exists r',
     TileCanvas.fill_selection
       (TileCanvas.mk (Some sample_room) 0 1 (Some (2, 1)) (Some (1, 0))) 7
       = Ok (TileCanvas.mk (Some r') 0 1 (Some (2, 1)) (Some (1, 0))) /\
     Room.interior r' = [[1; 7; 7]; [4; 7; 7]]) /\
  (exists r',
     TileCanvas.fill_selection
       (TileCanvas.mk (Some oversized_room) 0 1 (Some (2, 1)) (Some (1, 0))) 7
       = Ok (TileCanvas.mk (Some r') 0 1 (Some (2, 1)) (Some (1, 0))) /\
     Room.interior r' = [[1; 7; 3]; [4; 8; 6]]).
Proof.
  assert (Hrect : rectangular (Room.interior sample_room) 3).
  { repeat constructor. }
  assert (Hrect' : rectangular (Room.interior oversized_room) 3).
  { repeat constructor. }
  split.
  - destruct (fill_selection_rectangle
                (TileCanvas.mk (Some sample_room) 0 1 (Some (2, 1)) (Some (1, 0)))
                sample_room 3 (2, 1) (1, 0) 7 eq_refl Hrect eq_refl eq_refl)
      as [(r' & Hfill & _) _].
    exists r'. split; [exact Hfill|].
    vm_compute in Hfill. injection Hfill as <-. reflexivity.
  - destruct (fill_selection_rectangle
                (TileCanvas.mk (Some oversized_room) 0 1 (Some (2, 1))
                   (Some (1, 0)))
                oversized_room 3 (2, 1) (1, 0) 7 eq_refl Hrect' eq_refl eq_refl)
      as [(r' & Hfill & _) _].
    exists r'. split; [exact Hfill|].
    vm_compute in Hfill. injection Hfill as <-. reflexivity.
Defined.

(** X27. On a room whose interior rows all have the same length,
    [clear_room] never raises and makes Empty the tiles inside
    [width - 2] by [height - 2], so [get_tile] returns Empty there and what
    it returned before everywhere else; the id, size, exits, theme and the
    shape of the interior are kept.  When the interior has the size that
    width and height announce, it becomes the interior of a new room of
    that width and height: [get_tile] returns Empty everywhere and no
    Spawn tile is left.  When the stored interior is larger (after a
    shrink followed by an undo), the tiles beyond [width - 2] by
    [height - 2] stay, a Spawn tile among them too. *)
Theorem clear_room_empties (c : TileCanvas.t) (r : Room.t) (W : nat) :
  TileCanvas.room c = Some r -> rectangular (Room.interior r) W ->
  exists r',
    TileCanvas.clear_room c = Ok (TileCanvas.with_room c (Some r')) /\
    same_frame r r' /\ rectangular (Room.interior r') W /\
    length (Room.interior r') = length (Room.interior r) /\
    (forall x y, Room.get_tile r' x y =
       if decide (inside r x y) then Ok TileType.EMPTY
       else Room.get_tile r x y) /\
    (forall x y, ~ inside r x y ->
       cell (Room.interior r') x y = cell (Room.interior r) x y) /\
    (room_inv r ->
     Room.interior r'
       = Room.interior (Room.init (Room.id r) (Room.width r) (Room.height r)) /\
     (forall x y, Room.get_tile r' x y = Ok TileType.EMPTY) /\
     occurrences TileType.SPAWN (concat (Room.interior r')) = 0).
Proof.
  intros Hroom Hrect.
  destruct (clear_room_cells c r W Hroom Hrect)
    as (r' & Hr' & (Hf & Hrect' & Hlen') & Hc').
  exists r'. split; [done|]. split; [done|]. split; [done|]. split; [done|].
  split; [|split].
  - intros x y.
    rewrite (get_tile_as_cell r' W x y Hrect'), (get_tile_as_cell r W x y Hrect).
    rewrite Hc'.
    destruct (decide (inside r x y)) as [Hin|Hout].
    + destruct (decide _) as [_|Hno]; [done|].
      destruct (cell (Room.interior r) x y) as [v|] eqn:Hv; [|done].
      exfalso. apply Hno. split; [done|]. by eexists.
    + rewrite decide_False by tauto. done.
  - intros x y Hout. rewrite Hc'. rewrite decide_False by tauto. done.
  - intros Hinv.
    destruct (clear_room_cells c r _ Hroom (proj2 Hinv))
      as (r'' & Hr'' & Hsh'' & _).
    rewrite Hr' in Hr''. injection Hr'' as <-.
    pose proof (same_shape_inv r r' Hinv Hsh'') as [Hlen2 Hrect2].
    destruct Hf as (_ & Hw & Hh & _).
    assert (Heq : Room.interior r'
              = Room.empty_interior (Room.width r - 2) (Room.height r - 2)).
    { unfold Room.get_interior_height, Room.get_interior_width in *.
      rewrite Hw in Hrect2. rewrite Hh in Hlen2.
      rewrite empty_interior_to_nat.
      destruct (empty_interior_shaped (Z.to_nat (Room.width r - 2))
                  (Z.to_nat (Room.height r - 2))) as [Hlen0 Hrect0].
      apply (grid_ext _ _ (Z.to_nat (Room.width r - 2))); [lia|done..|].
      intros y x Hy Hx.
      rewrite empty_interior_cell by lia.
      specialize (Hc' (Z.of_nat x) (Z.of_nat y)). unfold cell in Hc' at 1.
      rewrite !(proj2 (Z.leb_le 0 (Z.of_nat _))) in Hc' by lia.
      cbn [andb] in Hc'. rewrite !Nat2Z.id in Hc'. rewrite Hc'.
      apply decide_True.
      assert (Hin : inside r (Z.of_nat x) (Z.of_nat y)).
      { unfold inside, Room.get_interior_height, Room.get_interior_width.
        lia. }
      split; [done|]. by apply inside_stored. }
    split; [done|]. split.
    + intros x y. by apply (get_tile_empty _ _ _ x y Heq).
    + rewrite Heq. unfold occurrences, len.
      rewrite filter_none; [done|].
      apply Forall_forall. intros t Ht ->.
      by apply empty_interior_tiles in Ht.
Qed.

Lemma clear_room_empties_witness :
  (exists r',
     TileCanvas.clear_room (TileCanvas.mk (Some sample_room) 0 1 None None)
       = Ok (TileCanvas.mk (Some r') 0 1 None None) /\
     Room.interior r' = [[0; 0; 0]; [0; 0; 0]]) /\
  (exists r',
     TileCanvas.clear_room (TileCanvas.mk (Some oversized_room) 0 1 None None)
       = Ok (TileCanvas.mk (Some r') 0 1 None None) /\
     Room.interior r' = [[0; 0; 3]; [4; 8; 6]] /\
     Room.get_tile r' 1 1 = Ok TileType.SPAWN).
Proof.
  assert (Hrect : rectangular (Room.interior sample_room) 3).
  { repeat constructor. }
  assert (Hrect' : rectangular (Room.interior oversized_room) 3).
  { repeat constructor. }
  split.
  - destruct (clear_room_empties (TileCanvas.mk (Some sample_room) 0 1 None None)
                sample_room 3 eq_refl Hrect) as (r' & Hclear & _).
    exists r'. split; [exact Hclear|].
    vm_compute in Hclear. injection Hclear as <-. reflexivity.
  - destruct (clear_room_empties
                (TileCanvas.mk (Some oversized_room) 0 1 None None)
                oversized_room 3 eq_refl Hrect') as (r' & Hclear & _).
    exists r'. split; [exact Hclear|].
    vm_compute in Hclear. injection Hclear as <-. split; reflexivity.
Defined.

(** X28. [get_tile_at_pos] maps a pixel to the tile whose square of
    [effective_size] pixels contains it: it answers a tile exactly for
    the pixels of the drawn interior, the tile it answers lies inside the
    interior and its square holds the pixel, and pixels left of, above or
    beyond the interior give nothing. *)
Theorem get_tile_at_pos_square (c : TileCanvas.t) (r : Room.t)
    (effective_size x y : Z) :
  TileCanvas.room c = Some r -> 0 < effective_size ->
  (forall tile_x tile_y,
     TileCanvas.get_tile_at_pos c effective_size x y = Some (tile_x, tile_y) <->
     inside r tile_x tile_y /\
     tile_x * effective_size <= x < (tile_x + 1) * effective_size /\
     tile_y * effective_size <= y < (tile_y + 1) * effective_size) /\
  (TileCanvas.get_tile_at_pos c effective_size x y = None <->
     ~ (0 <= x < Room.get_interior_width r * effective_size /\
        0 <= y < Room.get_interior_height r * effective_size)).
Proof.
  intros Hroom Hes. unfold TileCanvas.get_tile_at_pos. rewrite Hroom.
  pose proof (Z.div_mod x effective_size ltac:(lia)) as Hx.
  pose proof (Z.mod_pos_bound x effective_size Hes) as Hxm.
  pose proof (Z.div_mod y effective_size ltac:(lia)) as Hy.
  pose proof (Z.mod_pos_bound y effective_size Hes) as Hym.
  set (tx := x `div` effective_size) in *.
  set (ty := y `div` effective_size) in *.
  cbv zeta. unfold inside.
  destruct ((0 <=? tx) && (tx <? Room.get_interior_width r) &&
            ((0 <=? ty) && (ty <? Room.get_interior_height r))) eqn:Hin.
  - split.
    + intros tile_x tile_y. split.
      * intros [= <- <-]. split; [lia|]. nia.
      * intros (Hi & Hpx & Hpy).
        assert (tile_x = tx) by nia. assert (tile_y = ty) by nia.
        congruence.
    + split; [done|]. intros Hout. exfalso. apply Hout. nia.
  - split.
    + intros tile_x tile_y. split; [done|].
      intros (Hi & Hpx & Hpy). exfalso.
      assert (tile_x = tx) by nia. assert (tile_y = ty) by nia.
      subst. lia.
    + split; [|done]. intros _ Hpix.
      assert (0 <= tx < Room.get_interior_width r) by nia.
      assert (0 <= ty < Room.get_interior_height r) by nia.
      lia.
Qed.

Lemma get_tile_at_pos_square_witness :
  TileCanvas.get_tile_at_pos
    (TileCanvas.mk (Some sample_room) 0 1 None None) 12 30 13 = Some (2, 1) /\
  TileCanvas.get_tile_at_pos
    (TileCanvas.mk (Some sample_room) 0 1 None None) 12 36 13 = None.
Proof.
  destruct (get_tile_at_pos_square
              (TileCanvas.mk (Some sample_room) 0 1 None None) sample_room
              12 30 13 eq_refl) as [Hsome _]; [lia|].
  destruct (get_tile_at_pos_square
              (TileCanvas.mk (Some sample_room) 0 1 None None) sample_room
              12 36 13 eq_refl) as [_ Hnone]; [lia|].
  split.
  - apply Hsome. unfold inside. vm_compute. repeat split; congruence.
  - apply Hnone. vm_compute. intros [[_ H] _]. discriminate H.
Defined.

(** ** DoorSelectorButton *)

(** X29. A click moves the door through none, top, mid, bot and back to
    none: from a listed position the next one is another listed
    position, and four clicks return to the start.  A position that is
    not listed (one loaded from a file, say) makes the click raise. *)
Theorem door_cycle (position : string) :
  (position ∈ DoorPosition.get_all_positions ->
     exists next,
       DoorSelectorButton.cycle_door_position position = Some next /\
       next ∈ DoorPosition.get_all_positions /\ next <> position /\
       (second ← DoorSelectorButton.cycle_door_position position;
        third ← DoorSelectorButton.cycle_door_position second;
        fourth ← DoorSelectorButton.cycle_door_position third;
        DoorSelectorButton.cycle_door_position fourth) = Some position) /\
  (position ∉ DoorPosition.get_all_positions ->
     DoorSelectorButton.cycle_door_position position = None) /\
  DoorSelectorButton.cycle_door_position DoorPosition.NONE = Some DoorPosition.TOP /\
  DoorSelectorButton.cycle_door_position DoorPosition.TOP = Some DoorPosition.MID /\
  DoorSelectorButton.cycle_door_position DoorPosition.MID = Some DoorPosition.BOT /\
  DoorSelectorButton.cycle_door_position DoorPosition.BOT = Some DoorPosition.NONE.
Proof.
  split; [|split; [|by repeat split]].
  - unfold DoorPosition.get_all_positions. intros Hin.
    repeat (apply elem_of_cons in Hin as [->|Hin]);
      [..|by apply not_elem_of_nil in Hin];
      eexists; (split; [reflexivity|]); (split; [|split; [discriminate|reflexivity]]);
      repeat first [apply list_elem_of_here | apply list_elem_of_further].
  - unfold DoorPosition.get_all_positions. rewrite !not_elem_of_cons.
    intros (H0 & H1 & H2 & H3 & _).
    unfold DoorSelectorButton.cycle_door_position, DoorPosition.get_all_positions.
    simpl. rewrite !decide_False by congruence. done.
Qed.

(** ** Moving a layout entry *)

Section moving.
Import Level.

Lemma delete_inserted {B} (l : list B) (n : nat) (x : B) :
  (n <= length l)%nat -> delete n (take n l ++ x :: drop n l) = l.
Proof.
  intros Hn.
  replace (delete n (take n l ++ x :: drop n l))
    with (delete (length (take n l)) (take n l ++ x :: drop n l))
    by (by rewrite length_take_le).
  rewrite delete_middle. apply take_drop.
Qed.

Lemma insert_deleted {B} (l : list B) (o : nat) (x : B) :
  l !! o = Some x -> take o (delete o l) ++ x :: drop o (delete o l) = l.
Proof.
  intros Hx. pose proof (lookup_lt_Some _ _ _ Hx) as Ho.
  rewrite delete_take_drop.
  rewrite take_app_length' by (rewrite length_take_le; lia).
  rewrite drop_app_length' by (rewrite length_take_le; lia).
  by apply take_drop_middle.
Qed.

Lemma inserted_lookup {B} (l : list B) (n : nat) (x : B) :
  (n <= length l)%nat -> (take n l ++ x :: drop n l) !! n = Some x.
Proof.
  intros Hn. apply list_lookup_middle. by rewrite length_take_le.
Qed.

Lemma sequential_ext (a b : list LayoutEntry.t) :
  sequential a -> sequential b ->
  LayoutEntry.room_id <$> a = LayoutEntry.room_id <$> b -> a = b.
Proof.
  intros Ha Hb Hids.
  assert (Hlen : length a = length b).
  { by rewrite <- (length_fmap LayoutEntry.room_id a), Hids, length_fmap. }
  apply list_eq. intros i.
  destruct (a !! i) as [x|] eqn:Hx, (b !! i) as [y|] eqn:Hy; try done.
  - f_equal. pose proof (sequential_lookup a i x Ha Hx) as Hpx.
    pose proof (sequential_lookup b i y Hb Hy) as Hpy.
    assert (Hid : LayoutEntry.room_id x = LayoutEntry.room_id y).
    { apply (f_equal (fun l => l !! i)) in Hids.
      rewrite !list_lookup_fmap, Hx, Hy in Hids. by injection Hids. }
    destruct x, y. simpl in *. congruence.
  - apply lookup_lt_Some in Hx. apply lookup_ge_None in Hy. lia.
  - apply lookup_lt_Some in Hy. apply lookup_ge_None in Hx. lia.
Qed.

End moving.

(** X7. On a layout whose positions are sequential, [move_in_layout] with
    both positions inside the layout puts the entry at the new position,
    keeps the rooms that the layout names (in another order), and is
    undone by the opposite move; moving an entry to the position it has
    changes nothing. *)
Theorem move_in_layout_back (l : Level.t) (old_position new_position : Z) :
  sequential (Level.layout l) ->
  0 <= old_position < len (Level.layout l) ->
  0 <= new_position < len (Level.layout l) ->
  exists entry l',
    Level.layout l !! Z.to_nat old_position = Some entry /\
    Level.move_in_layout l old_position new_position = Ok l' /\
    Level.layout l' !! Z.to_nat new_position
      = Some (LayoutEntry.mk (LayoutEntry.room_id entry) new_position) /\
    LayoutEntry.room_id <$> Level.layout l'
      ≡ₚ LayoutEntry.room_id <$> Level.layout l /\
    sequential (Level.layout l') /\
    Level.move_in_layout l' new_position old_position = Ok l /\
    (old_position = new_position -> l' = l).
Proof.
  intros Hseq Ho Hn. unfold len in Ho, Hn.
  destruct (move_in_layout_spec l old_position new_position)
    as [(_ & _ & entry & Hentry & Hmove)|[Hout _]];
    [|exfalso; apply Hout; unfold len; lia].
  set (o := Z.to_nat old_position) in *. set (n := Z.to_nat new_position) in *.
  set (rest := delete o (Level.layout l)) in *.
  set (moved := take n rest ++ entry :: drop n rest) in *.
  assert (Hrest : length rest = (length (Level.layout l) - 1)%nat).
  { subst rest. rewrite length_delete by (by eexists). lia. }
  assert (Hmoved : length moved = length (Level.layout l)).
  { subst moved. rewrite length_app, length_take_le by lia. simpl.
    rewrite length_drop. lia. }
  exists entry. eexists. split; [done|]. split; [exact Hmove|]. simpl.
  assert (Hids : LayoutEntry.room_id <$> Level.renumber moved
                 = take n (delete o (LayoutEntry.room_id <$> Level.layout l)) ++
                   LayoutEntry.room_id entry ::
                   drop n (delete o (LayoutEntry.room_id <$> Level.layout l))).
  { rewrite renumber_room_ids. subst moved rest.
    by rewrite fmap_app, fmap_cons, fmap_take, fmap_drop, list_fmap_delete. }
  assert (Hback : Level.move_in_layout
                    (Level.set_layout l (Level.renumber moved))
                    new_position old_position = Ok l).
  { destruct (move_in_layout_spec
                (Level.set_layout l (Level.renumber moved))
                new_position old_position)
      as [(_ & _ & entry2 & Hentry2 & ->)|[Hout _]].
    2:{ exfalso. apply Hout. simpl. unfold len.
        rewrite renumber_length, Hmoved. lia. }
    simpl. fold n o. simpl in Hentry2. fold n in Hentry2.
    f_equal. destruct l as [tt rs lay fls]. unfold Level.set_layout. simpl in *.
    f_equal. apply sequential_ext; [apply renumber_sequential | done |].
    rewrite renumber_room_ids.
    rewrite fmap_app, fmap_cons, fmap_take, fmap_drop, list_fmap_delete.
    rewrite Hids.
    rewrite delete_inserted by (rewrite length_delete, length_fmap;
      [lia | rewrite list_lookup_fmap, Hentry; by eexists]).
    rewrite renumber_lookup in Hentry2. subst moved.
    rewrite inserted_lookup in Hentry2 by lia. simpl in Hentry2.
    injection Hentry2 as <-. simpl.
    apply insert_deleted. by rewrite list_lookup_fmap, Hentry. }
  split; [|split; [|split; [apply renumber_sequential|split; [exact Hback|]]]].
  - rewrite renumber_lookup. subst moved.
    rewrite inserted_lookup by lia. simpl. unfold LayoutEntry.set_position.
    f_equal. f_equal. subst n. lia.
  - rewrite Hids, <- Permutation_middle, take_drop.
    rewrite delete_take_drop.
    rewrite <- (take_drop_middle (LayoutEntry.room_id <$> Level.layout l) o
                  (LayoutEntry.room_id entry)) at 3
      by (by rewrite list_lookup_fmap, Hentry).
    by rewrite <- Permutation_middle.
  - intros Heq. destruct l as [tt rs lay fls]. unfold Level.set_layout.
    simpl in *. f_equal.
    apply sequential_ext; [apply renumber_sequential | done |].
    rewrite Hids. replace n with o by (subst o n; lia).
    apply insert_deleted. by rewrite list_lookup_fmap, Hentry.
Qed.

Lemma move_in_layout_back_witness :
  exists l',
    Level.move_in_layout sample_layout_level 0 2 = Ok l' /\
    Level.layout l' !! 2%nat = Some (LayoutEntry.mk 1 2) /\
    Level.move_in_layout l' 2 0 = Ok sample_layout_level.
Proof.
  destruct (move_in_layout_back sample_layout_level 0 2)
    as (entry & l' & Hentry & Hmove & Hat & _ & _ & Hback & _).
  - reflexivity.
  - vm_compute. split; [discriminate | reflexivity].
  - vm_compute. split; [discriminate | reflexivity].
  - exists l'. split; [exact Hmove|]. split; [|exact Hback].
    injection Hentry as <-. exact Hat.
Defined.

(** ** Levels made in the editor *)

Section editor_session.

Lemma for_each_inv {S} (P : S -> Prop) (xs : list Z)
    (body : Z -> S -> result S) (s s' : S) :
  P s -> (forall x s s', P s -> body x s = Ok s' -> P s') ->
  for_each xs body s = Ok s' -> P s'.
Proof.
  intros Hs Hstep. revert s Hs.
  induction xs as [|x xs IH]; intros s Hs; simpl.
  - by intros [= <-].
  - destruct (body x s) as [s1|e] eqn:Hb; simpl; [|done].
    apply IH. by eapply Hstep.
Qed.


Lemma set_tile_owner (r r' : Room.t) (x y t : Z) :
  Room.set_tile r x y t = Ok r' ->
  Room.id r' = Room.id r /\ Room.exits r' = Room.exits r /\
  Room.theme r' = Room.theme r.
Proof.
  unfold Room.set_tile.
  destruct (Room.in_bounds r x y) as [[|]|]; cbn; try congruence.
  - destruct (py_getitem (Room.interior r) y) as [row|]; cbn; [|done].
    destruct (py_setitem row x t) as [row'|]; cbn; [|done].
    destruct (py_setitem (Room.interior r) y row') as [i|]; cbn; [|done].
    by intros [= <-].
  - by intros [= <-].
Qed.

(** A double loop whose body is a guarded [set_tile] keeps the id and
    the dictionaries of the room. *)
Lemma loops_owner (xs : Room.t -> list Z) (ys : list Z)
    (body : Z -> Z -> Room.t -> result Room.t) (r r' : Room.t) :
  (forall x y s s', body x y s = Ok s' ->
     Room.id s' = Room.id s /\ Room.exits s' = Room.exits s /\
     Room.theme s' = Room.theme s) ->
  for_each ys (fun y s => for_each (xs s) (fun x s => body x y s) s) r
    = Ok r' ->
  Room.id r' = Room.id r /\ Room.exits r' = Room.exits r /\
  Room.theme r' = Room.theme r.
Proof.
  intros Hbody.
  apply (for_each_inv (fun s => Room.id s = Room.id r /\
                                Room.exits s = Room.exits r /\
                                Room.theme s = Room.theme r)); [done|].
  intros y s s' Hs.
  apply (for_each_inv (fun s => Room.id s = Room.id r /\
                                Room.exits s = Room.exits r /\
                                Room.theme s = Room.theme r)); [done|].
  intros x s1 s2 (H1 & H2 & H3) Hb. apply Hbody in Hb as (-> & -> & ->).
  done.
Qed.

Lemma room_step_owner (r r' : Room.t) :
  room_step r r' -> room_wf r -> room_wf r' /\ Room.id r' = Room.id r.
Proof.
  assert (Hsame : forall s s' : Room.t,
            Room.id s' = Room.id s /\ Room.exits s' = Room.exits s /\
            Room.theme s' = Room.theme s ->
            room_wf s -> room_wf s' /\ Room.id s' = Room.id s).
  { intros s s' (Hid & He & Ht) [H1 H2]. unfold room_wf.
    by rewrite He, Ht, Hid. }
  intros Hstep. destruct Hstep as
    [c r x y t c' r' Hc Hp Hc'|c r t c' r' Hc Hp Hc'|c r c' r' Hc Hp Hc'
    |r w h r' Hp|r li ri r' Hp|r k n r' Hp|r state].
  - apply Hsame. unfold TileCanvas.paint_tile in Hp. rewrite Hc in Hp.
    cbv zeta in Hp.
    destruct (for_each _ _ r) as [r1|e] eqn:Hloop; cbn in Hp; [|done].
    injection Hp as <-. cbn in Hc'. injection Hc' as <-.
    revert Hloop.
    apply (loops_owner (fun _ => _) _
             (fun dx dy s =>
                if (0 <=? x + dx) && (x + dx <? Room.get_interior_width s) &&
                   ((0 <=? y + dy) && (y + dy <? Room.get_interior_height s))
                then Room.set_tile s (x + dx) (y + dy) t else Ok s)).
    intros dx dy s s'. destruct (_ && _).
    + apply set_tile_owner.
    + by intros [= <-].
  - apply Hsame. unfold TileCanvas.fill_selection in Hp. rewrite Hc in Hp.
    destruct (TileCanvas.selection_start c) as [start|];
      [|injection Hp as <-; rewrite Hc in Hc'; by injection Hc' as <-].
    destruct (TileCanvas.selection_end c) as [stop|];
      [|injection Hp as <-; rewrite Hc in Hc'; by injection Hc' as <-].
    cbv zeta in Hp.
    destruct (for_each _ _ r) as [r1|e] eqn:Hloop; cbn in Hp; [|done].
    injection Hp as <-. cbn in Hc'. injection Hc' as <-.
    revert Hloop.
    apply (loops_owner (fun _ => _) _
             (fun x y s =>
                if (0 <=? x) && (x <? Room.get_interior_width s) &&
                   ((0 <=? y) && (y <? Room.get_interior_height s))
                then Room.set_tile s x y t else Ok s)).
    intros x y s s'. destruct (_ && _).
    + apply set_tile_owner.
    + by intros [= <-].
  - apply Hsame. unfold TileCanvas.clear_room in Hp. rewrite Hc in Hp.
    destruct (for_each _ _ r) as [r1|e] eqn:Hloop; cbn in Hp; [|done].
    injection Hp as <-. cbn in Hc'. injection Hc' as <-.
    revert Hloop.
    apply (loops_owner (fun s => py_range (Room.get_interior_width s)) _
             (fun x y s => Room.set_tile s x y TileType.EMPTY)).
    intros x y s s'. apply set_tile_owner.
  - apply Hsame. unfold RoomEditorTab.on_dimensions_changed in Hp.
    destruct (decide _); [|by injection Hp as <-].
    unfold Room.resize in Hp. cbv zeta in Hp.
    destruct (for_each _ _ _) as [i|]; cbn in Hp; [|done].
    by injection Hp as <-.
  - intros [He Ht]. cbn in Hp. injection Hp as <-. split; [|done].
    split; [|done]. cbn.
    assert (Hv : forall i, json_wf (RoomEditorTab.exit_value i)).
    { intros i. unfold RoomEditorTab.exit_value. destruct (decide _); [|done].
      apply json_wf_dict. split; [nodup_keys|]. by repeat constructor. }
    by repeat apply dict_wf_dict_set.
  - intros [He Ht]. cbn in Hp. injection Hp as <-. split; [|done].
    split; [done|]. cbn. by apply dict_wf_dict_set.
  - apply Hsame. unfold RoomEditorTab.restore.
    by destruct state as [[|row rows]|].
Qed.

Lemma floor_step_dense (fl fl' : FloorLayout.t) :
  floor_step fl fl' -> grid_dense fl -> grid_dense fl'.
Proof.
  intros Hstep Hd. destruct Hstep as [fl row col i|fl fr fc tr tc d|fl|fl
                                     |fl fl' Hr|fl fl' Hr].
  - by apply place_room_dense.
  - by apply set_connection_dense.
  - by apply add_row_dense.
  - by apply add_column_dense.
  - destruct (remove_row_dense fl Hd) as (b & fl1 & Heq & Hd1).
    unfold FloorLayoutGridWidget.remove_row in Hr. rewrite Heq in Hr.
    cbn in Hr. by injection Hr as <-.
  - destruct (remove_column_dense fl Hd) as (b & fl1 & Heq & Hd1).
    unfold FloorLayoutGridWidget.remove_column in Hr. rewrite Heq in Hr.
    cbn in Hr. by injection Hr as <-.
Qed.

Lemma added_or_not (l : Level.t) (room : Room.t) :
  (let '(added, l') := Level.add_room l room in
   if added : bool then l' else l) = (Level.add_room l room).2.
Proof. unfold Level.add_room. by destruct (Level.has_room _ _). Qed.

Lemma add_room_rest (l : Level.t) (room : Room.t) :
  Level.layout (Level.add_room l room).2 = Level.layout l /\
  Level.floor_layouts (Level.add_room l room).2 = Level.floor_layouts l.
Proof. unfold Level.add_room. by destruct (Level.has_room _ _). Qed.

Lemma edited_inv (l : Level.t) :
  edited l ->
  level_wf l /\ unique_ids l /\ Level.layout l = [] /\
  length (Level.floor_layouts l) = 1%nat.
Proof.
  assert (Hadd : forall l room,
            room_wf room ->
            level_wf l /\ unique_ids l /\ Level.layout l = [] /\
              length (Level.floor_layouts l) = 1%nat ->
            level_wf (Level.add_room l room).2 /\
            unique_ids (Level.add_room l room).2 /\
            Level.layout (Level.add_room l room).2 = [] /\
            length (Level.floor_layouts (Level.add_room l room).2) = 1%nat).
  { intros l0 room Hroom (Hwf & Hu & Hlay & Hfl).
    destruct (add_room_rest l0 room) as [-> ->].
    split; [by apply level_wf_add_room|].
    split; [by apply add_room_fresh_id_unique|]. done. }
  induction 1 as [|l _ IH|l current _ IH Hin|l current _ IH Hin
                 |l current new_id _ IH|l current r r' _ IH Hcur Hstep
                 |l fl fl' _ IH Hcur Hstep].
  - unfold LevelEditor.init, RoomEditorTab.init, LayoutEditorTab.init.
    cbn. split; [|by repeat split; try apply NoDup_singleton].
    split; [apply dict_wf_default_tile_types|]. split.
    + apply Forall_singleton, room_wf_init.
    + apply Forall_singleton, init_dense; lia.
  - unfold RoomEditorTab.create_new_room. cbv zeta. rewrite added_or_not.
    apply Hadd; [apply room_wf_init|done].
  - unfold RoomEditorTab.duplicate_room. cbv zeta. rewrite added_or_not.
    apply Hadd; [|done]. destruct IH as ((_ & Hrooms & _) & _).
    rewrite Forall_forall in Hrooms. apply (Hrooms _ Hin).
  - destruct IH as (Hwf & Hu & Hlay & Hfl).
    split; [by apply level_wf_remove_room|].
    split; [by apply remove_room_unique|]. cbn. by rewrite Hlay.
  - split; [|split; [apply on_room_id_changed_unique, IH|]].
    + destruct IH as ((Htt & Hrooms & Hfloors) & _).
      unfold RoomEditorTab.on_room_id_changed.
      destruct (Level.rooms l !! current) as [r|] eqn:Hcur; [|done].
      destruct (RoomEditorTab.id_taken_by_other _ _ _); [done|].
      split; [done|]. split; [|done]. cbn. apply Forall_insert; [done|].
      rewrite Forall_forall in Hrooms.
      by apply (Hrooms r), list_elem_of_lookup_2 with current.
    + destruct IH as (_ & _ & Hlay & Hfl).
      unfold RoomEditorTab.on_room_id_changed.
      destruct (Level.rooms l !! current) as [r|]; [|done].
      by destruct (RoomEditorTab.id_taken_by_other _ _ _).
  - destruct IH as ((Htt & Hrooms & Hfloors) & Hu & Hlay & Hfl).
    assert (Hr : room_wf r).
    { rewrite Forall_forall in Hrooms.
      by apply Hrooms, list_elem_of_lookup_2 with current. }
    destruct (room_step_owner _ _ Hstep Hr) as [Hr' Hid].
    split; [split; [done|split; [|done]]|split; [|done]].
    + cbn. by apply Forall_insert.
    + unfold unique_ids. cbn. rewrite list_fmap_insert, Hid.
      rewrite list_insert_id; [done|]. by rewrite list_lookup_fmap, Hcur.
  - destruct IH as ((Htt & Hrooms & Hfloors) & Hu & Hlay & Hfl).
    assert (Hd : grid_dense fl).
    { rewrite Forall_forall in Hfloors.
      by apply Hfloors, list_elem_of_lookup_2 with 0%nat. }
    split; [split; [done|split; [done|]]|split; [done|split; [done|]]].
    + cbn. apply Forall_insert; [done|]. by apply floor_step_dense with fl.
    + cbn. by rewrite length_insert.
Qed.

(** X30. A level made in a new editor window, by creating, duplicating,
    deleting and renumbering rooms, by editing a room on the canvas and in
    the properties panel and by editing the first floor layout, is read back
    by [from_json] from what [to_json] writes exactly as it is.  Its room
    ids are distinct, its legacy layout list is empty and it has exactly
    one floor layout. *)
Theorem editor_save_load (l : Level.t) :
  edited l ->
  Level.from_json (Level.to_json l) = Ok l /\
  unique_ids l /\ Level.layout l = [] /\
  length (Level.floor_layouts l) = 1%nat.
Proof.
  intros Hl. destruct (edited_inv l Hl) as (Hwf & Hu & Hlay & Hfl).
  split; [by apply from_json_to_json|done].
Qed.

Lemma editor_save_load_witness :
  let l := RoomEditorTab.create_new_room LevelEditor.init in
  edited l /\
  Level.from_json (Level.to_json l) = Ok l /\
  unique_ids l /\ Level.layout l = [] /\
  length (Level.floor_layouts l) = 1%nat.
Proof.
  assert (H : edited (RoomEditorTab.create_new_room LevelEditor.init))
    by (apply edited_create, edited_init).
  split; [exact H|]. exact (editor_save_load _ H).
Defined.
End editor_session.
